(** * Electron Cash SLP: the network dialog (electroncash_gui/qt/network_dialog.py)

    A shallow embedding of the parts of [network_dialog.py] that carry
    behaviour of their own: the Tor port prober [TorDetector] (probe,
    candidate ports, worker loop and its start/stop life cycle), the
    close-confirmation policy of [NetworkDialog], the validation-method
    check boxes and the SLPDB endpoint handler of [NetworkChoiceLayout],
    and the [update] methods of the list widgets.

    Conventions.
    - Python [str] and [bytes] values are [string]s (lists of 8-bit
      characters); [int]s are [Z].
    - A call that may raise returns an [outcome]; code that also touches
      the outside world (sockets) lives in the state-and-exception monad
      [M].
    - Qt widgets are records of the fields the code reads and writes. *)

From Stdlib Require Import ZArith Bool List Ascii String Lia.
From Stdlib Require Import Sorted.
From Stdlib Require OrderedTypeEx.
From stdpp Require Import base option list gmap strings pretty.

Local Open Scope Z_scope.

(* ===================================================================== *)
(** * Part I. Definitions                                                 *)
(* ===================================================================== *)

(** ** Python values used throughout *)

(** Exceptions that the embedded code mentions by class.  [socket.error]
    is [OSError]; [socket.timeout] and the connection errors are
    subclasses of it and are all represented by [SocketError]. *)
Inductive exn : Type :=
| SocketError (what : string)
| ValueError (what : string)
| AttributeError (what : string)
| QueueEmpty.

Definition is_socket_error (e : exn) : bool :=
  match e with SocketError _ => true | _ => false end.

Definition is_value_error (e : exn) : bool :=
  match e with ValueError _ => true | _ => false end.

Inductive outcome (A : Type) : Type :=
| Return (a : A)
| Raise (e : exn).
Arguments Return {A} a.
Arguments Raise {A} e.

(** Truthiness of the Python values tested by [if x:]. *)
Definition truthy_str (s : string) : bool :=
  match s with EmptyString => false | _ => true end.

Definition truthy_port (p : option Z) : bool :=
  match p with Some n => negb (n =? 0) | None => false end.

(** [needle in hay] on [bytes]: [needle] occurs as a contiguous slice. *)
Fixpoint bytes_contains (needle hay : string) : bool :=
  String.prefix needle hay ||
  match hay with
  | EmptyString => false
  | String _ rest => bytes_contains needle rest
  end.

(** [s.lower()] on the ASCII range. *)
Definition lower_char (c : ascii) : ascii :=
  let n := nat_of_ascii c in
  if (Nat.leb 65 n && Nat.leb n 90)%bool then ascii_of_nat (n + 32) else c.

Fixpoint lower (s : string) : string :=
  match s with
  | EmptyString => EmptyString
  | String c rest => String (lower_char c) (lower rest)
  end.

(** [s.endswith(suffix)]. *)
Fixpoint endswith (s suffix : string) : bool :=
  String.eqb s suffix ||
  match s with
  | EmptyString => false
  | String _ rest => endswith rest suffix
  end.

Definition is_onion_host (host : string) : bool :=
  endswith (lower host) ".onion".

(** ** The Tor port prober: [TorDetector.is_tor_port] and one pass of [run] *)

Module TorProbe.

(** The line feed that ends the request [b"GET\n"]. *)
Definition LF : string := String (ascii_of_nat 10) EmptyString.
Definition probe_request : string := String.append "GET" LF.
Definition tor_rejection : string := "Tor is not an HTTP Proxy".
Definition probe_host : string := "127.0.0.1".
Definition probe_timeout_ms : Z := 100.
Definition recv_bufsize : Z := 1024.

(** What a socket call gives back: its value, or a [socket.error]. *)
Inductive sock_result (A : Type) : Type :=
| SockOk (a : A)
| SockErr (what : string).
Arguments SockOk {A} a.
Arguments SockErr {A} what.

(** The socket object: its timeout in ms, as set by [settimeout], and the
    peer it is connected to. *)
Record socket_obj : Type := {
  sock_timeout_ms : option Z;
  sock_peer : option (string * Z)
}.

(** The ports that a TCP address can name.  For a port outside this
    range [s.connect] raises [OverflowError] ("port must be 0-65535"),
    which is no [socket.error]; the socket calls are modelled for the
    ports of this range. *)
Definition valid_port (port : Z) : bool := (0 <=? port) && (port <=? 65535).

(** The operating system's side of the four socket calls the probe
    makes: [socket.socket(AF_INET, SOCK_STREAM)], [s.connect(address)],
    [s.send(data)] and [s.recv(bufsize)].  [World] is the state of
    everything outside the program (which ports listen, what they
    answer); each call may change it.  The ports are TCP port numbers
    ([valid_port]): for these the calls fail with [socket.error] only. *)
Record SocketApi (World : Type) : Type := {
  os_socket  : World -> sock_result unit * World;
  os_connect : socket_obj -> string * Z -> World -> sock_result unit * World;
  os_send    : socket_obj -> string -> World -> sock_result Z * World;
  os_recv    : socket_obj -> Z -> World -> sock_result string * World
}.
Arguments os_socket {World} _ _.
Arguments os_connect {World} _ _ _ _.
Arguments os_send {World} _ _ _ _.
Arguments os_recv {World} _ _ _ _.

Section Probe.
Variable World : Type.
Variable api : SocketApi World.

(** State and exceptions. *)
Definition M (A : Type) : Type := World -> outcome A * World.

Definition ret {A} (a : A) : M A := fun w => (Return a, w).
Definition raise {A} (e : exn) : M A := fun w => (Raise e, w).
Definition bind {A B} (m : M A) (k : A -> M B) : M B :=
  fun w =>
    match m w with
    | (Return a, w') => k a w'
    | (Raise e, w') => (Raise e, w')
    end.

Notation "'let*' x := m 'in' k" := (bind m (fun x => k))
  (at level 10, x name, m at level 100, k at level 200).

(** [try: body  except cls: handler]: only exceptions of the class are
    caught, the others go on. *)
Definition try_except {A} (body : M A) (cls : exn -> bool) (handler : M A) : M A :=
  fun w =>
    match body w with
    | (Raise e, w') => if cls e then handler w' else (Raise e, w')
    | r => r
    end.

(** A socket call as a step of [M]: its error is raised as [socket.error]. *)
Definition sock_call {A} (f : World -> sock_result A * World) : M A :=
  fun w =>
    match f w with
    | (SockOk a, w') => (Return a, w')
    | (SockErr what, w') => (Raise (SocketError what), w')
    end.

Definition new_socket : socket_obj :=
  {| sock_timeout_ms := None; sock_peer := None |}.

Definition settimeout (s : socket_obj) (ms : Z) : socket_obj :=
  {| sock_timeout_ms := Some ms; sock_peer := sock_peer s |}.

Definition connected_to (address : string * Z) (s : socket_obj) : socket_obj :=
  {| sock_timeout_ms := sock_timeout_ms s; sock_peer := Some address |}.

(** The socket of a probe, before and after [connect]: timeout 100 ms. *)
Definition probe_socket (peer : option (string * Z)) : socket_obj :=
  {| sock_timeout_ms := Some 100; sock_peer := peer |}.

(** [TorDetector.is_tor_port(port)].  The value [None] stands for falling
    out of the [try] block without returning. *)
Definition is_tor_port_try (port : Z) : M (option bool) :=
  let* created := sock_call (os_socket api) in
  let s := new_socket in
  let s := settimeout s probe_timeout_ms in
  let* done := sock_call (os_connect api s (probe_host, port)) in
  let s := connected_to (probe_host, port) s in
  let* sent := sock_call (os_send api s probe_request) in
  let* data := sock_call (os_recv api s recv_bufsize) in
  if bytes_contains tor_rejection data then ret (Some true) else ret None.

Definition is_tor_port (port : Z) : M bool :=
  let* returned := try_except (is_tor_port_try port) is_socket_error (ret None) in
  match returned with
  | Some b => ret b
  | None => ret false
  end.

End Probe.

Arguments ret {World A} a _.
Arguments raise {World A} e _.
Arguments bind {World A B} m k _.
Arguments try_except {World A} body cls handler _.
Arguments sock_call {World A} f _.
Arguments is_tor_port_try {World} api port _.
Arguments is_tor_port {World} api port _.

(** The Tor controller as [run] reads it. *)
Record TorController : Type := {
  tc_is_enabled : bool;
  tc_active_socks_port : option Z
}.

(** What [found_proxy.emit] carries: [("127.0.0.1", p)] or [None]. *)
Definition found : Type := option (string * Z).

(** The state of the worker during a pass: the outside world and the
    signals emitted so far (oldest first). *)
Record pass_state (World : Type) : Type := {
  ps_world : World;
  ps_emitted : list found
}.
Arguments ps_world {World} _.
Arguments ps_emitted {World} _.

Section Pass.
Variable World : Type.
Variable api : SocketApi World.

(** The candidate ports of a pass, in probing order. *)
Definition candidate_ports (ctrl : option TorController) : list Z :=
  let ports := [9050; 9150] in
  match ctrl with
  | Some c =>
      if tc_is_enabled c && truthy_port (tc_active_socks_port c)
      then match tc_active_socks_port c with
           | Some p => p :: ports
           | None => ports
           end
      else ports
  | None => ports
  end.

Definition emit (r : found) (st : pass_state World) : pass_state World :=
  {| ps_world := ps_world st; ps_emitted := ps_emitted st ++ [r] |}.

(** The [for p in ports: ... break  else: ...] loop.  An exception of
    [is_tor_port] would leave the loop (and the thread) without a signal. *)
Fixpoint probe_ports (ports : list Z) (st : pass_state World)
  : outcome unit * pass_state World :=
  match ports with
  | [] => (Return tt, emit None st)
  | p :: rest =>
      match is_tor_port api p (ps_world st) with
      | (Return true, w') =>
          (Return tt, emit (Some (probe_host, p))
                           {| ps_world := w'; ps_emitted := ps_emitted st |})
      | (Return false, w') =>
          probe_ports rest {| ps_world := w'; ps_emitted := ps_emitted st |}
      | (Raise e, w') =>
          (Raise e, {| ps_world := w'; ps_emitted := ps_emitted st |})
      end
  end.

(** One pass of the [while True] body, up to the wait on the queue. *)
Definition run_pass (ctrl : option TorController) (st : pass_state World)
  : outcome unit * pass_state World :=
  probe_ports (candidate_ports ctrl) st.

(** Probing every port of a list in turn, each answering "not Tor". *)
Inductive all_decline : list Z -> World -> World -> Prop :=
| all_decline_nil w : all_decline [] w w
| all_decline_cons p rest w w1 w2 :
    is_tor_port api p w = (Return false, w1) ->
    all_decline rest w1 w2 ->
    all_decline (p :: rest) w w2.

End Pass.

Arguments candidate_ports ctrl : simpl never.
Arguments emit {World} r st.
Arguments probe_ports {World} api ports st.
Arguments run_pass {World} api ctrl st.
Arguments all_decline {World} api _ _ _.

(** A concrete outside world for examples: the ports that answer like
    Tor, the ports that accept and answer like a web server, and the
    number of socket calls made so far. *)
Record demo_world : Type := {
  dw_tor_ports : list Z;
  dw_http_ports : list Z;
  dw_calls : nat
}.

Definition dw_tick (w : demo_world) : demo_world :=
  {| dw_tor_ports := dw_tor_ports w;
     dw_http_ports := dw_http_ports w;
     dw_calls := S (dw_calls w) |}.

Definition Z_in (p : Z) (l : list Z) : bool := existsb (Z.eqb p) l.

Definition demo_api : SocketApi demo_world := {|
  os_socket := fun w => (SockOk tt, dw_tick w);
  os_connect := fun _ addr w =>
    if Z_in (snd addr) (dw_tor_ports w) || Z_in (snd addr) (dw_http_ports w)
    then (SockOk tt, dw_tick w)
    else (SockErr "Connection refused", dw_tick w);
  os_send := fun _ data w => (SockOk (Z.of_nat (String.length data)), dw_tick w);
  os_recv := fun s _ w =>
    match sock_peer s with
    | Some addr =>
        if Z_in (snd addr) (dw_tor_ports w)
        then (SockOk (String.append "HTTP/1.0 501 Tor is not an HTTP Proxy" LF),
              dw_tick w)
        else (SockErr "timed out", dw_tick w)
    | None => (SockErr "Transport endpoint is not connected", dw_tick w)
    end
|}.

Definition demo_world0 (tor http : list Z) : demo_world :=
  {| dw_tor_ports := tor; dw_http_ports := http; dw_calls := 0 |}.

End TorProbe.

(** ** The worker thread of [TorDetector]: [start], [stop],
       [on_tor_port_changed] and the loop of [run] *)

Module TorThread.
Import TorProbe.

(** What travels through [stopQ]: the string ['kick'] or the stop
    sentinel [None]. *)
Abbreviation item := (option string).
Abbreviation kick := (Some "kick"%string).
Abbreviation sentinel := (@None string).

(** [self.stopQ.get(timeout=10.0)] and [QThread.msleep(250)], in ms. *)
Definition get_timeout_ms : Z := 10000.
Definition settle_ms : Z := 250.

(** Where the worker thread stands in [run]:
    - [WIdle]: no thread (never started, or [run] has returned);
    - [WPass]: at the top of [while True], about to begin a pass;
    - [WProbing ports]: in the [for] loop over [ports], inside the
      blocking socket calls of [is_tor_port];
    - [WGet q deadline]: blocked in [get] on the queue object [q], which
      raises [queue.Empty] at [deadline];
    - [WSleep until]: in [msleep], which returns at [until]. *)
Inductive worker_pc : Type :=
| WIdle
| WPass
| WProbing (ports : list Z)
| WGet (q : nat) (deadline : Z)
| WSleep (until : Z).

(** The thread that owns the detector (the UI thread): free, or blocked
    in [self.wait()] inside [stop]. *)
Inductive ui_pc : Type := UiFree | UiInWait.

(** The detector, its thread and its surroundings.  [queues] is the heap
    of [queue.Queue] objects in creation order; [stopQ] is the attribute
    [self.stopQ], absent before the first [start].  [now] is a clock in
    milliseconds; [pass_log] keeps its reading at the start of each probe
    pass. *)
Record detector (World : Type) : Type := {
  now : Z;
  queues : list (list item);
  stopQ : option nat;
  running : bool;
  wpc : worker_pc;
  ui : ui_pc;
  probe : pass_state World;
  controller : option TorController;
  pass_log : list Z
}.
Arguments now {World} _.
Arguments queues {World} _.
Arguments stopQ {World} _.
Arguments running {World} _.
Arguments wpc {World} _.
Arguments ui {World} _.
Arguments probe {World} _.
Arguments controller {World} _.
Arguments pass_log {World} _.

Section Thread.
Variable World : Type.
Variable api : SocketApi World.

Definition set_now (t : Z) (d : detector World) : detector World :=
  {| now := t; queues := queues d; stopQ := stopQ d; running := running d;
     wpc := wpc d; ui := ui d; probe := probe d; controller := controller d;
     pass_log := pass_log d |}.

Definition set_queues (qs : list (list item)) (d : detector World) : detector World :=
  {| now := now d; queues := qs; stopQ := stopQ d; running := running d;
     wpc := wpc d; ui := ui d; probe := probe d; controller := controller d;
     pass_log := pass_log d |}.

Definition set_stopQ (q : option nat) (d : detector World) : detector World :=
  {| now := now d; queues := queues d; stopQ := q; running := running d;
     wpc := wpc d; ui := ui d; probe := probe d; controller := controller d;
     pass_log := pass_log d |}.

Definition set_thread (r : bool) (pc : worker_pc) (d : detector World) : detector World :=
  {| now := now d; queues := queues d; stopQ := stopQ d; running := r;
     wpc := pc; ui := ui d; probe := probe d; controller := controller d;
     pass_log := pass_log d |}.

Definition set_ui (u : ui_pc) (d : detector World) : detector World :=
  {| now := now d; queues := queues d; stopQ := stopQ d; running := running d;
     wpc := wpc d; ui := u; probe := probe d; controller := controller d;
     pass_log := pass_log d |}.

Definition set_probe (ps : pass_state World) (d : detector World) : detector World :=
  {| now := now d; queues := queues d; stopQ := stopQ d; running := running d;
     wpc := wpc d; ui := ui d; probe := ps; controller := controller d;
     pass_log := pass_log d |}.

Definition set_controller (c : option TorController) (d : detector World) : detector World :=
  {| now := now d; queues := queues d; stopQ := stopQ d; running := running d;
     wpc := wpc d; ui := ui d; probe := probe d; controller := c;
     pass_log := pass_log d |}.

Definition log_pass (d : detector World) : detector World :=
  {| now := now d; queues := queues d; stopQ := stopQ d; running := running d;
     wpc := wpc d; ui := ui d; probe := probe d; controller := controller d;
     pass_log := pass_log d ++ [now d] |}.

(** A detector that was never started. *)
Definition init (w : World) (c : option TorController) : detector World :=
  {| now := 0; queues := []; stopQ := None; running := false; wpc := WIdle;
     ui := UiFree; probe := {| ps_world := w; ps_emitted := [] |};
     controller := c; pass_log := [] |}.

(** [self.stopQ.put(x)]. *)
Definition stopQ_put (x : item) (d : detector World) : outcome (detector World) :=
  match stopQ d with
  | Some q => Return (set_queues (alter (fun l => l ++ [x]) q (queues d)) d)
  | None => Raise (AttributeError "stopQ")
  end.

(** [TorDetector.on_tor_port_changed(controller)]. *)
Definition on_tor_port_changed (c : TorController) (d : detector World)
  : outcome (detector World) :=
  if truthy_port (tc_active_socks_port c) && running d
  then stopQ_put kick d
  else Return d.

(** [TorDetector.start()]: a new queue object becomes [self.stopQ], then
    [QThread.start()], which does nothing when the thread is running. *)
Definition start (d : detector World) : detector World :=
  let d1 := set_stopQ (Some (length (queues d))) (set_queues (queues d ++ [[]]) d) in
  if running d1 then d1 else set_thread true WPass d1.

(** [TorDetector.stop()] up to the point where [self.wait()] blocks. *)
Definition stop_call (d : detector World) : outcome (detector World) :=
  if running d
  then match stopQ_put sentinel d with
       | Return d1 => Return (set_ui UiInWait d1)
       | Raise e => Raise e
       end
  else Return d.

(** [self.wait()] returns once the thread has finished. *)
Definition stop_return (d : detector World) : option (detector World) :=
  match ui d with
  | UiInWait => if running d then None else Some (set_ui UiFree d)
  | UiFree => None
  end.

(** The thread ends: [run] returned or died of an exception. *)
Definition thread_ends (d : detector World) : detector World :=
  set_thread false WIdle d.

(** [q.get(timeout=10.0)] on the queue object [q], called 10 s before
    [deadline]: the first item as soon as there is one, [queue.Empty] at
    the deadline; [None] while the call blocks. *)
Definition queue_get (q : nat) (deadline : Z) (d : detector World)
  : option (outcome item * detector World) :=
  match queues d !! q with
  | Some (x :: rest) => Some (Return x, set_queues (<[q := rest]> (queues d)) d)
  | _ => if deadline <=? now d then Some (Raise QueueEmpty, d) else None
  end.

Definition is_queue_empty (e : exn) : bool :=
  match e with QueueEmpty => true | _ => false end.

(** The next step of the worker thread in [run], if it can take one now:
    the start of a pass (the candidate ports are read off the controller);
    the end of its probes, with the signal, and the call of [get] on what
    [self.stopQ] is then; the return of [get] and what follows it
    ([return] on the sentinel, [msleep(250)] otherwise, [continue] on
    [queue.Empty]); the return of [msleep]. *)
Definition worker_step (d : detector World) : option (detector World) :=
  match wpc d with
  | WIdle => None
  | WPass =>
      Some (set_thread true (WProbing (candidate_ports (controller d))) (log_pass d))
  | WProbing ports =>
      match probe_ports api ports (probe d) with
      | (Return _, ps) =>
          match stopQ d with
          | Some q =>
              Some (set_thread true (WGet q (now d + get_timeout_ms)) (set_probe ps d))
          | None => Some (thread_ends (set_probe ps d))
          end
      | (Raise _, ps) => Some (thread_ends (set_probe ps d))
      end
  | WGet q deadline =>
      match queue_get q deadline d with
      | None => None
      | Some (Return stopq, d1) =>
          match stopq with
          | None => Some (thread_ends d1)
          | Some _ => Some (set_thread true (WSleep (now d1 + settle_ms)) d1)
          end
      | Some (Raise e, d1) =>
          if is_queue_empty e then Some (set_thread true WPass d1)
          else Some (thread_ends d1)
      end
  | WSleep until =>
      if until <=? now d then Some (set_thread true WPass d) else None
  end.

(** Time may pass by [delta] ms when the worker is not due: a pass starts
    at once and its probes take their time (each blocking socket call up
    to its timeout; the model sets no bound), [get] returns as soon as
    its queue holds an item and no later than its deadline, [msleep]
    returns on time. *)
Definition can_wait (delta : Z) (d : detector World) : bool :=
  (0 <? delta) &&
  match wpc d with
  | WIdle => true
  | WPass => false
  | WProbing _ => true
  | WGet q deadline =>
      match queues d !! q with
      | Some (_ :: _) => false
      | _ => now d + delta <=? deadline
      end
  | WSleep until => now d + delta <=? until
  end.

(** What can happen to a detector. *)
Inductive action : Type :=
| Tick (delta : Z)
| Worker
| CallStart
| CallStop
| StopReturns
| PortChanged (c : TorController).

Definition succeeded {A} (o : outcome A) : option A :=
  match o with Return a => Some a | Raise _ => None end.

Definition ui_free (d : detector World) : bool :=
  match ui d with UiFree => true | UiInWait => false end.

(** One action; [None] when it cannot happen in this state (the acting
    thread is blocked) or the call raised. *)
Definition step (a : action) (d : detector World) : option (detector World) :=
  match a with
  | Tick delta => if can_wait delta d then Some (set_now (now d + delta) d) else None
  | Worker => worker_step d
  | CallStart => if ui_free d then Some (start d) else None
  | CallStop => if ui_free d then succeeded (stop_call d) else None
  | StopReturns => stop_return d
  | PortChanged c => succeeded (on_tor_port_changed c (set_controller (Some c) d))
  end.

(** An interleaving: actions of the threads, one after the other. *)
Fixpoint execute (acts : list action) (d : detector World) : option (detector World) :=
  match acts with
  | [] => Some d
  | a :: rest =>
      match step a d with
      | Some d1 => execute rest d1
      | None => None
      end
  end.

(** The calls the UI thread makes in an interleaving. *)
Definition is_ui_action (a : action) : bool :=
  match a with
  | CallStart | CallStop | StopReturns => true
  | _ => false
  end.

Definition ui_calls (acts : list action) : list action :=
  List.filter is_ui_action acts.

(** Actions that are neither [start] nor [stop]. *)
Definition is_background (a : action) : bool := negb (is_ui_action a).

Definition is_call_start (a : action) : bool :=
  match a with CallStart => true | _ => false end.

(** Actions of the worker thread and of the clock alone. *)
Definition is_worker_or_tick (a : action) : bool :=
  match a with Tick _ | Worker => true | _ => false end.

(** The thread flag, the program counter and the queue attribute fit
    together: a thread runs exactly when it stands somewhere in [run],
    a running detector has its [stopQ], and queue references point into
    the heap. *)
Definition wf (d : detector World) : Prop :=
  (running d = false <-> wpc d = WIdle)
  /\ (running d = true -> exists q, stopQ d = Some q)
  /\ (forall q, stopQ d = Some q -> (q < length (queues d))%nat)
  /\ (forall q deadline, wpc d = WGet q deadline -> (q < length (queues d))%nat).

(** While [stop] waits for a running thread, the sentinel is in the queue
    [stopQ] points to. *)
Definition stop_pending (d : detector World) : Prop :=
  ui d = UiInWait -> running d = true ->
  exists q l, stopQ d = Some q /\ queues d !! q = Some l /\ In sentinel l.

(** Left to itself (only the worker and the clock act), the thread ends. *)
Definition worker_finishes (d : detector World) : Prop :=
  exists bg d1,
    forallb is_worker_or_tick bg = true /\
    execute bg d = Some d1 /\ running d1 = false /\ ui d1 = ui d.

(** A running worker that only ever sees queue [q], with no sentinel in
    it. *)
Definition alive (q : nat) (d : detector World) : Prop :=
  running d = true /\ stopQ d = Some q
  /\ (exists l, queues d !! q = Some l /\ Forall (fun x : item => x <> sentinel) l)
  /\ wpc d <> WIdle
  /\ (forall q' deadline, wpc d = WGet q' deadline -> q' = q).

(** Where the worker stands after a 'kick' that arrived at clock [t0]
    while it waited on queue [q], the pass log being [L] then: about to
    take the item, in the settle delay, about to probe, or past the start
    of the next pass, which was logged at [t0 + 250]. *)
Definition after_kick (q : nat) (t0 : Z) (L : list Z) (d : detector World) : Prop :=
  (exists deadline k rest,
      wpc d = WGet q deadline /\ queues d !! q = Some (Some k :: rest)
      /\ now d = t0 /\ pass_log d = L)
  \/ (wpc d = WSleep (t0 + settle_ms)
      /\ t0 <= now d <= t0 + settle_ms /\ pass_log d = L)
  \/ (wpc d = WPass /\ now d = t0 + settle_ms /\ pass_log d = L)
  \/ (exists rest, pass_log d = L ++ (t0 + settle_ms) :: rest
                   /\ t0 + settle_ms <= now d).

End Thread.

Arguments alive {World} q d.
Arguments after_kick {World} q t0 L d.
Arguments stop_pending {World} d.
Arguments worker_finishes {World} api d.
Arguments init {World} w c.
Arguments start {World} d.
Arguments stop_call {World} d.
Arguments stop_return {World} d.
Arguments stopQ_put {World} x d.
Arguments on_tor_port_changed {World} c d.
Arguments queue_get {World} q deadline d.
Arguments worker_step {World} api d.
Arguments can_wait {World} delta d.
Arguments step {World} api a d.
Arguments execute {World} api acts d.
Arguments thread_ends {World} d.
Arguments set_now {World} t d.
Arguments set_queues {World} qs d.
Arguments set_stopQ {World} q d.
Arguments set_thread {World} r pc d.
Arguments set_ui {World} u d.
Arguments set_probe {World} ps d.
Arguments set_controller {World} c d.
Arguments log_pass {World} d.
Arguments ui_free {World} d.
Arguments wf {World} d.

(** A detector in the example world of [TorProbe]: nothing listens on
    9050, Tor listens on 9150. *)
Definition demo_ctrl : TorController :=
  {| tc_is_enabled := true; tc_active_socks_port := Some 9051 |}.

Definition demo_init : detector demo_world :=
  init (demo_world0 [9150] []) None.

Definition demo_after (acts : list action) : detector demo_world :=
  match execute demo_api acts demo_init with
  | Some d => d
  | None => demo_init
  end.

End TorThread.

(** ** Configuration

    Modelled from the spec: the [config] collaborator (class
    [SimpleConfig], not part of this file) is "generic key/value persisted
    settings": [config.get(key, default)] reads a key, [config.set_key(key,
    value)] stores one. *)

Module Config.

Inductive value : Type :=
| VBool (b : bool)
| VInt (n : Z)
| VStr (s : string).

Definition truthy (v : value) : bool :=
  match v with
  | VBool b => b
  | VInt n => negb (n =? 0)
  | VStr s => truthy_str s
  end.

Definition get (cfg : gmap string value) (key : string) (default : value) : value :=
  match cfg !! key with
  | Some v => v
  | None => default
  end.

Definition set_key (key : string) (v : value) (cfg : gmap string value)
  : gmap string value :=
  <[key := v]> cfg.

End Config.

(** ** [NetworkDialog.closeEvent] *)

Module NetworkDialog.

(** What [closeEvent] reads of [self.nlayout]. *)
Record nlayout : Type := {
  ssl_cb : bool;
  tor_cb : bool;
  server_host : string;
  config : gmap string Config.value
}.

Definition with_config (cfg : gmap string Config.value) (n : nlayout) : nlayout :=
  {| ssl_cb := ssl_cb n; tor_cb := tor_cb n; server_host := server_host n;
     config := cfg |}.

(** The answer to [self.question(..., checkbox_text=...)]: the button
    ([ok]) and the state of the "Don't ask me again" box ([chk]). *)
Record answer : Type := { ok : bool; chk : bool }.

(** What became of the close event: [e.ignore()], or handed on to
    [QDialog.closeEvent], which closes the dialog. *)
Inductive close_result : Type := Ignored | PassedOn.

Record closed : Type := {
  layout_after : nlayout;
  prompted : bool;
  result : close_result
}.

(** The condition of the [if]: non-SSL mode with nothing that makes up
    for it, and no opt-out. *)
Definition non_ssl_risk (n : nlayout) : bool :=
  negb (ssl_cb n)
  && negb (tor_cb n)
  && negb (endswith (lower (server_host n)) ".onion")
  && negb (Config.truthy (Config.get (config n) "non_ssl_noprompt" (Config.VBool false))).

Definition closeEvent (n : nlayout) (user : answer) : closed :=
  if non_ssl_risk n then
    let n1 := if chk user
              then with_config (Config.set_key "non_ssl_noprompt" (Config.VBool true)
                                  (config n)) n
              else n in
    if negb (ok user)
    then {| layout_after := n1; prompted := true; result := Ignored |}
    else {| layout_after := n1; prompted := true; result := PassedOn |}
  else {| layout_after := n; prompted := false; result := PassedOn |}.

Definition demo_layout : nlayout :=
  {| ssl_cb := false; tor_cb := false;
     server_host := "electrum.imaginary.cash"; config := ∅ |}.

End NetworkDialog.

(** ** The validation-method check boxes of [NetworkChoiceLayout] *)

Module Validation.

(** Calls on the collaborators, in the order made. *)
Inductive call : Type :=
| ToggleGraphSearch (b : bool)
| ToggleSlpdbValidation (b : bool)
| UpdateGsList
| UpdateSlpdbList.

Record panel : Type := {
  slp_gs_enable_cb : bool;
  slp_slpdb_enable_cb : bool;
  gs_widgets_shown : bool;
  slpdb_widgets_shown : bool;
  calls : list call
}.

Definition set_gs_cb (b : bool) (p : panel) : panel :=
  {| slp_gs_enable_cb := b; slp_slpdb_enable_cb := slp_slpdb_enable_cb p;
     gs_widgets_shown := gs_widgets_shown p;
     slpdb_widgets_shown := slpdb_widgets_shown p; calls := calls p |}.

Definition set_slpdb_cb (b : bool) (p : panel) : panel :=
  {| slp_gs_enable_cb := slp_gs_enable_cb p; slp_slpdb_enable_cb := b;
     gs_widgets_shown := gs_widgets_shown p;
     slpdb_widgets_shown := slpdb_widgets_shown p; calls := calls p |}.

Definition show_gs (b : bool) (p : panel) : panel :=
  {| slp_gs_enable_cb := slp_gs_enable_cb p;
     slp_slpdb_enable_cb := slp_slpdb_enable_cb p;
     gs_widgets_shown := b;
     slpdb_widgets_shown := slpdb_widgets_shown p; calls := calls p |}.

Definition show_slpdb (b : bool) (p : panel) : panel :=
  {| slp_gs_enable_cb := slp_gs_enable_cb p;
     slp_slpdb_enable_cb := slp_slpdb_enable_cb p;
     gs_widgets_shown := gs_widgets_shown p;
     slpdb_widgets_shown := b; calls := calls p |}.

Definition do_call (c : call) (p : panel) : panel :=
  {| slp_gs_enable_cb := slp_gs_enable_cb p;
     slp_slpdb_enable_cb := slp_slpdb_enable_cb p;
     gs_widgets_shown := gs_widgets_shown p;
     slpdb_widgets_shown := slpdb_widgets_shown p; calls := calls p ++ [c] |}.

Definition hide_gs_widgets := show_gs false.
Definition show_gs_widgets := show_gs true.
Definition hide_slpdb_widgets := show_slpdb false.
Definition show_slpdb_widgets := show_slpdb true.

(** [use_slp_gs], the [clicked] slot of [slp_gs_enable_cb]. *)
Definition use_slp_gs (p : panel) : panel :=
  let p := do_call (ToggleGraphSearch (slp_gs_enable_cb p)) p in
  let p := set_slpdb_cb false p in
  let p := do_call UpdateGsList p in
  if slp_gs_enable_cb p
  then show_gs_widgets (hide_slpdb_widgets p)
  else hide_gs_widgets p.

Definition use_slp_slpdb (p : panel) : panel :=
  let p := do_call (ToggleSlpdbValidation (slp_slpdb_enable_cb p)) p in
  let p := do_call UpdateSlpdbList p in
  show_slpdb_widgets (hide_gs_widgets p).

(** The button that closed the warning of [slpdb_msg_box]. *)
Inductive std_button : Type := Ok | Cancel.

(** [slpdb_msg_box], the [clicked] slot of [slp_slpdb_enable_cb]. *)
Definition slpdb_msg_box (p : panel) (return_value : std_button) : panel :=
  if slp_slpdb_enable_cb p then
    match return_value with
    | Ok => use_slp_slpdb (set_gs_cb false p)
    | Cancel => set_slpdb_cb false p
    end
  else do_call (ToggleSlpdbValidation false) (hide_slpdb_widgets p).

(** The three buttons of [gs_and_slpdb_checked_msg_box] in the order they
    are added; [msg.exec()] gives the position of the one clicked. *)
Inductive choice : Type := GraphSearch | Slpdb | DisableBoth.

Definition exec_result (c : choice) : Z :=
  match c with GraphSearch => 0 | Slpdb => 1 | DisableBoth => 2 end.

Definition gs_and_slpdb_checked_msg_box (p : panel) (ret : Z) : panel :=
  if ret =? 0 then
    set_slpdb_cb false (do_call (ToggleGraphSearch true) p)
  else if ret =? 1 then
    set_slpdb_cb true
      (set_gs_cb false
         (do_call (ToggleSlpdbValidation true)
            (do_call (ToggleGraphSearch false) p)))
  else if ret =? 2 then
    set_slpdb_cb false (set_gs_cb false (do_call (ToggleGraphSearch false) p))
  else p.

(** At most one of the two boxes is checked. *)
Definition exclusive (p : panel) : Prop :=
  slp_gs_enable_cb p && slp_slpdb_enable_cb p = false.

End Validation.

(** ** The SLPDB endpoint handler of [NetworkChoiceLayout] *)

Module Endpoint.

(** What [urllib.parse.urlparse] gives for a [str]: the parts of the URL,
    of which the code reads [scheme] and [netloc], or a [ValueError]. *)
Inductive parsed : Type :=
| Parts (scheme netloc : string)
| Invalid (what : string).

(** What the handler shows and asks of its collaborators. *)
Inductive event : Type :=
| ConfirmDialog (informative_text : string)
| ErrorDialog (text : string)
| MgrUpdateSlpdbHost (server : string) (add remove : bool)
| SliderSetMaximum
| SlpdbListUpdate.

Inductive std_button : Type := Ok | Cancel.

Section Handler.
Variable urlparse : string -> parsed.

Definition call_urlparse (url : string) : outcome (string * string) :=
  match urlparse url with
  | Parts scheme netloc => Return (scheme, netloc)
  | Invalid what => Raise (ValueError what)
  end.

(** [is_url]: [all([result.scheme, result.netloc])], [False] on a
    [ValueError]. *)
Definition is_url (url : string) : outcome bool :=
  match call_urlparse url with
  | Return (scheme, netloc) => Return (truthy_str scheme && truthy_str netloc)
  | Raise e => if is_value_error e then Return false else Raise e
  end.

(** [update_slp_slpdb_server(server, add, remove)]. *)
Definition update_slp_slpdb_server (server : string) (add remove : bool)
           (log : list event) : list event :=
  if negb (truthy_str server) then log
  else log ++ [MgrUpdateSlpdbHost server add remove; SliderSetMaximum; SlpdbListUpdate].

(** [slpdb_endpoint_msg_box]: [text] is what the line edit holds,
    [return_value] the button that closes the confirmation. *)
Definition slpdb_endpoint_msg_box (text : string) (return_value : std_button)
           (log : list event) : outcome (list event) :=
  match is_url text with
  | Raise e => Raise e
  | Return true =>
      let log := log ++ [ConfirmDialog
                           (String.append "Are you sure you want to add this endpoint?"
                              (String.append (String (ascii_of_nat 10) EmptyString) text))] in
      match return_value with
      | Ok => Return (update_slp_slpdb_server text true false log)
      | Cancel => Return log
      end
  | Return false =>
      Return (log ++ [ErrorDialog "URL is not in correct format."])
  end.

Definition adds_endpoint (e : event) : bool :=
  match e with MgrUpdateSlpdbHost _ _ _ => true | _ => false end.

End Handler.

(** A stand-in for [urlparse] in examples: [scheme://netloc], cut at the
    first ["://"]; anything with a '[' is refused like an unbalanced IPv6
    literal. *)
Fixpoint split_scheme (acc s : string) : option (string * string) :=
  match s with
  | EmptyString => None
  | String c rest =>
      if String.prefix "://" s
      then Some (acc, String.substring 3 (String.length s - 3) s)
      else split_scheme (String.append acc (String c EmptyString)) rest
  end.

Definition demo_urlparse (url : string) : parsed :=
  if bytes_contains "[" url then Invalid "Invalid IPv6 URL"
  else match split_scheme EmptyString url with
       | Some (scheme, netloc) => Parts scheme netloc
       | None => Parts EmptyString EmptyString
       end.

End Endpoint.

(** ** The list widgets and their [update] methods *)

Module Renderers.

(** *** What the code uses of a [QTreeWidget] *)

Inductive resize_mode : Type := Interactive | Stretch | ResizeToContents.

(** The header: [setStretchLastSection] and, per column,
    [setSectionResizeMode]. *)
Record header : Type := {
  stretch_last_section : bool;
  section_modes : gmap nat resize_mode
}.

Definition setStretchLastSection (b : bool) (h : header) : header :=
  {| stretch_last_section := b; section_modes := section_modes h |}.

Definition setSectionResizeMode (col : nat) (m : resize_mode) (h : header) : header :=
  {| stretch_last_section := stretch_last_section h;
     section_modes := <[col := m]> (section_modes h) |}.

(** A tree widget whose items are all at top level: the items in display
    order, the position of the current item if there is one, and the
    settings the [update] methods touch. *)
Record tree_widget (Row : Type) : Type := {
  rows : list Row;
  current : option nat;
  auto_scroll : bool;
  indentation : Z;
  hdr : header
}.
Arguments rows {Row} _.
Arguments current {Row} _.
Arguments auto_scroll {Row} _.
Arguments indentation {Row} _.
Arguments hdr {Row} _.

Section Widget.
Context {Row : Type}.

Definition currentItem (w : tree_widget Row) : option Row :=
  match current w with
  | Some i => rows w !! i
  | None => None
  end.

(** [clear()]: no items, hence no current item. *)
Definition clear (w : tree_widget Row) : tree_widget Row :=
  {| rows := []; current := None; auto_scroll := auto_scroll w;
     indentation := indentation w; hdr := hdr w |}.

Definition addTopLevelItem (x : Row) (w : tree_widget Row) : tree_widget Row :=
  {| rows := rows w ++ [x]; current := current w; auto_scroll := auto_scroll w;
     indentation := indentation w; hdr := hdr w |}.

(** [insertTopLevelItem(0, x)]: the items already there move down by one. *)
Definition insertTopLevelItem0 (x : Row) (w : tree_widget Row) : tree_widget Row :=
  {| rows := x :: rows w; current := S <$> current w; auto_scroll := auto_scroll w;
     indentation := indentation w; hdr := hdr w |}.

(** [setCurrentItem] of the item at position [i]. *)
Definition setCurrentItem (i : nat) (w : tree_widget Row) : tree_widget Row :=
  {| rows := rows w; current := Some i; auto_scroll := auto_scroll w;
     indentation := indentation w; hdr := hdr w |}.

Definition setAutoScroll (b : bool) (w : tree_widget Row) : tree_widget Row :=
  {| rows := rows w; current := current w; auto_scroll := b;
     indentation := indentation w; hdr := hdr w |}.

Definition setIndentation (n : Z) (w : tree_widget Row) : tree_widget Row :=
  {| rows := rows w; current := current w; auto_scroll := auto_scroll w;
     indentation := n; hdr := hdr w |}.

Definition with_header (f : header -> header) (w : tree_widget Row) : tree_widget Row :=
  {| rows := rows w; current := current w; auto_scroll := auto_scroll w;
     indentation := indentation w; hdr := f (hdr w) |}.

(** The "restore selection" block shared by the widgets:
    [if restore_sel: val = hasAutoScroll(); setAutoScroll(False);
     setCurrentItem(restore_sel); setAutoScroll(val)]. *)
Definition restore_selection (restore_sel : option nat) (w : tree_widget Row)
  : tree_widget Row :=
  match restore_sel with
  | Some i =>
      let val := auto_scroll w in
      setAutoScroll val (setCurrentItem i (setAutoScroll false w))
  | None => w
  end.

End Widget.

(** [x == sel] for a string [x] and a selection key that is a string or
    [None]. *)
Definition key_is (x : string) (sel : option string) : bool :=
  match sel with
  | Some s => String.eqb x s
  | None => false
  end.

(** *** [ServerListWidget] *)

(** Modelled from the spec: [serialize_server] (module
    [electroncash.network], not part of this file) turns the
    "(host, port, protocol) triple" into "a string key"; the three parts
    are joined with colons. *)
Definition serialize_server (host port protocol : string) : string :=
  String.append host (String.append ":" (String.append port (String.append ":" protocol))).

Module ServerFlag.
Definition BadCertificate : Z := 4.
Definition Banned : Z := 2.
Definition Preferred : Z := 1.
Definition NoFlag : Z := 0.
End ServerFlag.

(** [if flagval & flag:] *)
Definition has_flag (flagval flag : Z) : bool := negb (Z.land flagval flag =? 0).

(** What [update] asks of [network]. *)
Record network_view : Type := {
  blacklisted_servers : gset string;
  whitelisted_servers : gset string;
  bad_certificate_servers : gset string;
  is_whitelist_only : bool
}.

Definition server_is_blacklisted (n : network_view) (server : string) : bool :=
  bool_decide (server ∈ blacklisted_servers n).
Definition server_is_whitelisted (n : network_view) (server : string) : bool :=
  bool_decide (server ∈ whitelisted_servers n).
Definition server_is_bad_certificate (n : network_view) (server : string) : bool :=
  bool_decide (server ∈ bad_certificate_servers n).

(** An item of the server list: the flag whose symbol column 0 shows, the
    texts of columns 1 and 3, the Tor icon of column 2, the tool tip, the
    lightened text, and the data of columns 2 and 0. *)
Record server_row : Type := {
  sr_flag : Z;
  sr_display_text : string;
  sr_port : string;
  sr_tor_icon : bool;
  sr_tooltip : string;
  sr_lightened : bool;
  sr_server : string;
  sr_flagval : Z
}.

(** The servers: host to its entries (ports by protocol letter, and
    'display', 'pruning', 'version'). *)
Abbreviation servers_dict := (gmap string (gmap string string)).

(** [sorted(servers.items())]: by host, in the order of the character
    codes. *)
Fixpoint insert_by_host (x : string * gmap string string)
         (l : list (string * gmap string string)) : list (string * gmap string string) :=
  match l with
  | [] => [x]
  | y :: rest =>
      if String.leb (fst x) (fst y) then x :: y :: rest
      else y :: insert_by_host x rest
  end.

Definition sorted_items (servers : servers_dict) : list (string * gmap string string) :=
  foldr insert_by_host [] (map_to_list servers).

(** The body of the loop for a server that has [port] for the protocol:
    the item that is added. *)
Definition server_item (network : network_view) (protocol : string)
           (_host : string) (d : gmap string string) (port : string) : server_row :=
  let is_onion := is_onion_host _host in
  let wl_only := is_whitelist_only network in
  let server := serialize_server _host port protocol in
  let flagval := 0 in
  let flagval := if server_is_blacklisted network server
                 then Z.lor flagval ServerFlag.Banned else flagval in
  let flagval := if server_is_whitelisted network server
                 then Z.lor flagval ServerFlag.Preferred else flagval in
  let flagval := if server_is_bad_certificate network server
                 then Z.lor flagval ServerFlag.BadCertificate else flagval in
  let '(flag, tooltip) :=
    if has_flag flagval ServerFlag.Banned
    then (ServerFlag.Banned, "This server is banned"%string)
    else if has_flag flagval ServerFlag.BadCertificate
    then (ServerFlag.BadCertificate,
          "This server's pinned certificate mismatches its current certificate"%string)
    else if has_flag flagval ServerFlag.Preferred
    then (ServerFlag.Preferred, "This is a preferred server"%string)
    else (ServerFlag.NoFlag, EmptyString) in
  let display_text :=
    match d !! "display"%string with
    | Some disp => if is_onion then String.append disp " (.onion)" else _host
    | None => _host
    end in
  {| sr_flag := flag;
     sr_display_text := display_text;
     sr_port := port;
     sr_tor_icon := is_onion;
     sr_tooltip := tooltip;
     sr_lightened := (wl_only && negb (has_flag flagval ServerFlag.Preferred))
                     || has_flag flagval ServerFlag.Banned;
     sr_server := server;
     sr_flagval := flagval |}.

(** The [for _host, d in sorted(servers.items())] loop: the widget and
    [restore_sel] (the position of the item to select) as they go. *)
Fixpoint add_servers (network : network_view) (protocol : string) (use_tor : bool)
         (sel : option string) (items : list (string * gmap string string))
         (w : tree_widget server_row) (restore_sel : option nat)
  : tree_widget server_row * option nat :=
  match items with
  | [] => (w, restore_sel)
  | (_host, d) :: rest =>
      let is_onion := is_onion_host _host in
      if is_onion && negb use_tor
      then add_servers network protocol use_tor sel rest w restore_sel
      else
        match d !! protocol with
        | Some port =>
            if truthy_str port then
              let x := server_item network protocol _host d port in
              let position := length (rows w) in
              let w := addTopLevelItem x w in
              let restore_sel :=
                if key_is (sr_server x) sel then Some position else restore_sel in
              add_servers network protocol use_tor sel rest w restore_sel
            else add_servers network protocol use_tor sel rest w restore_sel
        | None => add_servers network protocol use_tor sel rest w restore_sel
        end
  end.

Definition server_header (h : header) : header :=
  setSectionResizeMode 3 ResizeToContents
    (setSectionResizeMode 2 ResizeToContents
       (setSectionResizeMode 1 Stretch
          (setSectionResizeMode 0 ResizeToContents
             (setStretchLastSection false h)))).

(** [ServerListWidget.update(network, servers, protocol, use_tor)]. *)
Module ServerListWidget.
Definition update (network : network_view) (servers : servers_dict)
           (protocol : string) (use_tor : bool) (w : tree_widget server_row)
  : tree_widget server_row :=
  let sel := sr_server <$> currentItem w in
  let w := setIndentation 0 (clear w) in
  let '(w, restore_sel) :=
    add_servers network protocol use_tor sel (sorted_items servers) w None in
  let w := with_header server_header w in
  restore_selection restore_sel w.

End ServerListWidget.

(** Whether the loop adds an item for a server. *)
Definition listed (protocol : string) (use_tor : bool)
           (item : string * gmap string string) : bool :=
  negb (is_onion_host (fst item) && negb use_tor)
  && match snd item !! protocol with
     | Some port => truthy_str port
     | None => false
     end.

(** *** The endpoint lists: [SlpGsServeListWidget],
        [SlpSLPDBServeListWidget], [PostOfficeServeListWidget] *)

(** An item of an endpoint list: its text, whether the "current server"
    mark follows it, and the data of column 0. *)
Record endpoint_row : Type := {
  er_text : string;
  er_marked : bool;
  er_data : string
}.

(** The loop of the graph-search and postage lists: add an item per
    entry, remember the one whose data equals [sel]. *)
Fixpoint add_endpoints (mark : string -> bool) (sel : option string)
         (entries : list string) (w : tree_widget endpoint_row)
         (restore_sel : option nat) : tree_widget endpoint_row * option nat :=
  match entries with
  | [] => (w, restore_sel)
  | e :: rest =>
      let x := {| er_text := e; er_marked := mark e; er_data := e |} in
      let position := length (rows w) in
      let w := addTopLevelItem x w in
      let restore_sel := if key_is e sel then Some position else restore_sel in
      add_endpoints mark sel rest w restore_sel
  end.

Definition endpoint_header (h : header) : header :=
  setSectionResizeMode 0 Stretch (setStretchLastSection false h).

(** [SlpGsServeListWidget.update()]: [slp_gs_list] is the keys of
    [networks.net.SLP_GS_SERVERS] in order, [gs_host] is
    [slp_gs_mgr.gs_host]. *)
Module SlpGsServeListWidget.
Definition update (slp_gs_list : list string) (gs_host : string)
           (w : tree_widget endpoint_row) : tree_widget endpoint_row :=
  let sel := er_data <$> currentItem w in
  let w := clear w in
  let '(w, restore_sel) :=
    add_endpoints (fun node_url => String.eqb node_url gs_host) sel slp_gs_list w None in
  let w := with_header endpoint_header w in
  restore_selection restore_sel w.

End SlpGsServeListWidget.

(** [PostOfficeServeListWidget.update()]: [post_office_list] is
    [networks.net.POST_OFFICE_SERVERS]. *)
Module PostOfficeServeListWidget.
Definition update (post_office_list : list string)
           (w : tree_widget endpoint_row) : tree_widget endpoint_row :=
  let sel := er_data <$> currentItem w in
  let w := clear w in
  let '(w, restore_sel) :=
    add_endpoints (fun _ => false) sel post_office_list w None in
  let w := with_header endpoint_header w in
  restore_selection restore_sel w.

End PostOfficeServeListWidget.

(** [SlpSLPDBServeListWidget.update()]: [slp_slpdb_list] is
    [slp_gs_mgr.slpdb_host].  The method reads no current item and sets
    none. *)
Fixpoint add_slpdb_endpoints (entries : list string) (w : tree_widget endpoint_row)
  : tree_widget endpoint_row :=
  match entries with
  | [] => w
  | k :: rest =>
      add_slpdb_endpoints rest
        (addTopLevelItem {| er_text := k; er_marked := false; er_data := k |} w)
  end.

Module SlpSLPDBServeListWidget.
Definition update (slp_slpdb_list : list string)
           (w : tree_widget endpoint_row) : tree_widget endpoint_row :=
  let w := clear w in
  let w := add_slpdb_endpoints slp_slpdb_list w in
  with_header endpoint_header w.

End SlpSLPDBServeListWidget.

(** *** [SlpSearchJobListWidget] *)

Inductive job_status : Type :=
| NA | InQueue | Downloaded | Exited | Stopping | Downloading.

Definition status_text (s : job_status) : string :=
  match s with
  | NA => "NA"
  | InQueue => "In Queue"
  | Downloaded => "Downloaded"
  | Exited => "Exited"
  | Stopping => "Stopping..."
  | Downloading => "Downloading..."
  end.

(** A graph-search job as the widget reads it. *)
Record job : Type := {
  txn_count_progress : Z;
  search_success : bool;
  job_complete : bool;
  waiting_to_cancel : bool;
  search_started : bool;
  exit_msg : option string;
  root_txid : string;
  gs_response_size : Z;
  validity_cache_size : Z
}.

(** What [update] reads of [slp_gs_mgr] and [config]: the jobs in the
    order of [jobs_copy()], [gs_enabled], [bytes_downloaded] and the
    setting 'slp_validator_graphsearch_enabled'. *)
Record jobs_snapshot : Type := {
  jobs : list (string * job);
  gs_enabled : bool;
  bytes_downloaded : Z;
  graphsearch_enabled_setting : bool
}.

(** An item of the job list: the five column values (counts are kept as
    numbers) and the data of column 0; the data of columns 3 and 4 repeat
    the column values. *)
Record job_row : Type := {
  jr_txid : string;
  jr_tx_count : Z;
  jr_data : string;
  jr_cache_size : Z;
  jr_status : string;
  jr_key : string
}.

(** The list widget with the two widgets of its parent that [update]
    also sets. *)
Record jobs_view : Type := {
  jv_list : tree_widget job_row;
  jv_slp_gs_enable_cb : bool;
  jv_total_data_txt : string
}.

Section Jobs.
(** [humanbytes] formats a byte count with floating-point arithmetic; it
    is taken as given. *)
Variable humanbytes : Z -> string.

Definition status_of (enabled : bool) (j : job) : job_status :=
  if enabled then
    if search_success j then Downloaded
    else if job_complete j then Exited
    else if waiting_to_cancel j then Stopping
    else if search_started j then Downloading
    else InQueue
  else NA.

Definition is_downloaded (s : job_status) : bool :=
  match s with Downloaded => true | _ => false end.

Definition exit_msg_text (j : job) (status : job_status) : string :=
  match exit_msg j with
  | Some m =>
      if truthy_str m && negb (is_downloaded status)
      then String.append " (" (String.append m ")")
      else EmptyString
  | None => EmptyString
  end.

Definition job_item (enabled : bool) (k : string) (j : job) : job_row :=
  let status := status_of enabled j in
  {| jr_txid := String.substring 0 6 (root_txid j);
     jr_tx_count := txn_count_progress j;
     jr_data := humanbytes (gs_response_size j);
     jr_cache_size := validity_cache_size j;
     jr_status := String.append (status_text status) (exit_msg_text j status);
     jr_key := k |}.

(** The three places an item is put by the first loop. *)
Record job_lists : Type := {
  working_item : option job_row;
  completed_items : list job_row;
  other_items : list job_row
}.

Fixpoint sort_jobs (enabled : bool) (js : list (string * job)) (acc : job_lists)
  : job_lists :=
  match js with
  | [] => acc
  | (k, j) :: rest =>
      let x := job_item enabled k j in
      let acc :=
        match status_of enabled j with
        | Downloading =>
            {| working_item := Some x; completed_items := completed_items acc;
               other_items := other_items acc |}
        | Downloaded =>
            {| working_item := working_item acc;
               completed_items := completed_items acc ++ [x];
               other_items := other_items acc |}
        | _ =>
            {| working_item := working_item acc;
               completed_items := completed_items acc;
               other_items := other_items acc ++ [x] |}
        end in
      sort_jobs enabled rest acc
  end.

(** [selected_item_id and i.data(0, Qt.UserRole) == selected_item_id]. *)
Definition is_selected (selected_item_id : option string) (i : job_row) : bool :=
  match selected_item_id with
  | Some s => truthy_str s && String.eqb (jr_key i) s
  | None => false
  end.

(** [setCurrentSelectedItem(i)] for the item at [position]. *)
Definition setCurrentSelectedItem (selected_item_id : option string) (position : nat)
           (i : job_row) (w : tree_widget job_row) : tree_widget job_row :=
  if is_selected selected_item_id i then setCurrentItem position w else w.

(** [for i in items: self.addTopLevelItem(i); setCurrentSelectedItem(i)]. *)
Fixpoint add_jobs (selected_item_id : option string) (items : list job_row)
         (w : tree_widget job_row) : tree_widget job_row :=
  match items with
  | [] => w
  | i :: rest =>
      let position := length (rows w) in
      add_jobs selected_item_id rest
        (setCurrentSelectedItem selected_item_id position i (addTopLevelItem i w))
  end.

Definition job_header (h : header) : header :=
  setSectionResizeMode 3 ResizeToContents
    (setSectionResizeMode 2 ResizeToContents
       (setSectionResizeMode 1 ResizeToContents
          (setSectionResizeMode 0 ResizeToContents
             (setStretchLastSection true h)))).

End Jobs.

(** [SlpSearchJobListWidget.update()] (the function under the
    [rate_limited] decorator). *)
Module SlpSearchJobListWidget.
Definition update (humanbytes : Z -> string) (s : jobs_snapshot) (v : jobs_view) : jobs_view :=
  let selected_item_id := jr_key <$> currentItem (jv_list v) in
  let w := clear (jv_list v) in
  let lists := sort_jobs humanbytes (gs_enabled s) (jobs s)
                 {| working_item := None; completed_items := []; other_items := [] |} in
  let w := add_jobs selected_item_id (rev (completed_items lists)) w in
  let w := add_jobs selected_item_id (other_items lists) w in
  let w := match working_item lists with
           | Some x => setCurrentSelectedItem selected_item_id 0 x (insertTopLevelItem0 x w)
           | None => w
           end in
  {| jv_list := with_header job_header w;
     jv_slp_gs_enable_cb := graphsearch_enabled_setting s;
     jv_total_data_txt := humanbytes (bytes_downloaded s) |}.
End SlpSearchJobListWidget.

(** *** [NodesListWidget] *)

(** An interface (a connected node) and a blockchain as the widget reads
    them; [if_id] stands for the identity of the interface object. *)
Record interface : Type := {
  if_id : nat;
  if_host : string;
  if_server : string;
  if_tip : Z
}.

Record blockchain : Type := {
  bc_name : string;
  bc_base_height : Z;
  bc_height : Z
}.

(** What [update] reads of [network]: [get_blockchains()] in order, each
    key resolved through [network.blockchains], and the identity of
    [network.interface]. *)
Record nodes_snapshot : Type := {
  chains : list (blockchain * list interface);
  network_interface : option nat;
  servers : servers_dict
}.

(** A node item: text (with the mark of the wallet's own interface), tip,
    the server as data of column 1, the Tor icon. *)
Record node_row : Type := {
  nr_text : string;
  nr_marked : bool;
  nr_tip : Z;
  nr_server : string;
  nr_tor_icon : bool
}.

(** A branch item: name, base height (text and data of column 1), height,
    and the node items below it. *)
Record chain_row : Type := {
  cr_name : string;
  cr_base_height : Z;
  cr_height : Z;
  cr_children : list node_row;
  cr_expanded : bool
}.

Inductive node_item : Type :=
| ChainItem (c : chain_row)
| NodeItem (n : node_row).

(** The current item of the tree: a top-level position, and below a
    branch item the position of a child. *)
Record nodes_widget : Type := {
  nw_items : list node_item;
  nw_current : option (nat * option nat);
  nw_auto_scroll : bool;
  nw_hdr : header
}.

(** [item.data(1, Qt.UserRole)]: a server, a base height, or no item. *)
Inductive node_key : Type :=
| KNone
| KServer (s : string)
| KBase (h : Z).

(** The key of the item at a position of the tree. *)
Definition item_key (items : list node_item) (pos : option (nat * option nat))
  : node_key :=
  match pos with
  | None => KNone
  | Some (i, None) =>
      match items !! i with
      | Some (ChainItem c) => KBase (cr_base_height c)
      | Some (NodeItem n) => KServer (nr_server n)
      | None => KNone
      end
  | Some (i, Some j) =>
      match items !! i with
      | Some (ChainItem c) =>
          match cr_children c !! j with
          | Some n => KServer (nr_server n)
          | None => KNone
          end
      | _ => KNone
      end
  end.

(** [item.data(1, Qt.UserRole)] of [self.currentItem()], if any. *)
Definition nodes_current_key (w : nodes_widget) : node_key :=
  item_key (nw_items w) (nw_current w).

(** [i.server == sel]. *)
Definition server_is (server : string) (sel : node_key) : bool :=
  match sel with
  | KServer s => String.eqb server s
  | _ => false
  end.

Definition node_item_of (s : nodes_snapshot) (i : interface) : node_row :=
  let is_onion := is_onion_host (if_host i) in
  let display_text :=
    match servers s !! if_host i with
    | Some d =>
        match d !! "display"%string with
        | Some disp => if is_onion then String.append disp " (.onion)" else if_host i
        | None => if_host i
        end
    | None => if_host i
    end in
  {| nr_text := display_text;
     nr_marked := match network_interface s with
                  | Some cur => Nat.eqb (if_id i) cur
                  | None => false
                  end;
     nr_tip := if_tip i;
     nr_server := if_server i;
     nr_tor_icon := is_onion |}.

(** The inner loop below a branch item at top-level position [top]. *)
Fixpoint add_children (s : nodes_snapshot) (sel : node_key) (top : nat)
         (items : list interface) (children : list node_row)
         (restore_sel : option (nat * option nat))
  : list node_row * option (nat * option nat) :=
  match items with
  | [] => (children, restore_sel)
  | i :: rest =>
      let item := node_item_of s i in
      let restore_sel :=
        if server_is (if_server i) sel then Some (top, Some (length children))
        else restore_sel in
      add_children s sel top rest (children ++ [item]) restore_sel
  end.

(** The inner loop when there is a single chain: [x] is the invisible
    root and the node items go to the top level. *)
Fixpoint add_top_nodes (s : nodes_snapshot) (sel : node_key)
         (items : list interface) (tops : list node_item)
         (restore_sel : option (nat * option nat))
  : list node_item * option (nat * option nat) :=
  match items with
  | [] => (tops, restore_sel)
  | i :: rest =>
      let item := node_item_of s i in
      let restore_sel :=
        if server_is (if_server i) sel then Some (length tops, None)
        else restore_sel in
      add_top_nodes s sel rest (tops ++ [NodeItem item]) restore_sel
  end.

(** The loop over the chains. *)
Fixpoint add_chains (s : nodes_snapshot) (sel : node_key) (n_chains : nat)
         (cs : list (blockchain * list interface)) (tops : list node_item)
         (restore_sel : option (nat * option nat))
  : list node_item * option (nat * option nat) :=
  match cs with
  | [] => (tops, restore_sel)
  | (b, items) :: rest =>
      if Nat.ltb 1 n_chains then
        let '(children, restore_sel) :=
          add_children s sel (length tops) items [] restore_sel in
        let x := ChainItem {| cr_name := bc_name b;
                              cr_base_height := bc_base_height b;
                              cr_height := bc_height b;
                              cr_children := children;
                              cr_expanded := true |} in
        add_chains s sel n_chains rest (tops ++ [x]) restore_sel
      else
        let '(tops, restore_sel) := add_top_nodes s sel items tops restore_sel in
        add_chains s sel n_chains rest tops restore_sel
  end.

Definition nodes_header (h : header) : header :=
  setSectionResizeMode 2 ResizeToContents
    (setSectionResizeMode 1 ResizeToContents
       (setSectionResizeMode 0 Stretch
          (setStretchLastSection false h))).

(** [NodesListWidget.update(network, servers)]. *)
Module NodesListWidget.
Definition update (s : nodes_snapshot) (w : nodes_widget) : nodes_widget :=
  let sel := nodes_current_key w in
  let n_chains := length (chains s) in
  let '(tops, restore_sel) := add_chains s sel n_chains (chains s) [] None in
  {| nw_items := tops;
     nw_current := restore_sel;
     nw_auto_scroll := nw_auto_scroll w;
     nw_hdr := nodes_header (nw_hdr w) |}.

End NodesListWidget.

(** *** Selection by key, as a function

    The position the loops of the flat lists leave in [restore_sel]: that
    of the last item, among those added from position [base] on, whose
    key equals [sel]; [restore_sel] as it was when there is none. *)
Fixpoint last_match (sel : option string) (keys : list string) (base : nat)
         (restore_sel : option nat) : option nat :=
  match keys with
  | [] => restore_sel
  | k :: rest =>
      last_match sel rest (S base)
        (if key_is k sel then Some base else restore_sel)
  end.

(** The item [ServerListWidget.update] adds for an entry of the servers that
    has a port for the protocol. *)
Definition item_of_entry (network : network_view) (protocol : string)
           (entry : string * gmap string string) : server_row :=
  server_item network protocol (fst entry) (snd entry)
    (default EmptyString (snd entry !! protocol)).

(** A selection key that [selected_item_id and ...] lets through. *)
Definition effective_key (sel : option string) : option string :=
  match sel with
  | Some s => if truthy_str s then Some s else None
  | None => None
  end.

(** The job list after [update], as functions of the sorted jobs: the
    items in display order, and the position of the current item for the
    selection key [e]. *)
Definition job_rows (lists : job_lists) : list job_row :=
  let base := rev (completed_items lists) ++ other_items lists in
  match working_item lists with
  | Some x => x :: base
  | None => base
  end.

Definition job_current (e : option string) (lists : job_lists) : option nat :=
  let base := rev (completed_items lists) ++ other_items lists in
  let below := last_match e (map jr_key base) 0 None in
  match working_item lists with
  | Some x => if key_is (jr_key x) e then Some 0%nat else S <$> below
  | None => below
  end.

(** The top-level items [NodesListWidget.update] builds, as a function of the
    snapshot. *)
Fixpoint chain_items (s : nodes_snapshot) (n_chains : nat)
         (cs : list (blockchain * list interface)) : list node_item :=
  match cs with
  | [] => []
  | (b, items) :: rest =>
      (if Nat.ltb 1 n_chains
       then [ChainItem {| cr_name := bc_name b;
                          cr_base_height := bc_base_height b;
                          cr_height := bc_height b;
                          cr_children := map (node_item_of s) items;
                          cr_expanded := true |}]
       else map (fun i => NodeItem (node_item_of s i)) items)
      ++ chain_items s n_chains rest
  end.

(** [restore_sel] points at a node item whose server is [sel], or at
    nothing. *)
Definition points_at_sel (sel : node_key) (items : list node_item)
           (restore_sel : option (nat * option nat)) : Prop :=
  match restore_sel with
  | None => True
  | Some pos => exists srv, sel = KServer srv /\ item_key items (Some pos) = KServer srv
  end.

(** *** Example widgets *)

Definition default_header : header :=
  {| stretch_last_section := true; section_modes := ∅ |}.

Definition endpoint_item (e : string) : endpoint_row :=
  {| er_text := e; er_marked := false; er_data := e |}.

(** An endpoint list showing two endpoints, the second one selected. *)
Definition demo_endpoint_list : tree_widget endpoint_row :=
  {| rows := [endpoint_item "https://slpdb.fountainhead.cash";
              endpoint_item "https://slpdb.bitcoin.com"];
     current := Some 1%nat; auto_scroll := true; indentation := 20;
     hdr := default_header |}.

Definition demo_endpoints : list string :=
  ["https://slpdb.fountainhead.cash"; "https://slpdb.bitcoin.com"]%string.

(** Two branches after a chain split, one node on each; the first branch
    item is selected. *)
Definition demo_nodes_snapshot : nodes_snapshot :=
  {| chains :=
       [({| bc_name := "000000000000"; bc_base_height := 0; bc_height := 700000 |},
         [{| if_id := 1; if_host := "electrum.imaginary.cash";
             if_server := "electrum.imaginary.cash:50002:s"; if_tip := 700000 |}]);
        ({| bc_name := "00000000ffff"; bc_base_height := 699990; bc_height := 699995 |},
         [{| if_id := 2; if_host := "bch.loping.net";
             if_server := "bch.loping.net:50002:s"; if_tip := 699995 |}])];
     network_interface := Some 1%nat;
     servers := ∅ |}.

Definition demo_nodes_widget (cur : option (nat * option nat)) : nodes_widget :=
  {| nw_items := chain_items demo_nodes_snapshot 2 (chains demo_nodes_snapshot);
     nw_current := cur; nw_auto_scroll := true; nw_hdr := default_header |}.

(** Two servers, one of them an onion service with a display name. *)
Definition demo_servers : servers_dict :=
  {[ "bch.imaginary.cash"%string :=
       ({[ "s"%string := "50002"%string; "t"%string := "50001"%string ]}
          : gmap string string);
     "OnionHostExample.Onion"%string :=
       ({[ "t"%string := "50001"%string; "display"%string := "Example"%string ]}
          : gmap string string) ]}.

Definition demo_network : network_view :=
  {| blacklisted_servers := ∅;
     whitelisted_servers := {[ "bch.imaginary.cash:50001:t"%string ]};
     bad_certificate_servers := ∅;
     is_whitelist_only := false |}.

Definition empty_server_list : tree_widget server_row :=
  {| rows := []; current := None; auto_scroll := true; indentation := 20;
     hdr := default_header |}.

End Renderers.

(** ** Tactics *)

(** Two headers are equal when their fields are; the resize modes are
    compared column by column. *)
Ltac header_idem :=
  match goal with
  | |- ?f (?f ?h) = ?f ?h =>
      destruct h as [stretch modes]; unfold f;
      unfold Renderers.setSectionResizeMode, Renderers.setStretchLastSection;
      simpl; f_equal; apply map_eq; intros col;
      rewrite !lookup_insert; repeat case_decide; congruence
  end.

(** Turn a lookup among the keys of a list of items into the item. *)
Ltac item_of_key Hlk key y Hy :=
  rewrite Nat.sub_0_r in Hlk;
  change (map key ?l) with (key <$> l) in Hlk;
  rewrite list_lookup_fmap in Hlk;
  match type of Hlk with
  | context [?l !! ?i] => destruct (l !! i) as [y|]; [|discriminate Hlk]
  end;
  injection Hlk as Hy.

(** ** The context menu of [SlpSearchJobListWidget] and the clipboard *)

Module JobMenu.
Import Renderers.

(** *** The 'hex' codec ([binascii.a2b_hex], [binascii.b2a_hex]) *)

(** The value of a hexadecimal digit, of either case. *)
Definition hex_value (c : ascii) : option N :=
  let n := N_of_ascii c in
  if ((48 <=? n) && (n <=? 57))%N then Some (n - 48)%N
  else if ((97 <=? n) && (n <=? 102))%N then Some (n - 87)%N
  else if ((65 <=? n) && (n <=? 70))%N then Some (n - 55)%N
  else None.

Definition is_hex_digit (c : ascii) : bool :=
  match hex_value c with Some _ => true | None => false end.

Fixpoint all_chars (p : ascii -> bool) (s : string) : bool :=
  match s with
  | EmptyString => true
  | String c rest => p c && all_chars p rest
  end.

Definition is_ascii (c : ascii) : bool := (N_of_ascii c <? 128)%N.

(** Two digits give a byte; [None] when a digit is not hexadecimal (or
    one is left over). *)
Fixpoint a2b_pairs (s : string) : option string :=
  match s with
  | EmptyString => Some EmptyString
  | String _ EmptyString => None
  | String hi (String lo rest) =>
      match hex_value hi, hex_value lo, a2b_pairs rest with
      | Some h, Some l, Some bs => Some (String (ascii_of_N (16 * h + l)) bs)
      | _, _, _ => None
      end
  end.

(** [codecs.decode(s, 'hex')] for a [str]: the argument must be ASCII,
    of even length, and hold hexadecimal digits only; [binascii.Error]
    is a [ValueError]. *)
Definition a2b_hex (s : string) : outcome string :=
  if negb (all_chars is_ascii s)
  then Raise (ValueError "string argument should contain only ASCII characters")
  else if Nat.odd (String.length s)
  then Raise (ValueError "Odd-length string")
  else match a2b_pairs s with
       | Some bs => Return bs
       | None => Raise (ValueError "Non-hexadecimal digit found")
       end.

Definition hex_char (n : N) : ascii :=
  if (n <? 10)%N then ascii_of_N (48 + n) else ascii_of_N (87 + n).

(** [codecs.encode(bs, 'hex').decode()]: two lower-case digits a byte. *)
Fixpoint b2a_hex (bs : string) : string :=
  match bs with
  | EmptyString => EmptyString
  | String b rest =>
      let n := N_of_ascii b in
      String (hex_char (n / 16)) (String (hex_char (n mod 16)) (b2a_hex rest))
  end.

(** [bs[::-1]]. *)
Definition reversed (bs : string) : string :=
  string_of_list_ascii (rev (list_ascii_of_string bs)).

(** [codecs.encode(codecs.decode(txid, 'hex')[::-1], 'hex').decode()]. *)
Definition flip_txid (txid : string) : outcome string :=
  match a2b_hex txid with
  | Return bs => Return (b2a_hex (reversed bs))
  | Raise e => Raise e
  end.

(** [_copy_txid_to_clipboard(flip_bytes)]: the text put on the clipboard.
    The data of column 0 of the current item is the key of the job. *)
Definition _copy_txid_to_clipboard (flip_bytes : bool) (w : tree_widget job_row)
  : outcome string :=
  match currentItem w with
  | None => Raise (AttributeError "'NoneType' object has no attribute 'data'")
  | Some item =>
      let txid := jr_key item in
      if flip_bytes then flip_txid txid else Return txid
  end.

(** *** [create_menu] *)

(** The entries of the menu, by what they trigger. *)
Inductive action : Type :=
| CopyTxid
| CopyReversedTxid
| CopyStatus
| RefreshList
| RestartSearch (txid : string)
| CancelJob (txid : string).

(** [create_menu(position)]: [None] when the method returns without a
    menu.  [item.data(4, Qt.UserRole)] is the text of the status column. *)
Definition create_menu (w : tree_widget job_row) : option (list action) :=
  match currentItem w with
  | None => None
  | Some item =>
      let txid := jr_key item in
      let menu := [CopyTxid; CopyReversedTxid; CopyStatus; RefreshList] in
      if String.eqb (jr_status item) "Exited"
      then Some (menu ++ [RestartSearch txid])
      else if negb (String.eqb (jr_status item) "Exited"
                    || String.eqb (jr_status item) "Downloaded")
      then Some (menu ++ [CancelJob txid])
      else Some menu
  end.

#[global] Instance job_status_eq_dec : EqDecision job_status.
Proof. solve_decision. Defined.

(** The jobs of [jobs_copy()] whose status is [st]. *)
Definition with_status (enabled : bool) (st : job_status) (e : string * job) : bool :=
  bool_decide (status_of enabled (snd e) = st).

(** The jobs that go to [other_items]. *)
Definition is_other (enabled : bool) (e : string * job) : bool :=
  negb (with_status enabled Downloading e) && negb (with_status enabled Downloaded e).

(** [job.exit_msg] is [None] or empty. *)
Definition no_exit_msg (j : job) : bool :=
  match exit_msg j with
  | Some m => negb (truthy_str m)
  | None => true
  end.

(** A job list whose only item is [x], selected. *)
Definition selected_alone (x : job_row) : tree_widget job_row :=
  {| rows := [x]; current := Some 0%nat; auto_scroll := true; indentation := 20;
     hdr := default_header |}.

End JobMenu.

(** ** More Python values: errors of the handlers of [NetworkChoiceLayout] *)

(** The exceptions that the handlers below can end with. *)
Inductive error : Type :=
| IndexError (what : string)
| TypeError (what : string).

Inductive result (A : Type) : Type :=
| Done (a : A)
| Fail (e : error).
Arguments Done {A} a.
Arguments Fail {A} e.

(** [s.upper()] on the ASCII range. *)
Definition upper_char (c : ascii) : ascii :=
  let n := nat_of_ascii c in
  if (Nat.leb 97 n && Nat.leb n 122)%bool then ascii_of_nat (n - 32) else c.

Fixpoint upper (s : string) : string :=
  match s with
  | EmptyString => EmptyString
  | String c rest => String (upper_char c) (upper rest)
  end.

(** ** The network object, as the handlers use it *)

Module Network.

(** A proxy dict: the keys 'mode', 'host' and 'port' are always there,
    'user' and 'password' may be missing. *)
Record proxy_dict : Type := {
  px_mode : string;
  px_host : string;
  px_port : string;
  px_user : option string;
  px_password : option string
}.

(** The tuple of [network.get_parameters()] and the arguments of
    [network.set_parameters]: host, port, protocol, proxy, auto_connect.
    The proxy is a dict or [None]. *)
Record parameters : Type := {
  host : string;
  port : string;
  protocol : string;
  proxy : option proxy_dict;
  auto_connect : bool
}.

End Network.

(** ** The server tab of [NetworkChoiceLayout] *)

Module ServerTab.
Import Renderers.

Record line_edit : Type := {
  text : string;
  le_enabled : bool;
  hasFocus : bool
}.

Definition setText (s : string) (e : line_edit) : line_edit :=
  {| text := s; le_enabled := le_enabled e; hasFocus := hasFocus e |}.

Definition le_setEnabled (b : bool) (e : line_edit) : line_edit :=
  {| text := text e; le_enabled := b; hasFocus := hasFocus e |}.

Record check_box : Type := {
  isChecked : bool;
  isEnabled : bool
}.

Definition setChecked (b : bool) (c : check_box) : check_box :=
  {| isChecked := b; isEnabled := isEnabled c |}.

Definition setEnabled (b : bool) (c : check_box) : check_box :=
  {| isChecked := isChecked c; isEnabled := b |}.

Definition setDisabled (b : bool) (c : check_box) : check_box := setEnabled (negb b) c.

(** The entries of a server ([servers[host]]) in the order of the dict:
    ports by protocol letter, and 'display', 'pruning', 'version'. *)
Abbreviation port_dict := (list (string * string)).

(** [pp.get(k)]. *)
Fixpoint dict_get (pp : port_dict) (k : string) : option string :=
  match pp with
  | [] => None
  | (k', v) :: rest => if String.eqb k' k then Some v else dict_get rest k
  end.

(** [k = list(pp.keys())[0]] with [pp[k]]. *)
Definition first_item (pp : port_dict) : result (string * string) :=
  match pp with
  | [] => Fail (IndexError "list index out of range")
  | kv :: _ => Done kv
  end.

(** The dicts as [ServerListWidget.update] reads them. *)
Definition as_servers_dict (servers : gmap string port_dict) : servers_dict :=
  (list_to_map : port_dict -> gmap string string) <$> servers.

(** What the handlers of the server tab read and write: the config's
    [is_modifiable('server')], the widgets, [self.tor_cb.isChecked()],
    [self.protocol], [self.servers], the network's lists and parameters,
    and the calls of [network.set_parameters] made so far. *)
Record server_tab : Type := {
  server_modifiable : bool;
  server_host : line_edit;
  server_port : line_edit;
  ssl_cb : check_box;
  autoconnect_cb : check_box;
  preferred_only_cb : check_box;
  tor_cb_checked : bool;
  protocol : option string;
  servers : gmap string port_dict;
  servers_list : tree_widget server_row;
  network : network_view;
  parameters : Network.parameters;
  set_parameters_calls : list Network.parameters
}.

Definition set_server_host (e : line_edit) (t : server_tab) : server_tab :=
  {| server_modifiable := server_modifiable t; server_host := e;
     server_port := server_port t; ssl_cb := ssl_cb t;
     autoconnect_cb := autoconnect_cb t; preferred_only_cb := preferred_only_cb t;
     tor_cb_checked := tor_cb_checked t; protocol := protocol t;
     servers := servers t; servers_list := servers_list t; network := network t;
     parameters := parameters t; set_parameters_calls := set_parameters_calls t |}.

Definition set_server_port (e : line_edit) (t : server_tab) : server_tab :=
  {| server_modifiable := server_modifiable t; server_host := server_host t;
     server_port := e; ssl_cb := ssl_cb t;
     autoconnect_cb := autoconnect_cb t; preferred_only_cb := preferred_only_cb t;
     tor_cb_checked := tor_cb_checked t; protocol := protocol t;
     servers := servers t; servers_list := servers_list t; network := network t;
     parameters := parameters t; set_parameters_calls := set_parameters_calls t |}.

Definition set_ssl_cb (c : check_box) (t : server_tab) : server_tab :=
  {| server_modifiable := server_modifiable t; server_host := server_host t;
     server_port := server_port t; ssl_cb := c;
     autoconnect_cb := autoconnect_cb t; preferred_only_cb := preferred_only_cb t;
     tor_cb_checked := tor_cb_checked t; protocol := protocol t;
     servers := servers t; servers_list := servers_list t; network := network t;
     parameters := parameters t; set_parameters_calls := set_parameters_calls t |}.

Definition set_autoconnect_cb (c : check_box) (t : server_tab) : server_tab :=
  {| server_modifiable := server_modifiable t; server_host := server_host t;
     server_port := server_port t; ssl_cb := ssl_cb t;
     autoconnect_cb := c; preferred_only_cb := preferred_only_cb t;
     tor_cb_checked := tor_cb_checked t; protocol := protocol t;
     servers := servers t; servers_list := servers_list t; network := network t;
     parameters := parameters t; set_parameters_calls := set_parameters_calls t |}.

Definition set_preferred_only_cb (c : check_box) (t : server_tab) : server_tab :=
  {| server_modifiable := server_modifiable t; server_host := server_host t;
     server_port := server_port t; ssl_cb := ssl_cb t;
     autoconnect_cb := autoconnect_cb t; preferred_only_cb := c;
     tor_cb_checked := tor_cb_checked t; protocol := protocol t;
     servers := servers t; servers_list := servers_list t; network := network t;
     parameters := parameters t; set_parameters_calls := set_parameters_calls t |}.

Definition set_servers (s : gmap string port_dict) (t : server_tab) : server_tab :=
  {| server_modifiable := server_modifiable t; server_host := server_host t;
     server_port := server_port t; ssl_cb := ssl_cb t;
     autoconnect_cb := autoconnect_cb t; preferred_only_cb := preferred_only_cb t;
     tor_cb_checked := tor_cb_checked t; protocol := protocol t;
     servers := s; servers_list := servers_list t; network := network t;
     parameters := parameters t; set_parameters_calls := set_parameters_calls t |}.

Definition set_servers_list (w : tree_widget server_row) (t : server_tab) : server_tab :=
  {| server_modifiable := server_modifiable t; server_host := server_host t;
     server_port := server_port t; ssl_cb := ssl_cb t;
     autoconnect_cb := autoconnect_cb t; preferred_only_cb := preferred_only_cb t;
     tor_cb_checked := tor_cb_checked t; protocol := protocol t;
     servers := servers t; servers_list := w; network := network t;
     parameters := parameters t; set_parameters_calls := set_parameters_calls t |}.

(** [network.set_parameters(host, port, protocol, proxy, auto_connect)]:
    the call is recorded. *)
Definition network_set_parameters (p : Network.parameters) (t : server_tab) : server_tab :=
  {| server_modifiable := server_modifiable t; server_host := server_host t;
     server_port := server_port t; ssl_cb := ssl_cb t;
     autoconnect_cb := autoconnect_cb t; preferred_only_cb := preferred_only_cb t;
     tor_cb_checked := tor_cb_checked t; protocol := protocol t;
     servers := servers t; servers_list := servers_list t; network := network t;
     parameters := parameters t;
     set_parameters_calls := set_parameters_calls t ++ [p] |}.

(** [set_protocol(protocol)]. *)
Definition set_protocol (p : string) (t : server_tab) : server_tab :=
  {| server_modifiable := server_modifiable t; server_host := server_host t;
     server_port := server_port t; ssl_cb := ssl_cb t;
     autoconnect_cb := autoconnect_cb t; preferred_only_cb := preferred_only_cb t;
     tor_cb_checked := tor_cb_checked t;
     protocol := if bool_decide (Some p = protocol t) then protocol t else Some p;
     servers := servers t; servers_list := servers_list t; network := network t;
     parameters := parameters t; set_parameters_calls := set_parameters_calls t |}.

(** [get_set_server_flags()]. *)
Definition get_set_server_flags (t : server_tab) : bool * bool :=
  (server_modifiable t,
   negb (isChecked (autoconnect_cb t)) && negb (isChecked (preferred_only_cb t))).

(** [can_set_server(server)]. *)
Definition can_set_server (t : server_tab) (server : string) : bool :=
  fst (get_set_server_flags t)
  && negb (server_is_blacklisted (network t) server)
  && (negb (is_whitelist_only (network t)) || server_is_whitelisted (network t) server).

(** [enable_set_server()]. *)
Definition enable_set_server (t : server_tab) : server_tab :=
  let '(modifiable, notauto) := get_set_server_flags t in
  if modifiable then
    set_server_port (le_setEnabled notauto (server_port t))
      (set_server_host (le_setEnabled notauto (server_host t)) t)
  else
    set_server_port (le_setEnabled false (server_port t))
      (set_server_host (le_setEnabled false (server_host t))
         (set_autoconnect_cb (setEnabled false (autoconnect_cb t)) t)).

(** [set_server(onion_hack)]. *)
Definition set_server (onion_hack : bool) (t : server_tab) : server_tab :=
  let proxy := Network.proxy (parameters t) in
  let host := text (server_host t) in
  let port := text (server_port t) in
  let protocol := if isChecked (ssl_cb t) then "s"%string else "t"%string in
  let '(protocol, t) :=
    if onion_hack && is_onion_host host
    then ("t"%string, set_ssl_cb (setChecked false (ssl_cb t)) t)
    else (protocol, t) in
  let auto_connect := isChecked (autoconnect_cb t) in
  network_set_parameters
    {| Network.host := host; Network.port := port; Network.protocol := protocol;
       Network.proxy := proxy; Network.auto_connect := auto_connect |} t.

(** [change_protocol(use_ssl)], the [clicked] slot of [ssl_cb];
    [DEFAULT_PORTS] is [networks.net.DEFAULT_PORTS]. *)
Definition change_protocol (DEFAULT_PORTS : port_dict) (use_ssl : bool) (t : server_tab)
  : result server_tab :=
  let p := if use_ssl then "s"%string else "t"%string in
  let host := text (server_host t) in
  let pp := default DEFAULT_PORTS (servers t !! host) in
  let chosen :=
    match dict_get pp p with
    | Some port => Done (p, port)
    | None => first_item pp
    end in
  match chosen with
  | Fail e => Fail e
  | Done (p, port) =>
      let t := set_server_host (setText host (server_host t)) t in
      let t := set_server_port (setText port (server_port t)) t in
      let t := set_protocol p t in
      Done (set_server false t)
  end.

(** [x in protocol_letters] for [protocol_letters = 'ts']: [x] is a
    substring. *)
Definition in_protocol_letters (x : string) : bool := bytes_contains x "ts".

(** [change_server(host, protocol)]; [protocol] may be [None]. *)
Definition change_server (DEFAULT_PORTS : port_dict) (host : string)
           (protocol : option string) (t : server_tab) : result server_tab :=
  let pp := default DEFAULT_PORTS (servers t !! host) in
  let protocol :=
    match protocol with
    | Some p => if truthy_str p && negb (in_protocol_letters p) then None else Some p
    | None => None
    end in
  let chosen : option (string * string) :=
    match protocol with
    | Some p =>
        if truthy_str p then
          match dict_get pp p with
          | Some port => Some (p, port)
          | None => None
          end
        else None
    | None => None
    end in
  let chosen : result (string * string) :=
    match chosen with
    | Some c => Done c
    | None =>
        match dict_get pp "s" with
        | Some port => Done ("s"%string, port)
        | None => first_item pp
        end
    end in
  match chosen with
  | Fail e => Fail e
  | Done (protocol, port) =>
      let t := set_server_host (setText host (server_host t)) t in
      let t := set_server_port (setText port (server_port t)) t in
      Done (set_ssl_cb (setChecked (String.eqb protocol "s") (ssl_cb t)) t)
  end.

(** The network has taken over parameters: [get_parameters()] gives
    them from now on. *)
Definition with_parameters (p : Network.parameters) (t : server_tab) : server_tab :=
  {| server_modifiable := server_modifiable t; server_host := server_host t;
     server_port := server_port t; ssl_cb := ssl_cb t;
     autoconnect_cb := autoconnect_cb t; preferred_only_cb := preferred_only_cb t;
     tor_cb_checked := tor_cb_checked t; protocol := protocol t;
     servers := servers t; servers_list := servers_list t; network := network t;
     parameters := p; set_parameters_calls := set_parameters_calls t |}.

(** The statements of [NetworkChoiceLayout.update] that act on the
    widgets of the server tab and on the server list (the texts of the
    labels and the widgets of the other tabs are not part of
    [server_tab]); [get_servers] is what [network.get_servers()]
    returns. *)
Definition update (get_servers : gmap string port_dict) (t : server_tab) : server_tab :=
  let host := Network.host (parameters t) in
  let port := Network.port (parameters t) in
  let protocol := Network.protocol (parameters t) in
  let auto_connect := Network.auto_connect (parameters t) in
  let preferred_only := is_whitelist_only (network t) in
  let t :=
    if negb (hasFocus (server_host t)) && negb (hasFocus (server_port t))
    then set_server_port (setText port (server_port t))
           (set_server_host (setText host (server_host t)) t)
    else t in
  let t := set_ssl_cb (setChecked (String.eqb protocol "s") (ssl_cb t)) t in
  let ssl_disable :=
    isChecked (ssl_cb t) && negb (tor_cb_checked t) && negb (is_onion_host host) in
  let t := set_ssl_cb (setDisabled ssl_disable (ssl_cb t)) t in
  let t := set_autoconnect_cb (setChecked auto_connect (autoconnect_cb t)) t in
  let t := set_preferred_only_cb (setChecked preferred_only (preferred_only_cb t)) t in
  let t := set_servers get_servers t in
  let t := set_protocol protocol t in
  let t :=
    set_servers_list
      (ServerListWidget.update (network t) (as_servers_dict (servers t))
         (default EmptyString (ServerTab.protocol t)) (tor_cb_checked t) (servers_list t))
      t in
  enable_set_server t.

(** [networks.net.DEFAULT_PORTS] of the main network. *)
Definition demo_default_ports : port_dict :=
  [("t", "50001"); ("s", "50002")]%string.

(** A server tab after the user typed a host that offers TCP only, with
    the SSL box checked; the server list shows one preferred server,
    which is selected. *)
Definition demo_tab : server_tab :=
  {| server_modifiable := true;
     server_host := {| text := "tcp-only.imaginary.cash"; le_enabled := true;
                       hasFocus := false |};
     server_port := {| text := "50002"; le_enabled := true; hasFocus := false |};
     ssl_cb := {| isChecked := true; isEnabled := true |};
     autoconnect_cb := {| isChecked := false; isEnabled := true |};
     preferred_only_cb := {| isChecked := false; isEnabled := true |};
     tor_cb_checked := false;
     protocol := Some "s"%string;
     servers := {[ "tcp-only.imaginary.cash"%string :=
                     [("pruning", "-"); ("t", "50001"); ("version", "1.4")]%string;
                   "bch.imaginary.cash"%string :=
                     [("s", "50002"); ("t", "50001")]%string ]};
     servers_list :=
       {| rows := [server_item demo_network "t" "bch.imaginary.cash"
                     (list_to_map [("s", "50002"); ("t", "50001")]%string) "50001"];
          current := Some 0%nat; auto_scroll := true; indentation := 0;
          hdr := default_header |};
     network := demo_network;
     parameters := {| Network.host := "bch.imaginary.cash"; Network.port := "50002";
                      Network.protocol := "s"; Network.proxy := None;
                      Network.auto_connect := false |};
     set_parameters_calls := [] |}.

End ServerTab.

(** Entries of [servers.items()] in strictly increasing order of the
    hosts. *)
Definition host_lt (a b : string * gmap string string) : Prop :=
  String.ltb (fst a) (fst b) = true.

(** ** The context menu of [ServerListWidget] *)

Module ServerMenu.
Import Renderers ServerTab.

(** The texts of the entries.  [HostOf] is [server.split(':',1)[0]];
    the others are, in the order below: "Use as server", "Server banned",
    "Unban server" and "Ban server" (after the symbols of
    [ServerFlag.Banned]), "Remove from preferred" and "Add to preferred"
    (after the symbols of [ServerFlag.Preferred]), and "Remove pinned
    certificate". *)
Inductive label : Type :=
| UseAsServer
| HostOf (host : string)
| ServerBanned
| UnbanServer
| BanServer
| RemoveFromPreferred
| AddToPreferred
| RemovePinnedCertificate.

(** What an entry calls when it is triggered. *)
Inductive slot : Type :=
| Nothing
| SetServer (server : string)
| SetWhitelisted (server : string) (flag : bool)
| SetBlacklisted (server : string) (bl : bool)
| OnRemovePinnedCertificate (server : string).

Inductive entry : Type :=
| Action (text : label) (enabled : bool) (triggered : slot)
| Separator.

(** [server.split(':', 1)[0]]: up to the first colon. *)
Fixpoint before_colon (s : string) : string :=
  match s with
  | EmptyString => EmptyString
  | String c rest =>
      if Ascii.eqb c ":" then EmptyString else String c (before_colon rest)
  end.

(** [create_menu(position)] of [ServerListWidget]: [None] when the
    method returns without a menu. *)
Definition create_menu (t : server_tab) : option (list entry) :=
  match currentItem (servers_list t) with
  | None => None
  | Some item =>
      let server := sr_server item in
      let use_action :=
        if can_set_server t server
        then (UseAsServer, true, SetServer server)
        else (HostOf (before_colon server), false, Nothing) in
      let flagval := sr_flagval item in
      let iswl := has_flag flagval ServerFlag.Preferred in
      let '(use_action, isbl, optxt, fav) :=
        if has_flag flagval ServerFlag.Banned then
          ((ServerBanned, false, snd use_action), true, UnbanServer, [])
        else
          (use_action, false, BanServer,
           [Action (if has_flag flagval ServerFlag.Preferred
                    then RemoveFromPreferred else AddToPreferred)
                   true (SetWhitelisted server (negb iswl))]) in
      let '(use_text, use_enabled, use_slot) := use_action in
      Some ([Action use_text use_enabled use_slot; Separator]
            ++ fav
            ++ [Action optxt true (SetBlacklisted server (negb isbl))]
            ++ (if has_flag flagval ServerFlag.BadCertificate
                then [Action RemovePinnedCertificate true (OnRemovePinnedCertificate server)]
                else []))
  end.

End ServerMenu.

(** ** The proxy tab of [NetworkChoiceLayout] *)

Module ProxyTab.
Import ServerTab.

(** What the code uses of a [QComboBox]: the texts of the items, the
    current index ([-1]: none) and whether it is enabled. *)
Record combo_box : Type := {
  items : list string;
  currentIndex : Z;
  cb_enabled : bool
}.

Fixpoint find_from (s : string) (l : list string) (i : Z) : Z :=
  match l with
  | [] => -1
  | x :: rest => if String.eqb x s then i else find_from s rest (i + 1)
  end.

(** [findText(s)]: the index of the first item with this text, or [-1]. *)
Definition findText (s : string) (c : combo_box) : Z := find_from s (items c) 0.

Definition valid_index (i : Z) (c : combo_box) : bool :=
  (0 <=? i) && (i <? Z.of_nat (length (items c))).

(** [currentText()]: empty without a current item. *)
Definition currentText (c : combo_box) : string :=
  if valid_index (currentIndex c) c
  then default EmptyString (items c !! Z.to_nat (currentIndex c))
  else EmptyString.

Definition cb_setEnabled (b : bool) (c : combo_box) : combo_box :=
  {| items := items c; currentIndex := currentIndex c; cb_enabled := b |}.

(** What the handlers of the proxy tab read and write: the config (its
    [is_modifiable('proxy')] and its values), the widgets, [self.tor_use],
    [self.tor_proxy], [network.get_parameters()] and the calls of
    [network.set_parameters] made so far. *)
Record proxy_tab : Type := {
  proxy_modifiable : bool;
  config : gmap string Config.value;
  proxy_cb : check_box;
  proxy_mode : combo_box;
  proxy_host : line_edit;
  proxy_port : line_edit;
  proxy_user : line_edit;
  proxy_password : line_edit;
  tor_cb : check_box;
  tor_cb_text : string;
  tor_use : bool;
  tor_proxy : option (string * Z);
  net_parameters : Network.parameters;
  net_calls : list Network.parameters
}.

Definition set_config (c : gmap string Config.value) (t : proxy_tab) : proxy_tab :=
  {| proxy_modifiable := proxy_modifiable t; config := c; proxy_cb := proxy_cb t;
     proxy_mode := proxy_mode t; proxy_host := proxy_host t; proxy_port := proxy_port t;
     proxy_user := proxy_user t; proxy_password := proxy_password t; tor_cb := tor_cb t;
     tor_cb_text := tor_cb_text t; tor_use := tor_use t; tor_proxy := tor_proxy t;
     net_parameters := net_parameters t; net_calls := net_calls t |}.

Definition set_proxy_cb (c : check_box) (t : proxy_tab) : proxy_tab :=
  {| proxy_modifiable := proxy_modifiable t; config := config t; proxy_cb := c;
     proxy_mode := proxy_mode t; proxy_host := proxy_host t; proxy_port := proxy_port t;
     proxy_user := proxy_user t; proxy_password := proxy_password t; tor_cb := tor_cb t;
     tor_cb_text := tor_cb_text t; tor_use := tor_use t; tor_proxy := tor_proxy t;
     net_parameters := net_parameters t; net_calls := net_calls t |}.

Definition set_proxy_mode (c : combo_box) (t : proxy_tab) : proxy_tab :=
  {| proxy_modifiable := proxy_modifiable t; config := config t; proxy_cb := proxy_cb t;
     proxy_mode := c; proxy_host := proxy_host t; proxy_port := proxy_port t;
     proxy_user := proxy_user t; proxy_password := proxy_password t; tor_cb := tor_cb t;
     tor_cb_text := tor_cb_text t; tor_use := tor_use t; tor_proxy := tor_proxy t;
     net_parameters := net_parameters t; net_calls := net_calls t |}.

Definition set_proxy_host (e : line_edit) (t : proxy_tab) : proxy_tab :=
  {| proxy_modifiable := proxy_modifiable t; config := config t; proxy_cb := proxy_cb t;
     proxy_mode := proxy_mode t; proxy_host := e; proxy_port := proxy_port t;
     proxy_user := proxy_user t; proxy_password := proxy_password t; tor_cb := tor_cb t;
     tor_cb_text := tor_cb_text t; tor_use := tor_use t; tor_proxy := tor_proxy t;
     net_parameters := net_parameters t; net_calls := net_calls t |}.

Definition set_proxy_port (e : line_edit) (t : proxy_tab) : proxy_tab :=
  {| proxy_modifiable := proxy_modifiable t; config := config t; proxy_cb := proxy_cb t;
     proxy_mode := proxy_mode t; proxy_host := proxy_host t; proxy_port := e;
     proxy_user := proxy_user t; proxy_password := proxy_password t; tor_cb := tor_cb t;
     tor_cb_text := tor_cb_text t; tor_use := tor_use t; tor_proxy := tor_proxy t;
     net_parameters := net_parameters t; net_calls := net_calls t |}.

Definition set_proxy_user (e : line_edit) (t : proxy_tab) : proxy_tab :=
  {| proxy_modifiable := proxy_modifiable t; config := config t; proxy_cb := proxy_cb t;
     proxy_mode := proxy_mode t; proxy_host := proxy_host t; proxy_port := proxy_port t;
     proxy_user := e; proxy_password := proxy_password t; tor_cb := tor_cb t;
     tor_cb_text := tor_cb_text t; tor_use := tor_use t; tor_proxy := tor_proxy t;
     net_parameters := net_parameters t; net_calls := net_calls t |}.

Definition set_proxy_password (e : line_edit) (t : proxy_tab) : proxy_tab :=
  {| proxy_modifiable := proxy_modifiable t; config := config t; proxy_cb := proxy_cb t;
     proxy_mode := proxy_mode t; proxy_host := proxy_host t; proxy_port := proxy_port t;
     proxy_user := proxy_user t; proxy_password := e; tor_cb := tor_cb t;
     tor_cb_text := tor_cb_text t; tor_use := tor_use t; tor_proxy := tor_proxy t;
     net_parameters := net_parameters t; net_calls := net_calls t |}.

Definition set_tor_cb (c : check_box) (t : proxy_tab) : proxy_tab :=
  {| proxy_modifiable := proxy_modifiable t; config := config t; proxy_cb := proxy_cb t;
     proxy_mode := proxy_mode t; proxy_host := proxy_host t; proxy_port := proxy_port t;
     proxy_user := proxy_user t; proxy_password := proxy_password t; tor_cb := c;
     tor_cb_text := tor_cb_text t; tor_use := tor_use t; tor_proxy := tor_proxy t;
     net_parameters := net_parameters t; net_calls := net_calls t |}.

Definition set_tor_cb_text (s : string) (t : proxy_tab) : proxy_tab :=
  {| proxy_modifiable := proxy_modifiable t; config := config t; proxy_cb := proxy_cb t;
     proxy_mode := proxy_mode t; proxy_host := proxy_host t; proxy_port := proxy_port t;
     proxy_user := proxy_user t; proxy_password := proxy_password t; tor_cb := tor_cb t;
     tor_cb_text := s; tor_use := tor_use t; tor_proxy := tor_proxy t;
     net_parameters := net_parameters t; net_calls := net_calls t |}.

Definition set_tor_use (b : bool) (t : proxy_tab) : proxy_tab :=
  {| proxy_modifiable := proxy_modifiable t; config := config t; proxy_cb := proxy_cb t;
     proxy_mode := proxy_mode t; proxy_host := proxy_host t; proxy_port := proxy_port t;
     proxy_user := proxy_user t; proxy_password := proxy_password t; tor_cb := tor_cb t;
     tor_cb_text := tor_cb_text t; tor_use := b; tor_proxy := tor_proxy t;
     net_parameters := net_parameters t; net_calls := net_calls t |}.

Definition set_tor_proxy (p : option (string * Z)) (t : proxy_tab) : proxy_tab :=
  {| proxy_modifiable := proxy_modifiable t; config := config t; proxy_cb := proxy_cb t;
     proxy_mode := proxy_mode t; proxy_host := proxy_host t; proxy_port := proxy_port t;
     proxy_user := proxy_user t; proxy_password := proxy_password t; tor_cb := tor_cb t;
     tor_cb_text := tor_cb_text t; tor_use := tor_use t; tor_proxy := p;
     net_parameters := net_parameters t; net_calls := net_calls t |}.

(** [network.set_parameters(...)]: the call is recorded. *)
Definition network_set_parameters (p : Network.parameters) (t : proxy_tab) : proxy_tab :=
  {| proxy_modifiable := proxy_modifiable t; config := config t; proxy_cb := proxy_cb t;
     proxy_mode := proxy_mode t; proxy_host := proxy_host t; proxy_port := proxy_port t;
     proxy_user := proxy_user t; proxy_password := proxy_password t; tor_cb := tor_cb t;
     tor_cb_text := tor_cb_text t; tor_use := tor_use t; tor_proxy := tor_proxy t;
     net_parameters := net_parameters t; net_calls := net_calls t ++ [p] |}.

(** [set_proxy()]. *)
Definition set_proxy (t : proxy_tab) : proxy_tab :=
  let np := net_parameters t in
  let proxy :=
    if isChecked (proxy_cb t)
    then Some {| Network.px_mode := lower (currentText (proxy_mode t));
                 Network.px_host := text (proxy_host t);
                 Network.px_port := text (proxy_port t);
                 Network.px_user := Some (text (proxy_user t));
                 Network.px_password := Some (text (proxy_password t)) |}
    else None in
  network_set_parameters
    {| Network.host := Network.host np; Network.port := Network.port np;
       Network.protocol := Network.protocol np; Network.proxy := proxy;
       Network.auto_connect := Network.auto_connect np |} t.

(** [self.proxy_mode.setCurrentIndex(i)]: an index that is not one of
    an item clears the current item; when the current index changes, the
    signal [currentIndexChanged] runs its slot [set_proxy]. *)
Definition proxy_mode_setCurrentIndex (i : Z) (t : proxy_tab) : proxy_tab :=
  let c := proxy_mode t in
  let i := if valid_index i c then i else -1 in
  let t1 := set_proxy_mode {| items := items c; currentIndex := i;
                              cb_enabled := cb_enabled c |} t in
  if i =? currentIndex c then t1 else set_proxy t1.

(** [check_disable_proxy(b)]. *)
Definition check_disable_proxy (b : bool) (t : proxy_tab) : proxy_tab :=
  let b := if negb (proxy_modifiable t) then false else b in
  let b := if tor_use t then false else b in
  set_proxy_password (le_setEnabled b (proxy_password t))
    (set_proxy_user (le_setEnabled b (proxy_user t))
       (set_proxy_port (le_setEnabled b (proxy_port t))
          (set_proxy_host (le_setEnabled b (proxy_host t))
             (set_proxy_mode (cb_setEnabled b (proxy_mode t)) t)))).

(** [_set_tor_use(use_it)]. *)
Definition _set_tor_use (use_it : bool) (t : proxy_tab) : proxy_tab :=
  let t := set_tor_use use_it t in
  let t := set_config (Config.set_key "tor_use" (Config.VBool (tor_use t)) (config t)) t in
  let t := set_tor_cb (setChecked (tor_use t) (tor_cb t)) t in
  let t := set_proxy_cb (setEnabled (negb (tor_use t)) (proxy_cb t)) t in
  check_disable_proxy (negb (tor_use t)) t.

(** [same_proxy] of [suggest_proxy]: the manual settings are those of
    the proxy found. *)
Definition same_as (h : string) (p : Z) (t : proxy_tab) : bool :=
  (currentIndex (proxy_mode t) =? findText "SOCKS5" (proxy_mode t))
  && String.eqb (text (proxy_host t)) h
  && String.eqb (text (proxy_port t)) (pretty p)
  && isChecked (proxy_cb t).

(** [suggest_proxy(found_proxy)], the slot of [TorDetector.found_proxy]. *)
Definition suggest_proxy (found_proxy : TorProbe.found) (t : proxy_tab) : proxy_tab :=
  match found_proxy with
  | None => _set_tor_use false (set_tor_cb (setEnabled false (tor_cb t)) t)
  | Some (h, p) =>
      let t := set_tor_proxy (Some (h, p)) t in
      let t := set_tor_cb_text (String.append "Use Tor proxy at port " (pretty p)) t in
      let same_proxy := same_as h p t in
      let t := _set_tor_use same_proxy t in
      set_tor_cb (setEnabled true (tor_cb t)) t
  end.

(** [use_tor_proxy(use_it)], the [clicked] slot of [tor_cb]. *)
Definition use_tor_proxy (use_it : bool) (t : proxy_tab) : result proxy_tab :=
  let t := _set_tor_use use_it t in
  if negb use_it then
    Done (set_proxy (set_proxy_cb (setChecked false (proxy_cb t)) t))
  else
    let socks5_mode_index := findText "SOCKS5" (proxy_mode t) in
    if socks5_mode_index =? -1 then Done t
    else
      let t := proxy_mode_setCurrentIndex socks5_mode_index t in
      let t := set_proxy_host (setText "127.0.0.1" (proxy_host t)) t in
      match tor_proxy t with
      | None => Fail (TypeError "'NoneType' object is not subscriptable")
      | Some (_, p) =>
          let t := set_proxy_port (setText (pretty p) (proxy_port t)) t in
          let t := set_proxy_user (setText EmptyString (proxy_user t)) t in
          let t := set_proxy_password (setText EmptyString (proxy_password t)) t in
          let t := set_proxy_cb (setChecked true (proxy_cb t)) t in
          Done (set_proxy t)
      end.

(** [NetworkChoiceLayout.on_tor_port_changed(controller)]. *)
Definition on_tor_port_changed (controller : TorProbe.TorController) (t : proxy_tab)
  : proxy_tab :=
  match TorProbe.tc_active_socks_port controller with
  | Some port =>
      if negb (truthy_port (Some port)) || negb (TorProbe.tc_is_enabled controller)
         || negb (tor_use t)
      then t
      else set_proxy_port (setText (pretty port) (proxy_port t)) t
  | None => t
  end.

(** [fill_in_proxy_settings()]; the value of 'tor_use' in the config is
    a [bool]. *)
Definition fill_in_proxy_settings (t : proxy_tab) : proxy_tab :=
  let proxy_config :=
    match Network.proxy (net_parameters t) with
    | Some pc => pc
    | None => {| Network.px_mode := "none"; Network.px_host := "localhost";
                 Network.px_port := "9050"; Network.px_user := None;
                 Network.px_password := None |}
    end in
  let t := _set_tor_use
             (Config.truthy (Config.get (config t) "tor_use" (Config.VBool false))) t in
  let b := negb (String.eqb (Network.px_mode proxy_config) "none") in
  let t := check_disable_proxy b t in
  let t :=
    if b then
      let t := set_proxy_cb (setChecked true (proxy_cb t)) t in
      proxy_mode_setCurrentIndex
        (findText (upper (Network.px_mode proxy_config)) (proxy_mode t)) t
    else t in
  let t := set_proxy_host (setText (Network.px_host proxy_config) (proxy_host t)) t in
  let t := set_proxy_port (setText (Network.px_port proxy_config) (proxy_port t)) t in
  let t := set_proxy_user
             (setText (default EmptyString (Network.px_user proxy_config))
                (proxy_user t)) t in
  set_proxy_password
    (setText (default EmptyString (Network.px_password proxy_config))
       (proxy_password t)) t.

(** The [clicked] slots of [proxy_cb], in the order they are connected:
    [check_disable_proxy], then [set_proxy].  The box has its new state
    when they run. *)
Definition proxy_cb_clicked (b : bool) (t : proxy_tab) : proxy_tab :=
  let t := set_proxy_cb (setChecked b (proxy_cb t)) t in
  set_proxy (check_disable_proxy b t).

(** The [clicked] slot of [tor_cb]; the box has its new state when it
    runs. *)
Definition tor_cb_clicked (b : bool) (t : proxy_tab) : result proxy_tab :=
  use_tor_proxy b (set_tor_cb (setChecked b (tor_cb t)) t).

(** The slot [set_proxy] of [editingFinished] of the four line edits,
    after the user has entered [s]. *)
Inductive field : Type := Host | Port | User | Password.

Definition field_of (f : field) (t : proxy_tab) : line_edit :=
  match f with
  | Host => proxy_host t
  | Port => proxy_port t
  | User => proxy_user t
  | Password => proxy_password t
  end.

Definition field_edited (f : field) (s : string) (t : proxy_tab) : proxy_tab :=
  set_proxy
    match f with
    | Host => set_proxy_host (setText s (proxy_host t)) t
    | Port => set_proxy_port (setText s (proxy_port t)) t
    | User => set_proxy_user (setText s (proxy_user t)) t
    | Password => set_proxy_password (setText s (proxy_password t)) t
    end.

(** What happens to the proxy tab: clicks on the two boxes, an entry in
    a line edit, the choice of a proxy mode (each possible on an enabled
    widget only), a result of the Tor detector, a change of the port of
    the Tor controller. *)
Inductive event : Type :=
| ProxyCbClicked (b : bool)
| TorCbClicked (b : bool)
| FieldEdited (f : field) (s : string)
| ModeChosen (i : Z)
| FoundProxy (found_proxy : TorProbe.found)
| TorPortChanged (controller : TorProbe.TorController).

Definition possible (e : event) (t : proxy_tab) : bool :=
  match e with
  | ProxyCbClicked _ => isEnabled (proxy_cb t)
  | TorCbClicked _ => isEnabled (tor_cb t)
  | FieldEdited f _ => le_enabled (field_of f t)
  | ModeChosen i => cb_enabled (proxy_mode t) && valid_index i (proxy_mode t)
  | FoundProxy _ => true
  | TorPortChanged _ => true
  end.

Definition handle (e : event) (t : proxy_tab) : result proxy_tab :=
  match e with
  | ProxyCbClicked b => Done (proxy_cb_clicked b t)
  | TorCbClicked b => tor_cb_clicked b t
  | FieldEdited f s => Done (field_edited f s t)
  | ModeChosen i => Done (proxy_mode_setCurrentIndex i t)
  | FoundProxy f => Done (suggest_proxy f t)
  | TorPortChanged c => Done (on_tor_port_changed c t)
  end.

(** The events in turn; one that is not possible does not happen. *)
Fixpoint handle_all (es : list event) (t : proxy_tab) : result proxy_tab :=
  match es with
  | [] => Done t
  | e :: rest =>
      if possible e t then
        match handle e t with
        | Done t' => handle_all rest t'
        | Fail err => Fail err
        end
      else handle_all rest t
  end.

(** The widgets of the manual proxy settings are all disabled. *)
Definition proxy_fields_disabled (t : proxy_tab) : Prop :=
  cb_enabled (proxy_mode t) = false /\ le_enabled (proxy_host t) = false
  /\ le_enabled (proxy_port t) = false /\ le_enabled (proxy_user t) = false
  /\ le_enabled (proxy_password t) = false.

(** What holds of the proxy tab between events. *)
Definition consistent (t : proxy_tab) : Prop :=
  (isEnabled (tor_cb t) = true -> tor_proxy t <> None)
  /\ isChecked (tor_cb t) = tor_use t
  /\ isEnabled (proxy_cb t) = negb (tor_use t)
  /\ (tor_use t = true -> proxy_fields_disabled t)
  /\ items (proxy_mode t) = ["SOCKS4"; "SOCKS5"; "HTTP"]%string
  /\ config t !! "tor_use"%string = Some (Config.VBool (tor_use t)).

(** The widgets as [__init__] creates them, before
    [fill_in_proxy_settings]. *)
Definition created (modifiable : bool) (cfg : gmap string Config.value)
           (np : Network.parameters) : proxy_tab :=
  let edit := {| text := EmptyString; le_enabled := true; hasFocus := false |} in
  {| proxy_modifiable := modifiable; config := cfg;
     proxy_cb := {| isChecked := false; isEnabled := true |};
     proxy_mode := {| items := ["SOCKS4"; "SOCKS5"; "HTTP"]%string; currentIndex := 0;
                      cb_enabled := true |};
     proxy_host := edit; proxy_port := edit; proxy_user := edit; proxy_password := edit;
     tor_cb := {| isChecked := false; isEnabled := false |};
     tor_cb_text := "Use Tor Proxy";
     tor_use := false; tor_proxy := None;
     net_parameters := np; net_calls := [] |}.

(** The proxy of the Tor client at [port], as [use_tor_proxy] enters it. *)
Definition tor_proxy_dict (port : Z) : Network.proxy_dict :=
  {| Network.px_mode := "socks5"; Network.px_host := "127.0.0.1";
     Network.px_port := pretty port; Network.px_user := Some EmptyString;
     Network.px_password := Some EmptyString |}.

(** The parameters the network has, with another proxy. *)
Definition with_proxy (proxy : option Network.proxy_dict) (np : Network.parameters)
  : Network.parameters :=
  {| Network.host := Network.host np; Network.port := Network.port np;
     Network.protocol := Network.protocol np; Network.proxy := proxy;
     Network.auto_connect := Network.auto_connect np |}.

(** A tab created without a saved proxy, after the detector found the
    Tor client at port 9050. *)
Definition demo_parameters : Network.parameters :=
  {| Network.host := "bch.imaginary.cash"; Network.port := "50002";
     Network.protocol := "s"; Network.proxy := None; Network.auto_connect := true |}.

Definition demo_proxy_tab : proxy_tab :=
  suggest_proxy (Some ("127.0.0.1"%string, 9050))
    (fill_in_proxy_settings (created true ∅ demo_parameters)).

(** Reduction of the projections and setters of the tab's record. *)
Ltac px_cbn :=
  cbn [proxy_modifiable config proxy_cb proxy_mode proxy_host proxy_port proxy_user
       proxy_password tor_cb tor_cb_text tor_use tor_proxy net_parameters net_calls
       set_config set_proxy_cb set_proxy_mode set_proxy_host set_proxy_port
       set_proxy_user set_proxy_password set_tor_cb set_tor_cb_text set_tor_use
       set_tor_proxy network_set_parameters
       items currentIndex cb_enabled cb_setEnabled
       text le_enabled hasFocus setText le_setEnabled
       isChecked isEnabled setChecked setEnabled negb andb].

(** Closing a goal [consistent t'] where [t'] differs from a consistent
    [t] in fields that [consistent] does not read, or reads the same. *)
Ltac consistent_same Hc :=
  let Htp := fresh in let Hchk := fresh in let Hen := fresh in
  let Hdis := fresh in let Hitems := fresh in let Hcfg := fresh in
  pose proof Hc as (Htp & Hchk & Hen & Hdis & Hitems & Hcfg);
  unfold consistent; px_cbn;
  split; [assumption|]; split; [assumption|]; split; [assumption|];
  split; [intros Hu; unfold proxy_fields_disabled; px_cbn; exact (Hdis Hu)|];
  split; assumption.

End ProxyTab.

(** ** The rhythm of the worker of [TorDetector] *)

Module TorPeriod.
Import TorProbe TorThread.

(** Clock readings each at least 10 s (the timeout of [get]) after the
    one before. *)
Fixpoint apart (times : list Z) : Prop :=
  match times with
  | t1 :: rest =>
      match rest with
      | t2 :: _ => t1 + get_timeout_ms <= t2
      | [] => True
      end /\ apart rest
  | [] => True
  end.

(** A running worker on the empty queue [q], left alone since the clock
    showed [t0], the pass log being [L] then and [L ++ times] now: where
    it stands in [run], and what the clock and a pending deadline are to
    the passes made. *)
Definition left_alone {World : Type} (q : nat) (t0 : Z) (L times : list Z)
           (d : detector World) : Prop :=
  running d = true /\ stopQ d = Some q /\ queues d !! q = Some []
  /\ pass_log d = L ++ times
  /\ apart times
  /\ (forall t rest, times = t :: rest -> t = t0)
  /\ t0 <= now d
  /\ Forall (fun t => t <= now d) times
  /\ match wpc d with
     | WPass =>
         Forall (fun t => t + get_timeout_ms <= now d) times
         /\ (times = [] -> now d = t0)
     | WProbing _ => times <> []
     | WGet q' deadline =>
         q' = q /\ times <> []
         /\ Forall (fun t => t + get_timeout_ms <= deadline) times
     | WIdle | WSleep _ => False
     end.

End TorPeriod.

(** ** The validation tab when [NetworkChoiceLayout] is created *)

Module ValidationInit.
Import Validation.

(** [slpdb_is_checked()]: the two settings of the config, and the button
    that closes the box of [gs_and_slpdb_checked_msg_box] if it is
    shown. *)
Definition slpdb_is_checked (slpdb_validation_enabled graphsearch_enabled : bool)
           (ret : Z) (p : panel) : panel :=
  if slpdb_validation_enabled then
    let p := if graphsearch_enabled then gs_and_slpdb_checked_msg_box p ret else p in
    set_slpdb_cb true p
  else set_slpdb_cb false p.

(** The two boxes and the widgets below them as [QWidget]s are created:
    unchecked, not hidden. *)
Definition created : panel :=
  {| slp_gs_enable_cb := false; slp_slpdb_enable_cb := false;
     gs_widgets_shown := true; slpdb_widgets_shown := true; calls := [] |}.

(** The statements of [NetworkChoiceLayout.update()] on the validation
    tab: [self.slp_gs_list_widget.update()], and the graph-search box
    takes the setting 'slp_validator_graphsearch_enabled' as the config
    holds it then ([graphsearch_enabled]); the [update] of the job list,
    last in [update()], sets the box from the same setting once more. *)
Definition update (graphsearch_enabled : bool) (p : panel) : panel :=
  set_gs_cb graphsearch_enabled (do_call UpdateGsList p).

(** The statements of [__init__] on the validation tab: the graph-search
    box takes the setting, [slpdb_is_checked()], the first [update()] of
    the SLPDB list, the widgets shown or hidden by the boxes, and, as the
    last statement of [__init__], [self.update()].  The two settings are
    those of the config when [__init__] begins;
    [graphsearch_enabled_at_update] is the first of them as the config
    holds it when [update()] runs (the calls on [slp_gs_mgr] in between
    may have changed it).  [calls] keeps the toggles and the updates of
    these lists. *)
Definition init (graphsearch_enabled slpdb_validation_enabled : bool) (ret : Z)
           (graphsearch_enabled_at_update : bool) : panel :=
  let p := set_gs_cb graphsearch_enabled created in
  let p := slpdb_is_checked slpdb_validation_enabled graphsearch_enabled ret p in
  let p := do_call UpdateSlpdbList p in
  let p :=
    if slp_gs_enable_cb p then show_gs_widgets (hide_slpdb_widgets p)
    else if slp_slpdb_enable_cb p then show_slpdb_widgets (hide_gs_widgets p)
    else if negb (slp_gs_enable_cb p) && negb (slp_slpdb_enable_cb p)
    then hide_slpdb_widgets (hide_gs_widgets p)
    else p in
  update graphsearch_enabled_at_update p.

End ValidationInit.

(** ** Clearing the ban list *)

Module Blacklist.

(** What [on_clear_blacklist] asks of its collaborators. *)
Inductive call : Type :=
| Question (n : nat)
| ServerSetBlacklisted (server : string) (flag save : bool)
| Update.

(** [for i, s in enumerate(bl): server_set_blacklisted(s, False,
    save=bool(i+1 == blen))], from index [i] on. *)
Fixpoint clear_from (i blen : nat) (bl : list string) : list call :=
  match bl with
  | [] => []
  | s :: rest =>
      ServerSetBlacklisted s false (Nat.eqb (i + 1) blen) :: clear_from (S i) blen rest
  end.

(** [on_clear_blacklist()]: [bl] is [list(network.blacklisted_servers)],
    [answer] what the user replies to the question. *)
Definition on_clear_blacklist (bl : list string) (answer : bool) : bool * list call :=
  let blen := length bl in
  if answer
  then (true, [Question blen] ++ clear_from 0 blen bl ++ [Update])
  else (false, [Question blen]).

Definition saves (c : call) : bool :=
  match c with ServerSetBlacklisted _ _ save => save | _ => false end.

End Blacklist.

(** ** [SlpSearchJobListWidget.humanbytes] on byte counts

    The method works on [float(B)].  For an [int] [B] with
    [0 <= B < 2^53] the conversion is exact, and so is the division by
    1024, 1024^2, ...; [str] of such a float below 1024 is the integer
    followed by ".0", and the format '{0:.2f}' rounds the exact quotient
    to the nearest hundredth, a tie to the even neighbour. *)

Module HumanBytes.

Definition KB : Z := 1024.
Definition MB : Z := KB ^ 2.
Definition GB : Z := KB ^ 3.
Definition TB : Z := KB ^ 4.

(** [num / den] rounded to the nearest integer, a tie to the even one. *)
Definition round_half_even (num den : Z) : Z :=
  let q := num / den in
  let r := num mod den in
  if 2 * r <? den then q
  else if den <? 2 * r then q + 1
  else if Z.even q then q else q + 1.

(** The number of hundredths that '{0:.2f}'.format(B / unit) shows. *)
Definition hundredths (B unit : Z) : Z := round_half_even (100 * B) unit.

Definition two_digits (n : Z) : string :=
  if n <? 10 then String.append "0" (pretty n) else pretty n.

(** The text for [n] hundredths: the integer part, a point, two digits. *)
Definition show_hundredths (n : Z) : string :=
  String.append (pretty (n / 100)) (String.append "." (two_digits (n mod 100))).

(** ['{0:.2f} ' + unit_name] for [B / unit]. *)
Definition format_2f (B unit : Z) (unit_name : string) : string :=
  String.append (show_hundredths (hundredths B unit)) (String.append " " unit_name).

Definition humanbytes (B : Z) : string :=
  if B <? KB then
    String.append (String.append (pretty B) ".0")
      (String.append " " (if (0 =? B) && (1 <? B) then "Bytes" else "Byte"))
  else if (KB <=? B) && (B <? MB) then format_2f B KB "KB"
  else if (MB <=? B) && (B <? GB) then format_2f B MB "MB"
  else if (GB <=? B) && (B <? TB) then format_2f B GB "GB"
  else format_2f B TB "TB".

(** The unit that [humanbytes] chooses, and its name. *)
Definition unit_of (B : Z) : Z * string :=
  if B <? MB then (KB, "KB"%string)
  else if B <? GB then (MB, "MB"%string)
  else if B <? TB then (GB, "GB"%string)
  else (TB, "TB"%string).

End HumanBytes.

(** ** The Tor client controls of the proxy tab

    The box [tor_enabled] ("Start Tor client"), the box
    [tor_custom_port_cb] and the line edit [tor_socks_port], with the
    calls the handlers make on [network.tor_controller].  The label and
    the tool tips that [update_tor_enabled] also sets are left out. *)

Module TorControls.
Import ServerTab.

(** [TorController.BinaryType]. *)
Inductive BinaryType : Type := MISSING | SYSTEM | INTEGRATED.

Inductive call : Type :=
| set_enabled (enabled : bool)
| set_socks_port (socks_port : Z).

Record tor_controls : Type := {
  tor_binary_type : BinaryType;
  tor_enabled : check_box;
  tor_custom_port_cb : check_box;
  tor_socks_port : line_edit;
  controller_calls : list call   (* oldest first *)
}.

Definition set_tor_enabled_box (c : check_box) (t : tor_controls) : tor_controls :=
  {| tor_binary_type := tor_binary_type t; tor_enabled := c;
     tor_custom_port_cb := tor_custom_port_cb t;
     tor_socks_port := tor_socks_port t;
     controller_calls := controller_calls t |}.

Definition set_tor_custom_port_cb (c : check_box) (t : tor_controls) : tor_controls :=
  {| tor_binary_type := tor_binary_type t; tor_enabled := tor_enabled t;
     tor_custom_port_cb := c;
     tor_socks_port := tor_socks_port t;
     controller_calls := controller_calls t |}.

Definition set_tor_socks_port_edit (e : line_edit) (t : tor_controls) : tor_controls :=
  {| tor_binary_type := tor_binary_type t; tor_enabled := tor_enabled t;
     tor_custom_port_cb := tor_custom_port_cb t;
     tor_socks_port := e;
     controller_calls := controller_calls t |}.

Definition controller_call (c : call) (t : tor_controls) : tor_controls :=
  {| tor_binary_type := tor_binary_type t; tor_enabled := tor_enabled t;
     tor_custom_port_cb := tor_custom_port_cb t;
     tor_socks_port := tor_socks_port t;
     controller_calls := controller_calls t ++ [c] |}.

(** [tbt != TorController.BinaryType.MISSING]. *)
Definition avalable (t : tor_controls) : bool :=
  match tor_binary_type t with MISSING => false | _ => true end.

Definition update_tor_enabled (t : tor_controls) : tor_controls :=
  let avalable := avalable t in
  let t := set_tor_enabled_box (setEnabled avalable (tor_enabled t)) t in
  let t := set_tor_custom_port_cb
             (setEnabled (avalable && isChecked (tor_enabled t))
                (tor_custom_port_cb t)) t in
  set_tor_socks_port_edit
    (le_setEnabled (avalable && isChecked (tor_custom_port_cb t))
       (tor_socks_port t)) t.

(** The three widgets as [__init__] makes them, from the controller's
    [tor_binary_type], [is_enabled()] and [get_socks_port()] (an int). *)
Definition created (tbt : BinaryType) (is_enabled : bool) (socks_port : Z)
  : tor_controls :=
  update_tor_enabled
    {| tor_binary_type := tbt;
       tor_enabled := setChecked is_enabled {| isChecked := false; isEnabled := true |};
       tor_custom_port_cb :=
         setChecked (negb (socks_port =? 0)) {| isChecked := false; isEnabled := true |};
       tor_socks_port :=
         setText (pretty socks_port)
           {| text := EmptyString; le_enabled := true; hasFocus := false |};
       controller_calls := [] |}.

Definition set_tor_enabled (enabled : bool) (t : tor_controls) : tor_controls :=
  controller_call (set_enabled enabled) t.

Section Handlers.
(** Python's [int] on a [str]: the integer, or the exception raised. *)
Variable int : string -> outcome Z.

Definition set_tor_socks_port (t : tor_controls) : outcome tor_controls :=
  match int (text (tor_socks_port t)) with
  | Return socks_port => Return (controller_call (set_socks_port socks_port) t)
  | Raise e => Raise e
  end.

Definition on_custom_port_cb_click (b : bool) (t : tor_controls)
  : outcome tor_controls :=
  let t := set_tor_socks_port_edit (le_setEnabled b (tor_socks_port t)) t in
  if negb b then
    let t := set_tor_socks_port_edit (setText "0" (tor_socks_port t)) t in
    set_tor_socks_port t
  else Return t.

(** The [clicked] slots of [tor_enabled], in the order they are
    connected: [set_tor_enabled], then [tor_custom_port_cb.setEnabled].
    The box has its new state when they run. *)
Definition tor_enabled_clicked (b : bool) (t : tor_controls) : tor_controls :=
  let t := set_tor_enabled_box (setChecked b (tor_enabled t)) t in
  let t := set_tor_enabled b t in
  set_tor_custom_port_cb (setEnabled b (tor_custom_port_cb t)) t.

(** The [clicked] slot of [tor_custom_port_cb]. *)
Definition custom_port_clicked (b : bool) (t : tor_controls)
  : outcome tor_controls :=
  on_custom_port_cb_click b
    (set_tor_custom_port_cb (setChecked b (tor_custom_port_cb t)) t).

(** The slot of [editingFinished] of [tor_socks_port], after the user
    has entered [s]. *)
Definition port_edited (s : string) (t : tor_controls) : outcome tor_controls :=
  set_tor_socks_port (set_tor_socks_port_edit (setText s (tor_socks_port t)) t).

(** What the user does, each possible on an enabled widget only. *)
Inductive event : Type :=
| TorEnabledClicked (b : bool)
| CustomPortClicked (b : bool)
| PortEdited (s : string).

Definition possible (e : event) (t : tor_controls) : bool :=
  match e with
  | TorEnabledClicked _ => isEnabled (tor_enabled t)
  | CustomPortClicked _ => isEnabled (tor_custom_port_cb t)
  | PortEdited _ => le_enabled (tor_socks_port t)
  end.

Definition handle (e : event) (t : tor_controls) : outcome tor_controls :=
  match e with
  | TorEnabledClicked b => Return (tor_enabled_clicked b t)
  | CustomPortClicked b => custom_port_clicked b t
  | PortEdited s => port_edited s t
  end.

(** The events in turn; one that is not possible does not happen. *)
Fixpoint handle_all (es : list event) (t : tor_controls) : outcome tor_controls :=
  match es with
  | [] => Return t
  | e :: rest =>
      if possible e t then
        match handle e t with
        | Return t' => handle_all rest t'
        | Raise err => Raise err
        end
      else handle_all rest t
  end.

End Handlers.

(** The port last given to [set_socks_port]; [socks_port], the one the
    controller had, when there was no such call. *)
Fixpoint requested_port (socks_port : Z) (calls : list call) : Z :=
  match calls with
  | [] => socks_port
  | set_socks_port p :: rest => requested_port p rest
  | set_enabled _ :: rest => requested_port socks_port rest
  end.

(** What holds of the controls between events, [socks_port] being the
    port of the controller when the dialog was made. *)
Definition consistent (socks_port : Z) (t : tor_controls) : Prop :=
  isEnabled (tor_enabled t) = avalable t
  /\ isEnabled (tor_custom_port_cb t) = avalable t && isChecked (tor_enabled t)
  /\ le_enabled (tor_socks_port t) = avalable t && isChecked (tor_custom_port_cb t)
  /\ (isChecked (tor_custom_port_cb t) = false ->
      text (tor_socks_port t) = "0"%string
      /\ requested_port socks_port (controller_calls t) = 0).

(** A reading of decimal digits, for the examples. *)
Fixpoint digits_value (s : string) (acc : Z) : option Z :=
  match s with
  | EmptyString => Some acc
  | String c rest =>
      let n := Z.of_nat (nat_of_ascii c) in
      if (48 <=? n) && (n <=? 57) then digits_value rest (10 * acc + (n - 48))
      else None
  end.

Definition demo_int (s : string) : outcome Z :=
  match s with
  | EmptyString => Raise (ValueError "invalid literal for int() with base 10: ''")
  | _ =>
      match digits_value s 0 with
      | Some n => Return n
      | None => Raise (ValueError "invalid literal for int() with base 10")
      end
  end.

End TorControls.

(* ===================================================================== *)
(** * Part II. Properties                                                 *)
(* ===================================================================== *)

(** ** Byte strings *)

Lemma append_cons (c : ascii) (p q : string) :
  String.append (String c p) q = String c (String.append p q).
Proof. reflexivity. Qed.

Lemma append_nil (q : string) : String.append EmptyString q = q.
Proof. reflexivity. Qed.

Lemma prefix_app_iff (p s : string) :
  String.prefix p s = true <-> exists post, s = String.append p post.
Proof.
  revert s. induction p as [|c p IH]; intros s.
  - split; [intros _; exists s; reflexivity | intros _; destruct s; reflexivity].
  - destruct s as [|d s]; simpl.
    + split; [discriminate | intros [post H]; rewrite append_cons in H; discriminate].
    + destruct (ascii_dec c d) as [->|Hne].
      * rewrite IH. split; intros [post H]; exists post;
          rewrite append_cons in *; congruence.
      * split; [discriminate | intros [post H]; rewrite append_cons in H; congruence].
Qed.

Lemma bytes_contains_nil (needle : string) :
  bytes_contains needle EmptyString = String.prefix needle EmptyString || false.
Proof. reflexivity. Qed.

Lemma bytes_contains_cons (needle : string) (c : ascii) (hay : string) :
  bytes_contains needle (String c hay) =
  String.prefix needle (String c hay) || bytes_contains needle hay.
Proof. reflexivity. Qed.

Lemma bytes_contains_iff (needle hay : string) :
  bytes_contains needle hay = true <->
  exists pre post, hay = String.append pre (String.append needle post).
Proof.
  induction hay as [|c hay IH].
  - rewrite bytes_contains_nil, orb_false_r, prefix_app_iff. split.
    + intros [post H]. exists EmptyString, post. exact H.
    + intros [pre [post H]]. destruct pre as [|d pre];
        [|rewrite append_cons in H; discriminate].
      exists post. exact H.
  - rewrite bytes_contains_cons, orb_true_iff, prefix_app_iff, IH. split.
    + intros [[post H] | [pre [post H]]].
      * exists EmptyString, post. exact H.
      * exists (String c pre), post. rewrite append_cons. congruence.
    + intros [pre [post H]]. destruct pre as [|d pre].
      * left. exists post. exact H.
      * right. exists pre, post. rewrite append_cons in H. congruence.
Qed.

(** ** The probe *)

Section ProbeFacts.
Context {World : Type} (api : TorProbe.SocketApi World).
Import TorProbe.

(** The probe always returns a boolean. *)
Lemma is_tor_port_returns (port : Z) (w : World) :
  exists b w', is_tor_port api port w = (Return b, w').
Proof.
  unfold is_tor_port, is_tor_port_try, try_except, bind, sock_call, ret.
  destruct (os_socket api w) as [[[]|e1] w1]; simpl; [|eauto].
  destruct (os_connect api _ _ w1) as [[[]|e2] w2]; simpl; [|eauto].
  destruct (os_send api _ _ w2) as [[n|e3] w3]; simpl; [|eauto].
  destruct (os_recv api _ _ w3) as [[data|e4] w4]; simpl; [|eauto].
  destruct (bytes_contains tor_rejection data); simpl; eauto.
Qed.

(** C1. For every TCP port (0 to 65535) [is_tor_port] never raises; it
    returns [True] exactly when the socket is created, the connection to
    127.0.0.1:port on a socket with a timeout of 100 ms succeeds,
    [b"GET\n"] is sent and the first [recv(1024)] holds "Tor is not an
    HTTP Proxy"; a [socket.error] at any of the four calls is swallowed
    and gives [False]. *)
Theorem is_tor_port_spec (port : Z) (w : World) :
  valid_port port = true ->
  (exists b w', is_tor_port api port w = (Return b, w'))
  /\ (fst (is_tor_port api port w) = Return true <->
      exists w1 w2 n w3 data w4,
        os_socket api w = (SockOk tt, w1) /\
        os_connect api (probe_socket None) ("127.0.0.1", port) w1 = (SockOk tt, w2) /\
        os_send api (probe_socket (Some ("127.0.0.1", port))) (String.append "GET" LF) w2 = (SockOk n, w3) /\
        os_recv api (probe_socket (Some ("127.0.0.1", port))) 1024 w3 = (SockOk data, w4) /\
        exists pre post,
          data = String.append pre (String.append "Tor is not an HTTP Proxy" post))
  /\ (forall what w1,
        os_socket api w = (SockErr what, w1) ->
        is_tor_port api port w = (Return false, w1))
  /\ (forall what w1 w2,
        os_socket api w = (SockOk tt, w1) ->
        os_connect api (probe_socket None) ("127.0.0.1", port) w1 = (SockErr what, w2) ->
        is_tor_port api port w = (Return false, w2))
  /\ (forall what w1 w2 w3,
        os_socket api w = (SockOk tt, w1) ->
        os_connect api (probe_socket None) ("127.0.0.1", port) w1 = (SockOk tt, w2) ->
        os_send api (probe_socket (Some ("127.0.0.1", port))) (String.append "GET" LF) w2 = (SockErr what, w3) ->
        is_tor_port api port w = (Return false, w3))
  /\ (forall what w1 w2 n w3 w4,
        os_socket api w = (SockOk tt, w1) ->
        os_connect api (probe_socket None) ("127.0.0.1", port) w1 = (SockOk tt, w2) ->
        os_send api (probe_socket (Some ("127.0.0.1", port))) (String.append "GET" LF) w2 = (SockOk n, w3) ->
        os_recv api (probe_socket (Some ("127.0.0.1", port))) 1024 w3 = (SockErr what, w4) ->
        is_tor_port api port w = (Return false, w4)).
Proof.
  intros _.
  split; [apply is_tor_port_returns|].
  unfold is_tor_port, is_tor_port_try, try_except, bind, sock_call, ret,
    probe_socket, connected_to, settimeout, new_socket, probe_timeout_ms,
    probe_host, probe_request,
    recv_bufsize, tor_rejection; simpl.
  split; [|repeat split; intros; repeat match goal with
                            | H : _ = (_, _) |- _ => rewrite H; clear H; simpl
                            end; reflexivity].
  split.
  - destruct (os_socket api w) as [[[]|e1] w1]; simpl; [|discriminate].
    destruct (os_connect api _ _ w1) as [[[]|e2] w2] eqn:H2; simpl; [|discriminate].
    destruct (os_send api _ _ w2) as [[n|e3] w3] eqn:H3; simpl; [|discriminate].
    destruct (os_recv api _ _ w3) as [[data|e4] w4] eqn:H4; simpl; [|discriminate].
    destruct (bytes_contains _ data) eqn:Hc; simpl; [|discriminate].
    intros _. exists w1, w2, n, w3, data, w4.
    repeat split; try reflexivity; try assumption.
    apply bytes_contains_iff. exact Hc.
  - intros (w1 & w2 & n & w3 & data & w4 & H1 & H2 & H3 & H4 & Hc).
    rewrite H1; simpl. rewrite H2; simpl. rewrite H3; simpl. rewrite H4; simpl.
    apply bytes_contains_iff in Hc. rewrite Hc. reflexivity.
Qed.

End ProbeFacts.

(** ** One pass of [TorDetector.run] *)

Section PassFacts.
Context {World : Type} (api : TorProbe.SocketApi World).
Import TorProbe.

Lemma all_decline_snoc (pre : list Z) (p : Z) (w w1 w2 : World) :
  all_decline api pre w w1 ->
  is_tor_port api p w1 = (Return false, w2) ->
  all_decline api (pre ++ [p]) w w2.
Proof.
  induction 1 as [w|q rest w wa wb Hq Hrest IH]; intros Hp; simpl.
  - econstructor; [exact Hp | constructor].
  - econstructor; [exact Hq | apply IH; exact Hp].
Qed.

(** The loop over the candidates: one signal is appended, for the first
    port that answers as Tor or, when none does, [None]. *)
Lemma probe_ports_spec (ports : list Z) (st : pass_state World) :
  exists r w',
    probe_ports api ports st =
      (Return tt, {| ps_world := w'; ps_emitted := ps_emitted st ++ [r] |})
    /\ ((exists pre p post w1,
           ports = pre ++ p :: post /\
           all_decline api pre (ps_world st) w1 /\
           is_tor_port api p w1 = (Return true, w') /\
           r = Some ("127.0.0.1"%string, p))
        \/ (all_decline api ports (ps_world st) w' /\ r = None)).
Proof.
  revert st. induction ports as [|p rest IH]; intros st; simpl.
  - exists None, (ps_world st). split; [reflexivity|].
    right. split; [constructor | reflexivity].
  - destruct (is_tor_port_returns api p (ps_world st)) as (b & w1 & Hp).
    rewrite Hp. destruct b.
    + exists (Some (probe_host, p)), w1. split; [reflexivity|].
      left. exists [], p, rest, (ps_world st).
      repeat split; [constructor | exact Hp].
    + destruct (IH {| ps_world := w1; ps_emitted := ps_emitted st |})
        as (r & w' & Hrun & Hcase).
      exists r, w'. split; [exact Hrun|]. simpl in Hcase.
      destruct Hcase as [(pre & q & post & wq & Hports & Hpre & Hq & Hr) | [Hall Hr]].
      * left. exists (p :: pre), q, post, wq. subst rest.
        repeat split; [econstructor; eassumption | exact Hq | exact Hr].
      * right. split; [econstructor; eassumption | exact Hr].
Qed.

(** C2. The candidates of a pass are [9050, 9150], with the controller's
    active SOCKS port put in front when the controller exists, is enabled
    and has an active port; the pass probes them in that order and emits
    exactly one signal: [("127.0.0.1", p)] for the first port [p] that
    answers as Tor (no later port is probed), or [None] once every
    candidate has declined. *)
Theorem run_pass_spec (ctrl : option TorController) (st : pass_state World) :
  (candidate_ports None = [9050; 9150])
  /\ (forall c, tc_is_enabled c = false -> candidate_ports (Some c) = [9050; 9150])
  /\ (forall c, truthy_port (tc_active_socks_port c) = false ->
                candidate_ports (Some c) = [9050; 9150])
  /\ (forall c p, tc_is_enabled c = true -> tc_active_socks_port c = Some p -> p <> 0 ->
                  candidate_ports (Some c) = [p; 9050; 9150])
  /\ exists r w',
       run_pass api ctrl st =
         (Return tt, {| ps_world := w'; ps_emitted := ps_emitted st ++ [r] |})
       /\ ((exists pre p post w1,
              candidate_ports ctrl = pre ++ p :: post /\
              all_decline api pre (ps_world st) w1 /\
              is_tor_port api p w1 = (Return true, w') /\
              r = Some ("127.0.0.1"%string, p))
           \/ (all_decline api (candidate_ports ctrl) (ps_world st) w' /\ r = None)).
Proof.
  split; [reflexivity|].
  split; [intros c Hc; unfold candidate_ports; rewrite Hc; reflexivity|].
  split; [intros c Hc; unfold candidate_ports; rewrite Hc, andb_false_r; reflexivity|].
  split.
  - intros c p He Hp Hnz. unfold candidate_ports. rewrite He, Hp. simpl.
    destruct (Z.eqb_spec p 0) as [->|_]; [contradiction|reflexivity].
  - apply probe_ports_spec.
Qed.

End PassFacts.

(** ** The worker thread: well-formed states *)

Section ThreadFacts.
Context {World : Type} (api : TorProbe.SocketApi World).
Import TorProbe TorThread.

Lemma probe_ports_returns (ports : list Z) (ps : pass_state World) :
  exists ps', probe_ports api ports ps = (Return tt, ps').
Proof.
  destruct (probe_ports_spec api ports ps) as (r & w' & H & _).
  eexists. exact H.
Qed.

Lemma run_pass_returns (c : option TorController) (ps : pass_state World) :
  exists ps', run_pass api c ps = (Return tt, ps').
Proof. apply probe_ports_returns. Qed.

(** The steps of the worker with [get] and its exception spelled out. *)
Lemma worker_step_unfold (d : detector World) :
  worker_step api d =
  match wpc d with
  | WIdle => None
  | WPass =>
      Some (set_thread true (WProbing (candidate_ports (controller d))) (log_pass d))
  | WProbing ports =>
      match probe_ports api ports (probe d) with
      | (Return _, ps) =>
          match stopQ d with
          | Some q =>
              Some (set_thread true (WGet q (now d + get_timeout_ms)) (set_probe ps d))
          | None => Some (thread_ends (set_probe ps d))
          end
      | (Raise _, ps) => Some (thread_ends (set_probe ps d))
      end
  | WGet q deadline =>
      match queues d !! q with
      | Some (x :: rest) =>
          let d1 := set_queues (<[q := rest]> (queues d)) d in
          match x with
          | None => Some (thread_ends d1)
          | Some _ => Some (set_thread true (WSleep (now d + settle_ms)) d1)
          end
      | _ =>
          if deadline <=? now d then Some (set_thread true WPass d) else None
      end
  | WSleep until =>
      if until <=? now d then Some (set_thread true WPass d) else None
  end.
Proof.
  unfold worker_step, queue_get. destruct (wpc d) as [| |ports|q dl|t]; try reflexivity.
  destruct (queues d !! q) as [[|[k|] rest]|]; try reflexivity;
    destruct (dl <=? now d); reflexivity.
Qed.

(** The two steps of a pass. *)
Lemma worker_step_pass (d : detector World) :
  wpc d = WPass ->
  worker_step api d
  = Some (set_thread true (WProbing (candidate_ports (controller d))) (log_pass d)).
Proof. intros Hpc. rewrite worker_step_unfold, Hpc. reflexivity. Qed.

Lemma worker_step_probing (d : detector World) (ports : list Z) (q : nat) :
  wpc d = WProbing ports -> stopQ d = Some q ->
  exists ps,
    worker_step api d
    = Some (set_thread true (WGet q (now d + get_timeout_ms)) (set_probe ps d)).
Proof.
  intros Hpc Hs. destruct (probe_ports_returns ports (probe d)) as [ps Hp].
  exists ps. rewrite worker_step_unfold, Hpc, Hp, Hs. reflexivity.
Qed.

Lemma execute_app (acts1 acts2 : list action) (d : detector World) :
  execute api (acts1 ++ acts2) d =
  match execute api acts1 d with
  | Some d1 => execute api acts2 d1
  | None => None
  end.
Proof.
  revert d. induction acts1 as [|a acts1 IH]; intros d; simpl; [reflexivity|].
  destruct (step api a d) as [d1|]; [apply IH | reflexivity].
Qed.

Lemma wf_init (w : World) (c : option TorController) : wf (init w c).
Proof.
  unfold wf, init; simpl. repeat split; try discriminate; intros; discriminate.
Qed.

Lemma wf_start (d : detector World) : wf d -> wf (start d).
Proof.
  intros (Hrun & Hq & Hlen & Hget). unfold start; simpl.
  destruct (running d) eqn:Hr; unfold wf; simpl.
  - rewrite Hr. repeat split; try (apply Hrun); eauto.
    + intros q [= <-]. rewrite length_app; simpl. lia.
    + intros q dl Hpc. rewrite length_app. specialize (Hget q dl Hpc). lia.
  - repeat split; try discriminate; eauto.
    + intros q [= <-]. rewrite length_app; simpl. lia.
Qed.

Lemma wf_stopQ_put (x : item) (d d1 : detector World) :
  wf d -> stopQ_put x d = Return d1 -> wf d1.
Proof.
  intros (Hrun & Hq & Hlen & Hget). unfold stopQ_put.
  destruct (stopQ d) as [q|] eqn:Hs; [|discriminate]. intros [= <-].
  unfold wf; simpl. rewrite length_alter. rewrite Hs. auto.
Qed.

Lemma wf_running (d : detector World) :
  wf d -> wpc d <> WIdle -> running d = true.
Proof.
  intros (Hrun & _) Hpc. destruct (running d); [reflexivity|].
  exfalso. apply Hpc, Hrun. reflexivity.
Qed.

Lemma wf_has_stopQ (d : detector World) :
  wf d -> wpc d <> WIdle ->
  exists q, stopQ d = Some q /\ (q < length (queues d))%nat.
Proof.
  intros Hwf Hpc. pose proof (wf_running d Hwf Hpc) as Hr.
  destruct Hwf as (_ & Hq & Hlen & _).
  destruct (Hq Hr) as [q Hs]. exists q. split; [exact Hs | apply Hlen, Hs].
Qed.

Lemma wf_worker_step (d d1 : detector World) :
  wf d -> worker_step api d = Some d1 -> wf d1.
Proof.
  intros Hwf. rewrite worker_step_unfold.
  destruct (wpc d) as [| |ports|q dl|t] eqn:Hpc; [discriminate| | | |].
  - pose proof (wf_running d Hwf) as Hr. rewrite Hpc in Hr.
    specialize (Hr ltac:(discriminate)).
    intros [= <-]. destruct Hwf as (Hrun & Hq & Hlen & Hget).
    unfold wf; simpl.
    split; [split; discriminate|]. split; [auto|]. split; [exact Hlen|].
    discriminate.
  - destruct (probe_ports_returns ports (probe d)) as [ps Hp]. rewrite Hp.
    destruct (wf_has_stopQ d Hwf) as (q & Hs & Hlt); [congruence|].
    rewrite Hs. intros [= <-]. destruct Hwf as (Hrun & Hq & Hlen & Hget).
    unfold wf; simpl.
    split; [split; discriminate|]. split; [eauto|]. split; [exact Hlen|].
    intros q' dl [= <- _]. exact Hlt.
  - pose proof (wf_running d Hwf) as Hr. rewrite Hpc in Hr.
    specialize (Hr ltac:(discriminate)).
    destruct Hwf as (Hrun & Hq & Hlen & Hget).
    assert (Hidle : forall d2 : detector World,
               running d2 = true -> wpc d2 = WPass -> stopQ d2 = stopQ d ->
               length (queues d2) = length (queues d) -> wf d2).
    { intros d2 H1 H2 H3 H4. unfold wf. rewrite H1, H2, H3, H4.
      split; [split; discriminate|]. split; [auto|]. split; [exact Hlen|].
      discriminate. }
    destruct (queues d !! q) as [[|[k|] rest]|] eqn:Hlk.
    + destruct (dl <=? now d); [|discriminate]. intros [= <-].
      apply Hidle; reflexivity.
    + intros [= <-]. unfold wf; simpl. rewrite length_insert.
      split; [split; discriminate|]. split; [auto|]. split; [exact Hlen|].
      discriminate.
    + intros [= <-]. unfold wf, thread_ends; simpl. rewrite length_insert.
      split; [split; reflexivity|]. split; [discriminate|]. split; [exact Hlen|].
      discriminate.
    + destruct (dl <=? now d); [|discriminate]. intros [= <-].
      apply Hidle; reflexivity.
  - pose proof (wf_running d Hwf) as Hr. rewrite Hpc in Hr.
    specialize (Hr ltac:(discriminate)).
    destruct Hwf as (Hrun & Hq & Hlen & Hget).
    destruct (t <=? now d); [|discriminate]. intros [= <-].
    unfold wf; simpl.
    split; [split; discriminate|]. split; [auto|]. split; [exact Hlen|].
    discriminate.
Qed.

Lemma wf_step (a : action) (d d1 : detector World) :
  wf d -> step api a d = Some d1 -> wf d1.
Proof.
  intros Hwf. destruct a as [delta| | | | |c]; simpl.
  - destruct (can_wait delta d); [|discriminate]. intros [= <-]. exact Hwf.
  - apply wf_worker_step, Hwf.
  - destruct (ui_free d); [|discriminate]. intros [= <-]. apply wf_start, Hwf.
  - destruct (ui_free d); [|discriminate]. unfold stop_call.
    destruct (running d); [|intros [= <-]; exact Hwf].
    destruct (stopQ_put sentinel d) as [d2|e] eqn:Hput; [|discriminate].
    intros [= <-]. apply wf_stopQ_put in Hput; [|exact Hwf]. exact Hput.
  - unfold stop_return. destruct (ui d); [discriminate|].
    destruct (running d); [discriminate|]. intros [= <-]. exact Hwf.
  - unfold on_tor_port_changed.
    destruct (truthy_port _ && running _).
    + destruct (stopQ_put kick _) as [d2|e] eqn:Hput; [|discriminate].
      intros [= <-]. apply wf_stopQ_put in Hput; [exact Hput | exact Hwf].
    + intros [= <-]. exact Hwf.
Qed.

Lemma wf_execute (acts : list action) (d d1 : detector World) :
  wf d -> execute api acts d = Some d1 -> wf d1.
Proof.
  revert d. induction acts as [|a acts IH]; intros d Hwf; simpl.
  - intros [= <-]. exact Hwf.
  - destruct (step api a d) as [d2|] eqn:Hs; [|discriminate].
    apply IH. eapply wf_step; eassumption.
Qed.

End ThreadFacts.

(** ** The worker thread: [stop] and the end of [run] *)

Section StopFacts.
Context {World : Type} (api : TorProbe.SocketApi World).
Import TorProbe TorThread.

Lemma stop_call_running (d : detector World) (q : nat) :
  running d = true -> stopQ d = Some q ->
  stop_call d =
    Return (set_ui UiInWait
              (set_queues (alter (fun l => l ++ [sentinel]) q (queues d)) d)).
Proof.
  intros Hr Hs. unfold stop_call, stopQ_put. rewrite Hr, Hs. reflexivity.
Qed.

Lemma stop_call_idle (d : detector World) :
  running d = false -> stop_call d = Return d.
Proof. intros Hr. unfold stop_call. rewrite Hr. reflexivity. Qed.

(** A step of a running worker ends the thread exactly when it takes the
    sentinel out of the queue it waits on. *)
Lemma worker_exit_iff (d d1 : detector World) :
  wf d -> running d = true -> worker_step api d = Some d1 ->
  (running d1 = false <->
   exists q deadline rest,
     wpc d = WGet q deadline /\ queues d !! q = Some (sentinel :: rest)).
Proof.
  intros Hwf Hr. rewrite worker_step_unfold.
  destruct (wpc d) as [| |ports|q dl|t] eqn:Hpc; [discriminate| | | |].
  - intros [= <-]; simpl.
    split; [discriminate | intros (? & ? & ? & ? & _); discriminate].
  - destruct (probe_ports_returns api ports (probe d)) as [ps Hp]. rewrite Hp.
    destruct (wf_has_stopQ d Hwf) as (q & Hs & _); [congruence|].
    rewrite Hs. intros [= <-]; simpl.
    split; [discriminate | intros (? & ? & ? & ? & _); discriminate].
  - destruct (queues d !! q) as [[|[k|] rest]|] eqn:Hlk.
    + destruct (dl <=? now d); [|discriminate]. intros [= <-]; simpl.
      split; [discriminate | intros (? & ? & ? & [= <- _] & ?); congruence].
    + intros [= <-]; simpl.
      split; [discriminate | intros (? & ? & ? & [= <- _] & ?); congruence].
    + intros [= <-]; simpl. split; [|reflexivity].
      intros _. exists q, dl, rest. split; [reflexivity | exact Hlk].
    + destruct (dl <=? now d); [|discriminate]. intros [= <-]; simpl.
      split; [discriminate | intros (? & ? & ? & [= <- _] & ?); congruence].
  - destruct (t <=? now d); [|discriminate]. intros [= <-]; simpl.
    split; [discriminate | intros (? & ? & ? & ? & _); discriminate].
Qed.

Lemma stopped_stays (a : action) (d d1 : detector World) :
  wf d -> running d = false -> is_call_start a = false ->
  step api a d = Some d1 -> running d1 = false.
Proof.
  intros Hwf Hr Ha. destruct a as [delta| | | | |c]; simpl; try discriminate.
  - destruct (can_wait delta d); [|discriminate]. intros [= <-]. exact Hr.
  - destruct Hwf as (Hrun & _). apply Hrun in Hr. rewrite worker_step_unfold.
    rewrite Hr. discriminate.
  - destruct (ui_free d); [|discriminate]. rewrite stop_call_idle by exact Hr.
    intros [= <-]. exact Hr.
  - unfold stop_return. destruct (ui d); [discriminate|]. rewrite Hr.
    intros [= <-]. exact Hr.
  - unfold on_tor_port_changed; simpl. rewrite Hr, andb_false_r.
    intros [= <-]. exact Hr.
Qed.

Lemma stopped_stays_execute (acts : list action) (d d1 : detector World) :
  wf d -> running d = false -> existsb is_call_start acts = false ->
  execute api acts d = Some d1 -> running d1 = false.
Proof.
  revert d. induction acts as [|a acts IH]; intros d Hwf Hr; simpl.
  - intros _ [= <-]. exact Hr.
  - intros Hnone. apply orb_false_iff in Hnone as [Ha Hacts].
    destruct (step api a d) as [d2|] eqn:Hs; [|discriminate].
    apply IH; [eapply wf_step; eassumption | | exact Hacts].
    eapply stopped_stays; eassumption.
Qed.

Lemma stop_return_exited (d d1 : detector World) :
  wf d -> stop_return d = Some d1 ->
  running d1 = false /\ wpc d1 = WIdle /\ ui d1 = UiFree.
Proof.
  intros (Hrun & _). unfold stop_return. destruct (ui d); [discriminate|].
  destruct (running d) eqn:Hr; [discriminate|]. intros [= <-]; simpl.
  split; [exact Hr|]. split; [apply Hrun; reflexivity | reflexivity].
Qed.

Lemma filter_last {A} (f : A -> bool) (l xs : list A) (x : A) :
  List.filter f l = xs ++ [x] ->
  exists pre post, l = pre ++ x :: post /\ List.filter f post = [].
Proof.
  revert xs. induction l as [|a l IH]; intros xs; simpl.
  - destruct xs; discriminate.
  - destruct (f a) eqn:Hfa.
    + destruct xs as [|y xs]; simpl.
      * intros [= -> Hl]. exists [], l. split; [reflexivity | exact Hl].
      * intros [= -> Hl]. destruct (IH xs Hl) as (pre & post & -> & Hpost).
        exists (y :: pre), post. split; [reflexivity | exact Hpost].
    + intros Hl. destruct (IH xs Hl) as (pre & post & -> & Hpost).
      exists (a :: pre), post. split; [reflexivity | exact Hpost].
Qed.

Lemma no_ui_no_start (acts : list action) :
  List.filter is_ui_action acts = [] -> existsb is_call_start acts = false.
Proof.
  induction acts as [|a acts IH]; simpl; [reflexivity|].
  destruct a; simpl; try discriminate; exact IH.
Qed.

End StopFacts.

(** ** The worker thread: a pending [stop] ends the thread *)

Section StopLiveness.
Context {World : Type} (api : TorProbe.SocketApi World).
Import TorProbe TorThread.

Lemma worker_finishes_step (a : action) (d d1 : detector World) :
  is_worker_or_tick a = true -> step api a d = Some d1 -> ui d1 = ui d ->
  worker_finishes api d1 -> worker_finishes api d.
Proof.
  intros Ha Hs Hui (bg & d2 & Hbg & Hrun & Hr & Hu).
  exists (a :: bg), d2. simpl. rewrite Ha, Hs.
  repeat split; [exact Hbg | exact Hrun | exact Hr | congruence].
Qed.

Lemma worker_step_ui (d d1 : detector World) :
  worker_step api d = Some d1 -> ui d1 = ui d.
Proof.
  rewrite worker_step_unfold.
  destruct (wpc d) as [| |ports|q dl|t]; [discriminate| | | |].
  - intros [= <-]; reflexivity.
  - destruct (probe_ports api ports (probe d)) as [[[]|e] ps];
      [destruct (stopQ d)|]; intros [= <-]; reflexivity.
  - destruct (queues d !! q) as [[|[k|] rest]|];
      try (destruct (dl <=? now d); [|discriminate]); intros [= <-]; reflexivity.
  - destruct (t <=? now d); [|discriminate]. intros [= <-]; reflexivity.
Qed.

Lemma first_sentinel (l : list item) :
  In sentinel l ->
  exists pre post, l = pre ++ sentinel :: post /\ Forall (fun x => x <> sentinel) pre.
Proof.
  induction l as [|x l IH]; simpl; [intros []|].
  destruct x as [k|].
  - intros [Hx|Hin]; [discriminate|].
    destruct (IH Hin) as (pre & post & -> & Hpre).
    exists (Some k :: pre), post. split; [reflexivity|].
    constructor; [discriminate | exact Hpre].
  - intros _. exists [], l. split; [reflexivity | constructor].
Qed.

(** From [get] on the queue that holds the sentinel: each 'kick' before it
    costs a settle delay and a pass, then the sentinel ends the thread. *)
Lemma finishes_from_get (pre : list item) :
  forall (d : detector World) (q : nat) (dl : Z) (post : list item),
    wf d -> wpc d = WGet q dl -> stopQ d = Some q ->
    queues d !! q = Some (pre ++ sentinel :: post) ->
    Forall (fun x => x <> sentinel) pre ->
    worker_finishes api d.
Proof.
  induction pre as [|x pre IH]; intros d q dl post Hwf Hpc Hs Hlk Hpre.
  - exists [Worker], (thread_ends (set_queues (<[q := post]> (queues d)) d)).
    simpl. rewrite worker_step_unfold. rewrite Hpc, Hlk. repeat split.
  - inversion Hpre as [|x' pre' Hx Hpre']; subst.
    destruct x as [k|]; [|congruence]. clear Hx.
    assert (Hlt : (q < length (queues d))%nat).
    { apply lookup_lt_Some in Hlk. exact Hlk. }
    set (d1 := set_thread true (WSleep (now d + settle_ms))
                 (set_queues (<[q := pre ++ sentinel :: post]> (queues d)) d)).
    assert (H1 : step api Worker d = Some d1).
    { simpl. rewrite worker_step_unfold. rewrite Hpc, Hlk. reflexivity. }
    set (d2 := set_now (now d1 + settle_ms) d1).
    assert (H2 : step api (Tick settle_ms) d1 = Some d2).
    { simpl. unfold can_wait; simpl. rewrite Z.leb_refl. reflexivity. }
    set (d3 := set_thread true WPass d2).
    assert (H3 : step api Worker d2 = Some d3).
    { simpl. rewrite worker_step_unfold; simpl. rewrite Z.leb_refl. reflexivity. }
    set (d4 := set_thread true (WProbing (candidate_ports (controller d3)))
                 (log_pass d3)).
    assert (H4 : step api Worker d3 = Some d4).
    { simpl. rewrite worker_step_unfold. reflexivity. }
    destruct (worker_step_probing api d4 (candidate_ports (controller d3)) q
                eq_refl Hs) as [ps H5].
    set (d5 := set_thread true (WGet q (now d4 + get_timeout_ms)) (set_probe ps d4))
      in H5.
    change (step api Worker d4 = Some d5) in H5.
    apply (worker_finishes_step Worker d d1 eq_refl H1 eq_refl).
    apply (worker_finishes_step (Tick settle_ms) d1 d2 eq_refl H2 eq_refl).
    apply (worker_finishes_step Worker d2 d3 eq_refl H3 eq_refl).
    apply (worker_finishes_step Worker d3 d4 eq_refl H4 eq_refl).
    apply (worker_finishes_step Worker d4 d5 eq_refl H5 eq_refl).
    eapply (IH d5 q _ post).
    + eapply wf_step; [|exact H5]. eapply wf_step; [|exact H4].
      eapply wf_step; [|exact H3].
      eapply wf_step; [|exact H2]. eapply wf_step; [|exact H1]. exact Hwf.
    + reflexivity.
    + exact Hs.
    + simpl. apply list_lookup_insert_eq. exact Hlt.
    + exact Hpre'.
Qed.

Lemma finishes_from_probing (d : detector World) (ports : list Z) (q : nat)
      (l : list item) :
  wf d -> wpc d = WProbing ports -> stopQ d = Some q ->
  queues d !! q = Some l -> In sentinel l ->
  worker_finishes api d.
Proof.
  intros Hwf Hpc Hs Hlk Hin.
  destruct (probe_ports_returns api ports (probe d)) as [ps Hp].
  set (d1 := set_thread true (WGet q (now d + get_timeout_ms)) (set_probe ps d)).
  assert (H1 : step api Worker d = Some d1).
  { simpl. rewrite worker_step_unfold. rewrite Hpc, Hp, Hs. reflexivity. }
  apply (worker_finishes_step Worker d d1 eq_refl H1 eq_refl).
  destruct (first_sentinel l Hin) as (pre & post & -> & Hpre).
  apply (finishes_from_get pre d1 q (now d + get_timeout_ms) post);
    [eapply wf_step; eassumption | reflexivity | exact Hs | exact Hlk | exact Hpre].
Qed.

Lemma finishes_from_pass (d : detector World) (q : nat) (l : list item) :
  wf d -> wpc d = WPass -> stopQ d = Some q ->
  queues d !! q = Some l -> In sentinel l ->
  worker_finishes api d.
Proof.
  intros Hwf Hpc Hs Hlk Hin.
  set (d1 := set_thread true (WProbing (candidate_ports (controller d))) (log_pass d)).
  assert (H1 : step api Worker d = Some d1).
  { simpl. rewrite worker_step_unfold. rewrite Hpc. reflexivity. }
  apply (worker_finishes_step Worker d d1 eq_refl H1 eq_refl).
  apply (finishes_from_probing d1 (candidate_ports (controller d)) q l);
    [eapply wf_step; eassumption | reflexivity | exact Hs | exact Hlk | exact Hin].
Qed.

Lemma finishes_from_sleep (d : detector World) (t : Z) (q : nat) (l : list item) :
  wf d -> wpc d = WSleep t -> stopQ d = Some q ->
  queues d !! q = Some l -> In sentinel l ->
  worker_finishes api d.
Proof.
  intros Hwf Hpc Hs Hlk Hin.
  assert (Hwake : forall d0 : detector World,
             wf d0 -> wpc d0 = WSleep t -> t <= now d0 -> stopQ d0 = Some q ->
             queues d0 !! q = Some l -> worker_finishes api d0).
  { intros d0 Hwf0 Hpc0 Hle Hs0 Hlk0.
    assert (H1 : step api Worker d0 = Some (set_thread true WPass d0)).
    { simpl. rewrite worker_step_unfold. rewrite Hpc0.
      destruct (Z.leb_spec t (now d0)); [reflexivity | lia]. }
    apply (worker_finishes_step Worker d0 _ eq_refl H1 eq_refl).
    apply (finishes_from_pass _ q l);
      [eapply wf_step; eassumption | reflexivity | exact Hs0 | exact Hlk0 | exact Hin]. }
  destruct (Z.le_gt_cases t (now d)) as [Hle|Hgt].
  - apply Hwake; assumption.
  - assert (H1 : step api (Tick (t - now d)) d = Some (set_now (now d + (t - now d)) d)).
    { simpl. unfold can_wait. rewrite Hpc.
      destruct (Z.ltb_spec 0 (t - now d)); [|lia].
      destruct (Z.leb_spec (now d + (t - now d)) t); [reflexivity | lia]. }
    apply (worker_finishes_step (Tick (t - now d)) d _ eq_refl H1 eq_refl).
    apply Hwake; simpl; [eapply wf_step; eassumption | exact Hpc | lia | exact Hs | exact Hlk].
Qed.

Lemma finishes_from_timeout (d : detector World) (q' : nat) (dl : Z)
      (q : nat) (l : list item) :
  wf d -> wpc d = WGet q' dl ->
  (queues d !! q' = Some [] \/ queues d !! q' = None) ->
  stopQ d = Some q -> queues d !! q = Some l -> In sentinel l ->
  worker_finishes api d.
Proof.
  intros Hwf Hpc Hempty Hs Hlk Hin.
  assert (Hdue : forall d0 : detector World,
             wf d0 -> wpc d0 = WGet q' dl -> dl <= now d0 ->
             (queues d0 !! q' = Some [] \/ queues d0 !! q' = None) ->
             stopQ d0 = Some q -> queues d0 !! q = Some l ->
             worker_finishes api d0).
  { intros d0 Hwf0 Hpc0 Hle He0 Hs0 Hlk0.
    assert (H1 : step api Worker d0 = Some (set_thread true WPass d0)).
    { simpl. rewrite worker_step_unfold. rewrite Hpc0.
      destruct He0 as [He0|He0]; rewrite He0;
        (destruct (Z.leb_spec dl (now d0)); [reflexivity | lia]). }
    apply (worker_finishes_step Worker d0 _ eq_refl H1 eq_refl).
    apply (finishes_from_pass _ q l);
      [eapply wf_step; eassumption | reflexivity | exact Hs0 | exact Hlk0 | exact Hin]. }
  destruct (Z.le_gt_cases dl (now d)) as [Hle|Hgt].
  - apply Hdue; assumption.
  - assert (H1 : step api (Tick (dl - now d)) d = Some (set_now (now d + (dl - now d)) d)).
    { simpl. unfold can_wait. rewrite Hpc.
      destruct (Z.ltb_spec 0 (dl - now d)); [|lia].
      destruct Hempty as [He|He]; rewrite He;
        (destruct (Z.leb_spec (now d + (dl - now d)) dl); [reflexivity | lia]). }
    apply (worker_finishes_step (Tick (dl - now d)) d _ eq_refl H1 eq_refl).
    apply Hdue; simpl;
      [eapply wf_step; eassumption | exact Hpc | lia | exact Hempty | exact Hs | exact Hlk].
Qed.

(** Wherever the running worker stands, once the sentinel is in the queue
    [stopQ] points to, the thread ends. *)
Lemma finishes_when_pending (d : detector World) (q : nat) (l : list item) :
  wf d -> running d = true -> stopQ d = Some q ->
  queues d !! q = Some l -> In sentinel l ->
  worker_finishes api d.
Proof.
  intros Hwf Hr Hs Hlk Hin.
  destruct (wpc d) as [| |ports|q' dl|t] eqn:Hpc.
  - destruct Hwf as (Hrun & _). apply Hrun in Hpc. congruence.
  - eapply finishes_from_pass; eassumption.
  - eapply finishes_from_probing; eassumption.
  - destruct (decide (q' = q)) as [->|Hne].
    + destruct (first_sentinel l Hin) as (pre & post & -> & Hpre).
      eapply finishes_from_get; eassumption.
    + destruct (queues d !! q') as [[|[k|] rest]|] eqn:Hlk'.
      * eapply finishes_from_timeout; eauto.
      * set (d1 := set_thread true (WSleep (now d + settle_ms))
                     (set_queues (<[q' := rest]> (queues d)) d)).
        assert (H1 : step api Worker d = Some d1).
        { simpl. rewrite worker_step_unfold. rewrite Hpc, Hlk'. reflexivity. }
        apply (worker_finishes_step Worker d d1 eq_refl H1 eq_refl).
        apply (finishes_from_sleep d1 (now d + settle_ms) q l);
          [eapply wf_step; eassumption | reflexivity | exact Hs | | exact Hin].
        simpl. rewrite list_lookup_insert_ne by exact Hne. exact Hlk.
      * exists [Worker], (thread_ends (set_queues (<[q' := rest]> (queues d)) d)).
        simpl. rewrite worker_step_unfold. rewrite Hpc, Hlk'. repeat split.
      * eapply finishes_from_timeout; eauto.
  - eapply finishes_from_sleep; eassumption.
Qed.

Lemma stop_pending_init (w : World) (c : option TorController) :
  stop_pending (init w c).
Proof. unfold stop_pending, init; simpl. discriminate. Qed.

Lemma stop_pending_step (a : action) (d d1 : detector World) :
  wf d -> stop_pending d -> step api a d = Some d1 -> stop_pending d1.
Proof.
  intros Hwf Hpend. destruct a as [delta| | | | |c]; simpl.
  - destruct (can_wait delta d); [|discriminate]. intros [= <-]. exact Hpend.
  - intros Hstep Hui Hr1. pose proof (worker_step_ui d d1 Hstep) as Hu.
    assert (Hr : running d = true).
    { apply wf_running; [exact Hwf|]. intros Hidle.
      rewrite worker_step_unfold in Hstep. rewrite Hidle in Hstep. discriminate. }
    destruct Hpend as (q & l & Hs & Hlk & Hin); [congruence | exact Hr |].
    revert Hstep. rewrite worker_step_unfold.
    destruct (wpc d) as [| |ports|q' dl|t] eqn:Hpc; [discriminate| | | |].
    + intros [= <-]. exists q, l. auto.
    + destruct (probe_ports_returns api ports (probe d)) as [ps Hp].
      rewrite Hp, Hs. intros [= <-]. exists q, l. auto.
    + destruct (queues d !! q') as [[|[k|] rest]|] eqn:Hlk'.
      * destruct (dl <=? now d); [|discriminate]. intros [= <-]. exists q, l. auto.
      * intros [= <-]. simpl. destruct (decide (q' = q)) as [->|Hne].
        -- exists q, rest. rewrite Hlk in Hlk'. injection Hlk' as ->.
           split; [exact Hs|]. split.
           ++ apply list_lookup_insert_eq. eapply lookup_lt_Some; eassumption.
           ++ destruct Hin as [Hk|Hin]; [discriminate | exact Hin].
        -- exists q, l. rewrite list_lookup_insert_ne by exact Hne. auto.
      * intros [= <-]. simpl in Hr1. discriminate.
      * destruct (dl <=? now d); [|discriminate]. intros [= <-]. exists q, l. auto.
    + destruct (t <=? now d); [|discriminate]. intros [= <-]. exists q, l. auto.
  - unfold ui_free. destruct (ui d) eqn:Hu; [|discriminate]. intros [= <-].
    intros Hui. unfold start in Hui. simpl in Hui.
    destruct (running d); simpl in Hui; congruence.
  - unfold ui_free. destruct (ui d) eqn:Hu; [|discriminate].
    unfold stop_call, stopQ_put. destruct (running d) eqn:Hr.
    + destruct (wf_has_stopQ d Hwf) as (q & Hs & Hlt).
      { intros Hidle. destruct Hwf as (Hrun & _). apply Hrun in Hidle. congruence. }
      rewrite Hs. intros [= <-] _ _. simpl.
      destruct (lookup_lt_is_Some_2 (queues d) q Hlt) as [l Hlk].
      exists q, (l ++ [sentinel]). split; [exact Hs|]. split.
      * rewrite list_lookup_alter_eq, Hlk. reflexivity.
      * apply in_or_app. right. left. reflexivity.
    + intros [= <-] Hui. congruence.
  - unfold stop_return. destruct (ui d); [discriminate|].
    destruct (running d); [discriminate|]. intros [= <-] Hui. discriminate.
  - unfold on_tor_port_changed, stopQ_put; simpl.
    destruct (truthy_port _ && running d) eqn:Hcond.
    + destruct (stopQ d) as [q|] eqn:Hs; [|discriminate]. intros [= <-] Hui Hr; simpl in *.
      destruct (Hpend Hui Hr) as (q0 & l & Hs0 & Hlk & Hin).
      assert (q0 = q) as -> by congruence.
      exists q, (l ++ [kick]). split; [exact Hs|]. split.
      * rewrite list_lookup_alter_eq, Hlk. reflexivity.
      * apply in_or_app. left. exact Hin.
    + intros [= <-]. exact Hpend.
Qed.

Lemma stop_pending_execute (acts : list action) (d d1 : detector World) :
  wf d -> stop_pending d -> execute api acts d = Some d1 -> stop_pending d1.
Proof.
  revert d. induction acts as [|a acts IH]; intros d Hwf Hpend; simpl.
  - intros [= <-]. exact Hpend.
  - destruct (step api a d) as [d2|] eqn:Hs; [|discriminate].
    apply IH; [eapply wf_step; eassumption | eapply stop_pending_step; eassumption].
Qed.

(** A [stop] that waits does return: the worker, left to itself, ends and
    [wait] lets the caller go. *)
Lemma stop_completes (d : detector World) :
  wf d -> stop_pending d -> ui d = UiInWait ->
  exists bg d1,
    forallb is_worker_or_tick bg = true /\
    execute api (bg ++ [StopReturns]) d = Some d1 /\
    running d1 = false /\ ui d1 = UiFree.
Proof.
  intros Hwf Hpend Hui.
  assert (Hfin : worker_finishes api d).
  { destruct (running d) eqn:Hr.
    - destruct (Hpend Hui Hr) as (q & l & Hs & Hlk & Hin).
      eapply finishes_when_pending; eassumption.
    - exists [], d. repeat split; [exact Hr]. }
  destruct Hfin as (bg & d1 & Hbg & Hrun & Hr1 & Hu1).
  exists bg, (set_ui UiFree d1). split; [exact Hbg|].
  rewrite execute_app, Hrun. simpl. unfold stop_return. rewrite Hu1, Hui, Hr1.
  repeat split; exact Hr1.
Qed.

End StopLiveness.

Section StopTheorem.
Context {World : Type} (api : TorProbe.SocketApi World).
Import TorProbe TorThread.

Lemma background_keeps_ui (a : action) (d d1 : detector World) :
  is_ui_action a = false -> step api a d = Some d1 -> ui d1 = ui d.
Proof.
  destruct a as [delta| | | | |c]; simpl; try discriminate; intros _.
  - destruct (can_wait delta d); [|discriminate]. intros [= <-]. reflexivity.
  - apply worker_step_ui.
  - unfold on_tor_port_changed, stopQ_put; simpl.
    destruct (truthy_port _ && running d); [destruct (stopQ d); [|discriminate]|];
      intros [= <-]; reflexivity.
Qed.

Lemma background_keeps_ui_execute (acts : list action) (d d1 : detector World) :
  List.filter is_ui_action acts = [] -> execute api acts d = Some d1 -> ui d1 = ui d.
Proof.
  revert d. induction acts as [|a acts IH]; intros d; simpl.
  - intros _ [= <-]. reflexivity.
  - destruct (is_ui_action a) eqn:Ha; [discriminate|]. intros Hf.
    destruct (step api a d) as [d2|] eqn:Hs; [|discriminate]. intros Hrun.
    rewrite (IH d2 Hf Hrun). eapply background_keeps_ui; eassumption.
Qed.

(** Once [stop] has returned, and as long as nobody calls [start], no
    thread runs. *)
Lemma after_stop_returns (w : World) (c : option TorController)
      (acts1 acts2 : list action) (d : detector World) :
  execute api (acts1 ++ StopReturns :: acts2) (init w c) = Some d ->
  existsb is_call_start acts2 = false ->
  running d = false /\ wpc d = WIdle.
Proof.
  rewrite execute_app. destruct (execute api acts1 (init w c)) as [d0|] eqn:H0; [|discriminate].
  simpl. destruct (stop_return d0) as [d1|] eqn:H1; [|discriminate].
  intros Hrun Hnone.
  pose proof (wf_execute api acts1 _ _ (wf_init w c) H0) as Hwf0.
  destruct (stop_return_exited d0 d1 Hwf0 H1) as (Hr1 & _ & _).
  assert (Hwf1 : wf d1) by (apply (wf_step api StopReturns d0 d1 Hwf0); exact H1).
  pose proof (stopped_stays_execute api acts2 d1 d Hwf1 Hr1 Hnone Hrun) as Hr.
  split; [exact Hr|].
  pose proof (wf_execute api acts2 _ _ Hwf1 Hrun) as (Hiff & _). apply Hiff, Hr.
Qed.

(** C3. [stop()] on a running detector puts the sentinel [None] at the
    tail of the queue [stopQ] points to and waits; a step of the worker
    ends the thread exactly when it takes the sentinel out of its queue
    (a 'kick' or a timeout never does); in every interleaving of [start]
    then [stop] with the worker, the clock and port notifications, [stop]
    has returned only with the thread ended; [stop] returns at once only
    when no thread runs; and a waiting [stop] does return. *)
Theorem stop_joins_worker :
  (forall (d : detector World) (q : nat) (l : list item),
      running d = true -> stopQ d = Some q -> queues d !! q = Some l ->
      exists d1, stop_call d = Return d1 /\
                 queues d1 !! q = Some (l ++ [sentinel]) /\ ui d1 = UiInWait)
  /\ (forall w c acts (d d1 : detector World),
      execute api acts (init w c) = Some d ->
      running d = true -> worker_step api d = Some d1 ->
      (running d1 = false <->
       exists q deadline rest,
         wpc d = WGet q deadline /\ queues d !! q = Some (sentinel :: rest)))
  /\ (forall w c acts (d : detector World),
      execute api acts (init w c) = Some d ->
      ui_calls acts = [CallStart; CallStop; StopReturns] ->
      running d = false /\ wpc d = WIdle /\ ui d = UiFree)
  /\ (forall w c acts1 acts2 (d : detector World),
      execute api (acts1 ++ StopReturns :: acts2) (init w c) = Some d ->
      existsb is_call_start acts2 = false ->
      running d = false /\ wpc d = WIdle)
  /\ (forall w c acts (d : detector World),
      execute api (acts ++ [CallStop]) (init w c) = Some d ->
      ui d = UiFree -> running d = false)
  /\ (forall w c acts (d : detector World),
      execute api acts (init w c) = Some d -> ui d = UiInWait ->
      exists bg d1,
        forallb is_worker_or_tick bg = true /\
        execute api (bg ++ [StopReturns]) d = Some d1 /\
        running d1 = false /\ ui d1 = UiFree).
Proof.
  repeat apply conj.
  - intros d q l Hr Hs Hlk. rewrite (stop_call_running d q Hr Hs).
    eexists. split; [reflexivity|]. simpl.
    rewrite list_lookup_alter_eq, Hlk. split; reflexivity.
  - intros w c acts d d1 Hrun Hr Hstep.
    apply (worker_exit_iff api d d1); [|exact Hr | exact Hstep].
    exact (wf_execute api acts _ _ (wf_init w c) Hrun).
  - intros w c acts d Hrun Hcalls.
    destruct (filter_last is_ui_action acts [CallStart; CallStop] StopReturns Hcalls)
      as (pre & post & -> & Hpost).
    destruct (after_stop_returns w c pre post d Hrun (no_ui_no_start post Hpost))
      as [Hr Hpc].
    split; [exact Hr|]. split; [exact Hpc|].
    rewrite execute_app in Hrun.
    destruct (execute api pre (init w c)) as [d0|] eqn:H0; [|discriminate].
    simpl in Hrun. destruct (stop_return d0) as [d1|] eqn:H1; [|discriminate].
    rewrite (background_keeps_ui_execute post d1 d Hpost Hrun).
    pose proof (wf_execute api pre _ _ (wf_init w c) H0) as Hwf0.
    apply (stop_return_exited d0 d1 Hwf0 H1).
  - apply after_stop_returns.
  - intros w c acts d. rewrite execute_app.
    destruct (execute api acts (init w c)) as [d0|] eqn:H0; [|discriminate]. simpl.
    destruct (ui_free d0); [|discriminate]. unfold stop_call, stopQ_put.
    destruct (running d0) eqn:Hr0.
    + destruct (stopQ d0); [|discriminate]. intros [= <-]. simpl. discriminate.
    + intros [= <-] _. exact Hr0.
  - intros w c acts d Hrun Hui.
    apply (stop_completes api d); [| |exact Hui].
    + exact (wf_execute api acts _ _ (wf_init w c) Hrun).
    + apply (stop_pending_execute api acts (init w c) d);
        [apply wf_init | apply stop_pending_init | exact Hrun].
Qed.

End StopTheorem.

(** ** The worker thread: a 'kick' while waiting *)

Section KickFacts.
Context {World : Type} (api : TorProbe.SocketApi World).
Import TorProbe TorThread.

Lemma Forall_not_sentinel_snoc (l : list item) (x : item) :
  Forall (fun y : item => y <> sentinel) l -> x <> sentinel ->
  Forall (fun y : item => y <> sentinel) (l ++ [x]).
Proof.
  intros Hl Hx. apply Forall_app. split; [exact Hl|].
  constructor; [exact Hx | constructor].
Qed.

Lemma execute_step (a : action) (rest : list action) (d d1 : detector World) :
  step api a d = Some d1 -> execute api (a :: rest) d = execute api rest d1.
Proof.
  intros H.
  change (execute api (a :: rest) d)
    with (match step api a d with
          | Some d2 => execute api rest d2
          | None => None
          end).
  rewrite H. reflexivity.
Qed.

Lemma alive_port_changed (q : nat) (c : TorController) (d d1 : detector World) :
  alive q d -> step api (PortChanged c) d = Some d1 ->
  alive q d1 /\ wpc d1 = wpc d /\ now d1 = now d /\ pass_log d1 = pass_log d
  /\ exists l, queues d !! q = Some l /\
               (queues d1 !! q = Some l \/ queues d1 !! q = Some (l ++ [kick])).
Proof.
  intros (Hr & Hs & (l & Hlk & Hall) & Hpc & Hget). simpl.
  unfold on_tor_port_changed, stopQ_put; simpl. rewrite Hs.
  destruct (truthy_port _ && running d); intros [= <-]; simpl.
  - split.
    + unfold alive; simpl. repeat split; try assumption.
      exists (l ++ [kick]). split.
      * rewrite list_lookup_alter_eq, Hlk. reflexivity.
      * apply Forall_not_sentinel_snoc; [exact Hall | discriminate].
    + repeat split. exists l. split; [exact Hlk|]. right.
      rewrite list_lookup_alter_eq, Hlk. reflexivity.
  - split; [unfold alive; simpl; repeat split; eauto|].
    repeat split. exists l. auto.
Qed.

Lemma alive_tick (q : nat) (delta : Z) (d d1 : detector World) :
  alive q d -> step api (Tick delta) d = Some d1 ->
  alive q d1 /\ wpc d1 = wpc d /\ now d1 = now d + delta /\ 0 < delta
  /\ pass_log d1 = pass_log d /\ queues d1 = queues d.
Proof.
  intros Halive. simpl. unfold can_wait.
  destruct (Z.ltb_spec 0 delta) as [Hpos|]; [|discriminate]. simpl.
  destruct (match wpc d with WIdle => _ | _ => _ end); [|discriminate].
  intros [= <-]. simpl. repeat split; try assumption; apply Halive.
Qed.

Lemma alive_worker (q : nat) (d d1 : detector World) :
  alive q d -> worker_step api d = Some d1 -> alive q d1.
Proof.
  intros (Hr & Hs & (l & Hlk & Hall) & Hpc & Hget). rewrite worker_step_unfold.
  destruct (wpc d) as [| |ports|q' dl|t] eqn:Hw; [discriminate| | | |].
  - intros [= <-]. unfold alive; simpl.
    repeat split; try assumption; try discriminate; eauto.
  - destruct (probe_ports_returns api ports (probe d)) as [ps Hp].
    rewrite Hp, Hs. intros [= <-]. unfold alive; simpl.
    repeat split; try assumption; try discriminate; eauto.
    intros ? ? [= <- _]. reflexivity.
  - specialize (Hget q' dl eq_refl) as ->. rewrite Hlk.
    destruct l as [|[k|] rest].
    + destruct (dl <=? now d); [|discriminate]. intros [= <-].
      unfold alive; simpl. repeat split; try assumption; try discriminate; eauto.
    + intros [= <-]. unfold alive; simpl.
      repeat split; try assumption; try discriminate.
      exists rest. split.
      * apply list_lookup_insert_eq. eapply lookup_lt_Some; eassumption.
      * inversion Hall; assumption.
    + inversion Hall as [|? ? Hx _]; congruence.
  - destruct (t <=? now d); [|discriminate]. intros [= <-].
    unfold alive; simpl. repeat split; try assumption; try discriminate; eauto.
Qed.

Lemma worker_step_log (d d1 : detector World) :
  worker_step api d = Some d1 ->
  now d1 = now d /\
  (pass_log d1 = pass_log d \/ pass_log d1 = pass_log d ++ [now d]).
Proof.
  rewrite worker_step_unfold.
  destruct (wpc d) as [| |ports|q dl|t]; [discriminate| | | |].
  - intros [= <-]; simpl; auto.
  - destruct (probe_ports api ports (probe d)) as [[[]|e] ps];
      [destruct (stopQ d)|]; intros [= <-]; simpl; auto.
  - destruct (queues d !! q) as [[|[k|] rest]|];
      try (destruct (dl <=? now d); [|discriminate]); intros [= <-]; simpl; auto.
  - destruct (t <=? now d); [|discriminate]. intros [= <-]; simpl; auto.
Qed.

Lemma after_kick_step (q : nat) (t0 : Z) (L : list Z) (a : action)
      (d d1 : detector World) :
  is_background a = true -> alive q d -> after_kick q t0 L d ->
  step api a d = Some d1 ->
  alive q d1 /\ after_kick q t0 L d1.
Proof.
  intros Ha Halive Hphase Hstep.
  destruct a as [delta| | | | |c]; try discriminate; clear Ha.
  - destruct (alive_tick q delta d d1 Halive Hstep)
      as (Halive1 & Hpc1 & Hnow1 & Hpos & Hlog1 & Hq1).
    split; [exact Halive1|].
    simpl in Hstep. unfold can_wait in Hstep.
    destruct Hphase as [(dl & k & rest & Hpc & Hlk & Hnow & Hlog)
                       |[(Hpc & Hnow & Hlog)
                       |[(Hpc & Hnow & Hlog)
                       |(rest & Hlog & Hnow)]]].
    + rewrite Hpc, Hlk, andb_false_r in Hstep. discriminate.
    + rewrite Hpc in Hstep.
      destruct (0 <? delta); [|discriminate]. simpl in Hstep.
      destruct (Z.leb_spec (now d + delta) (t0 + settle_ms)); [|discriminate].
      right. left. rewrite Hpc1, Hnow1, Hlog1. repeat split; [exact Hpc | lia | lia | exact Hlog].
    + rewrite Hpc, andb_false_r in Hstep. discriminate.
    + right. right. right. exists rest. rewrite Hlog1, Hnow1. split; [exact Hlog | lia].
  - simpl in Hstep. split; [eapply alive_worker; eassumption|].
    destruct (worker_step_log d d1 Hstep) as [Hnow1 Hlog1].
    destruct Hphase as [(dl & k & rest & Hpc & Hlk & Hnow & Hlog)
                       |[(Hpc & Hnow & Hlog)
                       |[(Hpc & Hnow & Hlog)
                       |(rest & Hlog & Hnow)]]].
    + rewrite worker_step_unfold in Hstep. rewrite Hpc, Hlk in Hstep.
      injection Hstep as <-. right. left. simpl.
      rewrite Hnow. repeat split; [lia | unfold settle_ms; lia | exact Hlog].
    + rewrite worker_step_unfold in Hstep. rewrite Hpc in Hstep.
      destruct (Z.leb_spec (t0 + settle_ms) (now d)); [|discriminate].
      injection Hstep as <-. right. right. left. simpl.
      repeat split; [lia | exact Hlog].
    + rewrite (worker_step_pass api d Hpc) in Hstep.
      injection Hstep as <-. right. right. right. exists []. simpl.
      rewrite Hlog, Hnow. split; [reflexivity | lia].
    + right. right. right. destruct Hlog1 as [Hsame|Hmore].
      * exists rest. rewrite Hsame, Hnow1. split; [exact Hlog | exact Hnow].
      * exists (rest ++ [now d]). rewrite Hmore, Hlog, Hnow1.
        split; [rewrite <- app_assoc; reflexivity | exact Hnow].
  - destruct (alive_port_changed q c d d1 Halive Hstep)
      as (Halive1 & Hpc1 & Hnow1 & Hlog1 & (l & Hlk & Hlk1)).
    split; [exact Halive1|].
    destruct Hphase as [(dl & k & rest & Hpc & Hlk0 & Hnow & Hlog)
                       |[(Hpc & Hnow & Hlog)
                       |[(Hpc & Hnow & Hlog)
                       |(rest & Hlog & Hnow)]]].
    + left. rewrite Hlk in Hlk0. injection Hlk0 as ->.
      destruct Hlk1 as [Hlk1|Hlk1].
      * exists dl, k, rest. rewrite Hpc1, Hnow1, Hlog1. auto.
      * exists dl, k, (rest ++ [kick]). rewrite Hpc1, Hnow1, Hlog1. auto.
    + right. left. rewrite Hpc1, Hnow1, Hlog1. auto.
    + right. right. left. rewrite Hpc1, Hnow1, Hlog1. auto.
    + right. right. right. exists rest. rewrite Hnow1, Hlog1. auto.
Qed.

Lemma after_kick_execute (q : nat) (t0 : Z) (L : list Z) (acts : list action)
      (d d1 : detector World) :
  forallb is_background acts = true -> alive q d -> after_kick q t0 L d ->
  execute api acts d = Some d1 ->
  alive q d1 /\ after_kick q t0 L d1.
Proof.
  revert d. induction acts as [|a acts IH]; intros d; simpl.
  - intros _ Halive Hphase [= <-]. auto.
  - intros Hbg Halive Hphase. apply andb_true_iff in Hbg as [Ha Hacts].
    destruct (step api a d) as [d2|] eqn:Hs; [|discriminate].
    destruct (after_kick_step q t0 L a d d2 Ha Halive Hphase Hs) as [Halive2 Hphase2].
    apply IH; assumption.
Qed.

(** From the top of the loop at [t0 + 250] the worker begins the pass. *)
Lemma kicked_pass_begins (t0 : Z) (L : list Z) (d : detector World) :
  wpc d = WPass -> now d = t0 + settle_ms -> pass_log d = L ->
  exists d2,
    execute api [Worker] d = Some d2 /\ pass_log d2 = L ++ [t0 + settle_ms].
Proof.
  intros Hpc Hnow Hlog. eexists. split.
  - rewrite (execute_step Worker [] d _ (worker_step_pass api d Hpc)). reflexivity.
  - simpl. rewrite Hlog, Hnow. reflexivity.
Qed.

(** From the settle delay the worker reaches the pass: the clock runs to
    the end of the delay, [msleep] returns, the pass begins. *)
Lemma kicked_sleep_ends (t0 : Z) (L : list Z) (d : detector World) :
  wpc d = WSleep (t0 + settle_ms) -> t0 <= now d <= t0 + settle_ms ->
  pass_log d = L ->
  exists bg d2,
    forallb is_worker_or_tick bg = true
    /\ execute api bg d = Some d2 /\ pass_log d2 = L ++ [t0 + settle_ms].
Proof.
  intros Hpc Hnow Hlog.
  assert (Hwake : forall d0 : detector World,
             wpc d0 = WSleep (t0 + settle_ms) -> now d0 = t0 + settle_ms ->
             pass_log d0 = L ->
             exists d2, execute api [Worker; Worker] d0 = Some d2
                        /\ pass_log d2 = L ++ [t0 + settle_ms]).
  { intros d0 Hpc0 Hnow0 Hlog0.
    assert (H1 : step api Worker d0 = Some (set_thread true WPass d0)).
    { simpl. rewrite worker_step_unfold, Hpc0, Hnow0, Z.leb_refl. reflexivity. }
    destruct (kicked_pass_begins t0 L (set_thread true WPass d0) eq_refl Hnow0 Hlog0)
      as (d2 & Hrun & Hlog2).
    exists d2. split; [|exact Hlog2].
    rewrite (execute_step Worker [Worker] d0 _ H1). exact Hrun. }
  destruct (Z.eq_dec (now d) (t0 + settle_ms)) as [Heq|Hne].
  - destruct (Hwake d Hpc Heq Hlog) as (d2 & Hrun & Hlog2).
    exists [Worker; Worker], d2. split; [reflexivity|]. split; assumption.
  - set (delta := t0 + settle_ms - now d).
    assert (H1 : step api (Tick delta) d = Some (set_now (now d + delta) d)).
    { simpl. unfold can_wait. rewrite Hpc.
      destruct (Z.ltb_spec 0 delta); [|unfold delta in *; lia].
      destruct (Z.leb_spec (now d + delta) (t0 + settle_ms));
        [reflexivity | unfold delta in *; lia]. }
    destruct (Hwake (set_now (now d + delta) d)) as (d2 & Hrun & Hlog2);
      [exact Hpc | simpl; unfold delta; lia | exact Hlog |].
    exists [Tick delta; Worker; Worker], d2. split; [reflexivity|].
    split; [|exact Hlog2].
    rewrite (execute_step (Tick delta) [Worker; Worker] d _ H1). exact Hrun.
Qed.

(** Wherever the worker stands after the 'kick', the worker and the
    clock alone bring the pass of [t0 + 250]. *)
Lemma after_kick_progress (q : nat) (t0 : Z) (L : list Z) (d : detector World) :
  alive q d -> after_kick q t0 L d ->
  exists bg d2 rest,
    forallb is_worker_or_tick bg = true
    /\ execute api bg d = Some d2
    /\ pass_log d2 = L ++ (t0 + settle_ms) :: rest.
Proof.
  intros Halive [(dl & k & rest0 & Hpc & Hlk & Hnow & Hlog)
                |[(Hpc & Hnow & Hlog)
                |[(Hpc & Hnow & Hlog)
                |(rest & Hlog & Hnow)]]].
  - set (d1 := set_thread true (WSleep (now d + settle_ms))
                 (set_queues (<[q := rest0]> (queues d)) d)).
    assert (H1 : step api Worker d = Some d1).
    { simpl. rewrite worker_step_unfold, Hpc, Hlk. reflexivity. }
    destruct (kicked_sleep_ends t0 L d1) as (bg & d2 & Hbg & Hrun & Hlog2).
    + unfold d1; simpl. rewrite Hnow. reflexivity.
    + unfold d1; simpl. unfold settle_ms. lia.
    + exact Hlog.
    + exists (Worker :: bg), d2, []. split; [exact Hbg|].
      split; [|exact Hlog2].
      rewrite (execute_step Worker bg d _ H1). exact Hrun.
  - destruct (kicked_sleep_ends t0 L d Hpc Hnow Hlog) as (bg & d2 & Hbg & Hrun & Hlog2).
    exists bg, d2, []. auto.
  - destruct (kicked_pass_begins t0 L d Hpc Hnow Hlog) as (d2 & Hrun & Hlog2).
    exists [Worker], d2, []. auto.
  - exists [], d, rest. repeat split. exact Hlog.
Qed.

Lemma worker_or_tick_background (acts : list action) :
  forallb is_worker_or_tick acts = true -> forallb is_background acts = true.
Proof.
  induction acts as [|a acts IH]; simpl; [reflexivity|].
  intros H. apply andb_true_iff in H as [Ha Hacts].
  rewrite (IH Hacts), andb_true_r. destruct a; try discriminate; reflexivity.
Qed.

(** C4 (as the code has it). A port-change notification that arrives
    while the running worker waits in [get] on the queue that
    [self.stopQ] refers to (the controller's active SOCKS port being set)
    puts a 'kick' into that queue.  Whatever the worker, the clock and
    further notifications then do, the loop does not end, and the next
    probe pass starts exactly 250 ms after the notification: no pass is
    logged before, the clock cannot pass that moment without it (whatever
    the 10 s deadline of the pending [get] was), and from wherever the
    execution stands the worker and the clock alone bring that pass. *)
Theorem kick_restarts_after_settle
        (d : detector World) (c : TorController) (q : nat) (deadline : Z)
        (acts : list action) (d1 : detector World) :
  running d = true -> wpc d = WGet q deadline -> stopQ d = Some q ->
  queues d !! q = Some [] ->
  truthy_port (tc_active_socks_port c) = true ->
  forallb is_background acts = true ->
  execute api (PortChanged c :: acts) d = Some d1 ->
  (exists d0, step api (PortChanged c) d = Some d0 /\ queues d0 !! q = Some [kick])
  /\ running d1 = true
  /\ wpc d1 <> WIdle
  /\ (exists later,
       pass_log d1 = pass_log d ++ later
       /\ (forall t rest, later = t :: rest -> t = now d + 250)
       /\ (later = [] -> now d1 <= now d + 250))
  /\ (exists bg d2 rest,
       forallb is_worker_or_tick bg = true
       /\ execute api bg d1 = Some d2
       /\ running d2 = true
       /\ pass_log d2 = pass_log d ++ (now d + 250) :: rest).
Proof.
  intros Hr Hpc Hs Hlk Hport Hbg Hrun.
  assert (Hstep : step api (PortChanged c) d =
                  Some (set_queues (alter (fun l => l ++ [kick]) q (queues d))
                          (set_controller (Some c) d))).
  { simpl. unfold on_tor_port_changed, stopQ_put; simpl. rewrite Hport, Hr, Hs.
    reflexivity. }
  rewrite (execute_step (PortChanged c) acts d _ Hstep) in Hrun.
  set (d0 := set_queues _ _) in *.
  assert (Hlk0 : queues d0 !! q = Some [kick]).
  { unfold d0; simpl. rewrite list_lookup_alter_eq, Hlk. reflexivity. }
  split; [exists d0; split; [exact Hstep | exact Hlk0]|].
  assert (Halive0 : alive q d0).
  { unfold alive, d0; simpl. repeat split; try assumption.
    - exists [kick]. split; [exact Hlk0|]. constructor; [discriminate | constructor].
    - rewrite Hpc. discriminate.
    - rewrite Hpc. intros ? ? [= <- _]. reflexivity. }
  assert (Hphase0 : after_kick q (now d) (pass_log d) d0).
  { left. exists deadline, "kick"%string, []. unfold d0 at 1 3 4; simpl.
    repeat split; [exact Hpc | exact Hlk0]. }
  destruct (after_kick_execute q (now d) (pass_log d) acts d0 d1 Hbg Halive0 Hphase0 Hrun)
    as [Halive1 Hphase1].
  split; [apply Halive1|]. split; [apply Halive1|]. split.
  - unfold after_kick, settle_ms in Hphase1.
    destruct Hphase1 as [(dl & k & rest & _ & _ & Hnow & Hlog)
                        |[(_ & Hnow & Hlog)
                        |[(_ & Hnow & Hlog)
                        |(rest & Hlog & Hnow)]]].
    + exists []. rewrite app_nil_r.
      split; [exact Hlog|]. split; [discriminate | intros _; clear - Hnow; lia].
    + exists []. rewrite app_nil_r.
      split; [exact Hlog|]. split; [discriminate | intros _; clear - Hnow; lia].
    + exists []. rewrite app_nil_r.
      split; [exact Hlog|]. split; [discriminate | intros _; clear - Hnow; lia].
    + exists (now d + 250 :: rest).
      split; [exact Hlog|]. split; [|discriminate].
      intros t rest' [= <- _]. reflexivity.
  - destruct (after_kick_progress q (now d) (pass_log d) d1 Halive1 Hphase1)
      as (bg & d2 & rest & Hwt & Hrun2 & Hlog2).
    exists bg, d2, rest. split; [exact Hwt|]. split; [exact Hrun2|].
    split; [|exact Hlog2].
    apply (after_kick_execute q (now d) (pass_log d) bg d1 d2
             (worker_or_tick_background bg Hwt) Halive1 Hphase1 Hrun2).
Qed.

End KickFacts.

(** ** The worker thread: [start] on a running detector *)

Section StartFacts.
Context {World : Type} (api : TorProbe.SocketApi World).
Import TorProbe TorThread.

(** C5 (as the code has it). [start()] on a running detector starts no
    second worker: the thread, its place in [run], the signals emitted,
    the pass log, the clock and the caller are as before.  It is not a
    no-op: [self.stopQ] becomes a fresh, empty queue object, different
    from the one in use; the queue objects that existed are kept as they
    were, so a worker blocked in [get] still waits on the old one.  A
    [stop()] after that still ends the thread and returns. *)
Theorem start_while_running (d : detector World) :
  running d = true ->
  (running (start d) = true /\ wpc (start d) = wpc d
   /\ probe (start d) = probe d /\ pass_log (start d) = pass_log d
   /\ now (start d) = now d /\ ui (start d) = ui d
   /\ controller (start d) = controller d)
  /\ (stopQ (start d) = Some (length (queues d))
      /\ queues (start d) = queues d ++ [[]]
      /\ queues (start d) !! length (queues d) = Some []
      /\ forall q, (q < length (queues d))%nat ->
                   queues (start d) !! q = queues d !! q)
  /\ (wf d -> stopQ (start d) <> stopQ d)
  /\ (wf d -> stop_pending d -> ui d = UiFree ->
      exists d1 bg d2,
        execute api [CallStart; CallStop] d = Some d1 /\ ui d1 = UiInWait /\
        forallb is_worker_or_tick bg = true /\
        execute api (bg ++ [StopReturns]) d1 = Some d2 /\
        running d2 = false /\ ui d2 = UiFree).
Proof.
  intros Hr. unfold start; simpl. rewrite Hr. simpl.
  split; [repeat split; exact Hr|]. split; [|split].
  - repeat split.
    + rewrite lookup_app_r by lia. rewrite Nat.sub_diag. reflexivity.
    + intros q Hq. apply lookup_app_l. exact Hq.
  - intros (_ & _ & Hlen & _) Heq. symmetry in Heq. apply Hlen in Heq. lia.
  - intros Hwf Hpend Hui.
    assert (H1 : step api CallStart d = Some (start d)).
    { simpl. unfold ui_free. rewrite Hui. reflexivity. }
    destruct (stop_call (start d)) as [d1|e] eqn:Hstop.
    2:{ unfold stop_call, stopQ_put, start in Hstop. simpl in Hstop.
        rewrite Hr in Hstop. simpl in Hstop. rewrite Hr in Hstop. discriminate. }
    assert (Hui1 : ui d1 = UiInWait).
    { unfold stop_call, stopQ_put, start in Hstop. simpl in Hstop.
      rewrite Hr in Hstop. simpl in Hstop. rewrite Hr in Hstop.
      injection Hstop as <-. reflexivity. }
    assert (H2 : step api CallStop (start d) = Some d1).
    { simpl. unfold ui_free. replace (ui (start d)) with (ui d).
      - rewrite Hui, Hstop. reflexivity.
      - unfold start; simpl. rewrite Hr. reflexivity. }
    assert (Hrun : execute api [CallStart; CallStop] d = Some d1).
    { change (execute api [CallStart; CallStop] d)
        with (match step api CallStart d with
              | Some d0 => match step api CallStop d0 with
                           | Some d3 => Some d3
                           | None => None
                           end
              | None => None
              end).
      rewrite H1, H2. reflexivity. }
    destruct (stop_completes api d1) as (bg & d2 & Hbg & Hrun2 & Hr2 & Hui2).
    + eapply wf_execute; eassumption.
    + eapply stop_pending_execute; eassumption.
    + exact Hui1.
    + exists d1, bg, d2. auto 10.
Qed.

End StartFacts.

(** ** The prober on an example machine

    Nothing listens on 9050 and Tor listens on 9150. *)

Section ProberExamples.
Import TorProbe TorThread.

Lemma is_tor_port_spec_witness :
  valid_port 9150 = true
  /\ (exists b w', is_tor_port demo_api 9150 (demo_world0 [9150] []) = (Return b, w'))
  /\ fst (is_tor_port demo_api 9150 (demo_world0 [9150] [])) = Return true.
Proof.
  assert (Hport : valid_port 9150 = true) by reflexivity.
  destruct (is_tor_port_spec demo_api 9150 (demo_world0 [9150] []) Hport)
    as (Hret & _).
  split; [exact Hport|]. split; [exact Hret | reflexivity].
Defined.

Example probe_closed_port :
  fst (is_tor_port demo_api 9050 (demo_world0 [9150] [])) = Return false.
Proof. reflexivity. Qed.

Example probe_tor_port :
  fst (is_tor_port demo_api 9150 (demo_world0 [9150] [])) = Return true.
Proof. reflexivity. Qed.

Example probe_web_server :
  fst (is_tor_port demo_api 8080 (demo_world0 [9150] [8080])) = Return false.
Proof. reflexivity. Qed.

Example pass_finds_second_candidate :
  ps_emitted (snd (run_pass demo_api (Some demo_ctrl)
                     {| ps_world := demo_world0 [9150] []; ps_emitted := [] |}))
  = [Some ("127.0.0.1"%string, 9150)].
Proof. reflexivity. Qed.

Example pass_prefers_active_port :
  ps_emitted (snd (run_pass demo_api (Some demo_ctrl)
                     {| ps_world := demo_world0 [9150; 9051] []; ps_emitted := [] |}))
  = [Some ("127.0.0.1"%string, 9051)].
Proof. reflexivity. Qed.

Example pass_finds_nothing :
  ps_emitted (snd (run_pass demo_api (Some demo_ctrl)
                     {| ps_world := demo_world0 [] [9050]; ps_emitted := [] |}))
  = [None].
Proof. reflexivity. Qed.

(** [start], one pass, [stop]: the worker takes the sentinel and ends,
    then [stop] returns. *)
Example start_then_stop :
  let d := demo_after [CallStart; Worker; Worker; CallStop; Worker; StopReturns] in
  running d = false /\ wpc d = WIdle /\ ui d = UiFree
  /\ queues d = [[]] /\ pass_log d = [0]
  /\ ps_emitted (probe d) = [Some ("127.0.0.1"%string, 9150)].
Proof. vm_compute. repeat split. Qed.

(** [stop] cannot return while the worker still runs. *)
Example stop_blocks_while_running :
  execute demo_api [CallStart; CallStop; StopReturns] demo_init = None.
Proof. reflexivity. Qed.

(** An undisturbed wait lasts the full ten seconds. *)
Example wait_times_out :
  execute demo_api [CallStart; Worker; Worker; Tick 9999; Worker] demo_init = None
  /\ pass_log (demo_after [CallStart; Worker; Worker; Tick 10000; Worker; Worker])
     = [0; 10000].
Proof. split; reflexivity. Qed.

(** The ten seconds count from the end of the probes: with probes that
    take 300 ms the next pass begins 10.3 s after the first. *)
Example wait_starts_after_the_probes :
  wpc (demo_after [CallStart; Worker; Tick 300; Worker]) = WGet 0 10300
  /\ pass_log (demo_after [CallStart; Worker; Tick 300; Worker; Tick 10000;
                           Worker; Worker])
     = [0; 10300].
Proof. split; reflexivity. Qed.

(** A [start] during the probes: the [get] that follows is on the new
    queue. *)
Example start_during_the_probes :
  wpc (demo_after [CallStart; Worker; CallStart; Worker]) = WGet 1 10000.
Proof. reflexivity. Qed.

Lemma kick_restarts_after_settle_witness :
  let d := demo_after [CallStart; Worker; Worker; Tick 4000] in
  let acts := [Worker; Tick 250; Worker; Worker; Worker; Tick 3000] in
  let d1 := demo_after ([CallStart; Worker; Worker; Tick 4000; PortChanged demo_ctrl]
                          ++ acts) in
  (running d = true /\ wpc d = WGet 0 10000 /\ stopQ d = Some 0%nat
   /\ queues d !! 0%nat = Some []
   /\ truthy_port (tc_active_socks_port demo_ctrl) = true
   /\ forallb is_background acts = true
   /\ execute demo_api (PortChanged demo_ctrl :: acts) d = Some d1)
  /\ running d1 = true
  /\ pass_log d1 = [0; 4250]
  /\ wpc d1 = WGet 0 14250.
Proof.
  cbv zeta.
  assert (H1 : running (demo_after [CallStart; Worker; Worker; Tick 4000]) = true)
    by (vm_compute; reflexivity).
  assert (H2 : wpc (demo_after [CallStart; Worker; Worker; Tick 4000]) = WGet 0 10000)
    by (vm_compute; reflexivity).
  assert (H3 : stopQ (demo_after [CallStart; Worker; Worker; Tick 4000]) = Some 0%nat)
    by (vm_compute; reflexivity).
  assert (H4 : queues (demo_after [CallStart; Worker; Worker; Tick 4000]) !! 0%nat
               = Some [])
    by (vm_compute; reflexivity).
  assert (H5 : truthy_port (tc_active_socks_port demo_ctrl) = true)
    by (vm_compute; reflexivity).
  assert (H6 : forallb is_background
                 [Worker; Tick 250; Worker; Worker; Worker; Tick 3000] = true)
    by (vm_compute; reflexivity).
  assert (H7 : execute demo_api
                 (PortChanged demo_ctrl
                    :: [Worker; Tick 250; Worker; Worker; Worker; Tick 3000])
                 (demo_after [CallStart; Worker; Worker; Tick 4000])
               = Some (demo_after
                         ([CallStart; Worker; Worker; Tick 4000; PortChanged demo_ctrl]
                            ++ [Worker; Tick 250; Worker; Worker; Worker; Tick 3000])))
    by (vm_compute; reflexivity).
  split; [exact (conj H1 (conj H2 (conj H3 (conj H4 (conj H5 (conj H6 H7))))))|].
  pose proof (kick_restarts_after_settle demo_api _ demo_ctrl 0%nat 10000 _ _
                H1 H2 H3 H4 H5 H6 H7) as (_ & Hr & _).
  split; [exact Hr|]. split; vm_compute; reflexivity.
Defined.

(** C4 (as stated) fails after a second [start].  The worker waits on
    its queue and the notification arrives with the active port set, but
    the 'kick' goes to the new queue of [self.stopQ]: the worker stays
    blocked on the old one, has begun no pass 250 ms later, and begins
    the next one only when the 10 s of its [get] are over. *)
Lemma kick_after_second_start_waits_out_timeout :
  let d := demo_after [CallStart; Worker; Worker; CallStart; Tick 4000] in
  execute demo_api [CallStart; Worker; Worker; CallStart; Tick 4000] demo_init = Some d
  /\ running d = true /\ wpc d = WGet 0 10000 /\ queues d !! 0%nat = Some []
  /\ now d = 4000 /\ pass_log d = [0]
  /\ truthy_port (tc_active_socks_port demo_ctrl) = true
  /\ exists d0,
       step demo_api (PortChanged demo_ctrl) d = Some d0
       /\ queues d0 = [[]; [kick]]
       /\ step demo_api Worker d0 = None
       /\ (exists d1, execute demo_api [Tick 250] d0 = Some d1
                      /\ now d1 = 4250 /\ pass_log d1 = [0]
                      /\ step demo_api Worker d1 = None)
       /\ (exists d2, execute demo_api [Tick 6000; Worker; Worker] d0 = Some d2
                      /\ now d2 = 10000 /\ pass_log d2 = [0; 10000]).
Proof.
  cbv zeta.
  split; [vm_compute; reflexivity|]. split; [vm_compute; reflexivity|].
  split; [vm_compute; reflexivity|]. split; [vm_compute; reflexivity|].
  split; [vm_compute; reflexivity|]. split; [vm_compute; reflexivity|].
  split; [vm_compute; reflexivity|].
  exists (demo_after [CallStart; Worker; Worker; CallStart; Tick 4000;
                      PortChanged demo_ctrl]).
  split; [vm_compute; reflexivity|]. split; [vm_compute; reflexivity|].
  split; [vm_compute; reflexivity|]. split.
  - exists (demo_after [CallStart; Worker; Worker; CallStart; Tick 4000;
                        PortChanged demo_ctrl; Tick 250]).
    split; [vm_compute; reflexivity|]. split; [vm_compute; reflexivity|].
    split; vm_compute; reflexivity.
  - exists (demo_after [CallStart; Worker; Worker; CallStart; Tick 4000;
                        PortChanged demo_ctrl; Tick 6000; Worker; Worker]).
    split; [vm_compute; reflexivity|]. split; vm_compute; reflexivity.
Qed.

Lemma start_while_running_witness :
  let d := demo_after [CallStart; Worker; Worker] in
  running d = true
  /\ wpc (start d) = WGet 0 10000
  /\ stopQ d = Some 0%nat
  /\ stopQ (start d) = Some 1%nat
  /\ queues (start d) = [[]; []].
Proof.
  cbv zeta.
  pose proof (start_while_running demo_api (demo_after [CallStart; Worker; Worker]) eq_refl)
    as ((_ & Hpc & _) & (Hq & Hqs & _) & _).
  split; [reflexivity|]. split; [exact Hpc|]. split; [reflexivity|].
  split; [exact Hq | exact Hqs].
Defined.

(** C5 (as stated) fails: the second [start] changes the detector, and the
    sentinel of the following [stop] goes to the new queue while the
    worker waits on the old one; it cannot take a step until its [get]
    times out. *)
Lemma start_while_running_is_no_noop :
  let d := demo_after [CallStart; Worker; Worker] in
  execute demo_api [CallStart; Worker; Worker] demo_init = Some d
  /\ running d = true
  /\ start d <> d
  /\ stopQ d = Some 0%nat /\ stopQ (start d) = Some 1%nat
  /\ (exists d2, execute demo_api [CallStop; Worker] d = Some d2 /\ running d2 = false)
  /\ (exists d2, execute demo_api [CallStop] (start d) = Some d2
                 /\ wpc d2 = WGet 0 10000 /\ queues d2 = [[]; [sentinel]]
                 /\ step demo_api Worker d2 = None).
Proof.
  cbv zeta. split; [vm_compute; reflexivity|]. split; [vm_compute; reflexivity|].
  split; [|split; [|split; [|split]]].
  - intros H. apply (f_equal stopQ) in H. vm_compute in H. discriminate H.
  - vm_compute; reflexivity.
  - vm_compute; reflexivity.
  - exists (demo_after [CallStart; Worker; Worker; CallStop; Worker]).
    split; vm_compute; reflexivity.
  - exists (demo_after [CallStart; Worker; Worker; CallStart; CallStop]).
    split; [vm_compute; reflexivity|]. split; [vm_compute; reflexivity|].
    split; vm_compute; reflexivity.
Qed.

End ProberExamples.

(** ** Closing the dialog *)

Section CloseFacts.
Import NetworkDialog.

Lemma closeEvent_config (n : nlayout) (user : answer) :
  config (layout_after (closeEvent n user)) =
  if non_ssl_risk n && chk user
  then Config.set_key "non_ssl_noprompt" (Config.VBool true) (config n)
  else config n.
Proof.
  unfold closeEvent. destruct (non_ssl_risk n), (chk user), (ok user); reflexivity.
Qed.

Lemma opted_out_no_risk (n : nlayout) :
  Config.truthy (Config.get (config n) "non_ssl_noprompt" (Config.VBool false)) = true ->
  non_ssl_risk n = false.
Proof.
  intros H. unfold non_ssl_risk. rewrite H. simpl. apply andb_false_r.
Qed.

(** C6. When SSL and the Tor proxy are unchecked, the server host does
    not end in ".onion" (in any letter case) and no opt-out is stored,
    closing the dialog asks for confirmation; the close event is ignored
    exactly when the user declines; ticking the box stores [True] under
    'non_ssl_noprompt' (whatever the button), and with that stored no
    later close attempt asks again: the event is handed on. *)
Theorem closeEvent_spec (n : nlayout) (user : answer) :
  ssl_cb n = false -> tor_cb n = false ->
  is_onion_host (server_host n) = false ->
  Config.truthy (Config.get (config n) "non_ssl_noprompt" (Config.VBool false)) = false ->
  prompted (closeEvent n user) = true
  /\ (result (closeEvent n user) = Ignored <-> ok user = false)
  /\ (chk user = true ->
      config (layout_after (closeEvent n user)) !! "non_ssl_noprompt"
        = Some (Config.VBool true)
      /\ forall (n' : nlayout) (user' : answer),
           config n' = config (layout_after (closeEvent n user)) ->
           prompted (closeEvent n' user') = false
           /\ result (closeEvent n' user') = PassedOn
           /\ layout_after (closeEvent n' user') = n')
  /\ (chk user = false -> layout_after (closeEvent n user) = n).
Proof.
  intros Hssl Htor Honion Hcfg.
  assert (Hrisk : non_ssl_risk n = true).
  { unfold non_ssl_risk. unfold is_onion_host in Honion.
    rewrite Hssl, Htor, Honion, Hcfg. reflexivity. }
  split; [unfold closeEvent; rewrite Hrisk; destruct (ok user); reflexivity|].
  split; [unfold closeEvent; rewrite Hrisk; destruct (ok user); simpl;
          split; (discriminate || reflexivity)|].
  split.
  - intros Hchk.
    assert (Hstored : config (layout_after (closeEvent n user)) !! "non_ssl_noprompt"
                      = Some (Config.VBool true)).
    { rewrite closeEvent_config, Hrisk, Hchk. simpl. unfold Config.set_key.
      apply lookup_insert_eq. }
    split; [exact Hstored|]. intros n' user' Hcfg'.
    assert (Hno : non_ssl_risk n' = false).
    { apply opted_out_no_risk. unfold Config.get. rewrite Hcfg', Hstored. reflexivity. }
    unfold closeEvent. rewrite Hno. repeat split.
  - intros Hchk. unfold closeEvent. rewrite Hrisk, Hchk.
    destruct (ok user); reflexivity.
Qed.

Lemma closeEvent_spec_witness :
  let user := {| ok := false; chk := true |} in
  (ssl_cb demo_layout = false /\ tor_cb demo_layout = false
   /\ is_onion_host (server_host demo_layout) = false
   /\ Config.truthy (Config.get (config demo_layout) "non_ssl_noprompt"
                       (Config.VBool false)) = false)
  /\ prompted (closeEvent demo_layout user) = true
  /\ (result (closeEvent demo_layout user) = Ignored <-> ok user = false).
Proof.
  cbv zeta.
  assert (H1 : ssl_cb demo_layout = false) by reflexivity.
  assert (H2 : tor_cb demo_layout = false) by reflexivity.
  assert (H3 : is_onion_host (server_host demo_layout) = false)
    by (vm_compute; reflexivity).
  assert (H4 : Config.truthy (Config.get (config demo_layout) "non_ssl_noprompt"
                                (Config.VBool false)) = false)
    by (vm_compute; reflexivity).
  split; [exact (conj H1 (conj H2 (conj H3 H4)))|].
  pose proof (closeEvent_spec demo_layout {| ok := false; chk := true |} H1 H2 H3 H4)
    as (Hp & Hr & _).
  exact (conj Hp Hr).
Defined.

(** An onion host, SSL, the Tor proxy or a stored opt-out: no prompt. *)
Example close_onion_host_unprompted :
  prompted (closeEvent {| ssl_cb := false; tor_cb := false;
                          server_host := "abcdefgh.ONION"; config := ∅ |}
                       {| ok := false; chk := false |}) = false.
Proof. vm_compute. reflexivity. Qed.

End CloseFacts.

(** ** The validation-method check boxes *)

Section ValidationFacts.
Import Validation ValidationInit.

Lemma use_slp_gs_boxes (p : panel) :
  slp_gs_enable_cb (use_slp_gs p) = slp_gs_enable_cb p
  /\ slp_slpdb_enable_cb (use_slp_gs p) = false.
Proof. destruct p as [[] s a b c]; split; reflexivity. Qed.

Lemma use_slp_slpdb_boxes (p : panel) :
  slp_gs_enable_cb (use_slp_slpdb p) = slp_gs_enable_cb p
  /\ slp_slpdb_enable_cb (use_slp_slpdb p) = slp_slpdb_enable_cb p.
Proof. split; reflexivity. Qed.

(** The handlers at their own return.  After [use_slp_gs], after
    [slpdb_msg_box] (which runs [use_slp_slpdb] on confirmation) and after
    [gs_and_slpdb_checked_msg_box] with any of its three buttons, at most
    one of the two check boxes is checked; [use_slp_slpdb] itself leaves
    both boxes as they are.  Enabling graph search unchecks the SLPDB box
    and sends [toggle_graph_search(True)] alone; confirming SLPDB unchecks
    the graph-search box and sends [toggle_slpdb_validation(True)]
    alone. *)
Lemma handlers_leave_one_box :
  (forall p, exclusive (use_slp_gs p))
  /\ (forall p b, exclusive (slpdb_msg_box p b))
  /\ (forall p c, exclusive (gs_and_slpdb_checked_msg_box p (exec_result c)))
  /\ (forall p ret, exclusive p -> exclusive (gs_and_slpdb_checked_msg_box p ret))
  /\ (forall p, slp_gs_enable_cb (use_slp_slpdb p) = slp_gs_enable_cb p
                /\ slp_slpdb_enable_cb (use_slp_slpdb p) = slp_slpdb_enable_cb p)
  /\ (forall p, slp_gs_enable_cb p = true ->
                slp_gs_enable_cb (use_slp_gs p) = true
                /\ slp_slpdb_enable_cb (use_slp_gs p) = false
                /\ calls (use_slp_gs p) = calls p ++ [ToggleGraphSearch true; UpdateGsList]
                /\ gs_widgets_shown (use_slp_gs p) = true
                /\ slpdb_widgets_shown (use_slp_gs p) = false)
  /\ (forall p, slp_slpdb_enable_cb p = true ->
                slp_slpdb_enable_cb (slpdb_msg_box p Ok) = true
                /\ slp_gs_enable_cb (slpdb_msg_box p Ok) = false
                /\ calls (slpdb_msg_box p Ok)
                   = calls p ++ [ToggleSlpdbValidation true; UpdateSlpdbList]
                /\ gs_widgets_shown (slpdb_msg_box p Ok) = false
                /\ slpdb_widgets_shown (slpdb_msg_box p Ok) = true).
Proof.
  unfold exclusive. repeat apply conj.
  - intros p. destruct (use_slp_gs_boxes p) as [_ ->]. apply andb_false_r.
  - intros p b. unfold slpdb_msg_box.
    destruct (slp_slpdb_enable_cb p) eqn:Hs; [destruct b|]; simpl.
    + reflexivity.
    + apply andb_false_r.
    + rewrite Hs. apply andb_false_r.
  - intros p []; simpl; [apply andb_false_r | reflexivity | reflexivity].
  - intros p ret Hp. unfold gs_and_slpdb_checked_msg_box.
    destruct (ret =? 0); [simpl; apply andb_false_r|].
    destruct (ret =? 1); [reflexivity|].
    destruct (ret =? 2); [reflexivity | exact Hp].
  - intros p. split; reflexivity.
  - intros [g s a b c] Hgs. simpl in Hgs. subst g. unfold use_slp_gs; simpl.
    rewrite <- app_assoc. repeat split; reflexivity.
  - intros [g s a b c] Hs. simpl in Hs. subst s.
    unfold slpdb_msg_box, use_slp_slpdb; simpl.
    rewrite <- app_assoc. repeat split; reflexivity.
Qed.

(** C7 (where the code departs from it).  With both settings on,
    [__init__] checks the graph-search box and runs [slpdb_is_checked],
    which shows the box of [gs_and_slpdb_checked_msg_box]; on the answer
    "Graph Search" the handler unchecks the SLPDB box and its caller
    checks it again: both boxes are checked, and they still are after
    the [update()] that ends [__init__].  And enabling one method by its
    box does not turn the other off in [slp_gs_mgr]: confirming SLPDB
    sends [toggle_slpdb_validation(True)] alone, so an [update()] that
    still finds the graph-search setting checks the graph-search box
    again; enabling graph search sends [toggle_graph_search(True)]
    alone. *)
Theorem validation_boxes_both_checked :
  (let p := slpdb_is_checked true true (exec_result GraphSearch)
              (set_gs_cb true created) in
   slp_gs_enable_cb p = true /\ slp_slpdb_enable_cb p = true
   /\ calls p = [ToggleGraphSearch true])
  /\ (let p := init true true (exec_result GraphSearch) true in
      slp_gs_enable_cb p = true /\ slp_slpdb_enable_cb p = true)
  /\ (let p0 := {| slp_gs_enable_cb := true; slp_slpdb_enable_cb := true;
                   gs_widgets_shown := true; slpdb_widgets_shown := false;
                   calls := [] |} in
      let p := slpdb_msg_box p0 Ok in
      calls p = [ToggleSlpdbValidation true; UpdateSlpdbList]
      /\ slp_gs_enable_cb (update true p) = true
      /\ slp_slpdb_enable_cb (update true p) = true)
  /\ (let p0 := {| slp_gs_enable_cb := true; slp_slpdb_enable_cb := true;
                   gs_widgets_shown := false; slpdb_widgets_shown := true;
                   calls := [] |} in
      calls (use_slp_gs p0) = [ToggleGraphSearch true; UpdateGsList]).
Proof. cbv zeta. repeat split. Qed.

Example gs_then_slpdb :
  let p0 := {| slp_gs_enable_cb := true; slp_slpdb_enable_cb := false;
               gs_widgets_shown := true; slpdb_widgets_shown := false;
               calls := [] |} in
  let p1 := slpdb_msg_box (set_slpdb_cb true p0) Ok in
  slp_gs_enable_cb p1 = false /\ slp_slpdb_enable_cb p1 = true.
Proof. split; reflexivity. Qed.

End ValidationFacts.

(** ** The SLPDB endpoint handler *)

Section EndpointFacts.
Import Endpoint.
Variable urlparse : string -> parsed.

Lemma is_url_total (url : string) :
  exists b, is_url urlparse url = Return b.
Proof.
  unfold is_url, call_urlparse. destruct (urlparse url); simpl; eauto.
Qed.

Lemma is_url_true_iff (url : string) :
  is_url urlparse url = Return true <->
  exists scheme netloc,
    urlparse url = Parts scheme netloc /\ scheme <> EmptyString /\ netloc <> EmptyString.
Proof.
  unfold is_url, call_urlparse. destruct (urlparse url) as [s n|what]; simpl.
  - split.
    + intros [= H]. apply andb_true_iff in H as [Hs Hn]. exists s, n.
      split; [reflexivity|]. split; intros ->; discriminate.
    + intros (s' & n' & [= <- <-] & Hs & Hn).
      destruct s; [contradiction|]. destruct n; [contradiction|]. reflexivity.
  - split; [discriminate | intros (? & ? & ? & _); discriminate].
Qed.

Lemma update_adds (server : string) (log : list event) :
  server <> EmptyString ->
  update_slp_slpdb_server server true false log =
  log ++ [MgrUpdateSlpdbHost server true false; SliderSetMaximum; SlpdbListUpdate].
Proof.
  intros H. unfold update_slp_slpdb_server. destruct server; [contradiction|reflexivity].
Qed.

Lemma existsb_adds_app (l1 l2 : list event) :
  existsb adds_endpoint (l1 ++ l2) = existsb adds_endpoint l1 || existsb adds_endpoint l2.
Proof. apply existsb_app. Qed.

(** C8. [is_url] gives a boolean for every string and the handler always
    returns; when [urlparse] gives an empty scheme or an empty netloc (or
    raises [ValueError]) the handler shows the error dialog and adds
    nothing; an endpoint is added exactly when the string is a URL with
    scheme and netloc and the user confirms, and then it is that string. *)
Theorem slpdb_endpoint_msg_box_spec (text : string) (b : std_button) (log : list event) :
  (exists r, is_url urlparse text = Return r)
  /\ (exists log', slpdb_endpoint_msg_box urlparse text b log = Return log')
  /\ (forall scheme netloc,
        urlparse text = Parts scheme netloc ->
        scheme = EmptyString \/ netloc = EmptyString ->
        slpdb_endpoint_msg_box urlparse text b log
          = Return (log ++ [ErrorDialog "URL is not in correct format."]))
  /\ (forall what,
        urlparse text = Invalid what ->
        slpdb_endpoint_msg_box urlparse text b log
          = Return (log ++ [ErrorDialog "URL is not in correct format."]))
  /\ (forall log',
        slpdb_endpoint_msg_box urlparse text b log = Return log' ->
        existsb adds_endpoint log = false ->
        existsb adds_endpoint log' = true ->
        is_url urlparse text = Return true /\ b = Ok)
  /\ (is_url urlparse text = Return true -> b = Ok -> text <> EmptyString ->
      exists confirm,
        slpdb_endpoint_msg_box urlparse text b log
          = Return (log ++ [ConfirmDialog confirm;
                            MgrUpdateSlpdbHost text true false;
                            SliderSetMaximum; SlpdbListUpdate])).
Proof.
  split; [apply is_url_total|].
  destruct (is_url_total text) as [r Hr].
  split; [unfold slpdb_endpoint_msg_box; rewrite Hr; destruct r, b; eauto|].
  split.
  { intros scheme netloc Hp Hempty. unfold slpdb_endpoint_msg_box, is_url, call_urlparse.
    rewrite Hp. destruct Hempty as [-> | ->]; simpl; [reflexivity|].
    rewrite andb_false_r. reflexivity. }
  split.
  { intros what Hp. unfold slpdb_endpoint_msg_box, is_url, call_urlparse.
    rewrite Hp. reflexivity. }
  split.
  { intros log' Hrun Hlog. unfold slpdb_endpoint_msg_box in Hrun. rewrite Hr in Hrun.
    destruct r.
    - destruct b; injection Hrun as <-.
      + intros _. split; [exact Hr | reflexivity].
      + rewrite existsb_adds_app, Hlog. simpl. discriminate.
    - injection Hrun as <-. rewrite existsb_adds_app, Hlog. simpl. discriminate. }
  intros Hu -> Htext. unfold slpdb_endpoint_msg_box. rewrite Hu.
  eexists. rewrite update_adds by exact Htext. rewrite <- app_assoc. reflexivity.
Qed.

Example endpoint_without_scheme :
  slpdb_endpoint_msg_box demo_urlparse "slpdb.example.org" Ok []
  = Return [ErrorDialog "URL is not in correct format."].
Proof. vm_compute. reflexivity. Qed.

Example endpoint_bad_ipv6 :
  slpdb_endpoint_msg_box demo_urlparse "https://[::1" Ok []
  = Return [ErrorDialog "URL is not in correct format."].
Proof. vm_compute. reflexivity. Qed.

Example endpoint_added :
  exists confirm,
    slpdb_endpoint_msg_box demo_urlparse "https://slpdb.example.org" Ok []
    = Return [ConfirmDialog confirm;
              MgrUpdateSlpdbHost "https://slpdb.example.org" true false;
              SliderSetMaximum; SlpdbListUpdate].
Proof. eexists. vm_compute. reflexivity. Qed.

Example endpoint_declined :
  exists confirm,
    slpdb_endpoint_msg_box demo_urlparse "https://slpdb.example.org" Cancel []
    = Return [ConfirmDialog confirm].
Proof. eexists. vm_compute. reflexivity. Qed.

End EndpointFacts.

(** ** The list widgets: selection by key *)

Section SelectionFacts.
Import Renderers.

Lemma key_is_true (x : string) (sel : option string) :
  key_is x sel = true <-> sel = Some x.
Proof.
  destruct sel as [s|]; simpl; [|split; discriminate].
  rewrite String.eqb_eq. split; [intros ->; reflexivity | intros [= ->]; reflexivity].
Qed.

Lemma last_match_none (keys : list string) (base : nat) (r : option nat) :
  last_match None keys base r = r.
Proof. revert base r. induction keys as [|k keys IH]; intros; simpl; [reflexivity | apply IH]. Qed.

(** What [last_match] returns is the start value or the position of an
    item with the wanted key. *)
Lemma last_match_some (sel : option string) (keys : list string) (base : nat)
      (r : option nat) (i : nat) :
  last_match sel keys base r = Some i ->
  r = Some i \/
  (exists k, sel = Some k /\ (base <= i)%nat /\ keys !! (i - base)%nat = Some k).
Proof.
  revert base r. induction keys as [|k keys IH]; intros base r; simpl.
  - intros ->. left. reflexivity.
  - intros H. apply IH in H as [H | (k' & Hsel & Hle & Hlk)].
    + destruct (key_is k sel) eqn:Hk; [|left; exact H].
      injection H as <-. right. exists k. apply key_is_true in Hk.
      split; [exact Hk|]. split; [lia|]. rewrite Nat.sub_diag. reflexivity.
    + right. exists k'. split; [exact Hsel|]. split; [lia|].
      replace (i - base)%nat with (S (i - S base)) by lia. exact Hlk.
Qed.

(** A key that is among the items is found. *)
Lemma last_match_present (k : string) (keys : list string) (base : nat)
      (r : option nat) :
  In k keys ->
  exists i, last_match (Some k) keys base r = Some i
            /\ (base <= i)%nat /\ keys !! (i - base)%nat = Some k.
Proof.
  revert base r. induction keys as [|k0 keys IH]; intros base r; simpl; [intros []|].
  intros Hin.
  destruct (in_dec string_dec k keys) as [Hlater|Hnot].
  - destruct (IH (S base) (if (k0 =? k)%string then Some base else r) Hlater)
      as (i & Hi & Hle & Hlk).
    exists i. split; [exact Hi|]. split; [lia|].
    replace (i - base)%nat with (S (i - S base)) by lia. exact Hlk.
  - destruct Hin as [->|Hin]; [|contradiction].
    rewrite String.eqb_refl.
    assert (Hkeep : forall b (r0 : option nat),
               last_match (Some k) keys b r0 = r0).
    { clear IH. induction keys as [|k1 keys IHk]; intros b r0; simpl; [reflexivity|].
      destruct (String.eqb_spec k1 k) as [->|Hne].
      - exfalso. apply Hnot. left. reflexivity.
      - apply IHk. intros Hin. apply Hnot. right. exact Hin. }
    rewrite Hkeep. exists base. split; [reflexivity|]. split; [lia|].
    rewrite Nat.sub_diag. reflexivity.
Qed.

(** Selecting again by the key of the item that was selected gives the
    same position; with nothing selected, nothing is selected again. *)
Lemma last_match_again (sel : option string) (keys : list string) :
  last_match (match last_match sel keys 0 None with
              | Some i => keys !! i
              | None => None
              end) keys 0 None
  = last_match sel keys 0 None.
Proof.
  destruct (last_match sel keys 0 None) as [i|] eqn:H.
  - pose proof H as H'.
    apply last_match_some in H' as [H' | (k & -> & _ & Hlk)]; [discriminate|].
    rewrite Nat.sub_0_r in Hlk. rewrite Hlk. exact H.
  - apply last_match_none.
Qed.

Lemma server_header_idem (h : header) :
  server_header (server_header h) = server_header h.
Proof. header_idem. Qed.

Lemma endpoint_header_idem (h : header) :
  endpoint_header (endpoint_header h) = endpoint_header h.
Proof. header_idem. Qed.

Lemma job_header_idem (h : header) :
  job_header (job_header h) = job_header h.
Proof. header_idem. Qed.

Lemma nodes_header_idem (h : header) :
  nodes_header (nodes_header h) = nodes_header h.
Proof. header_idem. Qed.

End SelectionFacts.

(** ** The server list *)

Section ServerListFacts.
Import Renderers.

Lemma add_servers_eq (network : network_view) (protocol : string) (use_tor : bool)
      (sel : option string) (items : list (string * gmap string string))
      (w : tree_widget server_row) (r : option nat) :
  add_servers network protocol use_tor sel items w r =
  ({| rows := rows w ++ map (item_of_entry network protocol)
                          (List.filter (listed protocol use_tor) items);
      current := current w; auto_scroll := auto_scroll w;
      indentation := indentation w; hdr := hdr w |},
   last_match sel
     (map sr_server (map (item_of_entry network protocol)
                       (List.filter (listed protocol use_tor) items)))
     (length (rows w)) r).
Proof.
  revert w r. induction items as [|[host d] items IH]; intros w r; simpl.
  - rewrite app_nil_r. destruct w; reflexivity.
  - assert (Hl : listed protocol use_tor (host, d) =
                 negb (is_onion_host host && negb use_tor)
                 && match d !! protocol with
                    | Some port => truthy_str port
                    | None => false
                    end) by reflexivity.
    cbn [add_servers List.filter]. rewrite Hl. clear Hl.
    destruct (is_onion_host host && negb use_tor); cbn [negb andb]; [apply IH|].
    destruct (d !! protocol) as [port|] eqn:Hport; [|apply IH].
    destruct (truthy_str port); [|apply IH].
    rewrite IH. cbn [map rows current auto_scroll indentation hdr addTopLevelItem].
    replace (item_of_entry network protocol (host, d))
      with (server_item network protocol host d port)
      by (unfold item_of_entry; cbn [fst snd]; rewrite Hport; reflexivity).
    rewrite length_app, Nat.add_1_r, <- app_assoc. reflexivity.
Qed.

Lemma server_update_eq (network : network_view) (servers : servers_dict)
      (protocol : string) (use_tor : bool) (w : tree_widget server_row) :
  ServerListWidget.update network servers protocol use_tor w =
  let R := map (item_of_entry network protocol)
             (List.filter (listed protocol use_tor) (sorted_items servers)) in
  {| rows := R;
     current := last_match (sr_server <$> currentItem w) (map sr_server R) 0 None;
     auto_scroll := auto_scroll w;
     indentation := 0;
     hdr := server_header (hdr w) |}.
Proof.
  unfold ServerListWidget.update. rewrite add_servers_eq. simpl.
  destruct (last_match _ _ 0 None); reflexivity.
Qed.

Lemma insert_by_host_perm (x : string * gmap string string)
      (l : list (string * gmap string string)) :
  Permutation (insert_by_host x l) (x :: l).
Proof.
  induction l as [|y l IH]; simpl; [reflexivity|].
  destruct (String.leb (fst x) (fst y)); [reflexivity|].
  rewrite IH. apply perm_swap.
Qed.

Lemma sorted_items_perm (servers : servers_dict) :
  Permutation (sorted_items servers) (map_to_list servers).
Proof.
  unfold sorted_items. induction (map_to_list servers) as [|x l IH]; simpl; [reflexivity|].
  rewrite insert_by_host_perm, IH. reflexivity.
Qed.

Lemma in_sorted_items (servers : servers_dict) (host : string) (d : gmap string string) :
  In (host, d) (sorted_items servers) <-> servers !! host = Some d.
Proof.
  rewrite <- list_elem_of_In, sorted_items_perm. apply elem_of_map_to_list.
Qed.

Lemma server_item_fields (network : network_view) (protocol host : string)
      (d : gmap string string) (port : string) :
  let x := server_item network protocol host d port in
  sr_server x = serialize_server host port protocol
  /\ sr_port x = port
  /\ sr_tor_icon x = is_onion_host host
  /\ sr_display_text x =
     match d !! "display"%string with
     | Some disp => if is_onion_host host then String.append disp " (.onion)" else host
     | None => host
     end.
Proof.
  unfold server_item.
  destruct (has_flag _ ServerFlag.Banned);
    [|destruct (has_flag _ ServerFlag.BadCertificate);
      [|destruct (has_flag _ ServerFlag.Preferred)]];
    repeat split; reflexivity.
Qed.

(** The items of the list are those of the servers that pass the two
    tests of the loop, one item each. *)
Lemma server_rows_listed (network : network_view) (servers : servers_dict)
      (protocol : string) (use_tor : bool) (w : tree_widget server_row)
      (x : server_row) :
  In x (rows (ServerListWidget.update network servers protocol use_tor w)) <->
  exists host d port,
    servers !! host = Some d /\ d !! protocol = Some port /\ port <> EmptyString
    /\ (is_onion_host host = false \/ use_tor = true)
    /\ x = server_item network protocol host d port.
Proof.
  rewrite server_update_eq. simpl. rewrite in_map_iff. split.
  - intros ([host d] & <- & Hin). apply filter_In in Hin as [Hin Hlisted].
    apply in_sorted_items in Hin. unfold listed in Hlisted; simpl in Hlisted.
    apply andb_true_iff in Hlisted as [Honion Hport].
    destruct (d !! protocol) as [port|] eqn:Hp; [|discriminate].
    exists host, d, port. split; [exact Hin|]. split; [exact Hp|].
    split; [intros ->; discriminate|]. split.
    + destruct (is_onion_host host); [|left; reflexivity].
      destruct use_tor; [right; reflexivity | discriminate].
    + unfold item_of_entry; simpl. rewrite Hp. reflexivity.
  - intros (host & d & port & Hs & Hp & Hne & Htor & ->).
    exists (host, d). split.
    + unfold item_of_entry; simpl. rewrite Hp. reflexivity.
    + apply filter_In. split; [apply in_sorted_items; exact Hs|].
      unfold listed; simpl. rewrite Hp.
      destruct port; [contradiction|]. rewrite andb_true_r.
      destruct Htor as [-> | ->]; [reflexivity|].
      rewrite andb_false_r. reflexivity.
Qed.

(** C10. With [use_tor] false every item of the server list is for a
    host that does not end in ".onion" (in any letter case): onion servers
    are left out.  An onion server has its item exactly when [use_tor] is
    true and it has a port for the protocol; a server that is not onion
    and has a port for the protocol has its item whatever [use_tor] is. *)
Theorem server_list_onion_filter (network : network_view) (servers : servers_dict)
        (protocol : string) (w : tree_widget server_row) :
  (forall x,
      In x (rows (ServerListWidget.update network servers protocol false w)) ->
      exists host d port,
        servers !! host = Some d /\ d !! protocol = Some port
        /\ is_onion_host host = false
        /\ x = server_item network protocol host d port
        /\ sr_display_text x = host /\ sr_tor_icon x = false)
  /\ (forall use_tor host d,
      servers !! host = Some d -> is_onion_host host = true ->
      ((exists port, d !! protocol = Some port /\ port <> EmptyString
                     /\ In (server_item network protocol host d port)
                          (rows (ServerListWidget.update network servers protocol use_tor w)))
       <-> use_tor = true
           /\ exists port, d !! protocol = Some port /\ port <> EmptyString))
  /\ (forall use_tor host d port,
      servers !! host = Some d -> is_onion_host host = false ->
      d !! protocol = Some port -> port <> EmptyString ->
      In (server_item network protocol host d port)
         (rows (ServerListWidget.update network servers protocol use_tor w))).
Proof.
  split; [|split].
  - intros x Hx. apply server_rows_listed in Hx
      as (host & d & port & Hs & Hp & Hne & [Honion | [=]] & ->).
    exists host, d, port. repeat (split; [assumption || reflexivity|]).
    destruct (server_item_fields network protocol host d port) as (_ & _ & Hicon & Htext).
    rewrite Hicon, Htext, Honion.
    split; [|reflexivity]. destruct (d !! "display"%string); reflexivity.
  - intros use_tor host d Hs Honion. split.
    + intros (port & Hp & Hne & Hin).
      apply server_rows_listed in Hin
        as (host' & d' & port' & Hs' & Hp' & Hne' & Htor & Heq).
      split; [|exists port; auto].
      destruct Htor as [Hnot | ->]; [|reflexivity].
      apply (f_equal sr_tor_icon) in Heq.
      destruct (server_item_fields network protocol host d port) as (_ & _ & Hicon & _).
      destruct (server_item_fields network protocol host' d' port') as (_ & _ & Hicon' & _).
      rewrite Hicon, Hicon' in Heq. congruence.
    + intros (-> & port & Hp & Hne). exists port. split; [exact Hp|]. split; [exact Hne|].
      apply server_rows_listed. exists host, d, port. auto 10.
  - intros use_tor host d port Hs Honion Hp Hne.
    apply server_rows_listed. exists host, d, port. auto 10.
Qed.

End ServerListFacts.

(** ** The flat lists: [update] twice is [update] once *)

Section FlatListFacts.
Import Renderers.

Lemma currentItem_after {Row : Type} (key : Row -> string) (R : list Row)
      (sel : option string) (a : bool) (n : Z) (h : header) :
  key <$> currentItem {| rows := R; current := last_match sel (map key R) 0 None;
                         auto_scroll := a; indentation := n; hdr := h |}
  = match last_match sel (map key R) 0 None with
    | Some i => map key R !! i
    | None => None
    end.
Proof.
  unfold currentItem; simpl. destruct (last_match sel (map key R) 0 None) as [i|];
    [|reflexivity].
  change (map key R) with (key <$> R). rewrite list_lookup_fmap. reflexivity.
Qed.

Lemma server_update_idem (network : network_view) (servers : servers_dict)
      (protocol : string) (use_tor : bool) (w : tree_widget server_row) :
  ServerListWidget.update network servers protocol use_tor
    (ServerListWidget.update network servers protocol use_tor w)
  = ServerListWidget.update network servers protocol use_tor w.
Proof.
  rewrite (server_update_eq network servers protocol use_tor w). cbv zeta.
  rewrite server_update_eq. cbv zeta.
  rewrite (currentItem_after sr_server), last_match_again. simpl.
  rewrite server_header_idem. reflexivity.
Qed.

Lemma server_update_restores (network : network_view) (servers : servers_dict)
      (protocol : string) (use_tor : bool) (w : tree_widget server_row)
      (old : server_row) :
  currentItem w = Some old ->
  (exists x, In x (rows (ServerListWidget.update network servers protocol use_tor w))
             /\ sr_server x = sr_server old) ->
  exists x, currentItem (ServerListWidget.update network servers protocol use_tor w) = Some x
            /\ sr_server x = sr_server old.
Proof.
  rewrite server_update_eq. cbv zeta. intros Hcur (x & Hin & Hkey).
  simpl in Hin.
  assert (Hk : In (sr_server old) (map sr_server
            (map (item_of_entry network protocol)
               (List.filter (listed protocol use_tor) (sorted_items servers))))).
  { rewrite <- Hkey. apply in_map. exact Hin. }
  destruct (last_match_present _ _ 0%nat None Hk) as (i & Hi & _ & Hlk).
  rewrite Hcur. change (sr_server <$> Some old) with (Some (sr_server old)).
  rewrite Hi. unfold currentItem; simpl.
  item_of_key Hlk sr_server y Hy.
  exists y. split; [reflexivity | exact Hy].
Qed.

Lemma add_endpoints_eq (mark : string -> bool) (sel : option string)
      (entries : list string) (w : tree_widget endpoint_row) (r : option nat) :
  add_endpoints mark sel entries w r =
  ({| rows := rows w ++ map (fun e => {| er_text := e; er_marked := mark e;
                                         er_data := e |}) entries;
      current := current w; auto_scroll := auto_scroll w;
      indentation := indentation w; hdr := hdr w |},
   last_match sel entries (length (rows w)) r).
Proof.
  revert w r. induction entries as [|e entries IH]; intros w r; simpl.
  - rewrite app_nil_r. destruct w; reflexivity.
  - rewrite IH. simpl. rewrite length_app, Nat.add_1_r, <- app_assoc. reflexivity.
Qed.

Lemma map_er_data (mark : string -> bool) (entries : list string) :
  map er_data (map (fun e => {| er_text := e; er_marked := mark e; er_data := e |})
                 entries) = entries.
Proof. induction entries as [|e l IH]; simpl; [reflexivity | f_equal; exact IH]. Qed.

Lemma endpoints_update_eq (mark : string -> bool) (entries : list string)
      (w : tree_widget endpoint_row) :
  (let sel := er_data <$> currentItem w in
   let w0 := clear w in
   let '(w1, restore_sel) := add_endpoints mark sel entries w0 None in
   restore_selection restore_sel (with_header endpoint_header w1))
  = let R := map (fun e => {| er_text := e; er_marked := mark e; er_data := e |})
               entries in
    {| rows := R;
       current := last_match (er_data <$> currentItem w) (map er_data R) 0 None;
       auto_scroll := auto_scroll w;
       indentation := indentation w;
       hdr := endpoint_header (hdr w) |}.
Proof.
  cbv zeta. rewrite add_endpoints_eq, map_er_data. simpl.
  destruct (last_match _ _ 0 None); reflexivity.
Qed.

Lemma gs_update_idem (slp_gs_list : list string) (gs_host : string)
      (w : tree_widget endpoint_row) :
  SlpGsServeListWidget.update slp_gs_list gs_host (SlpGsServeListWidget.update slp_gs_list gs_host w)
  = SlpGsServeListWidget.update slp_gs_list gs_host w.
Proof.
  unfold SlpGsServeListWidget.update. rewrite (endpoints_update_eq _ slp_gs_list w). cbv zeta.
  rewrite endpoints_update_eq. cbv zeta.
  rewrite (currentItem_after er_data), last_match_again. simpl.
  rewrite endpoint_header_idem. reflexivity.
Qed.

Lemma postage_update_idem (post_office_list : list string)
      (w : tree_widget endpoint_row) :
  PostOfficeServeListWidget.update post_office_list (PostOfficeServeListWidget.update post_office_list w)
  = PostOfficeServeListWidget.update post_office_list w.
Proof.
  unfold PostOfficeServeListWidget.update. rewrite (endpoints_update_eq _ post_office_list w).
  cbv zeta. rewrite endpoints_update_eq. cbv zeta.
  rewrite (currentItem_after er_data), last_match_again. simpl.
  rewrite endpoint_header_idem. reflexivity.
Qed.

Lemma endpoints_restore (mark : string -> bool) (entries : list string)
      (w : tree_widget endpoint_row) (old : endpoint_row) :
  currentItem w = Some old -> In (er_data old) entries ->
  exists x,
    currentItem
      {| rows := map (fun e => {| er_text := e; er_marked := mark e; er_data := e |})
                   entries;
         current := last_match (er_data <$> currentItem w)
                      (map er_data
                         (map (fun e => {| er_text := e; er_marked := mark e;
                                           er_data := e |}) entries)) 0 None;
         auto_scroll := auto_scroll w;
         indentation := indentation w;
         hdr := endpoint_header (hdr w) |} = Some x
    /\ er_data x = er_data old.
Proof.
  intros Hcur Hin. rewrite map_er_data.
  destruct (last_match_present _ _ 0%nat None Hin) as (i & Hi & _ & Hlk).
  rewrite Hcur. change (er_data <$> Some old) with (Some (er_data old)).
  rewrite Hi. unfold currentItem; simpl. rewrite Nat.sub_0_r in Hlk.
  change (map ?f ?l) with (f <$> l). rewrite list_lookup_fmap, Hlk. simpl.
  eexists. split; reflexivity.
Qed.

Lemma add_slpdb_endpoints_eq (entries : list string) (w : tree_widget endpoint_row) :
  add_slpdb_endpoints entries w =
  {| rows := rows w ++ map (fun k => {| er_text := k; er_marked := false;
                                        er_data := k |}) entries;
     current := current w; auto_scroll := auto_scroll w;
     indentation := indentation w; hdr := hdr w |}.
Proof.
  revert w. induction entries as [|k entries IH]; intros w; simpl.
  - rewrite app_nil_r. destruct w; reflexivity.
  - rewrite IH. simpl. rewrite <- app_assoc. reflexivity.
Qed.

Lemma slpdb_update_eq (slp_slpdb_list : list string)
      (w : tree_widget endpoint_row) :
  SlpSLPDBServeListWidget.update slp_slpdb_list w =
  {| rows := map (fun k => {| er_text := k; er_marked := false; er_data := k |})
               slp_slpdb_list;
     current := None; auto_scroll := auto_scroll w;
     indentation := indentation w; hdr := endpoint_header (hdr w) |}.
Proof. unfold SlpSLPDBServeListWidget.update. rewrite add_slpdb_endpoints_eq. reflexivity. Qed.

Lemma slpdb_update_idem (slp_slpdb_list : list string)
      (w : tree_widget endpoint_row) :
  SlpSLPDBServeListWidget.update slp_slpdb_list (SlpSLPDBServeListWidget.update slp_slpdb_list w)
  = SlpSLPDBServeListWidget.update slp_slpdb_list w.
Proof.
  rewrite !slpdb_update_eq. simpl. rewrite endpoint_header_idem. reflexivity.
Qed.

End FlatListFacts.

(** ** The job list *)

Section JobListFacts.
Import Renderers.
Variable humanbytes : Z -> string.

Lemma is_selected_eq (sel : option string) (i : job_row) :
  is_selected sel i = key_is (jr_key i) (effective_key sel).
Proof.
  destruct sel as [s|]; simpl; [|reflexivity].
  destruct (truthy_str s); reflexivity.
Qed.

Lemma effective_key_idem (sel : option string) :
  effective_key (effective_key sel) = effective_key sel.
Proof.
  destruct sel as [s|]; simpl; [|reflexivity].
  destruct (truthy_str s) eqn:H; simpl; [rewrite H|]; reflexivity.
Qed.

Lemma last_match_app (sel : option string) (k1 k2 : list string) (base : nat)
      (r : option nat) :
  last_match sel (k1 ++ k2) base r =
  last_match sel k2 (base + length k1) (last_match sel k1 base r).
Proof.
  revert base r. induction k1 as [|k k1 IH]; intros base r; simpl.
  - rewrite Nat.add_0_r. reflexivity.
  - rewrite IH. f_equal. lia.
Qed.

Lemma add_jobs_eq (sel : option string) (items : list job_row)
      (w : tree_widget job_row) :
  add_jobs sel items w =
  {| rows := rows w ++ items;
     current := last_match (effective_key sel) (map jr_key items)
                  (length (rows w)) (current w);
     auto_scroll := auto_scroll w; indentation := indentation w; hdr := hdr w |}.
Proof.
  revert w. induction items as [|i items IH]; intros w; simpl.
  - rewrite app_nil_r. destruct w; reflexivity.
  - rewrite IH. unfold setCurrentSelectedItem. rewrite is_selected_eq.
    destruct (key_is (jr_key i) (effective_key sel)); simpl;
      rewrite length_app, Nat.add_1_r, <- app_assoc; reflexivity.
Qed.

Lemma job_update_eq (s : jobs_snapshot) (v : jobs_view) :
  SlpSearchJobListWidget.update humanbytes s v =
  let lists := sort_jobs humanbytes (gs_enabled s) (jobs s)
                 {| working_item := None; completed_items := [];
                    other_items := [] |} in
  {| jv_list :=
       {| rows := job_rows lists;
          current := job_current
                       (effective_key (jr_key <$> currentItem (jv_list v))) lists;
          auto_scroll := auto_scroll (jv_list v);
          indentation := indentation (jv_list v);
          hdr := job_header (hdr (jv_list v)) |};
     jv_slp_gs_enable_cb := graphsearch_enabled_setting s;
     jv_total_data_txt := humanbytes (bytes_downloaded s) |}.
Proof.
  unfold SlpSearchJobListWidget.update. cbv zeta. rewrite !add_jobs_eq. simpl.
  unfold job_rows, job_current. rewrite map_app, last_match_app. simpl.
  rewrite length_map.
  destruct (working_item _) as [x|]; [|reflexivity].
  unfold setCurrentSelectedItem. rewrite is_selected_eq.
  destruct (key_is (jr_key x) _); reflexivity.
Qed.

(** The current item after [update] carries the selection key, when
    there is a current item. *)
Lemma job_current_key (e : option string) (lists : job_lists) (i : nat) :
  job_current e lists = Some i ->
  exists x, job_rows lists !! i = Some x /\ e = Some (jr_key x).
Proof.
  unfold job_current, job_rows.
  destruct (working_item lists) as [x|].
  - destruct (key_is (jr_key x) e) eqn:Hx.
    + intros [= <-]. exists x. split; [reflexivity|].
      apply key_is_true in Hx. exact Hx.
    + destruct (last_match e _ 0 None) as [j|] eqn:Hj; [|discriminate].
      intros [= <-]. apply last_match_some in Hj as [Hj | (k & -> & _ & Hlk)];
        [discriminate|].
      simpl. item_of_key Hlk jr_key y Hy. subst k.
      exists y. split; reflexivity.
  - intros Hj. apply last_match_some in Hj as [Hj | (k & -> & _ & Hlk)];
      [discriminate|].
    item_of_key Hlk jr_key y Hy. subst k.
    exists y. split; reflexivity.
Qed.

Lemma job_current_none (lists : job_lists) : job_current None lists = None.
Proof.
  unfold job_current. rewrite last_match_none.
  destruct (working_item lists); reflexivity.
Qed.

Lemma job_update_idem (s : jobs_snapshot) (v : jobs_view) :
  SlpSearchJobListWidget.update humanbytes s (SlpSearchJobListWidget.update humanbytes s v)
  = SlpSearchJobListWidget.update humanbytes s v.
Proof.
  rewrite (job_update_eq s v). cbv zeta. rewrite job_update_eq. cbv zeta.
  simpl. rewrite job_header_idem. f_equal. f_equal.
  set (lists := sort_jobs _ _ _ _).
  set (e := effective_key (jr_key <$> currentItem (jv_list v))).
  unfold currentItem at 1; simpl.
  destruct (job_current e lists) as [i|] eqn:Hi.
  - destruct (job_current_key e lists i Hi) as (x & Hx & He).
    rewrite Hx. change (jr_key <$> Some x) with (Some (jr_key x)).
    rewrite <- He. unfold e. rewrite effective_key_idem. exact Hi.
  - simpl. apply job_current_none.
Qed.

End JobListFacts.

(** ** The node list *)

Section NodeListFacts.
Import Renderers.

Lemma server_is_true (srv : string) (sel : node_key) :
  server_is srv sel = true <-> sel = KServer srv.
Proof.
  destruct sel as [|s|h]; simpl; try (split; discriminate).
  rewrite String.eqb_eq. split; [intros ->; reflexivity | intros [= ->]; reflexivity].
Qed.

Lemma points_at_sel_app (sel : node_key) (items more : list node_item)
      (r : option (nat * option nat)) :
  points_at_sel sel items r -> points_at_sel sel (items ++ more) r.
Proof.
  destruct r as [[i [j|]]|]; simpl; [| |auto].
  - intros (srv & Hsel & Hkey). exists srv. split; [exact Hsel|].
    destruct (items !! i) as [[c|n]|] eqn:Hi; try discriminate.
    rewrite (lookup_app_l_Some _ _ _ _ Hi). exact Hkey.
  - intros (srv & Hsel & Hkey). exists srv. split; [exact Hsel|].
    destruct (items !! i) as [[c|n]|] eqn:Hi; try discriminate;
      rewrite (lookup_app_l_Some _ _ _ _ Hi); exact Hkey.
Qed.

(** The inner loop below a branch item: the children, and a
    [restore_sel] that is the old one or points at a child with the
    wanted server. *)
Lemma add_children_spec (s : nodes_snapshot) (sel : node_key) (top : nat)
      (items : list interface) (children : list node_row)
      (r : option (nat * option nat)) :
  exists r',
    add_children s sel top items children r
    = (children ++ map (node_item_of s) items, r')
    /\ (r' = r
        \/ exists j x, r' = Some (top, Some j)
                       /\ (children ++ map (node_item_of s) items) !! j = Some x
                       /\ sel = KServer (nr_server x)).
Proof.
  revert children r. induction items as [|i items IH]; intros children r; simpl.
  - exists r. rewrite app_nil_r. split; [reflexivity | left; reflexivity].
  - destruct (IH (children ++ [node_item_of s i])
                (if server_is (if_server i) sel
                 then Some (top, Some (length children)) else r))
      as (r' & Heq & Hr').
    exists r'. rewrite <- app_assoc in Heq. split; [exact Heq|].
    rewrite <- app_assoc in Hr'. simpl in Hr'.
    destruct Hr' as [-> | Hfound]; [|right; exact Hfound].
    destruct (server_is (if_server i) sel) eqn:Hi; [|left; reflexivity].
    right. exists (length children), (node_item_of s i).
    split; [reflexivity|]. split.
    + rewrite lookup_app_r by lia. rewrite Nat.sub_diag. reflexivity.
    + apply server_is_true in Hi. exact Hi.
Qed.

Lemma add_top_nodes_spec (s : nodes_snapshot) (sel : node_key)
      (items : list interface) (tops : list node_item)
      (r : option (nat * option nat)) :
  points_at_sel sel tops r ->
  exists r',
    add_top_nodes s sel items tops r
    = (tops ++ map (fun i => NodeItem (node_item_of s i)) items, r')
    /\ points_at_sel sel (tops ++ map (fun i => NodeItem (node_item_of s i)) items) r'
    /\ (sel = KNone \/ (exists h, sel = KBase h) -> r' = r).
Proof.
  revert tops r. induction items as [|i items IH]; intros tops r Hr; simpl.
  - exists r. rewrite app_nil_r. auto.
  - destruct (IH (tops ++ [NodeItem (node_item_of s i)])
                (if server_is (if_server i) sel then Some (length tops, None) else r))
      as (r' & Heq & Hvalid & Hnone).
    { destruct (server_is (if_server i) sel) eqn:Hi.
      - simpl. exists (if_server i). apply server_is_true in Hi.
        split; [exact Hi|]. rewrite lookup_app_r by lia.
        rewrite Nat.sub_diag. reflexivity.
      - apply points_at_sel_app. exact Hr. }
    exists r'. rewrite <- app_assoc in Heq, Hvalid. simpl in Heq, Hvalid.
    split; [exact Heq|]. split; [exact Hvalid|].
    intros Hsel. rewrite (Hnone Hsel).
    destruct Hsel as [-> | [h ->]]; reflexivity.
Qed.

Lemma add_chains_spec (s : nodes_snapshot) (sel : node_key) (n_chains : nat)
      (cs : list (blockchain * list interface)) (tops : list node_item)
      (r : option (nat * option nat)) :
  points_at_sel sel tops r ->
  exists r',
    add_chains s sel n_chains cs tops r = (tops ++ chain_items s n_chains cs, r')
    /\ points_at_sel sel (tops ++ chain_items s n_chains cs) r'
    /\ (sel = KNone \/ (exists h, sel = KBase h) -> r' = r).
Proof.
  revert tops r. induction cs as [|[b items] cs IH]; intros tops r Hr; simpl.
  - exists r. rewrite app_nil_r. auto.
  - destruct (Nat.ltb 1 n_chains).
    + destruct (add_children_spec s sel (length tops) items [] r)
        as (r1 & Heq1 & Hr1).
      rewrite Heq1. simpl.
      set (x := ChainItem _).
      destruct (IH (tops ++ [x]) r1) as (r' & Heq & Hvalid & Hnone).
      { destruct Hr1 as [-> | (j & y & -> & Hy & Hsel)].
        - apply points_at_sel_app. exact Hr.
        - simpl. exists (nr_server y). split; [exact Hsel|].
          rewrite lookup_app_r by lia. rewrite Nat.sub_diag. simpl.
          simpl in Hy. rewrite Hy. reflexivity. }
      exists r'. rewrite <- app_assoc in Heq, Hvalid.
      split; [exact Heq|]. split; [exact Hvalid|].
      intros Hsel. rewrite (Hnone Hsel).
      destruct Hr1 as [-> | (j & y & -> & Hy & Hsely)]; [reflexivity|].
      destruct Hsel as [-> | [h ->]]; discriminate.
    + destruct (add_top_nodes_spec s sel items tops r Hr)
        as (r1 & Heq1 & Hvalid1 & Hnone1).
      rewrite Heq1.
      destruct (IH _ r1 Hvalid1) as (r' & Heq & Hvalid & Hnone).
      exists r'. rewrite <- app_assoc in Heq, Hvalid.
      split; [exact Heq|]. split; [exact Hvalid|].
      intros Hsel. rewrite (Hnone Hsel). apply Hnone1. exact Hsel.
Qed.

Lemma nodes_update_eq (s : nodes_snapshot) (w : nodes_widget) :
  exists r,
    NodesListWidget.update s w =
    {| nw_items := chain_items s (length (chains s)) (chains s);
       nw_current := r;
       nw_auto_scroll := nw_auto_scroll w;
       nw_hdr := nodes_header (nw_hdr w) |}
    /\ snd (add_chains s (nodes_current_key w) (length (chains s)) (chains s) [] None) = r
    /\ points_at_sel (nodes_current_key w)
         (chain_items s (length (chains s)) (chains s)) r
    /\ (nodes_current_key w = KNone \/ (exists h, nodes_current_key w = KBase h) ->
        r = None).
Proof.
  destruct (add_chains_spec s (nodes_current_key w) (length (chains s)) (chains s)
              [] None I) as (r & Heq & Hvalid & Hnone).
  exists r. unfold NodesListWidget.update. rewrite Heq. simpl. auto.
Qed.

Lemma nodes_update_idem (s : nodes_snapshot) (w : nodes_widget) :
  NodesListWidget.update s (NodesListWidget.update s w) = NodesListWidget.update s w.
Proof.
  destruct (nodes_update_eq s w) as (r & Heq & Hr & Hvalid & Hnone).
  rewrite Heq.
  set (w1 := {| nw_items := chain_items s (length (chains s)) (chains s);
                nw_current := r;
                nw_auto_scroll := nw_auto_scroll w;
                nw_hdr := nodes_header (nw_hdr w) |}).
  destruct (nodes_update_eq s w1) as (r2 & Heq2 & Hr2 & Hvalid2 & Hnone2).
  rewrite Heq2. unfold w1 at 1 2. simpl. rewrite nodes_header_idem. f_equal.
  assert (Hkey1 : nodes_current_key w1
                  = item_key (chain_items s (length (chains s)) (chains s)) r)
    by reflexivity.
  destruct r as [pos|].
  - destruct Hvalid as (srv & Hsel & Hkey). rewrite Hkey in Hkey1.
    rewrite <- Hr2, Hkey1, <- Hsel. exact Hr.
  - apply Hnone2. left. exact Hkey1.
Qed.

End NodeListFacts.

(** ** The lists: a selection whose key is still there is restored *)

Section RestoreFacts.
Import Renderers.
Variable humanbytes : Z -> string.

Lemma gs_update_restores (slp_gs_list : list string) (gs_host : string)
      (w : tree_widget endpoint_row) (old : endpoint_row) :
  currentItem w = Some old -> In (er_data old) slp_gs_list ->
  exists x, currentItem (SlpGsServeListWidget.update slp_gs_list gs_host w) = Some x
            /\ er_data x = er_data old.
Proof.
  intros Hcur Hin. unfold SlpGsServeListWidget.update. rewrite endpoints_update_eq. cbv zeta.
  apply endpoints_restore; assumption.
Qed.

Lemma postage_update_restores (post_office_list : list string)
      (w : tree_widget endpoint_row) (old : endpoint_row) :
  currentItem w = Some old -> In (er_data old) post_office_list ->
  exists x, currentItem (PostOfficeServeListWidget.update post_office_list w) = Some x
            /\ er_data x = er_data old.
Proof.
  intros Hcur Hin. unfold PostOfficeServeListWidget.update. rewrite endpoints_update_eq.
  cbv zeta. apply endpoints_restore; assumption.
Qed.

Lemma job_update_restores (s : jobs_snapshot) (v : jobs_view) (old : job_row) :
  currentItem (jv_list v) = Some old -> jr_key old <> EmptyString ->
  (exists x, In x (rows (jv_list (SlpSearchJobListWidget.update humanbytes s v)))
             /\ jr_key x = jr_key old) ->
  exists x, currentItem (jv_list (SlpSearchJobListWidget.update humanbytes s v)) = Some x
            /\ jr_key x = jr_key old.
Proof.
  rewrite job_update_eq. cbv zeta. simpl. intros Hcur Hkey (x & Hin & Hx).
  rewrite Hcur. change (jr_key <$> Some old) with (Some (jr_key old)).
  assert (He : effective_key (Some (jr_key old)) = Some (jr_key old)).
  { simpl. destruct (jr_key old); [contradiction | reflexivity]. }
  rewrite He. unfold currentItem; simpl.
  set (lists := sort_jobs _ _ _ _) in *.
  unfold job_current, job_rows in *.
  destruct (working_item lists) as [wk|].
  - destruct (key_is (jr_key wk) (Some (jr_key old))) eqn:Hwk.
    + exists wk. split; [reflexivity|]. apply key_is_true in Hwk. congruence.
    + destruct Hin as [-> | Hin].
      { rewrite Hx in Hwk. simpl in Hwk. rewrite String.eqb_refl in Hwk.
        discriminate. }
      assert (Hk : In (jr_key old)
                      (map jr_key (rev (completed_items lists) ++ other_items lists))).
      { rewrite <- Hx. apply in_map. exact Hin. }
      destruct (last_match_present _ _ 0%nat None Hk) as (i & Hi & _ & Hlk).
      rewrite Hi. simpl. item_of_key Hlk jr_key y Hy.
      exists y. split; [reflexivity | exact Hy].
  - assert (Hk : In (jr_key old)
                    (map jr_key (rev (completed_items lists) ++ other_items lists))).
    { rewrite <- Hx. apply in_map. exact Hin. }
    destruct (last_match_present _ _ 0%nat None Hk) as (i & Hi & _ & Hlk).
    rewrite Hi. item_of_key Hlk jr_key y Hy.
    exists y. split; [reflexivity | exact Hy].
Qed.

Lemma add_children_found (s : nodes_snapshot) (srv : string) (top : nat)
      (items : list interface) (children : list node_row)
      (r : option (nat * option nat)) :
  r <> None \/ In srv (map if_server items) ->
  snd (add_children s (KServer srv) top items children r) <> None.
Proof.
  revert children r. induction items as [|i items IH]; intros children r; simpl.
  - intros [H | []]. exact H.
  - intros H. apply IH.
    destruct (String.eqb_spec (if_server i) srv) as [Heq|Hne]; [left; discriminate|].
    destruct H as [H | [H | H]]; [left; exact H | contradiction | right; exact H].
Qed.

Lemma add_top_nodes_found (s : nodes_snapshot) (srv : string)
      (items : list interface) (tops : list node_item)
      (r : option (nat * option nat)) :
  r <> None \/ In srv (map if_server items) ->
  snd (add_top_nodes s (KServer srv) items tops r) <> None.
Proof.
  revert tops r. induction items as [|i items IH]; intros tops r; simpl.
  - intros [H | []]. exact H.
  - intros H. apply IH.
    destruct (String.eqb_spec (if_server i) srv) as [Heq|Hne]; [left; discriminate|].
    destruct H as [H | [H | H]]; [left; exact H | contradiction | right; exact H].
Qed.

Lemma add_chains_found (s : nodes_snapshot) (srv : string) (n_chains : nat)
      (cs : list (blockchain * list interface)) (tops : list node_item)
      (r : option (nat * option nat)) :
  r <> None \/ In srv (map if_server (concat (map snd cs))) ->
  snd (add_chains s (KServer srv) n_chains cs tops r) <> None.
Proof.
  revert tops r. induction cs as [|[b items] cs IH]; intros tops r; simpl.
  - intros [H | []]. exact H.
  - rewrite map_app, in_app_iff. intros H.
    destruct (Nat.ltb 1 n_chains).
    + pose proof (add_children_found s srv (length tops) items [] r) as Hc.
      destruct (add_children s (KServer srv) (length tops) items [] r) as [ch r1].
      simpl in Hc. apply IH.
      destruct H as [H | [H | H]]; [left; apply Hc; left; exact H
                                   | left; apply Hc; right; exact H
                                   | right; exact H].
    + pose proof (add_top_nodes_found s srv items tops r) as Hc.
      destruct (add_top_nodes s (KServer srv) items tops r) as [tops1 r1].
      simpl in Hc. apply IH.
      destruct H as [H | [H | H]]; [left; apply Hc; left; exact H
                                   | left; apply Hc; right; exact H
                                   | right; exact H].
Qed.

Lemma nodes_update_restores (s : nodes_snapshot) (w : nodes_widget)
      (srv : string) :
  nodes_current_key w = KServer srv ->
  In srv (map if_server (concat (map snd (chains s)))) ->
  nodes_current_key (NodesListWidget.update s w) = KServer srv.
Proof.
  intros Hkey Hin.
  destruct (nodes_update_eq s w) as (r & Heq & Hr & Hvalid & _).
  rewrite Heq. unfold nodes_current_key at 1. simpl.
  rewrite Hkey in Hr, Hvalid.
  pose proof (add_chains_found s srv (length (chains s)) (chains s) [] None
                (or_intror Hin)) as Hfound.
  rewrite Hr in Hfound. destruct r as [pos|]; [|contradiction].
  destruct Hvalid as (srv' & [= <-] & Hk). exact Hk.
Qed.

End RestoreFacts.

(** ** The lists: the pattern of [update] *)

Section UpdatePattern.
Import Renderers.
Variable humanbytes : Z -> string.

(** C9 (as the code has it). Every [update] clears the widget, builds
    the items from the snapshot alone and sets the same column sizing;
    running it twice on one snapshot gives what running it once gives,
    items and current item alike.  The node, server, job, graph-search
    and postage lists take the key of the current item first and make
    current again an item with that key when the new items have one (for
    the node list: when a node item was current; for the job list: when
    the key is not empty).  The SLPDB list takes no key: after its
    [update] no item is current. *)
Theorem list_updates_pattern :
  (forall s w,
      NodesListWidget.update s (NodesListWidget.update s w) = NodesListWidget.update s w
      /\ nw_items (NodesListWidget.update s w)
         = chain_items s (length (chains s)) (chains s)
      /\ nw_hdr (NodesListWidget.update s w) = nodes_header (nw_hdr w))
  /\ (forall s w srv,
      nodes_current_key w = KServer srv ->
      In srv (map if_server (concat (map snd (chains s)))) ->
      nodes_current_key (NodesListWidget.update s w) = KServer srv)
  /\ (forall network servers protocol use_tor w,
      ServerListWidget.update network servers protocol use_tor
        (ServerListWidget.update network servers protocol use_tor w)
      = ServerListWidget.update network servers protocol use_tor w
      /\ rows (ServerListWidget.update network servers protocol use_tor w)
         = map (item_of_entry network protocol)
             (List.filter (listed protocol use_tor) (sorted_items servers))
      /\ hdr (ServerListWidget.update network servers protocol use_tor w)
         = server_header (hdr w))
  /\ (forall network servers protocol use_tor w old,
      currentItem w = Some old ->
      (exists x, In x (rows (ServerListWidget.update network servers protocol use_tor w))
                 /\ sr_server x = sr_server old) ->
      exists x,
        currentItem (ServerListWidget.update network servers protocol use_tor w) = Some x
        /\ sr_server x = sr_server old)
  /\ (forall s v,
      SlpSearchJobListWidget.update humanbytes s (SlpSearchJobListWidget.update humanbytes s v)
      = SlpSearchJobListWidget.update humanbytes s v
      /\ rows (jv_list (SlpSearchJobListWidget.update humanbytes s v))
         = job_rows (sort_jobs humanbytes (gs_enabled s) (jobs s)
                       {| working_item := None; completed_items := [];
                          other_items := [] |})
      /\ hdr (jv_list (SlpSearchJobListWidget.update humanbytes s v)) = job_header (hdr (jv_list v)))
  /\ (forall s v old,
      currentItem (jv_list v) = Some old -> jr_key old <> EmptyString ->
      (exists x, In x (rows (jv_list (SlpSearchJobListWidget.update humanbytes s v)))
                 /\ jr_key x = jr_key old) ->
      exists x, currentItem (jv_list (SlpSearchJobListWidget.update humanbytes s v)) = Some x
                /\ jr_key x = jr_key old)
  /\ (forall slp_gs_list gs_host w,
      SlpGsServeListWidget.update slp_gs_list gs_host (SlpGsServeListWidget.update slp_gs_list gs_host w)
      = SlpGsServeListWidget.update slp_gs_list gs_host w
      /\ map er_data (rows (SlpGsServeListWidget.update slp_gs_list gs_host w)) = slp_gs_list
      /\ hdr (SlpGsServeListWidget.update slp_gs_list gs_host w) = endpoint_header (hdr w))
  /\ (forall slp_gs_list gs_host w old,
      currentItem w = Some old -> In (er_data old) slp_gs_list ->
      exists x, currentItem (SlpGsServeListWidget.update slp_gs_list gs_host w) = Some x
                /\ er_data x = er_data old)
  /\ (forall post_office_list w,
      PostOfficeServeListWidget.update post_office_list
        (PostOfficeServeListWidget.update post_office_list w)
      = PostOfficeServeListWidget.update post_office_list w
      /\ map er_data (rows (PostOfficeServeListWidget.update post_office_list w))
         = post_office_list
      /\ hdr (PostOfficeServeListWidget.update post_office_list w) = endpoint_header (hdr w))
  /\ (forall post_office_list w old,
      currentItem w = Some old -> In (er_data old) post_office_list ->
      exists x, currentItem (PostOfficeServeListWidget.update post_office_list w) = Some x
                /\ er_data x = er_data old)
  /\ (forall slp_slpdb_list w,
      SlpSLPDBServeListWidget.update slp_slpdb_list (SlpSLPDBServeListWidget.update slp_slpdb_list w)
      = SlpSLPDBServeListWidget.update slp_slpdb_list w
      /\ map er_data (rows (SlpSLPDBServeListWidget.update slp_slpdb_list w)) = slp_slpdb_list
      /\ hdr (SlpSLPDBServeListWidget.update slp_slpdb_list w) = endpoint_header (hdr w)
      /\ current (SlpSLPDBServeListWidget.update slp_slpdb_list w) = None).
Proof.
  repeat apply conj.
  - intros s w. split; [apply nodes_update_idem|].
    destruct (nodes_update_eq s w) as (r & -> & _). split; reflexivity.
  - apply nodes_update_restores.
  - intros network servers protocol use_tor w.
    split; [apply server_update_idem|].
    rewrite server_update_eq. split; reflexivity.
  - apply server_update_restores.
  - intros s v. split; [apply job_update_idem|].
    rewrite job_update_eq. split; reflexivity.
  - apply job_update_restores.
  - intros l g w. split; [apply gs_update_idem|].
    unfold SlpGsServeListWidget.update. rewrite endpoints_update_eq. cbv zeta. simpl.
    rewrite map_er_data. split; reflexivity.
  - apply gs_update_restores.
  - intros l w. split; [apply postage_update_idem|].
    unfold PostOfficeServeListWidget.update. rewrite endpoints_update_eq. cbv zeta. simpl.
    rewrite map_er_data. split; reflexivity.
  - apply postage_update_restores.
  - intros l w. split; [apply slpdb_update_idem|].
    rewrite slpdb_update_eq. simpl. rewrite map_er_data.
    repeat split; reflexivity.
Qed.

End UpdatePattern.

Section UpdateExamples.
Import Renderers.

(** C9 (as stated) fails on the SLPDB list: an endpoint is selected and
    still listed after [update], yet nothing is selected; the same
    selection in a postage list is kept. *)
Lemma slpdb_update_drops_selection :
  currentItem demo_endpoint_list = Some (endpoint_item "https://slpdb.bitcoin.com")
  /\ In (endpoint_item "https://slpdb.bitcoin.com")
        (rows (SlpSLPDBServeListWidget.update demo_endpoints demo_endpoint_list))
  /\ currentItem (SlpSLPDBServeListWidget.update demo_endpoints demo_endpoint_list) = None
  /\ currentItem (PostOfficeServeListWidget.update demo_endpoints demo_endpoint_list)
     = Some (endpoint_item "https://slpdb.bitcoin.com").
Proof.
  split; [reflexivity|]. split; [right; left; reflexivity|].
  split; [reflexivity | vm_compute; reflexivity].
Qed.

(** In the node list a selected node comes back, a selected branch item
    does not. *)
Example node_selection_restored :
  nw_current (NodesListWidget.update demo_nodes_snapshot
                (demo_nodes_widget (Some (1%nat, Some 0%nat))))
  = Some (1%nat, Some 0%nat).
Proof. vm_compute. reflexivity. Qed.

Example branch_selection_not_restored :
  nodes_current_key (demo_nodes_widget (Some (0%nat, None))) = KBase 0
  /\ nw_current (NodesListWidget.update demo_nodes_snapshot
                   (demo_nodes_widget (Some (0%nat, None)))) = None.
Proof. split; vm_compute; reflexivity. Qed.

(** The server list with and without the Tor proxy. *)
Example server_list_without_tor :
  map sr_display_text
    (rows (ServerListWidget.update demo_network demo_servers "t" false empty_server_list))
  = ["bch.imaginary.cash"%string].
Proof. vm_compute. reflexivity. Qed.

Example server_list_with_tor :
  map sr_display_text
    (rows (ServerListWidget.update demo_network demo_servers "t" true empty_server_list))
  = ["Example (.onion)"%string; "bch.imaginary.cash"%string].
Proof. vm_compute. reflexivity. Qed.

Example server_list_ssl_has_no_onion_port :
  map (fun x => (sr_server x, sr_flagval x))
    (rows (ServerListWidget.update demo_network demo_servers "s" true empty_server_list))
  = [("bch.imaginary.cash:50002:s"%string, 0)].
Proof. vm_compute. reflexivity. Qed.

Example server_list_preferred_flag :
  map sr_flagval
    (rows (ServerListWidget.update demo_network demo_servers "t" false empty_server_list))
  = [ServerFlag.Preferred].
Proof. vm_compute. reflexivity. Qed.

End UpdateExamples.

(** ** The 'hex' codec and the clipboard actions of the job list *)

Section HexFacts.
Import Renderers JobMenu.

Lemma hex_value_bound c n : hex_value c = Some n -> (n < 16)%N.
Proof.
  unfold hex_value.
  repeat match goal with |- context [if ?b then _ else _] => destruct b eqn:? end;
    intros [= <-];
    repeat match goal with
           | H : (_ && _)%bool = true |- _ => apply andb_true_iff in H as [? ?]
           | H : (_ <=? _)%N = true |- _ => apply N.leb_le in H
           end; lia.
Qed.

Lemma small_cases (P : N -> Prop) :
  P 0%N -> P 1%N -> P 2%N -> P 3%N -> P 4%N -> P 5%N -> P 6%N -> P 7%N ->
  P 8%N -> P 9%N -> P 10%N -> P 11%N -> P 12%N -> P 13%N -> P 14%N -> P 15%N ->
  forall n, (n < 16)%N -> P n.
Proof.
  intros. destruct n as [|p]; [assumption|].
  do 4 (destruct p as [p|p|]; try assumption); lia.
Qed.

Lemma hex_value_hex_char n : (n < 16)%N -> hex_value (hex_char n) = Some n.
Proof. revert n. apply small_cases; reflexivity. Qed.

Lemma hex_char_ascii n : (n < 16)%N -> is_ascii (hex_char n) = true.
Proof. revert n. apply small_cases; reflexivity. Qed.

(** A digit and the lower-case digit of its value. *)
Lemma hex_char_lower c n : hex_value c = Some n -> hex_char n = lower_char c.
Proof.
  destruct c as [[] [] [] [] [] [] [] []]; vm_compute; intros [= <-]; reflexivity.
Qed.

Lemma hex_value_ascii c n : hex_value c = Some n -> is_ascii c = true.
Proof.
  destruct c as [[] [] [] [] [] [] [] []]; vm_compute; intros [= <-]; reflexivity.
Qed.

Lemma byte_split b :
  let n := N_of_ascii b in
  (n / 16 < 16)%N /\ (n mod 16 < 16)%N /\ ascii_of_N (16 * (n / 16) + n mod 16) = b.
Proof.
  intros n. pose proof (N_ascii_bounded b) as Hb. fold n in Hb.
  split; [apply N.Div0.div_lt_upper_bound; lia|].
  split; [apply N.mod_lt; lia|].
  rewrite <- N.div_mod by lia. apply ascii_N_embedding.
Qed.

Lemma byte_join h l :
  (h < 16)%N -> (l < 16)%N ->
  let n := N_of_ascii (ascii_of_N (16 * h + l)) in
  (n / 16 = h)%N /\ (n mod 16 = l)%N.
Proof.
  intros Hh Hl n. unfold n. rewrite N_ascii_embedding by lia.
  split.
  - symmetry. apply (N.div_unique (16 * h + l) 16 h l); [exact Hl | reflexivity].
  - symmetry. apply (N.mod_unique (16 * h + l) 16 h l); [exact Hl | reflexivity].
Qed.

Lemma a2b_pairs_b2a_hex bs : a2b_pairs (b2a_hex bs) = Some bs.
Proof.
  induction bs as [|b rest IH]; [reflexivity|].
  cbn [b2a_hex a2b_pairs].
  destruct (byte_split b) as (Hh & Hl & Hb).
  rewrite (hex_value_hex_char _ Hh), (hex_value_hex_char _ Hl), IH, Hb. reflexivity.
Qed.

Lemma b2a_hex_ascii bs : all_chars is_ascii (b2a_hex bs) = true.
Proof.
  induction bs as [|b rest IH]; [reflexivity|].
  cbn [b2a_hex all_chars].
  destruct (byte_split b) as (Hh & Hl & _).
  rewrite (hex_char_ascii _ Hh), (hex_char_ascii _ Hl), IH. reflexivity.
Qed.

Lemma b2a_hex_length bs : String.length (b2a_hex bs) = (2 * String.length bs)%nat.
Proof. induction bs as [|b rest IH]; [reflexivity|]. cbn [b2a_hex String.length]. lia. Qed.

(** Round trip: what [b2a_hex] writes, [a2b_hex] reads back. *)
Lemma a2b_hex_b2a_hex bs : a2b_hex (b2a_hex bs) = Return bs.
Proof.
  unfold a2b_hex. rewrite b2a_hex_ascii, b2a_hex_length, a2b_pairs_b2a_hex.
  replace (Nat.odd (2 * String.length bs)) with false; [reflexivity|].
  symmetry. rewrite Nat.odd_mul. reflexivity.
Qed.

(** A string with an induction two characters at a time. *)
Lemma string_pair_ind (P : string -> Prop) :
  P EmptyString ->
  (forall c, P (String c EmptyString)) ->
  (forall c1 c2 rest, P rest -> P (String c1 (String c2 rest))) ->
  forall s, P s.
Proof.
  intros H0 H1 H2.
  assert (H : forall s, P s /\ forall c, P (String c s)).
  { induction s as [|c s [IHs IHc]]; [split; [exact H0 | exact H1]|].
    split; [apply IHc|]. intros c'. apply H2, IHs. }
  intros s. apply H.
Qed.

(** Reading then writing gives the lower-case form. *)
Lemma b2a_hex_a2b_pairs s bs : a2b_pairs s = Some bs -> b2a_hex bs = lower s.
Proof.
  revert bs. induction s as [| c | hi lo rest IH] using string_pair_ind; intros bs.
  - intros [= <-]. reflexivity.
  - discriminate.
  - cbn [a2b_pairs].
    destruct (hex_value hi) as [h|] eqn:Hh; [|discriminate].
    destruct (hex_value lo) as [l|] eqn:Hl; [|discriminate].
    destruct (a2b_pairs rest) as [bs'|] eqn:Hr; [|discriminate].
    intros [= <-]. cbn [b2a_hex lower].
    destruct (byte_join h l (hex_value_bound _ _ Hh) (hex_value_bound _ _ Hl)) as [-> ->].
    rewrite (hex_char_lower _ _ Hh), (hex_char_lower _ _ Hl), (IH _ eq_refl).
    reflexivity.
Qed.

Lemma a2b_pairs_length s bs :
  a2b_pairs s = Some bs -> String.length s = (2 * String.length bs)%nat.
Proof.
  revert bs. induction s as [| c | hi lo rest IH] using string_pair_ind; intros bs.
  - intros [= <-]. reflexivity.
  - discriminate.
  - cbn [a2b_pairs].
    destruct (hex_value hi); [|discriminate].
    destruct (hex_value lo); [|discriminate].
    destruct (a2b_pairs rest) as [bs'|]; [|discriminate].
    intros [= <-]. cbn [String.length]. rewrite (IH _ eq_refl). lia.
Qed.

(** [a2b_pairs] succeeds exactly on an even number of hexadecimal
    digits. *)
Lemma a2b_pairs_some s :
  (exists bs, a2b_pairs s = Some bs)
  <-> Nat.odd (String.length s) = false /\ all_chars is_hex_digit s = true.
Proof.
  induction s as [| c | hi lo rest IH] using string_pair_ind.
  - split; [intros _; split; reflexivity | intros _; exists EmptyString; reflexivity].
  - split; [intros [bs [=]] | intros [[=] _]].
  - cbn [a2b_pairs String.length all_chars]. unfold is_hex_digit at 1 2.
    change (Nat.odd (S (S (String.length rest)))) with (Nat.odd (String.length rest)).
    destruct (hex_value hi) as [h|]; [|split; [intros [bs [=]] | intros [_ [=]]]].
    destruct (hex_value lo) as [l|]; [|split; [intros [bs [=]] | intros [_ [=]]]].
    simpl. rewrite <- IH.
    destruct (a2b_pairs rest) as [bs'|].
    + split; intros _; eauto.
    + split; intros [bs [=]].
Qed.

Lemma hex_digits_ascii s : all_chars is_hex_digit s = true -> all_chars is_ascii s = true.
Proof.
  induction s as [|c rest IH]; [reflexivity|]. cbn [all_chars].
  intros [Hc Hr]%andb_true_iff. rewrite (IH Hr), andb_true_r.
  unfold is_hex_digit in Hc. destruct (hex_value c) as [n|] eqn:Hn; [|discriminate].
  exact (hex_value_ascii c n Hn).
Qed.

Lemma reversed_length bs : String.length (reversed bs) = String.length bs.
Proof.
  unfold reversed.
  rewrite <- (string_of_list_ascii_of_string bs) at 2.
  generalize (list_ascii_of_string bs). intros l.
  assert (H : forall l, String.length (string_of_list_ascii l) = List.length l).
  { induction l0 as [|a l0 IH]; [reflexivity|]. simpl. rewrite IH. reflexivity. }
  rewrite !H. apply length_rev.
Qed.

Lemma reversed_involutive bs : reversed (reversed bs) = bs.
Proof.
  unfold reversed. rewrite list_ascii_of_string_of_list_ascii, rev_involutive.
  apply string_of_list_ascii_of_string.
Qed.

Lemma a2b_hex_some s bs : a2b_hex s = Return bs -> a2b_pairs s = Some bs.
Proof.
  unfold a2b_hex. destruct (negb _); [discriminate|].
  destruct (Nat.odd _); [discriminate|].
  destruct (a2b_pairs s); [intros [= <-]; reflexivity | discriminate].
Qed.

Lemma lower_length s : String.length (lower s) = String.length s.
Proof. induction s as [|c s IH]; [reflexivity|]. simpl. rewrite IH. reflexivity. Qed.

End HexFacts.

Section JobMenuFacts.
Import Renderers JobMenu.
Variable humanbytes : Z -> string.

(** X1. "Copy Reversed Txid" on a transaction id that is an even number
    of hexadecimal digits gives a text of the same length, and reversing
    that text again gives the id back in lower case: byte reversal is an
    involution up to letter case. *)
Theorem flip_txid_involutive (txid t1 : string) :
  flip_txid txid = Return t1 ->
  String.length t1 = String.length txid
  /\ flip_txid t1 = Return (lower txid)
  /\ (forall x w, currentItem w = Some x -> jr_key x = txid ->
        _copy_txid_to_clipboard true w = Return t1).
Proof.
  unfold flip_txid. destruct (a2b_hex txid) as [bs|e] eqn:Hd; [|discriminate].
  intros [= <-]. apply a2b_hex_some in Hd.
  split; [|split].
  - rewrite b2a_hex_length, reversed_length. symmetry. apply a2b_pairs_length, Hd.
  - rewrite a2b_hex_b2a_hex, reversed_involutive, (b2a_hex_a2b_pairs _ _ Hd). reflexivity.
  - intros x w Hcur Hkey. unfold _copy_txid_to_clipboard, flip_txid.
    rewrite Hcur, Hkey. unfold a2b_hex.
    assert (Hok : exists bs', a2b_pairs txid = Some bs') by eauto.
    apply a2b_pairs_some in Hok as [Hodd Hhex].
    rewrite (hex_digits_ascii _ Hhex), Hodd, Hd. reflexivity.
Qed.

(** X2. "Copy Reversed Txid" succeeds exactly when the id is an even
    number of hexadecimal digits; otherwise the codec's [ValueError]
    leaves the method (nothing reaches the clipboard).  "Copy Txid" copies
    the id as it is, without any check; without a current item both raise
    [AttributeError]. *)
Theorem copy_txid_errors (flip_bytes : bool) (w : tree_widget job_row) :
  (forall x, currentItem w = Some x ->
     ((exists t, _copy_txid_to_clipboard true w = Return t)
      <-> Nat.odd (String.length (jr_key x)) = false
          /\ all_chars is_hex_digit (jr_key x) = true)
     /\ (forall e, _copy_txid_to_clipboard true w = Raise e -> is_value_error e = true)
     /\ _copy_txid_to_clipboard false w = Return (jr_key x))
  /\ (currentItem w = None ->
      exists what, _copy_txid_to_clipboard flip_bytes w = Raise (AttributeError what)).
Proof.
  split.
  - intros x Hcur. unfold _copy_txid_to_clipboard. rewrite Hcur. cbv zeta.
    split; [|split; [|reflexivity]].
    + rewrite <- a2b_pairs_some. unfold flip_txid, a2b_hex.
      destruct (all_chars is_ascii (jr_key x)) eqn:Ha; simpl.
      * destruct (Nat.odd (String.length (jr_key x))) eqn:Ho.
        -- split; [intros [t [=]]|]. intros Hex. apply a2b_pairs_some in Hex as [Ho' _].
           congruence.
        -- destruct (a2b_pairs (jr_key x)) as [bs|]; split; eauto.
           ++ intros [t [=]].
           ++ intros [bs [=]].
      * split; [intros [t [=]]|]. intros Hex. apply a2b_pairs_some in Hex as [_ Hhex].
        apply hex_digits_ascii in Hhex. congruence.
    + intros e. unfold flip_txid, a2b_hex.
      destruct (negb _); [intros [= <-]; reflexivity|].
      destruct (Nat.odd _); [intros [= <-]; reflexivity|].
      destruct (a2b_pairs _); [discriminate | intros [= <-]; reflexivity].
  - intros Hcur. unfold _copy_txid_to_clipboard. rewrite Hcur. eauto.
Qed.

Lemma status_text_exited (st : job_status) (suffix : string) :
  String.eqb (String.append (status_text st) suffix) "Exited" = true
  <-> st = Exited /\ suffix = EmptyString.
Proof.
  destruct st; simpl status_text;
    try (split; [vm_compute; discriminate | intros [[=] _]]).
  split.
  - intros H. split; [reflexivity|]. destruct suffix; [reflexivity|].
    vm_compute in H. discriminate.
  - intros [_ ->]. reflexivity.
Qed.

Lemma status_text_downloaded (st : job_status) (suffix : string) :
  String.eqb (String.append (status_text st) suffix) "Downloaded" = true
  <-> st = Downloaded /\ suffix = EmptyString.
Proof.
  destruct st; simpl status_text;
    try (split; [vm_compute; discriminate | intros [[=] _]]).
  split.
  - intros H. split; [reflexivity|]. destruct suffix; [reflexivity|].
    vm_compute in H. discriminate.
  - intros [_ ->]. reflexivity.
Qed.

Lemma exit_msg_text_empty (j : job) (st : job_status) :
  exit_msg_text j st = EmptyString <-> no_exit_msg j = true \/ st = Downloaded.
Proof.
  unfold exit_msg_text, no_exit_msg. destruct (exit_msg j) as [m|]; [|tauto].
  destruct (truthy_str m); simpl; [|tauto].
  destruct st; simpl; try (split; [discriminate | intros [[=]|[=]]]).
  split; [auto | reflexivity].
Qed.

(** X3. The context menu of a job item always has the three copy entries
    and "Refresh List".  "Restart Search" is added exactly for an exited
    job without an exit message, "Cancel" exactly for a job that is
    neither downloaded nor such an exited job: an exited job whose exit
    message is shown in the status column is offered "Cancel", not
    "Restart Search".  Never both; a downloaded job gets neither. *)
Theorem job_menu_restart_or_cancel (enabled : bool) (k : string) (j : job)
        (w : tree_widget job_row) :
  currentItem w = Some (job_item humanbytes enabled k j) ->
  exists extra,
    create_menu w = Some ([CopyTxid; CopyReversedTxid; CopyStatus; RefreshList] ++ extra)
    /\ (extra = [RestartSearch k]
        <-> status_of enabled j = Exited /\ no_exit_msg j = true)
    /\ (extra = [CancelJob k]
        <-> status_of enabled j <> Downloaded
            /\ ~ (status_of enabled j = Exited /\ no_exit_msg j = true))
    /\ (extra = [] <-> status_of enabled j = Downloaded).
Proof.
  intros Hcur. unfold create_menu. rewrite Hcur. cbv zeta.
  change (jr_status (job_item humanbytes enabled k j))
    with (String.append (status_text (status_of enabled j))
            (exit_msg_text j (status_of enabled j))).
  change (jr_key (job_item humanbytes enabled k j)) with k.
  set (st := status_of enabled j).
  destruct (String.eqb (String.append (status_text st) (exit_msg_text j st)) "Exited")
    eqn:HE.
  - apply status_text_exited in HE as [Hst Hmsg].
    apply exit_msg_text_empty in Hmsg as [Hno | Hd]; [|congruence].
    eexists. split; [reflexivity|].
    split; [tauto|]. split; [|split; [discriminate | congruence]].
    split; [discriminate | intros [_ Hn]; tauto].
  - assert (HnE : ~ (st = Exited /\ no_exit_msg j = true)).
    { intros [Hst Hno].
      assert (String.eqb (String.append (status_text st) (exit_msg_text j st)) "Exited"
              = true); [|congruence].
      apply status_text_exited. split; [exact Hst|].
      apply exit_msg_text_empty. auto. }
    simpl.
    destruct (String.eqb (String.append (status_text st) (exit_msg_text j st)) "Downloaded")
      eqn:HD; simpl.
    + apply status_text_downloaded in HD as [Hst _].
      exists []. split; [reflexivity|].
      split; [split; [discriminate | tauto]|].
      split; [split; [discriminate | intros [Hn _]; congruence]|].
      split; [auto | reflexivity].
    + assert (HnD : st <> Downloaded).
      { intros Hst.
        assert (String.eqb (String.append (status_text st) (exit_msg_text j st))
                  "Downloaded" = true); [|congruence].
        apply status_text_downloaded. split; [exact Hst|].
        apply exit_msg_text_empty. auto. }
      eexists. split; [reflexivity|].
      split; [split; [discriminate | tauto]|].
      split; [tauto|].
      split; [discriminate | congruence].
Qed.

Lemma with_status_eq (enabled : bool) (st st' : job_status) (e : string * job) :
  status_of enabled (snd e) = st' -> with_status enabled st e = bool_decide (st' = st).
Proof. intros <-. reflexivity. Qed.

Lemma is_other_eq (enabled : bool) (st' : job_status) (e : string * job) :
  status_of enabled (snd e) = st' ->
  is_other enabled e
  = negb (bool_decide (st' = Downloading)) && negb (bool_decide (st' = Downloaded)).
Proof. intros <-. reflexivity. Qed.

Lemma sort_jobs_spec (enabled : bool) (js : list (string * job)) (acc : job_lists) :
  let item := fun e : string * job => job_item humanbytes enabled (fst e) (snd e) in
  sort_jobs humanbytes enabled js acc =
  {| working_item :=
       match last (List.filter (with_status enabled Downloading) js) with
       | Some e => Some (item e)
       | None => working_item acc
       end;
     completed_items :=
       completed_items acc ++ map item (List.filter (with_status enabled Downloaded) js);
     other_items := other_items acc ++ map item (List.filter (is_other enabled) js) |}.
Proof.
  cbv zeta. revert acc. induction js as [|[k j] js IH]; intros acc.
  - simpl. rewrite !app_nil_r. destruct acc; reflexivity.
  - cbn [sort_jobs List.filter].
    destruct (status_of enabled j) eqn:Hst;
      rewrite IH, !(with_status_eq enabled _ _ (k, j) Hst),
        (is_other_eq enabled _ (k, j) Hst);
      cbn [working_item completed_items other_items map fst snd];
      rewrite <- ?app_assoc; try reflexivity.
    change (bool_decide (Downloading = Downloading)) with true. cbv iota.
    rewrite last_cons.
    destruct (last (List.filter (with_status enabled Downloading) js)); reflexivity.
Qed.

Lemma filter_three_lengths (enabled : bool) (js : list (string * job)) :
  (length (List.filter (with_status enabled Downloading) js)
   + length (List.filter (with_status enabled Downloaded) js)
   + length (List.filter (is_other enabled) js))%nat = length js.
Proof.
  induction js as [|e js IH]; [reflexivity|].
  cbn [List.filter].
  destruct (status_of enabled (snd e)) eqn:Hst;
    rewrite !(with_status_eq enabled _ _ e Hst), (is_other_eq enabled _ e Hst);
    cbn [bool_decide decide_rel negb andb length]; simpl; lia.
Qed.

(** X4. The job list after [update]: first the item of the last job that
    is downloading (if any), then the downloaded jobs in reverse order,
    then all other jobs in their order.  Jobs that are downloading, other
    than the last of them, have no item: the list has as many items as
    there are jobs only when at most one job is downloading. *)
Theorem job_list_order (s : jobs_snapshot) (v : jobs_view) :
  let item := fun e : string * job =>
                job_item humanbytes (gs_enabled s) (fst e) (snd e) in
  let downloading := List.filter (with_status (gs_enabled s) Downloading) (jobs s) in
  rows (jv_list (SlpSearchJobListWidget.update humanbytes s v))
  = match last downloading with Some e => [item e] | None => [] end
    ++ rev (map item (List.filter (with_status (gs_enabled s) Downloaded) (jobs s)))
    ++ map item (List.filter (is_other (gs_enabled s)) (jobs s))
  /\ (length (rows (jv_list (SlpSearchJobListWidget.update humanbytes s v)))
      + Nat.pred (length downloading))%nat = length (jobs s).
Proof.
  cbv zeta. rewrite job_update_eq. cbn [jv_list rows]. rewrite sort_jobs_spec.
  unfold job_rows. cbn [working_item completed_items other_items app].
  pose proof (filter_three_lengths (gs_enabled s) (jobs s)) as Hlen.
  destruct (List.filter (with_status (gs_enabled s) Downloading) (jobs s)) as [|e l] eqn:HD.
  - cbn [last]. split; [reflexivity|].
    rewrite length_app, length_rev, !length_map. simpl in *. lia.
  - destruct (last (e :: l)) as [e'|] eqn:Hl.
    + split; [reflexivity|]. cbn [app length].
      rewrite length_app, length_rev, !length_map. simpl in *. lia.
    + apply last_None in Hl. discriminate.
Qed.

End JobMenuFacts.

Section JobMenuExamples.
Import Renderers JobMenu.

Lemma flip_txid_involutive_witness :
  flip_txid "0a1B2c" = Return "2c1b0a"%string
  /\ String.length "2c1b0a" = String.length "0a1B2c"
  /\ flip_txid "2c1b0a" = Return "0a1b2c"%string.
Proof.
  assert (H : flip_txid "0a1B2c" = Return "2c1b0a"%string) by (vm_compute; reflexivity).
  pose proof (flip_txid_involutive "0a1B2c" "2c1b0a" H) as (Hlen & Hback & _).
  exact (conj H (conj Hlen Hback)).
Defined.

Example flip_txid_odd :
  flip_txid "abc" = Raise (ValueError "Odd-length string").
Proof. vm_compute. reflexivity. Qed.

Example flip_txid_not_hex :
  flip_txid "zz" = Raise (ValueError "Non-hexadecimal digit found").
Proof. vm_compute. reflexivity. Qed.

(** A job that exited with a message, as [update] shows it. *)
Lemma job_menu_restart_or_cancel_witness :
  let j := {| txn_count_progress := 12; search_success := false; job_complete := true;
              waiting_to_cancel := false; search_started := true;
              exit_msg := Some "user cancelled"%string;
              root_txid := "9f3c0a"; gs_response_size := 2048;
              validity_cache_size := 3 |} in
  let x := job_item (fun _ => EmptyString) true "9f3c0a" j in
  currentItem (selected_alone x) = Some x
  /\ jr_status x = "Exited (user cancelled)"%string
  /\ create_menu (selected_alone x)
     = Some [CopyTxid; CopyReversedTxid; CopyStatus; RefreshList; CancelJob "9f3c0a"].
Proof.
  cbv zeta.
  set (j := {| txn_count_progress := 12; search_success := false; job_complete := true;
               waiting_to_cancel := false; search_started := true;
               exit_msg := Some "user cancelled"%string;
               root_txid := "9f3c0a"; gs_response_size := 2048;
               validity_cache_size := 3 |}).
  set (x := job_item (fun _ => EmptyString) true "9f3c0a" j).
  assert (H : currentItem (selected_alone x) = Some x) by reflexivity.
  assert (Hs : jr_status x = "Exited (user cancelled)"%string) by (vm_compute; reflexivity).
  pose proof (job_menu_restart_or_cancel (fun _ => EmptyString) true "9f3c0a" j
                (selected_alone x) H) as (extra & Hmenu & _ & Hcancel & _).
  assert (Hextra : extra = [CancelJob "9f3c0a"]).
  { apply Hcancel. split; [vm_compute; discriminate|].
    intros [_ Hno]. vm_compute in Hno. discriminate. }
  rewrite Hextra in Hmenu.
  exact (conj H (conj Hs Hmenu)).
Defined.

End JobMenuExamples.

(** ** The server list: order, flags and the context menu *)

Section ServerOrderFacts.
Import Renderers.

Lemma string_ltb_trans (a b c : string) :
  String.ltb a b = true -> String.ltb b c = true -> String.ltb a c = true.
Proof.
  unfold String.ltb.
  destruct (String.compare a b) eqn:H1; try discriminate.
  destruct (String.compare b c) eqn:H2; try discriminate.
  intros _ _.
  apply OrderedTypeEx.String_as_OT.cmp_lt in H1, H2.
  pose proof (OrderedTypeEx.String_as_OT.lt_trans _ _ _ H1 H2) as H3.
  apply OrderedTypeEx.String_as_OT.cmp_lt in H3.
  unfold OrderedTypeEx.String_as_OT.cmp in H3. rewrite H3. reflexivity.
Qed.

Lemma string_leb_ltb (a b : string) :
  String.leb a b = true -> a <> b -> String.ltb a b = true.
Proof.
  unfold String.leb, String.ltb.
  destruct (String.compare a b) eqn:H; try discriminate; [|reflexivity].
  apply String.compare_eq_iff in H. contradiction.
Qed.

Lemma string_not_leb_ltb (a b : string) :
  String.leb a b = false -> String.ltb b a = true.
Proof.
  unfold String.leb, String.ltb. rewrite (String.compare_antisym a b).
  destruct (String.compare b a); simpl; congruence.
Qed.

Lemma insert_by_host_in (x y : string * gmap string string) l :
  In y (insert_by_host x l) <-> y = x \/ In y l.
Proof.
  induction l as [|z l IH]; simpl; [intuition congruence|].
  destruct (String.leb (fst x) (fst z)); simpl; [intuition congruence|].
  rewrite IH. intuition congruence.
Qed.

Lemma insert_by_host_sorted (x : string * gmap string string) l :
  StronglySorted host_lt l ->
  Forall (fun y => fst y <> fst x) l ->
  StronglySorted host_lt (insert_by_host x l).
Proof.
  induction l as [|z l IH]; intros Hs Hne; simpl.
  - constructor; [constructor | constructor].
  - apply StronglySorted_inv in Hs as [Hs Hz].
    apply Forall_cons in Hne as [Hzx Hne].
    destruct (String.leb (fst x) (fst z)) eqn:Hle.
    + assert (Hxz : host_lt x z) by (apply string_leb_ltb; [exact Hle | congruence]).
      constructor; [constructor; assumption|].
      constructor; [exact Hxz|].
      eapply Forall_impl; [exact Hz|].
      intros y Hzy. exact (string_ltb_trans _ _ _ Hxz Hzy).
    + constructor; [apply IH; assumption|].
      apply Forall_forall. intros y Hy. apply list_elem_of_In in Hy.
      apply insert_by_host_in in Hy as [-> | Hy].
      * apply string_not_leb_ltb, Hle.
      * rewrite Forall_forall in Hz. apply Hz, list_elem_of_In, Hy.
Qed.

Lemma sorted_items_sorted (servers : servers_dict) :
  StronglySorted host_lt (sorted_items servers).
Proof.
  unfold sorted_items.
  pose proof (NoDup_fst_map_to_list servers) as Hnd.
  induction (map_to_list servers) as [|x l IH]; simpl; [constructor|].
  apply NoDup_cons in Hnd as [Hx Hnd].
  apply insert_by_host_sorted; [apply IH, Hnd|].
  apply Forall_forall. intros y Hy Heq.
  assert (Hperm : Permutation (foldr insert_by_host [] l) l).
  { clear. induction l as [|z l IH]; simpl; [reflexivity|].
    rewrite insert_by_host_perm, IH. reflexivity. }
  rewrite Hperm in Hy. apply Hx. rewrite <- Heq.
  apply list_elem_of_fmap. exists y. split; [reflexivity | exact Hy].
Qed.

Lemma filter_sorted {A} (R : A -> A -> Prop) (f : A -> bool) (l : list A) :
  StronglySorted R l -> StronglySorted R (List.filter f l).
Proof.
  induction 1 as [|x l Hs IH Hx]; simpl; [constructor|].
  destruct (f x); [|exact IH].
  constructor; [exact IH|].
  apply Forall_forall. intros y Hy. apply list_elem_of_In, filter_In in Hy as [Hy _].
  rewrite Forall_forall in Hx. apply Hx, list_elem_of_In, Hy.
Qed.

(** X5. The items of the server list are in strictly increasing order of
    the host names (by character codes), one item for each server that
    the filter lets through: no server is shown twice, whatever the
    order of the dict. *)
Theorem server_list_sorted (network : network_view) (servers : servers_dict)
        (protocol : string) (use_tor : bool) (w : tree_widget server_row) :
  exists entries,
    rows (ServerListWidget.update network servers protocol use_tor w)
    = map (item_of_entry network protocol) entries
    /\ StronglySorted host_lt entries
    /\ NoDup (map fst entries)
    /\ forall host d,
         In (host, d) entries
         <-> servers !! host = Some d /\ listed protocol use_tor (host, d) = true.
Proof.
  exists (List.filter (listed protocol use_tor) (sorted_items servers)).
  split; [rewrite server_update_eq; reflexivity|].
  assert (Hs : StronglySorted host_lt
                 (List.filter (listed protocol use_tor) (sorted_items servers)))
    by apply filter_sorted, sorted_items_sorted.
  split; [exact Hs|]. split.
  - induction Hs as [|x l Hs IH Hx]; simpl; [constructor|].
    apply NoDup_cons. split; [|exact IH].
    intros Hin. apply list_elem_of_fmap in Hin as (y & Heq & Hy).
    rewrite Forall_forall in Hx. specialize (Hx y Hy). unfold host_lt in Hx.
    rewrite <- Heq in Hx. unfold String.ltb in Hx.
    pose proof (String.compare_antisym (fst x) (fst x)) as Hc.
    destruct (String.compare (fst x) (fst x)); discriminate.
  - intros host d. rewrite filter_In, in_sorted_items. reflexivity.
Qed.

End ServerOrderFacts.

Section ServerFlagFacts.
Import Renderers ServerTab ServerMenu.

(** The flags of an item, read back from its flag value. *)
Lemma server_item_flagval (network : network_view) (protocol host : string)
      (d : gmap string string) (port : string) :
  let x := server_item network protocol host d port in
  let server := serialize_server host port protocol in
  has_flag (sr_flagval x) ServerFlag.Banned = server_is_blacklisted network server
  /\ has_flag (sr_flagval x) ServerFlag.Preferred = server_is_whitelisted network server
  /\ has_flag (sr_flagval x) ServerFlag.BadCertificate
     = server_is_bad_certificate network server
  /\ sr_lightened x
     = (is_whitelist_only network && negb (server_is_whitelisted network server))
       || server_is_blacklisted network server
  /\ sr_flag x
     = (if server_is_blacklisted network server then ServerFlag.Banned
        else if server_is_bad_certificate network server then ServerFlag.BadCertificate
        else if server_is_whitelisted network server then ServerFlag.Preferred
        else ServerFlag.NoFlag)
  /\ (sr_tooltip x = EmptyString <-> sr_flag x = ServerFlag.NoFlag).
Proof.
  cbv zeta. unfold server_item.
  destruct (server_is_blacklisted network _), (server_is_whitelisted network _),
    (server_is_bad_certificate network _); cbn;
    repeat split; try reflexivity; try discriminate.
Qed.

(** X6. An item of the server list carries the network's three flags of
    its server in its flag value; the symbol shown is that of the
    highest-ranking flag (banned, then bad certificate, then preferred);
    and its text is lightened exactly when the server is banned or, in
    preferred-only mode, not preferred.  So, when the server setting is
    modifiable, the servers in normal text are exactly those that
    [can_set_server] accepts. *)
Theorem server_item_flags (t : server_tab) (protocol host : string)
        (d : gmap string string) (port : string) :
  let x := server_item (network t) protocol host d port in
  let server := serialize_server host port protocol in
  let banned := server_is_blacklisted (network t) server in
  let preferred := server_is_whitelisted (network t) server in
  let bad_cert := server_is_bad_certificate (network t) server in
  sr_flagval x = (if banned then 2 else 0) + (if preferred then 1 else 0)
                 + (if bad_cert then 4 else 0)
  /\ sr_flag x = (if banned then ServerFlag.Banned
                  else if bad_cert then ServerFlag.BadCertificate
                  else if preferred then ServerFlag.Preferred
                  else ServerFlag.NoFlag)
  /\ sr_lightened x = (is_whitelist_only (network t) && negb preferred) || banned
  /\ can_set_server t server = server_modifiable t && negb (sr_lightened x).
Proof.
  cbv zeta.
  destruct (server_item_flagval (network t) protocol host d port)
    as (_ & _ & _ & Hl & Hf & _).
  split; [|split; [exact Hf | split; [exact Hl|]]].
  - unfold server_item.
    destruct (server_is_blacklisted (network t) _),
      (server_is_whitelisted (network t) _),
      (server_is_bad_certificate (network t) _); reflexivity.
  - rewrite Hl. unfold can_set_server, get_set_server_flags. cbn [fst].
    destruct (server_modifiable t), (server_is_blacklisted (network t) _),
      (is_whitelist_only (network t)), (server_is_whitelisted (network t) _);
      reflexivity.
Qed.

(** X7. The context menu of an item of the server list.  For a banned
    server: a disabled first entry "Server banned", then "Unban server";
    no entry to change the preferred state.  Otherwise: "Use as server"
    (enabled, and setting this server) when [can_set_server] accepts the
    server, the host name as a disabled entry when not; then the entry
    that toggles the preferred state, then "Ban server".  "Remove pinned
    certificate" closes the menu exactly for a server with a bad
    certificate.  No enabled entry sets a server that [can_set_server]
    refuses. *)
Theorem server_menu_entries (t : server_tab) (protocol host : string)
        (d : gmap string string) (port : string) :
  let x := server_item (network t) protocol host d port in
  let server := serialize_server host port protocol in
  let cert :=
    if server_is_bad_certificate (network t) server
    then [Action RemovePinnedCertificate true (OnRemovePinnedCertificate server)]
    else [] in
  currentItem (servers_list t) = Some x ->
  exists menu,
    create_menu t = Some menu
    /\ (server_is_blacklisted (network t) server = true ->
        exists s,
          menu = [Action ServerBanned false s; Separator;
                  Action UnbanServer true (SetBlacklisted server false)] ++ cert)
    /\ (server_is_blacklisted (network t) server = false ->
        menu = [if can_set_server t server
                then Action UseAsServer true (SetServer server)
                else Action (HostOf (before_colon server)) false Nothing;
                Separator;
                Action (if server_is_whitelisted (network t) server
                        then RemoveFromPreferred else AddToPreferred)
                       true
                       (SetWhitelisted server
                          (negb (server_is_whitelisted (network t) server)));
                Action BanServer true (SetBlacklisted server true)] ++ cert)
    /\ (forall l s, In (Action l true (SetServer s)) menu ->
          s = server /\ can_set_server t server = true).
Proof.
  cbv zeta. intros Hcur. unfold create_menu. rewrite Hcur.
  destruct (server_item_flagval (network t) protocol host d port)
    as (Hb & Hw & Hc & _).
  destruct (server_item_fields (network t) protocol host d port) as (Hsrv & _).
  cbv zeta in Hb, Hw, Hc, Hsrv. cbv zeta. rewrite Hb, Hw, Hc, Hsrv.
  set (server := serialize_server host port protocol).
  destruct (server_is_blacklisted (network t) server) eqn:Hbl.
  - assert (Hcan : can_set_server t server = false).
    { unfold can_set_server. rewrite Hbl. simpl. rewrite andb_false_r. reflexivity. }
    rewrite Hcan. cbn [snd].
    eexists. split; [reflexivity|].
    split; [intros _; eexists; reflexivity|].
    split; [discriminate|].
    intros l s Hin. exfalso.
    destruct (server_is_bad_certificate (network t) server); simpl in Hin;
      intuition discriminate.
  - destruct (can_set_server t server) eqn:Hcan;
      (eexists; split; [reflexivity|];
       split; [discriminate|];
       split; [intros _; reflexivity|];
       intros l s Hin;
       destruct (server_is_bad_certificate (network t) server),
         (server_is_whitelisted (network t) server); simpl in Hin;
       intuition (try discriminate);
       match goal with H : Action _ _ _ = Action _ _ _ |- _ => injection H as _ <- end;
       reflexivity).
Qed.

End ServerFlagFacts.

(** ** The handlers of the server tab *)

Section ServerTabFacts.
Import Renderers ServerTab.
Variable DEFAULT_PORTS : port_dict.

(** X8. [change_protocol], run as the [clicked] slot of the SSL box (the
    box then has the state [use_ssl]).  When the host in the host box has
    a port for the protocol asked for, the port box gets that port and
    the network is given host, that port and that protocol, with the
    proxy it has and the state of the auto-connect box.  When it has
    none, the port and [self.protocol] are those of the first entry of
    the host's dict, while the protocol given to the network still
    follows the SSL box.  With an empty dict the handler ends with
    [IndexError]. *)
Theorem change_protocol_spec (use_ssl : bool) (t : server_tab) :
  isChecked (ssl_cb t) = use_ssl ->
  let p := if use_ssl then "s"%string else "t"%string in
  let host := text (server_host t) in
  let pp := default DEFAULT_PORTS (servers t !! host) in
  let sent (port : string) :=
    {| Network.host := host; Network.port := port; Network.protocol := p;
       Network.proxy := Network.proxy (parameters t);
       Network.auto_connect := isChecked (autoconnect_cb t) |} in
  (forall port, dict_get pp p = Some port ->
     exists t', change_protocol DEFAULT_PORTS use_ssl t = Done t'
                /\ text (server_port t') = port /\ text (server_host t') = host
                /\ protocol t' = Some p
                /\ set_parameters_calls t' = set_parameters_calls t ++ [sent port])
  /\ (forall k v rest, dict_get pp p = None -> pp = (k, v) :: rest ->
     exists t', change_protocol DEFAULT_PORTS use_ssl t = Done t'
                /\ text (server_port t') = v /\ text (server_host t') = host
                /\ protocol t' = Some k
                /\ set_parameters_calls t' = set_parameters_calls t ++ [sent v])
  /\ (pp = [] ->
      exists what, change_protocol DEFAULT_PORTS use_ssl t = Fail (IndexError what)).
Proof.
  intros Hssl. cbv zeta. unfold change_protocol.
  set (p := if use_ssl then "s"%string else "t"%string).
  set (pp := default DEFAULT_PORTS (servers t !! text (server_host t))).
  assert (Hp : (if isChecked (ssl_cb t) then "s"%string else "t"%string) = p)
    by (unfold p; rewrite Hssl; reflexivity).
  split; [|split].
  - intros port Hget. rewrite Hget. eexists. split; [reflexivity|].
    unfold set_server. simpl. rewrite Hp.
    repeat split; try reflexivity. case_bool_decide; congruence.
  - intros k v rest Hget Hpp. rewrite Hget, Hpp. simpl.
    eexists. split; [reflexivity|].
    unfold set_server. simpl. rewrite Hp.
    repeat split; try reflexivity. case_bool_decide; congruence.
  - intros Hpp. rewrite Hpp. simpl. eauto.
Qed.

Lemma server_tab_ext (a b : server_tab) :
  server_modifiable a = server_modifiable b ->
  server_host a = server_host b -> server_port a = server_port b ->
  ssl_cb a = ssl_cb b -> autoconnect_cb a = autoconnect_cb b ->
  preferred_only_cb a = preferred_only_cb b ->
  tor_cb_checked a = tor_cb_checked b -> protocol a = protocol b ->
  servers a = servers b -> servers_list a = servers_list b ->
  network a = network b -> parameters a = parameters b ->
  set_parameters_calls a = set_parameters_calls b ->
  a = b.
Proof. destruct a, b. simpl. intros. subst. reflexivity. Qed.

Lemma set_protocol_eq (p : string) (t : server_tab) :
  set_protocol p t =
  {| server_modifiable := server_modifiable t; server_host := server_host t;
     server_port := server_port t; ssl_cb := ssl_cb t;
     autoconnect_cb := autoconnect_cb t; preferred_only_cb := preferred_only_cb t;
     tor_cb_checked := tor_cb_checked t; protocol := Some p;
     servers := servers t; servers_list := servers_list t; network := network t;
     parameters := parameters t; set_parameters_calls := set_parameters_calls t |}.
Proof. unfold set_protocol. case_bool_decide as H; [rewrite <- H|]; reflexivity. Qed.

(** [update] as one record. *)
Lemma update_eq (get_servers : gmap string port_dict) (t : server_tab) :
  update get_servers t =
  let p := parameters t in
  let nofocus := negb (hasFocus (server_host t)) && negb (hasFocus (server_port t)) in
  let en := server_modifiable t && (negb (Network.auto_connect p)
                                    && negb (is_whitelist_only (network t))) in
  {| server_modifiable := server_modifiable t;
     server_host := {| text := if nofocus then Network.host p else text (server_host t);
                       le_enabled := en; hasFocus := hasFocus (server_host t) |};
     server_port := {| text := if nofocus then Network.port p else text (server_port t);
                       le_enabled := en; hasFocus := hasFocus (server_port t) |};
     ssl_cb := {| isChecked := String.eqb (Network.protocol p) "s";
                  isEnabled := negb (String.eqb (Network.protocol p) "s"
                                     && negb (tor_cb_checked t)
                                     && negb (is_onion_host (Network.host p))) |};
     autoconnect_cb := {| isChecked := Network.auto_connect p;
                          isEnabled := server_modifiable t
                                       && isEnabled (autoconnect_cb t) |};
     preferred_only_cb := {| isChecked := is_whitelist_only (network t);
                             isEnabled := isEnabled (preferred_only_cb t) |};
     tor_cb_checked := tor_cb_checked t;
     protocol := Some (Network.protocol p);
     servers := get_servers;
     servers_list :=
       ServerListWidget.update (network t) (as_servers_dict get_servers)
         (Network.protocol p) (tor_cb_checked t) (servers_list t);
     network := network t;
     parameters := parameters t;
     set_parameters_calls := set_parameters_calls t |}.
Proof.
  cbv zeta. unfold update. cbv zeta. rewrite set_protocol_eq.
  unfold enable_set_server, get_set_server_flags.
  destruct (negb (hasFocus (server_host t)) && negb (hasFocus (server_port t)));
    cbn [server_modifiable server_host server_port ssl_cb autoconnect_cb
         preferred_only_cb tor_cb_checked protocol servers servers_list network
         parameters set_parameters_calls text le_enabled hasFocus isChecked isEnabled
         set_servers_list set_servers set_preferred_only_cb
         set_autoconnect_cb set_ssl_cb set_server_port set_server_host setDisabled
         setEnabled setChecked le_setEnabled setText default from_option id];
    destruct (server_modifiable t);
    apply server_tab_ext;
    cbn [server_modifiable server_host server_port ssl_cb autoconnect_cb
         preferred_only_cb tor_cb_checked protocol servers servers_list network
         parameters set_parameters_calls text le_enabled hasFocus isChecked isEnabled
         set_servers_list set_servers set_preferred_only_cb
         set_autoconnect_cb set_ssl_cb set_server_port set_server_host setDisabled
         setEnabled setChecked le_setEnabled setText default from_option id andb negb];
    reflexivity.
Qed.

Lemma update_fields (get_servers : gmap string port_dict) (t : server_tab) :
  let t' := update get_servers t in
  let p := parameters t in
  isChecked (ssl_cb t') = String.eqb (Network.protocol p) "s"
  /\ isEnabled (ssl_cb t')
     = negb (String.eqb (Network.protocol p) "s" && negb (tor_cb_checked t)
             && negb (is_onion_host (Network.host p)))
  /\ isChecked (autoconnect_cb t') = Network.auto_connect p
  /\ le_enabled (server_host t')
     = server_modifiable t && (negb (Network.auto_connect p)
                               && negb (is_whitelist_only (network t)))
  /\ le_enabled (server_port t') = le_enabled (server_host t')
  /\ protocol t' = Some (Network.protocol p)
  /\ servers_list t'
     = ServerListWidget.update (network t) (as_servers_dict get_servers)
         (Network.protocol p) (tor_cb_checked t) (servers_list t)
  /\ text (server_host t')
     = (if negb (hasFocus (server_host t)) && negb (hasFocus (server_port t))
        then Network.host p else text (server_host t))
  /\ text (server_port t')
     = (if negb (hasFocus (server_host t)) && negb (hasFocus (server_port t))
        then Network.port p else text (server_port t)).
Proof. cbv zeta. rewrite update_eq. cbv zeta. repeat split. Qed.

(** X9. [set_server] gives the network the texts of the host and port
    boxes, the state of the auto-connect box and the proxy the network
    already has; the protocol is 's' or 't' by the SSL box, except that
    with [onion_hack] a host ending in ".onion" forces 't' and unchecks
    the box.  Afterwards box and protocol agree, and once the network
    has taken the parameters over, [update] shows in the boxes what was
    sent: host, port, SSL and auto-connect states stay as they are. *)
Theorem set_server_update_round_trip (onion_hack : bool)
        (get_servers : gmap string port_dict) (t : server_tab) :
  let t1 := set_server onion_hack t in
  exists sent,
    set_parameters_calls t1 = set_parameters_calls t ++ [sent]
    /\ Network.host sent = text (server_host t)
    /\ Network.port sent = text (server_port t)
    /\ Network.proxy sent = Network.proxy (parameters t)
    /\ Network.auto_connect sent = isChecked (autoconnect_cb t)
    /\ Network.protocol sent
       = (if onion_hack && is_onion_host (text (server_host t)) then "t"
          else if isChecked (ssl_cb t) then "s" else "t")%string
    /\ isChecked (ssl_cb t1) = String.eqb (Network.protocol sent) "s"
    /\ let t2 := update get_servers (with_parameters sent t1) in
       text (server_host t2) = text (server_host t)
       /\ text (server_port t2) = text (server_port t)
       /\ isChecked (ssl_cb t2) = isChecked (ssl_cb t1)
       /\ isChecked (autoconnect_cb t2) = isChecked (autoconnect_cb t)
       /\ protocol t2 = Some (Network.protocol sent).
Proof.
  cbv zeta.
  set (t1 := set_server onion_hack t).
  set (sent := {| Network.host := text (server_host t);
                  Network.port := text (server_port t);
                  Network.protocol :=
                    (if onion_hack && is_onion_host (text (server_host t)) then "t"
                     else if isChecked (ssl_cb t) then "s" else "t")%string;
                  Network.proxy := Network.proxy (parameters t);
                  Network.auto_connect := isChecked (autoconnect_cb t) |}).
  assert (H1 : set_parameters_calls t1 = set_parameters_calls t ++ [sent]
               /\ isChecked (ssl_cb t1) = String.eqb (Network.protocol sent) "s"
               /\ server_host t1 = server_host t /\ server_port t1 = server_port t
               /\ autoconnect_cb t1 = autoconnect_cb t).
  { unfold t1, sent, set_server.
    destruct (onion_hack && is_onion_host (text (server_host t))); simpl;
      repeat split; try reflexivity.
    destruct (isChecked (ssl_cb t)); reflexivity. }
  destruct H1 as (Hcalls & Hssl & Hh & Hp & Ha).
  exists sent. split; [exact Hcalls|]. do 5 (split; [reflexivity|]).
  split; [exact Hssl|].
  destruct (update_fields get_servers (with_parameters sent t1))
    as (Hs & _ & Hauto & _ & _ & Hprot & _ & Hth & Htp).
  cbv zeta in Hs, Hauto, Hprot, Hth, Htp. simpl in Hs, Hauto, Hprot, Hth, Htp.
  rewrite Hh, Hp in Hth, Htp.
  split; [rewrite Hth; destruct (negb (hasFocus (server_host t)) && _); reflexivity|].
  split; [rewrite Htp; destruct (negb (hasFocus (server_host t)) && _); reflexivity|].
  split; [rewrite Hs, Hssl; reflexivity|].
  split; [exact Hauto | exact Hprot].
Qed.

(** X10. After [update]: the SSL box shows whether the network's
    protocol is 's'; a checked SSL box is enabled (can be unchecked) only
    when the Tor box is checked or the network's host ends in ".onion",
    and an unchecked one is always enabled.  The host and port boxes are
    enabled exactly when the server setting is modifiable and the network
    is neither in auto-connect nor in preferred-only mode.  The server
    list is drawn for the network's protocol with the state of the Tor
    box: an item with the Tor icon is there only with the Tor box
    checked.  Running [update] again changes nothing. *)
Theorem update_server_tab (get_servers : gmap string port_dict) (t : server_tab) :
  let t' := update get_servers t in
  let p := parameters t in
  isChecked (ssl_cb t') = String.eqb (Network.protocol p) "s"
  /\ (isChecked (ssl_cb t') = true -> isEnabled (ssl_cb t') = true ->
      tor_cb_checked t = true \/ is_onion_host (Network.host p) = true)
  /\ (isChecked (ssl_cb t') = false -> isEnabled (ssl_cb t') = true)
  /\ (le_enabled (server_host t') = true
      <-> server_modifiable t = true /\ Network.auto_connect p = false
          /\ is_whitelist_only (network t) = false)
  /\ le_enabled (server_port t') = le_enabled (server_host t')
  /\ (forall x, In x (rows (servers_list t')) ->
        exists host d port,
          as_servers_dict get_servers !! host = Some d
          /\ d !! Network.protocol p = Some port
          /\ x = server_item (network t) (Network.protocol p) host d port
          /\ (sr_tor_icon x = true -> tor_cb_checked t = true))
  /\ update get_servers t' = t'.
Proof.
  cbv zeta.
  destruct (update_fields get_servers t)
    as (Hs & He & Hauto & Hhe & Hpe & Hprot & Hlist & Hth & Htp).
  cbv zeta in Hs, He, Hauto, Hhe, Hpe, Hprot, Hlist, Hth, Htp.
  split; [exact Hs|]. split; [|split; [|split; [|split; [exact Hpe|split]]]].
  - rewrite Hs, He. intros ->. simpl.
    destruct (tor_cb_checked t), (is_onion_host (Network.host (parameters t)));
      simpl; auto; discriminate.
  - rewrite Hs, He. intros ->. reflexivity.
  - rewrite Hhe.
    destruct (server_modifiable t), (Network.auto_connect (parameters t)),
      (is_whitelist_only (network t)); simpl; intuition discriminate.
  - intros x Hx. rewrite Hlist in Hx.
    apply server_rows_listed in Hx as (host & d & port & Hd & Hp & _ & Honion & ->).
    exists host, d, port. repeat (split; [assumption || reflexivity|]).
    destruct (server_item_fields (network t) (Network.protocol (parameters t)) host d port)
      as (_ & _ & Hicon & _). cbv zeta in Hicon. rewrite Hicon.
    intros Ho. destruct Honion as [Hn | Ht]; [congruence | exact Ht].
  - rewrite (update_eq get_servers (update get_servers t)).
    rewrite (update_eq get_servers t). cbv zeta.
    cbn [server_modifiable server_host server_port ssl_cb autoconnect_cb
         preferred_only_cb tor_cb_checked protocol servers servers_list network
         parameters set_parameters_calls text le_enabled hasFocus isChecked isEnabled].
    rewrite server_update_idem.
    destruct (negb (hasFocus (server_host t)) && negb (hasFocus (server_port t)));
      destruct (server_modifiable t); reflexivity.
Qed.

Lemma in_protocol_letters_iff (p : string) :
  in_protocol_letters p = true
  <-> p = EmptyString \/ p = "t"%string \/ p = "s"%string \/ p = "ts"%string.
Proof.
  unfold in_protocol_letters. split.
  - intros H. apply bytes_contains_iff in H as (pre & post & H).
    destruct pre as [|a pre].
    + rewrite append_nil in H. destruct p as [|b p]; [left; reflexivity|].
      rewrite append_cons in H. injection H as <- H.
      destruct p as [|c p]; [right; left; reflexivity|].
      rewrite append_cons in H. injection H as <- H.
      destruct p as [|e p]; [right; right; right; reflexivity|].
      rewrite append_cons in H. discriminate H.
    + rewrite append_cons in H. injection H as <- H.
      destruct pre as [|b pre].
      * rewrite append_nil in H. destruct p as [|c p]; [left; reflexivity|].
        rewrite append_cons in H. injection H as <- H.
        destruct p as [|e p]; [right; right; left; reflexivity|].
        rewrite append_cons in H. discriminate H.
      * rewrite append_cons in H. injection H as <- H.
        destruct pre as [|c pre].
        -- rewrite append_nil in H. destruct p as [|e p]; [left; reflexivity|].
           rewrite append_cons in H. discriminate H.
        -- rewrite append_cons in H. discriminate H.
  - intros [-> | [-> | [-> | ->]]]; reflexivity.
Qed.

(** X11. [change_server(host, protocol)] sends nothing to the network; it
    fills in the host and a port that the host's dict has
    ([DEFAULT_PORTS] for an unknown host), and sets the SSL box to
    whether that port is the one of 's'.  The protocol asked for is taken
    when it is not empty, is found in 'ts' (so 't', 's' or 'ts') and the
    dict has a port for it.  In every other case (no protocol, an empty
    one, one not found in 'ts', one without a port) the port is that of
    's' when the dict has one, and else that of the first entry of the
    dict, with the SSL box unchecked.  The method fails exactly when the
    dict is empty, with [IndexError]. *)
Theorem change_server_spec (host : string) (protocol : option string) (t : server_tab) :
  let pp := default DEFAULT_PORTS (servers t !! host) in
  let fallback :=
    protocol = None \/ protocol = Some EmptyString
    \/ exists p, protocol = Some p
                 /\ (in_protocol_letters p = false \/ dict_get pp p = None) in
  (forall t', change_server DEFAULT_PORTS host protocol t = Done t' ->
     text (server_host t') = host
     /\ set_parameters_calls t' = set_parameters_calls t
     /\ exists p, dict_get pp p = Some (text (server_port t'))
                  /\ isChecked (ssl_cb t') = String.eqb p "s")
  /\ (forall p port, protocol = Some p -> p <> EmptyString ->
       in_protocol_letters p = true -> dict_get pp p = Some port ->
       exists t', change_server DEFAULT_PORTS host protocol t = Done t'
                  /\ text (server_port t') = port
                  /\ isChecked (ssl_cb t') = String.eqb p "s")
  /\ (fallback -> forall port, dict_get pp "s" = Some port ->
       exists t', change_server DEFAULT_PORTS host protocol t = Done t'
                  /\ text (server_port t') = port /\ isChecked (ssl_cb t') = true)
  /\ (fallback -> dict_get pp "s" = None ->
       forall k v rest, pp = (k, v) :: rest ->
       exists t', change_server DEFAULT_PORTS host protocol t = Done t'
                  /\ text (server_port t') = v /\ isChecked (ssl_cb t') = false)
  /\ ((exists e, change_server DEFAULT_PORTS host protocol t = Fail e) <-> pp = [])
  /\ (pp = [] ->
      change_server DEFAULT_PORTS host protocol t
      = Fail (IndexError "list index out of range"))
  /\ (forall p, in_protocol_letters p = true
                <-> p = EmptyString \/ p = "t"%string \/ p = "s"%string
                    \/ p = "ts"%string).
Proof.
  cbv zeta. unfold change_server.
  set (pp := default DEFAULT_PORTS (servers t !! host)).
  set (asked := match protocol with
                | Some p => if truthy_str p && negb (in_protocol_letters p)
                            then None else Some p
                | None => None
                end).
  set (chosen := match asked with
                 | Some p => if truthy_str p
                             then match dict_get pp p with
                                  | Some port => Some (p, port)
                                  | None => None
                                  end
                             else None
                 | None => None
                 end).
  assert (Hchosen : forall p port, chosen = Some (p, port) -> dict_get pp p = Some port).
  { unfold chosen. intros p port. destruct asked as [q|]; [|discriminate].
    destruct (truthy_str q); [|discriminate].
    destruct (dict_get pp q) eqn:Hq; [|discriminate]. intros [= <- <-]. exact Hq. }
  assert (Hfall : (protocol = None \/ protocol = Some EmptyString
                   \/ exists p, protocol = Some p
                                /\ (in_protocol_letters p = false
                                    \/ dict_get pp p = None)) ->
                  chosen = None).
  { unfold chosen, asked. intros [-> | [-> | (p & -> & [Hl | Hg])]];
      try reflexivity.
    - rewrite Hl. destruct (truthy_str p) eqn:Hp; simpl; [reflexivity|].
      rewrite Hp. reflexivity.
    - destruct (truthy_str p && negb (in_protocol_letters p)); [reflexivity|].
      destruct (truthy_str p); [|reflexivity]. rewrite Hg. reflexivity. }
  assert (Hempty : pp = [] -> chosen = None).
  { intros Hpp. unfold chosen. destruct asked as [q|]; [|reflexivity].
    destruct (truthy_str q); [|reflexivity]. rewrite Hpp. reflexivity. }
  split; [|split; [|split; [|split; [|split; [|split]]]]].
  - intros t'. destruct chosen as [[p port]|] eqn:Hc.
    + intros [= <-]. simpl. repeat split. exists p. split; [apply Hchosen|]; reflexivity.
    + destruct (dict_get pp "s") as [port|] eqn:Hs.
      * intros [= <-]. simpl. repeat split. exists "s"%string. split; [exact Hs|reflexivity].
      * destruct pp as [|[k v] rest] eqn:Hpp; [discriminate|].
        intros [= <-]. simpl. repeat split. exists k.
        split; [|reflexivity]. rewrite String.eqb_refl. reflexivity.
  - intros p port -> Hne Hl Hget.
    assert (Hc : chosen = Some (p, port)).
    { unfold chosen, asked. rewrite Hl, andb_false_r.
      destruct p as [|c p]; [congruence|]. simpl. rewrite Hget. reflexivity. }
    rewrite Hc. eexists. split; [reflexivity|]. split; reflexivity.
  - intros Hf port Hs. rewrite (Hfall Hf), Hs.
    eexists. split; [reflexivity|]. split; reflexivity.
  - intros Hf Hs k v rest Hpp. rewrite (Hfall Hf), Hs, Hpp.
    eexists. split; [reflexivity|]. split; [reflexivity|]. simpl.
    rewrite Hpp in Hs. simpl in Hs.
    destruct (String.eqb k "s"); [discriminate Hs | reflexivity].
  - split.
    + intros [e He]. destruct chosen as [[p port]|]; [discriminate|].
      destruct (dict_get pp "s"); [discriminate|].
      destruct pp as [|[k v] rest]; [reflexivity | discriminate].
    + intros Hpp. rewrite (Hempty Hpp), Hpp. simpl. eauto.
  - intros Hpp. rewrite (Hempty Hpp), Hpp. reflexivity.
  - apply in_protocol_letters_iff.
Qed.

End ServerTabFacts.

Section ServerTabExamples.
Import Renderers ServerTab ServerMenu.

Lemma server_menu_entries_witness :
  let server := "bch.imaginary.cash:50001:t"%string in
  currentItem (servers_list demo_tab)
  = Some (server_item (network demo_tab) "t" "bch.imaginary.cash"
            (list_to_map [("s", "50002"); ("t", "50001")]%string) "50001")
  /\ create_menu demo_tab
     = Some [Action UseAsServer true (SetServer server); Separator;
             Action RemoveFromPreferred true (SetWhitelisted server false);
             Action BanServer true (SetBlacklisted server true)].
Proof.
  cbv zeta.
  assert (H : currentItem (servers_list demo_tab)
              = Some (server_item (network demo_tab) "t" "bch.imaginary.cash"
                        (list_to_map [("s", "50002"); ("t", "50001")]%string) "50001"))
    by reflexivity.
  split; [exact H|].
  pose proof (server_menu_entries demo_tab "t" "bch.imaginary.cash"
                (list_to_map [("s", "50002"); ("t", "50001")]%string) "50001" H)
    as (menu & Hmenu & _ & Hnot & _).
  assert (Hbl : server_is_blacklisted (network demo_tab)
                  (serialize_server "bch.imaginary.cash" "50001" "t") = false)
    by (vm_compute; reflexivity).
  rewrite (Hnot Hbl) in Hmenu. rewrite Hmenu. vm_compute. reflexivity.
Defined.

(** Checking SSL for a host that offers TCP only: the port of the first
    entry of its dict is shown, and the network is given that value as
    port, with protocol 's'. *)
Lemma change_protocol_spec_witness :
  isChecked (ssl_cb demo_tab) = true
  /\ exists t',
       change_protocol demo_default_ports true demo_tab = Done t'
       /\ text (server_port t') = "-"%string
       /\ protocol t' = Some "pruning"%string
       /\ set_parameters_calls t'
          = [{| Network.host := "tcp-only.imaginary.cash"; Network.port := "-";
                Network.protocol := "s"; Network.proxy := None;
                Network.auto_connect := false |}].
Proof.
  assert (H : isChecked (ssl_cb demo_tab) = true) by reflexivity.
  split; [exact H|].
  pose proof (change_protocol_spec demo_default_ports true demo_tab H) as (_ & Hfirst & _).
  cbv zeta in Hfirst.
  assert (Hget : dict_get (default demo_default_ports
                             (servers demo_tab !! text (server_host demo_tab))) "s" = None)
    by (vm_compute; reflexivity).
  assert (Hpp : default demo_default_ports
                  (servers demo_tab !! text (server_host demo_tab))
                = [("pruning", "-"); ("t", "50001"); ("version", "1.4")]%string)
    by (vm_compute; reflexivity).
  destruct (Hfirst _ _ _ Hget Hpp) as (t' & Ht & Hport & _ & Hprot & Hcalls).
  exists t'. exact (conj Ht (conj Hport (conj Hprot Hcalls))).
Defined.

Example change_protocol_to_tcp :
  exists t',
    change_protocol demo_default_ports false demo_tab = Done t'
    /\ text (server_port t') = "50001"%string
    /\ protocol t' = Some "t"%string.
Proof. eexists. split; [vm_compute; reflexivity|]. split; reflexivity. Qed.

Example change_server_prefers_ssl :
  exists t',
    change_server demo_default_ports "bch.imaginary.cash" None demo_tab = Done t'
    /\ text (server_port t') = "50002"%string /\ isChecked (ssl_cb t') = true.
Proof. eexists. split; [vm_compute; reflexivity|]. split; reflexivity. Qed.

Example change_server_unknown_host :
  exists t',
    change_server demo_default_ports "unknown.example" (Some "t"%string) demo_tab = Done t'
    /\ text (server_port t') = "50001"%string /\ isChecked (ssl_cb t') = false.
Proof. eexists. split; [vm_compute; reflexivity|]. split; reflexivity. Qed.

Example change_protocol_no_ports :
  change_protocol []
    true (set_server_host (setText "unknown.example" (server_host demo_tab)) demo_tab)
  = Fail (IndexError "list index out of range").
Proof. vm_compute. reflexivity. Qed.

End ServerTabExamples.

(** ** The proxy tab: Tor use and the manual proxy settings *)

Section ProxyTabFacts.
Import ServerTab ProxyTab.

Lemma proxy_tab_ext (a b : proxy_tab) :
  proxy_modifiable a = proxy_modifiable b -> config a = config b ->
  proxy_cb a = proxy_cb b -> proxy_mode a = proxy_mode b ->
  proxy_host a = proxy_host b -> proxy_port a = proxy_port b ->
  proxy_user a = proxy_user b -> proxy_password a = proxy_password b ->
  tor_cb a = tor_cb b -> tor_cb_text a = tor_cb_text b -> tor_use a = tor_use b ->
  tor_proxy a = tor_proxy b -> net_parameters a = net_parameters b ->
  net_calls a = net_calls b -> a = b.
Proof. destruct a, b. simpl. intros. subst. reflexivity. Qed.

(** [_set_tor_use] as one record. *)
Lemma _set_tor_use_eq (u : bool) (t : proxy_tab) :
  _set_tor_use u t =
  let b := negb u && proxy_modifiable t in
  {| proxy_modifiable := proxy_modifiable t;
     config := <["tor_use"%string := Config.VBool u]> (config t);
     proxy_cb := {| isChecked := isChecked (proxy_cb t); isEnabled := negb u |};
     proxy_mode := cb_setEnabled b (proxy_mode t);
     proxy_host := le_setEnabled b (proxy_host t);
     proxy_port := le_setEnabled b (proxy_port t);
     proxy_user := le_setEnabled b (proxy_user t);
     proxy_password := le_setEnabled b (proxy_password t);
     tor_cb := {| isChecked := u; isEnabled := isEnabled (tor_cb t) |};
     tor_cb_text := tor_cb_text t; tor_use := u; tor_proxy := tor_proxy t;
     net_parameters := net_parameters t; net_calls := net_calls t |}.
Proof.
  unfold _set_tor_use, check_disable_proxy. cbv zeta.
  apply proxy_tab_ext; simpl; try reflexivity;
    destruct u, (proxy_modifiable t); reflexivity.
Qed.

Lemma set_proxy_fields (t : proxy_tab) :
  let t' := set_proxy t in
  proxy_modifiable t' = proxy_modifiable t /\ config t' = config t
  /\ proxy_cb t' = proxy_cb t /\ proxy_mode t' = proxy_mode t
  /\ proxy_host t' = proxy_host t /\ proxy_port t' = proxy_port t
  /\ proxy_user t' = proxy_user t /\ proxy_password t' = proxy_password t
  /\ tor_cb t' = tor_cb t /\ tor_cb_text t' = tor_cb_text t /\ tor_use t' = tor_use t
  /\ tor_proxy t' = tor_proxy t /\ net_parameters t' = net_parameters t.
Proof. cbv zeta. unfold set_proxy. simpl. repeat split. Qed.

Lemma consistent_set_tor_use (u : bool) (t : proxy_tab) :
  (isEnabled (tor_cb t) = true -> tor_proxy t <> None) ->
  items (proxy_mode t) = ["SOCKS4"; "SOCKS5"; "HTTP"]%string ->
  consistent (_set_tor_use u t).
Proof.
  intros Hp Hi. rewrite _set_tor_use_eq. unfold consistent, proxy_fields_disabled.
  cbv zeta. px_cbn. rewrite lookup_insert_eq.
  repeat split; try assumption; try reflexivity; subst u; reflexivity.
Qed.

Lemma consistent_set_proxy (t : proxy_tab) : consistent t -> consistent (set_proxy t).
Proof. intros Hc. unfold set_proxy. consistent_same Hc. Qed.

Lemma consistent_setCurrentIndex (i : Z) (t : proxy_tab) :
  consistent t -> consistent (proxy_mode_setCurrentIndex i t).
Proof.
  intros Hc. unfold proxy_mode_setCurrentIndex. cbv zeta.
  destruct ((if valid_index i (proxy_mode t) then i else -1) =? currentIndex (proxy_mode t));
    [|apply consistent_set_proxy]; consistent_same Hc.
Qed.

Lemma consistent_check_disable_proxy (b : bool) (t : proxy_tab) :
  consistent t -> consistent (check_disable_proxy b t).
Proof.
  intros Hc. unfold check_disable_proxy. cbv zeta.
  pose proof Hc as (Htp & Hchk & Hen & Hdis & Hitems & Hcfg).
  unfold consistent. px_cbn.
  split; [assumption|]. split; [assumption|]. split; [assumption|].
  split; [|split; assumption].
  intros Hu. unfold proxy_fields_disabled. px_cbn. rewrite Hu.
  destruct (proxy_modifiable t); repeat split.
Qed.

Lemma consistent_proxy_cb_clicked (b : bool) (t : proxy_tab) :
  consistent t -> isEnabled (proxy_cb t) = true -> consistent (proxy_cb_clicked b t).
Proof.
  intros Hc Hp. unfold proxy_cb_clicked. cbv zeta.
  apply consistent_set_proxy, consistent_check_disable_proxy. consistent_same Hc.
Qed.

Lemma suggest_proxy_none (t : proxy_tab) :
  suggest_proxy None t =
  let b := proxy_modifiable t in
  {| proxy_modifiable := proxy_modifiable t;
     config := <["tor_use"%string := Config.VBool false]> (config t);
     proxy_cb := {| isChecked := isChecked (proxy_cb t); isEnabled := true |};
     proxy_mode := cb_setEnabled b (proxy_mode t);
     proxy_host := le_setEnabled b (proxy_host t);
     proxy_port := le_setEnabled b (proxy_port t);
     proxy_user := le_setEnabled b (proxy_user t);
     proxy_password := le_setEnabled b (proxy_password t);
     tor_cb := {| isChecked := false; isEnabled := false |};
     tor_cb_text := tor_cb_text t; tor_use := false; tor_proxy := tor_proxy t;
     net_parameters := net_parameters t; net_calls := net_calls t |}.
Proof. unfold suggest_proxy. rewrite _set_tor_use_eq. reflexivity. Qed.

Lemma suggest_proxy_some (h : string) (p : Z) (t : proxy_tab) :
  suggest_proxy (Some (h, p)) t =
  let u := same_as h p t in
  let b := negb u && proxy_modifiable t in
  {| proxy_modifiable := proxy_modifiable t;
     config := <["tor_use"%string := Config.VBool u]> (config t);
     proxy_cb := {| isChecked := isChecked (proxy_cb t); isEnabled := negb u |};
     proxy_mode := cb_setEnabled b (proxy_mode t);
     proxy_host := le_setEnabled b (proxy_host t);
     proxy_port := le_setEnabled b (proxy_port t);
     proxy_user := le_setEnabled b (proxy_user t);
     proxy_password := le_setEnabled b (proxy_password t);
     tor_cb := {| isChecked := u; isEnabled := true |};
     tor_cb_text := String.append "Use Tor proxy at port " (pretty p);
     tor_use := u; tor_proxy := Some (h, p);
     net_parameters := net_parameters t; net_calls := net_calls t |}.
Proof. unfold suggest_proxy. cbv zeta. rewrite _set_tor_use_eq. reflexivity. Qed.

(** The record after [use_tor_proxy(True)] with a known Tor proxy:
    the settings of the Tor proxy are entered and sent; a change of the
    proxy mode on the way sends the settings as they are at that
    moment. *)
Lemma use_tor_proxy_on (t : proxy_tab) (h : string) (p : Z) :
  items (proxy_mode t) = ["SOCKS4"; "SOCKS5"; "HTTP"]%string ->
  tor_proxy t = Some (h, p) ->
  use_tor_proxy true t =
  Done
    {| proxy_modifiable := proxy_modifiable t;
       config := <["tor_use"%string := Config.VBool true]> (config t);
       proxy_cb := {| isChecked := true; isEnabled := false |};
       proxy_mode := {| items := items (proxy_mode t); currentIndex := 1;
                        cb_enabled := false |};
       proxy_host := {| text := "127.0.0.1"; le_enabled := false;
                        hasFocus := hasFocus (proxy_host t) |};
       proxy_port := {| text := pretty p; le_enabled := false;
                        hasFocus := hasFocus (proxy_port t) |};
       proxy_user := {| text := EmptyString; le_enabled := false;
                        hasFocus := hasFocus (proxy_user t) |};
       proxy_password := {| text := EmptyString; le_enabled := false;
                            hasFocus := hasFocus (proxy_password t) |};
       tor_cb := {| isChecked := true; isEnabled := isEnabled (tor_cb t) |};
       tor_cb_text := tor_cb_text t; tor_use := true; tor_proxy := Some (h, p);
       net_parameters := net_parameters t;
       net_calls :=
         net_calls t
         ++ (if 1 =? currentIndex (proxy_mode t) then []
             else [with_proxy
                     (if isChecked (proxy_cb t)
                      then Some {| Network.px_mode := "socks5";
                                   Network.px_host := text (proxy_host t);
                                   Network.px_port := text (proxy_port t);
                                   Network.px_user := Some (text (proxy_user t));
                                   Network.px_password :=
                                     Some (text (proxy_password t)) |}
                      else None)
                     (net_parameters t)])
         ++ [with_proxy (Some (tor_proxy_dict p)) (net_parameters t)] |}.
Proof.
  intros Hitems Htp. unfold use_tor_proxy. cbv zeta. rewrite _set_tor_use_eq. cbv zeta.
  px_cbn.
  assert (Hf : findText "SOCKS5" (cb_setEnabled false (proxy_mode t)) = 1)
    by (unfold findText; px_cbn; rewrite Hitems; reflexivity).
  rewrite Hf. change (1 =? -1) with false. cbv iota.
  unfold proxy_mode_setCurrentIndex. cbv zeta. px_cbn.
  assert (Hv : valid_index 1 (cb_setEnabled false (proxy_mode t)) = true)
    by (unfold valid_index; px_cbn; rewrite Hitems; reflexivity).
  rewrite Hv.
  assert (Hct : forall e, currentText {| items := items (proxy_mode t); currentIndex := 1;
                                         cb_enabled := e |} = "SOCKS5"%string).
  { intros e. unfold currentText, valid_index. px_cbn. rewrite Hitems. reflexivity. }
  destruct (1 =? currentIndex (proxy_mode t)).
  - px_cbn. rewrite Htp. unfold set_proxy. px_cbn. rewrite Hct.
    reflexivity.
  - unfold set_proxy at 2. px_cbn. rewrite Htp. unfold set_proxy. px_cbn.
    rewrite !Hct.
    apply (f_equal Done). apply proxy_tab_ext; px_cbn; try reflexivity.
    rewrite <- app_assoc. reflexivity.
Qed.

Lemma use_tor_proxy_off (t : proxy_tab) :
  use_tor_proxy false t =
  let b := proxy_modifiable t in
  Done
    {| proxy_modifiable := proxy_modifiable t;
       config := <["tor_use"%string := Config.VBool false]> (config t);
       proxy_cb := {| isChecked := false; isEnabled := true |};
       proxy_mode := cb_setEnabled b (proxy_mode t);
       proxy_host := le_setEnabled b (proxy_host t);
       proxy_port := le_setEnabled b (proxy_port t);
       proxy_user := le_setEnabled b (proxy_user t);
       proxy_password := le_setEnabled b (proxy_password t);
       tor_cb := {| isChecked := false; isEnabled := isEnabled (tor_cb t) |};
       tor_cb_text := tor_cb_text t; tor_use := false; tor_proxy := tor_proxy t;
       net_parameters := net_parameters t;
       net_calls := net_calls t ++ [with_proxy None (net_parameters t)] |}.
Proof. unfold use_tor_proxy. cbv zeta. rewrite _set_tor_use_eq. reflexivity. Qed.

(** One event on a consistent tab. *)
Lemma handle_consistent (e : event) (t : proxy_tab) :
  consistent t -> possible e t = true ->
  exists t', handle e t = Done t' /\ consistent t'.
Proof.
  intros Hc Hp. pose proof Hc as (Htp & Hchk & Hen & Hdis & Hitems & Hcfg).
  destruct e as [b | b | f s | i | [[h p]|] | c]; cbn [possible] in Hp; cbn [handle].
  - eexists. split; [reflexivity|]. apply consistent_proxy_cb_clicked; assumption.
  - unfold tor_cb_clicked.
    destruct (tor_proxy t) as [[h p]|] eqn:Ht; [|exfalso; apply Htp; auto].
    destruct b.
    + rewrite (use_tor_proxy_on _ h p); [|exact Hitems | exact Ht].
      eexists. split; [reflexivity|].
      unfold consistent, proxy_fields_disabled. px_cbn. rewrite lookup_insert_eq.
      repeat split; try assumption; try reflexivity; try discriminate.
    + rewrite use_tor_proxy_off. cbv zeta.
      eexists. split; [reflexivity|].
      unfold consistent, proxy_fields_disabled. px_cbn. rewrite lookup_insert_eq.
      repeat split; try assumption; try reflexivity; try discriminate;
        rewrite Ht; discriminate.
  - eexists. split; [reflexivity|]. unfold field_edited. apply consistent_set_proxy.
    destruct f; consistent_same Hc.
  - eexists. split; [reflexivity|]. apply consistent_setCurrentIndex, Hc.
  - eexists. split; [reflexivity|]. rewrite suggest_proxy_some. cbv zeta.
    unfold consistent, proxy_fields_disabled. px_cbn. rewrite lookup_insert_eq.
    repeat split; try assumption; try reflexivity; try discriminate;
      match goal with H : same_as _ _ _ = true |- _ => rewrite H; reflexivity end.
  - eexists. split; [reflexivity|]. rewrite suggest_proxy_none. cbv zeta.
    unfold consistent, proxy_fields_disabled. px_cbn. rewrite lookup_insert_eq.
    repeat split; try assumption; try reflexivity; discriminate.
  - eexists. split; [reflexivity|]. unfold on_tor_port_changed.
    destruct (TorProbe.tc_active_socks_port c) as [port|]; [|exact Hc].
    destruct (negb (truthy_port (Some port)) || negb (TorProbe.tc_is_enabled c)
              || negb (tor_use t)); [exact Hc|].
    consistent_same Hc.
Qed.

Lemma handle_all_consistent (es : list event) (t : proxy_tab) :
  consistent t -> exists t', handle_all es t = Done t' /\ consistent t'.
Proof.
  revert t. induction es as [|e es IH]; intros t Hc; cbn [handle_all]; [eauto|].
  destruct (possible e t) eqn:Hp; [|apply IH, Hc].
  destruct (handle_consistent e t Hc Hp) as (t' & -> & Hc'). apply IH, Hc'.
Qed.

Lemma consistent_fill_in (modifiable : bool) (cfg : gmap string Config.value)
      (np : Network.parameters) :
  consistent (fill_in_proxy_settings (created modifiable cfg np)).
Proof.
  unfold fill_in_proxy_settings. cbv zeta.
  set (pc := match Network.proxy (net_parameters (created modifiable cfg np)) with
             | Some pc => pc
             | None => _
             end).
  set (t1 := _set_tor_use _ (created modifiable cfg np)).
  assert (H1 : consistent t1).
  { apply consistent_set_tor_use; [discriminate | reflexivity]. }
  set (b := negb (String.eqb (Network.px_mode pc) "none")).
  set (t2 := check_disable_proxy b t1).
  assert (H2 : consistent t2) by apply consistent_check_disable_proxy, H1.
  set (t3 := if b then _ else t2).
  assert (H3 : consistent t3).
  { unfold t3. destruct b; [|exact H2].
    apply consistent_setCurrentIndex. consistent_same H2. }
  consistent_same H3.
Qed.

(** X12. The proxy tab as [__init__] leaves it, and after any sequence
    of clicks on the two boxes, edits of the manual settings, results of
    the Tor detector and port changes of the Tor controller: no handler
    fails; the Tor box is enabled only with a Tor proxy known (so
    [use_tor_proxy] finds [self.tor_proxy] set) and it is checked exactly
    when [tor_use] is set, which is also what the config holds; and while
    [tor_use] is set the proxy box, the mode box and the four line edits
    are disabled: the manual settings cannot be changed by the user. *)
Theorem proxy_tab_stays_consistent (modifiable : bool) (cfg : gmap string Config.value)
        (np : Network.parameters) (es : list event) :
  exists t,
    handle_all es (fill_in_proxy_settings (created modifiable cfg np)) = Done t
    /\ consistent t
    /\ (tor_use t = true ->
        (forall b, possible (ProxyCbClicked b) t = false)
        /\ (forall f s, possible (FieldEdited f s) t = false)
        /\ (forall i, possible (ModeChosen i) t = false)).
Proof.
  destruct (handle_all_consistent es _ (consistent_fill_in modifiable cfg np))
    as (t & Ht & Hc).
  exists t. split; [exact Ht|]. split; [exact Hc|].
  destruct Hc as (_ & _ & Hen & Hdis & _). intros Hu.
  destruct (Hdis Hu) as (Hm & Hh & Hp & Hus & Hpw).
  split; [|split].
  - intros b. cbn [possible]. rewrite Hen, Hu. reflexivity.
  - intros f s. destruct f; cbn [possible field_of]; assumption.
  - intros i. cbn [possible]. rewrite Hm. reflexivity.
Qed.

Lemma last_snoc_some {A} (l : list A) (x : A) : last (l ++ [x]) = Some x.
Proof. apply last_snoc. Qed.

Lemma same_as_after_on (p : Z) (e1 e2 e3 e4 : bool)
      (f1 f2 : bool) cfg c1 c2 c3 c4 c5 c6 c7 c8 c9 :
  same_as "127.0.0.1" p
    {| proxy_modifiable := c1; config := cfg;
       proxy_cb := {| isChecked := true; isEnabled := e1 |};
       proxy_mode := {| items := ["SOCKS4"; "SOCKS5"; "HTTP"]%string; currentIndex := 1;
                        cb_enabled := e2 |};
       proxy_host := {| text := "127.0.0.1"; le_enabled := e3; hasFocus := f1 |};
       proxy_port := {| text := pretty p; le_enabled := e4; hasFocus := f2 |};
       proxy_user := c2; proxy_password := c3; tor_cb := c4; tor_cb_text := c5;
       tor_use := c6; tor_proxy := c7; net_parameters := c8; net_calls := c9 |} = true.
Proof. unfold same_as, findText. px_cbn. simpl. rewrite String.eqb_refl. reflexivity. Qed.

(** X13. A click on the enabled Tor box of a consistent tab.  Checking it
    enters and sends the proxy of the Tor client (SOCKS5, 127.0.0.1, the
    port found, no user and password), sets [tor_use] and disables the
    manual settings; a later result of the detector for the same port
    keeps [tor_use] set, and so does one for a new port after the Tor
    controller has announced that port.  Unchecking it unchecks the proxy
    box too and sends "no proxy". *)
Theorem tor_box_clicked (t : proxy_tab) :
  consistent t -> isEnabled (tor_cb t) = true ->
  exists h p,
    tor_proxy t = Some (h, p)
    /\ (exists t1,
          tor_cb_clicked true t = Done t1
          /\ tor_use t1 = true /\ isChecked (proxy_cb t1) = true
          /\ last (net_calls t1)
             = Some (with_proxy (Some (tor_proxy_dict p)) (net_parameters t))
          /\ proxy_fields_disabled t1
          /\ tor_use (suggest_proxy (Some ("127.0.0.1"%string, p)) t1) = true
          /\ (forall c q,
                TorProbe.tc_is_enabled c = true ->
                TorProbe.tc_active_socks_port c = Some q -> q <> 0 ->
                text (proxy_port (on_tor_port_changed c t1)) = pretty q
                /\ tor_use (suggest_proxy (Some ("127.0.0.1"%string, q))
                              (on_tor_port_changed c t1)) = true))
    /\ (exists t1,
          tor_cb_clicked false t = Done t1
          /\ tor_use t1 = false /\ isChecked (proxy_cb t1) = false
          /\ isEnabled (proxy_cb t1) = true
          /\ last (net_calls t1) = Some (with_proxy None (net_parameters t))).
Proof.
  intros (Htp & Hchk & Hen & Hdis & Hitems & Hcfg) He.
  destruct (tor_proxy t) as [[h p]|] eqn:Ht; [|exfalso; apply Htp; auto].
  exists h, p. split; [reflexivity|]. unfold tor_cb_clicked. split.
  - rewrite (use_tor_proxy_on _ h p); [|exact Hitems | exact Ht].
    eexists. split; [reflexivity|]. px_cbn. rewrite Hitems.
    split; [reflexivity|]. split; [reflexivity|].
    split; [rewrite app_assoc; apply last_snoc_some|].
    split; [unfold proxy_fields_disabled; px_cbn; repeat split|].
    split.
    + rewrite suggest_proxy_some. cbv zeta. px_cbn. apply same_as_after_on.
    + intros c q Hce Hcq Hq. unfold on_tor_port_changed. rewrite Hcq, Hce. px_cbn.
      assert (Htr : truthy_port (Some q) = true).
      { unfold truthy_port. destruct (Z.eqb_spec q 0); [contradiction | reflexivity]. }
      rewrite Htr. cbn [negb orb]. px_cbn. split; [reflexivity|].
      rewrite suggest_proxy_some. cbv zeta. px_cbn. apply same_as_after_on.
  - rewrite use_tor_proxy_off. cbv zeta. eexists. split; [reflexivity|]. px_cbn.
    repeat split. apply last_snoc_some.
Qed.

Lemma lower_upper_char (c : ascii) : lower_char (upper_char c) = lower_char c.
Proof. destruct c as [[] [] [] [] [] [] [] []]; reflexivity. Qed.

Lemma lower_upper (s : string) : lower (upper s) = lower s.
Proof.
  induction s as [|c s IH]; [reflexivity|].
  cbn [upper lower]. rewrite lower_upper_char, IH. reflexivity.
Qed.

(** X15. [fill_in_proxy_settings] and [set_proxy] as a round trip.  With
    a proxy whose mode is one of the three of the mode box, the widgets
    are filled so that [set_proxy] sends this proxy again: its mode in
    lower case, host and port, user and password (empty when the proxy
    has none).  On the way, when the mode is not the first of the box,
    choosing it sends the proxy once with host and port still empty.
    Without a proxy nothing is sent, the line edits show localhost and
    9050, and [set_proxy] sends "no proxy". *)
Theorem fill_in_set_proxy_round_trip (modifiable : bool) (cfg : gmap string Config.value)
        (np : Network.parameters) :
  let t := fill_in_proxy_settings (created modifiable cfg np) in
  (forall pc,
     Network.proxy np = Some pc ->
     In (upper (Network.px_mode pc)) ["SOCKS4"; "SOCKS5"; "HTTP"]%string ->
     last (net_calls (set_proxy t))
     = Some (with_proxy
               (Some {| Network.px_mode := lower (Network.px_mode pc);
                        Network.px_host := Network.px_host pc;
                        Network.px_port := Network.px_port pc;
                        Network.px_user :=
                          Some (default EmptyString (Network.px_user pc));
                        Network.px_password :=
                          Some (default EmptyString (Network.px_password pc)) |})
               np)
     /\ net_calls t
        = (if String.eqb (upper (Network.px_mode pc)) "SOCKS4" then []
           else [with_proxy
                   (Some {| Network.px_mode := lower (Network.px_mode pc);
                            Network.px_host := EmptyString;
                            Network.px_port := EmptyString;
                            Network.px_user := Some EmptyString;
                            Network.px_password := Some EmptyString |})
                   np]))
  /\ (Network.proxy np = None ->
      net_calls t = []
      /\ text (proxy_host t) = "localhost"%string /\ text (proxy_port t) = "9050"%string
      /\ isChecked (proxy_cb t) = false
      /\ last (net_calls (set_proxy t)) = Some (with_proxy None np)).
Proof.
  cbv zeta. split.
  - intros pc Hpc Hmode. unfold fill_in_proxy_settings. cbv zeta.
    rewrite _set_tor_use_eq. cbv zeta.
    change (net_parameters (created modifiable cfg np)) with np. rewrite Hpc.
    assert (Hb : negb (String.eqb (Network.px_mode pc) "none") = true).
    { destruct (String.eqb_spec (Network.px_mode pc) "none") as [E|]; [|reflexivity].
      rewrite E in Hmode. vm_compute in Hmode. intuition discriminate. }
    rewrite Hb. cbv iota.
    unfold check_disable_proxy, proxy_mode_setCurrentIndex. cbv zeta. px_cbn.
    change (items (proxy_mode (created modifiable cfg np)))
      with ["SOCKS4"; "SOCKS5"; "HTTP"]%string.
    change (currentIndex (proxy_mode (created modifiable cfg np))) with 0.
    change (net_calls (created modifiable cfg np)) with (@nil Network.parameters).
    change (isChecked (proxy_cb (created modifiable cfg np))) with false.
    rewrite <- (lower_upper (Network.px_mode pc)).
    destruct Hmode as [<- | [<- | [<- | []]]];
      (split; [|reflexivity]);
      unfold set_proxy, with_proxy, currentText, valid_index, findText; px_cbn;
      reflexivity.
  - intros Hnp. unfold fill_in_proxy_settings. cbv zeta.
    rewrite _set_tor_use_eq. cbv zeta.
    change (net_parameters (created modifiable cfg np)) with np. rewrite Hnp.
    unfold check_disable_proxy, set_proxy, with_proxy. px_cbn. cbn.
    repeat split.
Qed.

End ProxyTabFacts.

Section DetectorToProxyTab.
Context {World : Type} (api : TorProbe.SocketApi World).
Import TorProbe ServerTab ProxyTab.

(** X14. The result of a pass of the Tor detector, delivered to
    [suggest_proxy]: nothing is sent to the network.  When every
    candidate port declined, the Tor box is disabled and unchecked and
    [tor_use] is off.  When port [p] answered as Tor, the box is enabled,
    names the port and [self.tor_proxy] is 127.0.0.1 with [p]; [tor_use]
    is set exactly when the manual settings are already this proxy
    (SOCKS5, 127.0.0.1, [p], proxy box checked). *)
Theorem detector_pass_sets_tor_box (ctrl : option TorController)
        (st : pass_state World) (t : proxy_tab) :
  exists r w',
    run_pass api ctrl st
    = (Return tt, {| ps_world := w'; ps_emitted := ps_emitted st ++ [r] |})
    /\ net_calls (suggest_proxy r t) = net_calls t
    /\ ((r = None
         /\ all_decline api (candidate_ports ctrl) (ps_world st) w'
         /\ isEnabled (tor_cb (suggest_proxy r t)) = false
         /\ isChecked (tor_cb (suggest_proxy r t)) = false
         /\ tor_use (suggest_proxy r t) = false)
        \/ (exists p,
              r = Some ("127.0.0.1"%string, p) /\ In p (candidate_ports ctrl)
              /\ isEnabled (tor_cb (suggest_proxy r t)) = true
              /\ tor_proxy (suggest_proxy r t) = Some ("127.0.0.1"%string, p)
              /\ tor_cb_text (suggest_proxy r t)
                 = String.append "Use Tor proxy at port " (pretty p)
              /\ isChecked (tor_cb (suggest_proxy r t)) = tor_use (suggest_proxy r t)
              /\ tor_use (suggest_proxy r t) = same_as "127.0.0.1" p t)).
Proof.
  destruct (probe_ports_spec api (candidate_ports ctrl) st) as (r & w' & Hrun & Hcase).
  exists r, w'. split; [exact Hrun|].
  destruct Hcase as [(pre & p & post & w1 & Hports & _ & _ & ->) | [Hall ->]].
  - rewrite suggest_proxy_some. cbv zeta. split; [reflexivity|]. right.
    exists p. split; [reflexivity|].
    split; [rewrite Hports; apply in_or_app; right; left; reflexivity|].
    repeat split.
  - rewrite suggest_proxy_none. cbv zeta. split; [reflexivity|]. left.
    repeat split. exact Hall.
Qed.

End DetectorToProxyTab.

Section ProxyTabExamples.
Import ServerTab ProxyTab.

Lemma tor_box_clicked_witness :
  consistent demo_proxy_tab /\ isEnabled (tor_cb demo_proxy_tab) = true
  /\ exists t1,
       tor_cb_clicked true demo_proxy_tab = Done t1
       /\ tor_use t1 = true
       /\ last (net_calls t1)
          = Some (with_proxy (Some (tor_proxy_dict 9050)) demo_parameters).
Proof.
  assert (Hc : consistent demo_proxy_tab).
  { unfold consistent, proxy_fields_disabled.
    split; [intros _; vm_compute; discriminate|].
    split; [vm_compute; reflexivity|]. split; [vm_compute; reflexivity|].
    split; [vm_compute; discriminate|].
    split; vm_compute; reflexivity. }
  assert (He : isEnabled (tor_cb demo_proxy_tab) = true) by (vm_compute; reflexivity).
  split; [exact Hc|]. split; [exact He|].
  destruct (tor_box_clicked demo_proxy_tab Hc He)
    as (h & p & Htp & (t1 & Hon & Huse & _ & Hlast & _) & _).
  assert (Hp : p = 9050) by (vm_compute in Htp; congruence).
  rewrite Hp in Hlast.
  exists t1. exact (conj Hon (conj Huse Hlast)).
Defined.

(** The detector reports the Tor client, the user checks the Tor box,
    the detector then finds nothing: the Tor box is unchecked and disabled
    again, but the network keeps the proxy it was given. *)
Example tor_goes_away :
  exists t,
    handle_all [FoundProxy (Some ("127.0.0.1"%string, 9050)); TorCbClicked true;
                FoundProxy None]
      (fill_in_proxy_settings (created true ∅ demo_parameters)) = Done t
    /\ tor_use t = false /\ isEnabled (tor_cb t) = false
    /\ isChecked (proxy_cb t) = true
    /\ last (net_calls t)
       = Some (with_proxy (Some (tor_proxy_dict 9050)) demo_parameters).
Proof. eexists. split; [vm_compute; reflexivity|]. repeat split. Qed.

(** A saved SOCKS5 proxy: filling in the widgets sends it once with
    empty host and port. *)
Example fill_in_sends_empty_host :
  let np := with_proxy (Some {| Network.px_mode := "socks5";
                                Network.px_host := "10.0.0.1";
                                Network.px_port := "1080";
                                Network.px_user := None;
                                Network.px_password := None |}) demo_parameters in
  net_calls (fill_in_proxy_settings (created true ∅ np))
  = [with_proxy (Some {| Network.px_mode := "socks5"; Network.px_host := "";
                         Network.px_port := ""; Network.px_user := Some EmptyString;
                         Network.px_password := Some EmptyString |}) np].
Proof. vm_compute. reflexivity. Qed.

End ProxyTabExamples.

(** ** The worker of [TorDetector] left alone *)

Section PeriodFacts.
Context {World : Type} (api : TorProbe.SocketApi World).
Import TorProbe TorThread TorPeriod.

Lemma apart_snoc (times : list Z) (x : Z) :
  apart times -> Forall (fun t => t + get_timeout_ms <= x) times ->
  apart (times ++ [x]).
Proof.
  induction times as [|t1 rest IH]; simpl; [auto|].
  intros [H1 Hrest] Hall. inversion Hall as [|? ? Ht1 Hall']; subst.
  split; [|apply IH; assumption].
  destruct rest as [|t2 rest']; simpl; [exact Ht1 | exact H1].
Qed.

Lemma apart_span (t : Z) (rest : list Z) (b : Z) :
  apart (t :: rest) -> Forall (fun x => x <= b) (t :: rest) ->
  t + get_timeout_ms * Z.of_nat (length rest) <= b.
Proof.
  revert t. induction rest as [|t2 rest IH]; intros t Hap Hall.
  - inversion Hall; subst. simpl. lia.
  - destruct Hap as [H12 Hrest]. inversion Hall as [|? ? _ Hall']; subst.
    specialize (IH t2 Hrest Hall'). simpl length. lia.
Qed.

Lemma Forall_le_mono (times : list Z) (a b : Z) :
  a <= b -> Forall (fun t => t <= a) times -> Forall (fun t => t <= b) times.
Proof.
  intros Hab H. eapply Forall_impl; [exact H|]. intros t Ht. simpl in Ht. lia.
Qed.

Lemma left_alone_step (q : nat) (t0 : Z) (L times : list Z) (a : action)
      (d d1 : detector World) :
  is_worker_or_tick a = true -> left_alone q t0 L times d ->
  step api a d = Some d1 ->
  left_alone q t0 L times d1 \/ left_alone q t0 L (times ++ [now d]) d1.
Proof.
  intros Ha (Hr & Hs & Hq & Hlog & Hap & Hhd & Ht0 & Hle & Hpc) Hstep.
  destruct a as [delta| | | | |c]; try discriminate; simpl in Hstep.
  - unfold can_wait in Hstep.
    destruct (Z.ltb_spec 0 delta) as [Hpos|]; [|discriminate]. simpl in Hstep.
    left.
    destruct (wpc d) as [| |ports|q' dl|t] eqn:Hw; try discriminate; try contradiction.
    + injection Hstep as <-. unfold left_alone; simpl. rewrite Hw.
      repeat split; try assumption; try lia.
      apply (Forall_le_mono times (now d)); [lia | exact Hle].
    + destruct Hpc as (-> & Hne & Hdl). rewrite Hq in Hstep.
      destruct (Z.leb_spec (now d + delta) dl) as [Hdle|]; [|discriminate].
      injection Hstep as <-. unfold left_alone; simpl. rewrite Hw.
      repeat split; try assumption; try lia.
      apply (Forall_le_mono times (now d)); [lia | exact Hle].
  - rewrite worker_step_unfold in Hstep.
    destruct (wpc d) as [| |ports|q' dl|t] eqn:Hw; try discriminate; try contradiction.
    + injection Hstep as <-. right. destruct Hpc as [Hgap Hfirst].
      unfold left_alone; simpl.
      split; [reflexivity|]. split; [exact Hs|]. split; [exact Hq|].
      split; [rewrite Hlog, app_assoc; reflexivity|].
      split; [apply apart_snoc; assumption|].
      split.
      { intros t rest Heq. destruct times as [|t1 times'].
        - injection Heq as <- _. apply Hfirst. reflexivity.
        - injection Heq as <- _. apply (Hhd t1 times'). reflexivity. }
      split; [exact Ht0|].
      split.
      { apply Forall_app. split; [exact Hle|]. constructor; [lia | constructor]. }
      intros Heq. apply app_eq_nil in Heq as [_ Heq]. discriminate.
    + destruct (probe_ports_returns api ports (probe d)) as [ps Hp].
      rewrite Hp, Hs in Hstep. injection Hstep as <-. left.
      unfold left_alone; simpl.
      repeat split; try assumption.
      eapply Forall_impl; [exact Hle|]. intros t Ht. simpl in Ht. lia.
    + destruct Hpc as (-> & Hne & Hdl). rewrite Hq in Hstep.
      destruct (Z.leb_spec dl (now d)) as [Hdue|]; [|discriminate].
      injection Hstep as <-. left. unfold left_alone; simpl.
      repeat split; try assumption.
      * eapply Forall_impl; [exact Hdl|]. intros t Ht. simpl in Ht. lia.
      * intros Heq. contradiction.
Qed.

Lemma left_alone_execute (q : nat) (t0 : Z) (L : list Z) (acts : list action) :
  forall (times : list Z) (d d1 : detector World),
    forallb is_worker_or_tick acts = true -> left_alone q t0 L times d ->
    execute api acts d = Some d1 ->
    exists times1, left_alone q t0 L times1 d1.
Proof.
  induction acts as [|a acts IH]; intros times d d1 Hacts Hd Hrun; simpl in *.
  - injection Hrun as <-. exists times. exact Hd.
  - apply andb_true_iff in Hacts as [Ha Hacts].
    destruct (step api a d) as [d2|] eqn:Hs; [|discriminate].
    destruct (left_alone_step q t0 L times a d d2 Ha Hd Hs) as [H2 | H2];
      exact (IH _ d2 d1 Hacts H2 Hrun).
Qed.

(** Left alone, the worker comes to its next pass. *)
Lemma left_alone_progress (q : nat) (t0 : Z) (L times : list Z)
      (d : detector World) :
  left_alone q t0 L times d ->
  exists bg d2 t,
    forallb is_worker_or_tick bg = true
    /\ execute api bg d = Some d2 /\ pass_log d2 = pass_log d ++ [t].
Proof.
  intros (Hr & Hs & Hq & Hlog & Hap & Hhd & Ht0 & Hle & Hpc).
  assert (Hpass : forall d0 : detector World,
             wpc d0 = WPass ->
             exists d2, execute api [Worker] d0 = Some d2
                        /\ pass_log d2 = pass_log d0 ++ [now d0]).
  { intros d0 Hpc0. eexists. split.
    - rewrite (execute_step api Worker [] d0 _ (worker_step_pass api d0 Hpc0)).
      reflexivity.
    - reflexivity. }
  assert (Hget : forall (d0 : detector World) (dl : Z),
             wpc d0 = WGet q dl -> queues d0 !! q = Some [] ->
             exists bg d2 t,
               forallb is_worker_or_tick bg = true
               /\ execute api bg d0 = Some d2 /\ pass_log d2 = pass_log d0 ++ [t]).
  { intros d0 dl Hpc0 Hq0.
    assert (Hdue : forall d3 : detector World,
               wpc d3 = WGet q dl -> queues d3 !! q = Some [] -> dl <= now d3 ->
               exists d2, execute api [Worker; Worker] d3 = Some d2
                          /\ pass_log d2 = pass_log d3 ++ [now d3]).
    { intros d3 Hpc3 Hq3 Hdl.
      assert (H1 : step api Worker d3 = Some (set_thread true WPass d3)).
      { simpl. rewrite worker_step_unfold, Hpc3, Hq3.
        destruct (Z.leb_spec dl (now d3)); [reflexivity | lia]. }
      destruct (Hpass (set_thread true WPass d3) eq_refl) as (d2 & Hrun & Hlog2).
      exists d2. split; [|exact Hlog2].
      rewrite (execute_step api Worker [Worker] d3 _ H1). exact Hrun. }
    destruct (Z.le_gt_cases dl (now d0)) as [Hle0|Hgt].
    - destruct (Hdue d0 Hpc0 Hq0 Hle0) as (d2 & Hrun & Hlog2).
      exists [Worker; Worker], d2, (now d0). split; [reflexivity|]. split; assumption.
    - set (delta := dl - now d0).
      assert (H1 : step api (Tick delta) d0 = Some (set_now (now d0 + delta) d0)).
      { simpl. unfold can_wait. rewrite Hpc0, Hq0.
        destruct (Z.ltb_spec 0 delta); [|unfold delta in *; lia].
        destruct (Z.leb_spec (now d0 + delta) dl);
          [reflexivity | unfold delta in *; lia]. }
      destruct (Hdue (set_now (now d0 + delta) d0)) as (d2 & Hrun & Hlog2);
        [exact Hpc0 | exact Hq0 | simpl; unfold delta; lia |].
      exists [Tick delta; Worker; Worker], d2, (now d0 + delta).
      split; [reflexivity|]. split; [|exact Hlog2].
      rewrite (execute_step api (Tick delta) [Worker; Worker] d0 _ H1). exact Hrun. }
  destruct (wpc d) as [| |ports|q' dl|t] eqn:Hw; try contradiction.
  - destruct (Hpass d Hw) as (d2 & Hrun & Hlog2).
    exists [Worker], d2, (now d). split; [reflexivity|]. split; assumption.
  - destruct (worker_step_probing api d ports q Hw Hs) as [ps H1].
    destruct (Hget (set_thread true (WGet q (now d + get_timeout_ms)) (set_probe ps d))
                (now d + get_timeout_ms) eq_refl Hq)
      as (bg & d2 & t & Hbg & Hrun & Hlog2).
    exists (Worker :: bg), d2, t. split; [exact Hbg|]. split; [|exact Hlog2].
    rewrite (execute_step api Worker bg d _ H1). exact Hrun.
  - destruct Hpc as (-> & _). exact (Hget d dl Hw Hq).
Qed.

(** X16. A running worker that is about to begin a pass, with an empty
    queue, and is then left alone (only the worker and the clock act: no
    stop, no port change).  It never ends.  Its first pass begins at
    once, and no two passes begin less than 10 s apart: the 10 s of
    [get(timeout=10.0)] start when the probes of a pass are done, so with
    [n] passes made at least 10 s times [n - 1] have gone by.  And it
    keeps probing: from wherever it stands, the worker and the clock
    alone bring a further pass. *)
Theorem undisturbed_worker_waits_10s
        (q : nat) (acts : list action) (d d1 : detector World) :
  running d = true -> stopQ d = Some q -> queues d !! q = Some [] ->
  wpc d = WPass ->
  forallb is_worker_or_tick acts = true ->
  execute api acts d = Some d1 ->
  running d1 = true
  /\ (exists times : list Z,
       pass_log d1 = pass_log d ++ times
       /\ apart times
       /\ (forall t rest, times = t :: rest -> t = now d)
       /\ Forall (fun t => t <= now d1) times
       /\ now d + 10000 * (Z.of_nat (length times) - 1) <= now d1)
  /\ (exists bg d2 t,
       forallb is_worker_or_tick bg = true
       /\ execute api bg d1 = Some d2 /\ pass_log d2 = pass_log d1 ++ [t]).
Proof.
  intros Hr Hs Hq Hpc Hacts Hrun.
  assert (H0 : left_alone q (now d) (pass_log d) [] d).
  { unfold left_alone. rewrite Hpc, app_nil_r.
    repeat split; try assumption; try constructor; try lia.
    intros t rest Heq. discriminate Heq. }
  destruct (left_alone_execute q (now d) (pass_log d) acts [] d d1 Hacts H0 Hrun)
    as (times & Hd1).
  pose proof (left_alone_progress q (now d) (pass_log d) times d1 Hd1) as Hprog.
  destruct Hd1 as (Hr1 & _ & _ & Hlog & Hap & Hhd & Ht0 & Hle & _).
  split; [exact Hr1|]. split; [|exact Hprog].
  exists times. split; [exact Hlog|]. split; [exact Hap|].
  split; [exact Hhd|]. split; [exact Hle|].
  destruct times as [|t rest]; [simpl; lia|].
  pose proof (apart_span t rest (now d1) Hap Hle) as Hspan.
  rewrite (Hhd t rest eq_refl) in Hspan. unfold get_timeout_ms in Hspan.
  simpl length. lia.
Qed.

End PeriodFacts.

(** ** The validation tab after [__init__] *)

Section ValidationInitFacts.
Import Validation ValidationInit.

(** X17. The validation tab after [__init__], its last statement
    [self.update()] included.  The SLPDB box shows the setting
    'slp_validator_slpdb_validation_enabled', whatever the user answers
    when both settings are on and the "pick one" box is shown.  The
    graph-search box shows its setting as the config holds it when
    [update()] runs: what the answers "SLPDB" and "Disable Both" uncheck
    stays unchecked only if the setting is off by then.  So both boxes
    end up checked exactly when the SLPDB setting was on and the
    graph-search setting is on at [update()].  The widgets shown were
    chosen before [update()], by the boxes as they stood then: those of
    graph search when its setting was on and the answer was neither
    "SLPDB" nor "Disable Both", those of SLPDB when the SLPDB setting was
    on and the widgets of graph search are not shown. *)
Theorem validation_tab_after_init (graphsearch_enabled slpdb_validation_enabled : bool)
        (ret : Z) (graphsearch_enabled_at_update : bool) :
  let p := init graphsearch_enabled slpdb_validation_enabled ret
             graphsearch_enabled_at_update in
  let other := slpdb_validation_enabled && ((ret =? 1) || (ret =? 2)) in
  let asked := graphsearch_enabled && slpdb_validation_enabled in
  slp_slpdb_enable_cb p = slpdb_validation_enabled
  /\ slp_gs_enable_cb p = graphsearch_enabled_at_update
  /\ (slp_gs_enable_cb p && slp_slpdb_enable_cb p = true
      <-> graphsearch_enabled_at_update = true /\ slpdb_validation_enabled = true)
  /\ gs_widgets_shown p = graphsearch_enabled && negb other
  /\ slpdb_widgets_shown p
     = negb (graphsearch_enabled && negb other) && slpdb_validation_enabled
  /\ calls p
     = (if asked then
          if ret =? 0 then [ToggleGraphSearch true]
          else if ret =? 1 then [ToggleGraphSearch false; ToggleSlpdbValidation true]
          else if ret =? 2 then [ToggleGraphSearch false]
          else []
        else [])
       ++ [UpdateSlpdbList; UpdateGsList].
Proof.
  cbv zeta. unfold init, update, slpdb_is_checked, gs_and_slpdb_checked_msg_box.
  destruct graphsearch_enabled, slpdb_validation_enabled; simpl.
  - destruct (Z.eqb_spec ret 0) as [->|H0]; simpl;
      [split; [reflexivity|]; split; [reflexivity|]; split; [apply andb_true_iff|];
       split; [reflexivity|]; split; reflexivity|].
    destruct (Z.eqb_spec ret 1) as [->|H1]; simpl;
      [split; [reflexivity|]; split; [reflexivity|]; split; [apply andb_true_iff|];
       split; [reflexivity|]; split; reflexivity|].
    destruct (Z.eqb_spec ret 2) as [->|H2]; simpl;
      (split; [reflexivity|]); (split; [reflexivity|]);
      (split; [apply andb_true_iff|]); (split; [reflexivity|]); split; reflexivity.
  - split; [reflexivity|]; split; [reflexivity|]; split; [apply andb_true_iff|];
      split; [reflexivity|]; split; reflexivity.
  - split; [reflexivity|]; split; [reflexivity|]; split; [apply andb_true_iff|];
      split; [reflexivity|]; split; reflexivity.
  - split; [reflexivity|]; split; [reflexivity|]; split; [apply andb_true_iff|];
      split; [reflexivity|]; split; reflexivity.
Qed.

End ValidationInitFacts.

(** ** Clearing the ban list *)

Section BlacklistFacts.
Import Blacklist.

Lemma clear_from_spec (bl : list string) (i blen : nat) :
  (i + length bl)%nat = blen ->
  clear_from i blen bl
  = map (fun s => ServerSetBlacklisted s false false) (removelast bl)
    ++ match last bl with
       | Some s => [ServerSetBlacklisted s false true]
       | None => []
       end.
Proof.
  revert i. induction bl as [|s bl IH]; intros i Hlen; [reflexivity|].
  cbn [clear_from]. destruct bl as [|s' bl'].
  - simpl in *. replace (i + 1 =? blen)%nat with true; [reflexivity|].
    symmetry. apply Nat.eqb_eq. lia.
  - rewrite (IH (S i)) by (simpl in *; lia).
    replace (i + 1 =? blen)%nat with false; [reflexivity|].
    symmetry. apply Nat.eqb_neq. simpl in *. lia.
Qed.

(** X18. [on_clear_blacklist]: when the user confirms, every server of
    the ban list is taken off it by one call of
    [server_set_blacklisted(s, False, save)], in order, and [save] is
    true in the last of these calls and in no other; then the layout is
    updated and the result is [True].  For an empty list nothing is
    saved.  When the user declines, nothing is called and the result is
    [False]. *)
Theorem on_clear_blacklist_saves_once (bl : list string) (answer : bool) :
  (answer = true ->
   on_clear_blacklist bl answer
   = (true,
      [Question (length bl)]
      ++ map (fun s => ServerSetBlacklisted s false false) (removelast bl)
      ++ match last bl with
         | Some s => [ServerSetBlacklisted s false true]
         | None => []
         end
      ++ [Update])
   /\ length (List.filter saves (snd (on_clear_blacklist bl answer)))
      = (if bool_decide (bl = []) then 0 else 1)%nat)
  /\ (answer = false ->
      on_clear_blacklist bl answer = (false, [Question (length bl)])).
Proof.
  split; intros ->; [|reflexivity].
  unfold on_clear_blacklist. cbv zeta. rewrite (clear_from_spec bl 0 (length bl) eq_refl).
  split; [rewrite <- !app_assoc; reflexivity|].
  cbn [snd]. rewrite !List.filter_app, !length_app.
  assert (Hnone : List.filter saves
                    (map (fun s => ServerSetBlacklisted s false false) (removelast bl))
                  = []).
  { induction (removelast bl) as [|s l IH]; [reflexivity | exact IH]. }
  rewrite Hnone. destruct bl as [|s bl]; [reflexivity|].
  rewrite bool_decide_eq_false_2 by discriminate.
  destruct (last (s :: bl)) as [x|] eqn:Hl; [reflexivity|].
  apply last_None in Hl. discriminate.
Qed.

End BlacklistFacts.

Section DetectorAndTabExamples.
Import TorProbe TorThread TorPeriod.

Lemma undisturbed_worker_waits_10s_witness :
  let d := demo_after [CallStart] in
  let acts := [Worker; Tick 300; Worker; Tick 10000; Worker; Worker; Tick 4000] in
  (running d = true /\ stopQ d = Some 0%nat /\ queues d !! 0%nat = Some []
   /\ wpc d = WPass /\ forallb is_worker_or_tick acts = true)
  /\ exists d1,
       execute demo_api acts d = Some d1
       /\ running d1 = true
       /\ pass_log d1 = [0; 10300] /\ now d1 = 14300.
Proof.
  cbv zeta.
  set (d := demo_after [CallStart]).
  set (acts := [Worker; Tick 300; Worker; Tick 10000; Worker; Worker; Tick 4000]).
  assert (H1 : running d = true) by (vm_compute; reflexivity).
  assert (H2 : stopQ d = Some 0%nat) by (vm_compute; reflexivity).
  assert (H3 : queues d !! 0%nat = Some []) by (vm_compute; reflexivity).
  assert (H4 : wpc d = WPass) by (vm_compute; reflexivity).
  assert (H5 : forallb is_worker_or_tick acts = true) by (vm_compute; reflexivity).
  assert (Hrun : execute demo_api acts d = Some (demo_after (CallStart :: acts)))
    by (vm_compute; reflexivity).
  split; [exact (conj H1 (conj H2 (conj H3 (conj H4 H5))))|].
  exists (demo_after (CallStart :: acts)). split; [exact Hrun|].
  pose proof (undisturbed_worker_waits_10s demo_api 0%nat acts d _
                H1 H2 H3 H4 H5 Hrun) as (Hr & _).
  split; [exact Hr|]. split; vm_compute; reflexivity.
Defined.

Example two_passes_in_14_seconds :
  pass_log (demo_after [CallStart; Worker; Worker; Tick 10000; Worker; Worker; Tick 4000])
  = [0; 10000].
Proof. vm_compute. reflexivity. Qed.

Example both_boxes_checked_after_init :
  let p := ValidationInit.init true true (Validation.exec_result Validation.GraphSearch)
             true in
  Validation.slp_gs_enable_cb p = true /\ Validation.slp_slpdb_enable_cb p = true
  /\ Validation.gs_widgets_shown p = true /\ Validation.slpdb_widgets_shown p = false
  /\ Validation.calls p
     = [Validation.ToggleGraphSearch true; Validation.UpdateSlpdbList;
        Validation.UpdateGsList].
Proof. repeat split. Qed.

(** The answer "Disable Both" with a manager that leaves the setting as
    it was: the graph-search box is checked again by [update()], over
    hidden widgets. *)
Example disable_both_undone_by_update :
  let p := ValidationInit.init true true (Validation.exec_result Validation.DisableBoth)
             true in
  Validation.slp_gs_enable_cb p = true /\ Validation.slp_slpdb_enable_cb p = true
  /\ Validation.gs_widgets_shown p = false /\ Validation.slpdb_widgets_shown p = true.
Proof. repeat split. Qed.

Example clear_two_servers :
  Blacklist.on_clear_blacklist ["a:50002:s"; "b:50002:s"]%string true
  = (true, [Blacklist.Question 2;
            Blacklist.ServerSetBlacklisted "a:50002:s" false false;
            Blacklist.ServerSetBlacklisted "b:50002:s" false true;
            Blacklist.Update]).
Proof. reflexivity. Qed.

End DetectorAndTabExamples.

(** ** [humanbytes] *)

Section HumanBytesFacts.
Import HumanBytes.

Lemma round_half_even_close (num den : Z) :
  0 < den ->
  let n := round_half_even num den in
  2 * Z.abs (num - n * den) <= den /\ num / den <= n <= num / den + 1.
Proof.
  intros Hden. cbv zeta. unfold round_half_even.
  pose proof (Z.div_mod num den ltac:(lia)) as Hdm.
  pose proof (Z.mod_pos_bound num den Hden) as Hr.
  set (q := num / den) in *. set (r := num mod den) in *.
  destruct (Z.ltb_spec (2 * r) den); [split; [|lia]; nia|].
  destruct (Z.ltb_spec den (2 * r)); [split; [|lia]; nia|].
  destruct (Z.even q); split; try lia; nia.
Qed.

(** X19. [humanbytes] for a byte count [B] with [0 <= B < 2^53].  Below
    1024 the text is the count followed by ".0 Byte" (the plural "Bytes"
    is never chosen).  From 1024 on the unit is KB, MB, GB or TB by the
    size ([1024 <= B < 1024^2]: KB, and so on), and the text shows, with
    two decimals, the number of hundredths nearest to [B / unit]; this
    number is at least 100 (1.00), and below TB at most 102400: a count
    just under the next unit is shown as 1024.00 of the smaller one. *)
Theorem humanbytes_spec (B : Z) :
  0 <= B < 2 ^ 53 ->
  (B < 1024 ->
   humanbytes B = String.append (String.append (pretty B) ".0") " Byte")
  /\ (1024 <= B ->
      let '(unit, name) := unit_of B in
      let n := hundredths B unit in
      humanbytes B = String.append (show_hundredths n) (String.append " " name)
      /\ 2 * Z.abs (100 * B - n * unit) <= unit
      /\ 100 <= n
      /\ (B < TB -> unit <= B < 1024 * unit /\ n <= 102400)).
Proof.
  intros HB. split.
  - intros Hlt. unfold humanbytes, KB.
    destruct (Z.ltb_spec B 1024); [|lia].
    replace ((0 =? B) && (1 <? B)) with false.
    + reflexivity.
    + symmetry. apply andb_false_iff.
      destruct (Z.eqb_spec 0 B); [right; apply Z.ltb_ge; lia | left; reflexivity].
  - intros Hge. unfold humanbytes, unit_of.
    change KB with 1024. change MB with 1048576. change GB with 1073741824.
    change TB with 1099511627776.
    destruct (Z.ltb_spec B 1024); [lia|].
    assert (Hn : forall unit, 0 < unit -> unit <= B ->
                 2 * Z.abs (100 * B - hundredths B unit * unit) <= unit
                 /\ 100 <= hundredths B unit
                 /\ (B < 1024 * unit -> hundredths B unit <= 102400)).
    { intros unit Hu Hle. unfold hundredths.
      destruct (round_half_even_close (100 * B) unit Hu) as [Hclose [Hlo Hhi]].
      split; [exact Hclose|]. split.
      - assert (100 <= 100 * B / unit); [|lia].
        apply Z.div_le_lower_bound; lia.
      - intros Hlt.
        assert (100 * B / unit < 102400); [|lia].
        apply Z.div_lt_upper_bound; lia. }
    destruct (Z.leb_spec 1024 B); [|lia]. cbn [andb].
    destruct (Z.ltb_spec B 1048576).
    { destruct (Hn 1024 ltac:(lia) ltac:(lia)) as (Hc1 & Hc2 & Hc3).
      split; [reflexivity|]. split; [exact Hc1|]. split; [exact Hc2|]. intros _.
      split; [lia | apply Hc3; lia]. }
    destruct (Z.leb_spec 1048576 B); [|lia]. cbn [andb].
    destruct (Z.ltb_spec B 1073741824).
    { destruct (Hn 1048576 ltac:(lia) ltac:(lia)) as (Hc1 & Hc2 & Hc3).
      split; [reflexivity|]. split; [exact Hc1|]. split; [exact Hc2|]. intros _.
      split; [lia | apply Hc3; lia]. }
    destruct (Z.leb_spec 1073741824 B); [|lia]. cbn [andb].
    destruct (Z.ltb_spec B 1099511627776).
    { destruct (Hn 1073741824 ltac:(lia) ltac:(lia)) as (Hc1 & Hc2 & Hc3).
      split; [reflexivity|]. split; [exact Hc1|]. split; [exact Hc2|]. intros _.
      split; [lia | apply Hc3; lia]. }
    destruct (Hn 1099511627776 ltac:(lia) ltac:(lia)) as (Hc1 & Hc2 & Hc3).
    split; [reflexivity|]. split; [exact Hc1|]. split; [exact Hc2|]. intros; lia.
Qed.

End HumanBytesFacts.

Section HumanBytesExamples.
Import HumanBytes.

Lemma humanbytes_spec_witness :
  0 <= 1536 < 2 ^ 53
  /\ humanbytes 1536 = "1.50 KB"%string
  /\ 2 * Z.abs (100 * 1536 - 150 * 1024) <= 1024.
Proof.
  assert (H : 0 <= 1536 < 2 ^ 53) by (split; [discriminate | reflexivity]).
  split; [exact H|].
  pose proof (proj2 (humanbytes_spec 1536 H)) as Hk.
  assert (Hge : 1024 <= 1536) by discriminate.
  specialize (Hk Hge).
  assert (Hu : unit_of 1536 = (1024, "KB"%string)) by (vm_compute; reflexivity).
  rewrite Hu in Hk. cbv zeta in Hk.
  assert (Hh : hundredths 1536 1024 = 150) by (vm_compute; reflexivity).
  rewrite Hh in Hk. destruct Hk as (Htext & Hclose & _).
  split; [|exact Hclose].
  rewrite Htext. vm_compute. reflexivity.
Defined.

Example humanbytes_zero : humanbytes 0 = "0.0 Byte"%string.
Proof. vm_compute. reflexivity. Qed.

Example humanbytes_two : humanbytes 2 = "2.0 Byte"%string.
Proof. vm_compute. reflexivity. Qed.

Example humanbytes_tie_to_even : humanbytes 1152 = "1.12 KB"%string.
Proof. vm_compute. reflexivity. Qed.

Example humanbytes_below_one_mb : humanbytes 1048575 = "1024.00 KB"%string.
Proof. vm_compute. reflexivity. Qed.

Example humanbytes_one_mb : humanbytes 1048576 = "1.00 MB"%string.
Proof. vm_compute. reflexivity. Qed.

End HumanBytesExamples.

(** ** The Tor client controls *)

Section TorControlsFacts.
Import ServerTab TorControls.
Variable int : string -> outcome Z.
Hypothesis int_zero : int "0" = Return 0.

Lemma requested_port_app (p : Z) (calls : list call) (c : call) :
  requested_port p (calls ++ [c])
  = match c with
    | set_socks_port q => q
    | set_enabled _ => requested_port p calls
    end.
Proof.
  revert p. induction calls as [|c' rest IH]; intros p.
  - destruct c; reflexivity.
  - destruct c'; simpl; apply IH.
Qed.

Lemma consistent_created (tbt : BinaryType) (is_enabled : bool) (socks_port : Z) :
  consistent socks_port (created tbt is_enabled socks_port).
Proof.
  unfold consistent, created, update_tor_enabled, avalable; simpl.
  split; [reflexivity|]. split; [reflexivity|]. split; [reflexivity|].
  intros H. apply negb_false_iff in H. apply Z.eqb_eq in H. subst socks_port.
  split; reflexivity.
Qed.

Lemma consistent_handle (p : Z) (e : event) (t : tor_controls) :
  consistent p t -> possible e t = true ->
  match handle int e t with
  | Return t' => consistent p t' /\ tor_binary_type t' = tor_binary_type t
  | Raise err => exists s, e = PortEdited s /\ int s = Raise err
  end.
Proof.
  intros (H1 & H2 & H3 & H4) Hp. destruct e as [b|b|s]; simpl in Hp.
  - simpl. unfold tor_enabled_clicked, set_tor_enabled, consistent, avalable in *.
    simpl. rewrite Hp in H1. rewrite <- H1. split; [|reflexivity].
    split; [exact Hp|]. split; [reflexivity|]. split; [rewrite H3, <- H1; reflexivity|].
    intros Hc. destruct (H4 Hc) as [Ht Hr]. split; [exact Ht|].
    rewrite requested_port_app. exact Hr.
  - simpl. unfold custom_port_clicked, on_custom_port_cb_click.
    assert (Hav : avalable t = true).
    { rewrite Hp in H2. symmetry in H2. apply andb_true_iff in H2. apply H2. }
    destruct b; simpl.
    + split; [|reflexivity]. unfold consistent, avalable in *; simpl.
      rewrite Hav in *. split; [exact H1|]. split; [exact H2|].
      split; [reflexivity|]. intros Hc; discriminate Hc.
    + unfold set_tor_socks_port; simpl. rewrite int_zero.
      split; [|reflexivity]. unfold consistent, avalable in *; simpl.
      rewrite Hav in *. split; [exact H1|]. split; [exact H2|].
      split; [reflexivity|]. intros _. split; [reflexivity|].
      rewrite requested_port_app. reflexivity.
  - simpl. unfold port_edited, set_tor_socks_port; simpl.
    destruct (int s) as [q|err] eqn:Hs; [|exists s; split; [reflexivity | exact Hs]].
    split; [|reflexivity]. unfold consistent, avalable in *; simpl.
    split; [exact H1|]. split; [exact H2|]. split; [exact H3|].
    intros Hc. rewrite Hc, andb_false_r in H3. rewrite H3 in Hp. discriminate Hp.
Qed.

Lemma consistent_handle_all (p : Z) (es : list event) (t : tor_controls) :
  consistent p t ->
  match handle_all int es t with
  | Return t' => consistent p t' /\ tor_binary_type t' = tor_binary_type t
  | Raise err => exists s, In (PortEdited s) es /\ int s = Raise err
  end.
Proof.
  revert t. induction es as [|e rest IH]; intros t Hc; simpl.
  - split; [exact Hc | reflexivity].
  - destruct (possible e t) eqn:Hp.
    + pose proof (consistent_handle p e t Hc Hp) as Hh.
      destruct (handle int e t) as [t'|err].
      * destruct Hh as [Hc' Hb]. specialize (IH t' Hc').
        destruct (handle_all int rest t') as [t''|err].
        -- destruct IH as [Hc'' Hb']. split; [exact Hc'' | congruence].
        -- destruct IH as (s & Hin & Hs). exists s. split; [right; exact Hin | exact Hs].
      * destruct Hh as (s & -> & Hs). exists s. split; [left; reflexivity | exact Hs].
    + specialize (IH t Hc).
      destruct (handle_all int rest t) as [t''|err]; [exact IH|].
      destruct IH as (s & Hin & Hs). exists s. split; [right; exact Hin | exact Hs].
Qed.

Lemma missing_handle_all (p : Z) (es : list event) (t : tor_controls) :
  consistent p t -> avalable t = false -> handle_all int es t = Return t.
Proof.
  intros (H1 & H2 & H3 & _) Hav. rewrite Hav in H1, H2, H3.
  cbn [andb] in H2, H3.
  induction es as [|e rest IH]; [reflexivity|]. simpl.
  replace (possible e t) with false; [exact IH|].
  destruct e; simpl; congruence.
Qed.

(** X20. The Tor client controls as [__init__] leaves them, and after
    any sequence of clicks on the two boxes and entries in the port
    field (each on an enabled widget).  A handler fails only when [int]
    fails on a text the user has entered.  Otherwise: the box
    [tor_enabled] is enabled exactly when a Tor binary is there, the box
    [tor_custom_port_cb] exactly when moreover [tor_enabled] is checked,
    the field [tor_socks_port] exactly when a binary is there and
    [tor_custom_port_cb] is checked; and while [tor_custom_port_cb] is
    not checked the field shows 0 and 0 is the port last asked of the
    controller.  With no Tor binary nothing can be clicked or entered. *)
Theorem tor_controls_stay_consistent (tbt : BinaryType) (is_enabled : bool)
        (socks_port : Z) (es : list event) :
  match handle_all int es (created tbt is_enabled socks_port) with
  | Return t =>
      consistent socks_port t
      /\ avalable t = (match tbt with MISSING => false | _ => true end)
      /\ (tbt = MISSING -> t = created tbt is_enabled socks_port)
  | Raise err => exists s, In (PortEdited s) es /\ int s = Raise err
  end.
Proof.
  pose proof (consistent_created tbt is_enabled socks_port) as Hc.
  pose proof (consistent_handle_all socks_port es _ Hc) as Hall.
  destruct (handle_all int es (created tbt is_enabled socks_port)) as [t|err] eqn:Hrun;
    [|exact Hall].
  destruct Hall as [Hc' Hb]. split; [exact Hc'|]. split.
  - unfold avalable. rewrite Hb. reflexivity.
  - intros ->. rewrite (missing_handle_all socks_port es _ Hc eq_refl) in Hrun.
    congruence.
Qed.

End TorControlsFacts.

Section TorControlsExamples.
Import ServerTab TorControls.

Lemma tor_controls_stay_consistent_witness :
  demo_int "0" = Return 0
  /\ exists t,
      handle_all demo_int
        [TorEnabledClicked true; CustomPortClicked true; PortEdited "9150";
         CustomPortClicked false]
        (created SYSTEM false 0) = Return t
      /\ controller_calls t = [set_enabled true; set_socks_port 9150; set_socks_port 0]
      /\ consistent 0 t.
Proof.
  assert (H0 : demo_int "0" = Return 0) by reflexivity.
  split; [exact H0|].
  pose proof (tor_controls_stay_consistent demo_int H0 SYSTEM false 0
                [TorEnabledClicked true; CustomPortClicked true; PortEdited "9150";
                 CustomPortClicked false]) as H.
  assert (Hrun : handle_all demo_int
                   [TorEnabledClicked true; CustomPortClicked true; PortEdited "9150";
                    CustomPortClicked false]
                   (created SYSTEM false 0)
                 = Return {| tor_binary_type := SYSTEM;
                             tor_enabled := {| isChecked := true; isEnabled := true |};
                             tor_custom_port_cb := {| isChecked := false; isEnabled := true |};
                             tor_socks_port := {| text := "0"; le_enabled := false;
                                                  hasFocus := false |};
                             controller_calls := [set_enabled true; set_socks_port 9150;
                                                  set_socks_port 0] |})
    by (vm_compute; reflexivity).
  rewrite Hrun in H. destruct H as [Hc _].
  eexists. split; [exact Hrun|]. split; [reflexivity | exact Hc].
Defined.

(** With the box of the Tor client unchecked the box of the custom port
    is disabled, and the port field stays open. *)
Example port_field_open_beside_disabled_box :
  exists t,
    handle_all demo_int
      [TorEnabledClicked true; CustomPortClicked true; TorEnabledClicked false]
      (created INTEGRATED false 0) = Return t
    /\ isEnabled (tor_custom_port_cb t) = false
    /\ le_enabled (tor_socks_port t) = true.
Proof. eexists. split; [vm_compute; reflexivity|]. split; reflexivity. Qed.

Example port_entry_fails :
  handle_all demo_int [PortEdited ""] (created SYSTEM true 9050)
  = Raise (ValueError "invalid literal for int() with base 10: ''").
Proof. vm_compute. reflexivity. Qed.

End TorControlsExamples.
